(* ===== verification/_CoqProject ===== *)
-Q . S2P
Prelude.v
GoStrings.v
External.v
KubeObjectLib.v
SdkModel.v
KubeObjectTheorems.v
Ref.v
Kptfile.v
Inventory.v
InventoryDiff.v
InventoryReady.v
Sdk.v
SdkLemmas.v
SdkTheorems.v
Nad.v
FnApi.v
InterfaceFn.v
NadFn.v
DnnFn.v
ClaimFn.v
UeransimFn.v
GenFn.v
Programs.v
Kube.v
GoTime.v
Porch.v
Kptrl.v
Approval.v
Cluster.v
ResourceHelpers.v
BootstrapSecret.v
Spire.v
NetworkCtrl.v
GitControllers.v
GiteaClient.v
Manager.v
Focom.v
ConfigInject.v
BootstrapPackages.v
Specializer.v
Pipeline.v
NfDeployFn.v
