(* ===== verification/Prelude.v ===== *)
(** * A model of Nephio's package functions and controllers

    Nephio specializes kpt packages for workload clusters.  A package is a list of KRM
    resources with a Kptfile whose conditions say what is still to be done.  KRM functions
    (nfdeploy-fn, interface-fn, nad-fn, dnn-fn, ipam-fn, vlan-fn, configinject-fn, ueransim-deploy-fn) are each
    for one kind of resource ("for"), generate the resources it depends on ("own") and fill in its status
    once they are ready; they all run on the condition SDK [krm-functions/lib/condkptsdk].
    Porch stores the packages as revisions; controllers ([src/controllers], and the FOCOM
    operator under [src/operators]) run the functions on them, approve the revisions and
    manage what packages need outside the cluster.  The Go files are under [src/].

    ** Files and the code they model

    - [Prelude]: the effects of Go code (panics [comp], errors [result], a state [prog]),
      strings, slices that are deleted from while they are ranged over, sorting, and the
      lemmas and tactics for them (hint databases [nephio] and [prog]).  [GoStrings]: more of
      the [strings] package.
    - [External]: the kpt function SDK as the class [FnSDK] with the laws [FnSDKLaws];
      [SdkModel]: an instance of both, on which witnesses evaluate.
    - [KubeObjectLib], [KubeObjectTheorems]: [lib/kubeobject].  Field updates that keep the
      formatting of the YAML text.
    - [Ref]: [lib/ref].  [Kptfile]: [lib/kptfile/v1], the conditions and readiness gates of
      a Kptfile and the names of conditions.
    - [Inventory], [InventoryDiff], [InventoryReady]: the inventory of [lib/condkptsdk]
      (records [inv], [resources], [gvkKindCtx]); [inv_set], [inv_get], [inv_delete],
      [diff], [getReadyMap] are its methods.
    - [Sdk]: the pipeline of [lib/condkptsdk]; the record [sdk] is its state, [Run] and the
      functions it calls have the names of the methods.  [SdkLemmas], [SdkTheorems]: what a
      run does.
    - [Nad]: [lib/nad/v1], the CNI configuration of a network attachment definition with
      its JSON text.  [FnApi]: the Go types of the Nephio APIs as the class [NephioAPI].
    - [InterfaceFn], [NadFn], [DnnFn], [ClaimFn] (ipam-fn and vlan-fn), [ConfigInject],
      [NfDeployFn], [UeransimFn]: the functions; [config] is the SDK configuration each of
      them runs with, its state the fields of the Go struct.  [GenFn]: gen-configmap-fn and
      gen-kustomize-res, which work on the resource list without the SDK pipeline.
      [Programs]: the Argo CD plugins under [gitops-tools].
    - [Kube]: [controllers/pkg/resource] and what is used of controller-runtime.  [GoTime]:
      durations of the [time] package.  [Porch]: [controllers/pkg/porch].  [Kptrl]:
      [lib/kptrl], from the files of a revision to a resource list.
    - [Approval], [GitControllers] (tokens and repositories), [Specializer] (the generic
      specializer and the single-function ones), [BootstrapSecret], [BootstrapPackages],
      [Spire], [NetworkCtrl]: [controllers/pkg/reconcilers].  [Cluster]:
      [controllers/pkg/cluster], how the credentials of a workload cluster are found and used.
      [GiteaClient]: [controllers/pkg/giteaclient], an instance of the interface [Gitea] of
      [GitControllers].  [Focom]: [operators/focom-operator].  [ResourceHelpers]: the rest of
      [controllers/pkg/resource].
    - [Manager]: the start-up of [operators/nephio-controller-manager], with the registry of
      reconcilers, the Porch clients and the [SetupWithManager] of every reconciler; [main]
      acts on the record [startup].
    - [Pipeline]: the approval controller and the generic specializer as one system on a
      Porch server, from which [BootstrapPackages] reads.

    The controllers call the helpers of [Kube] and [Porch]; the generic specializer reads a
    revision with [Kptrl] and runs [ClaimFn] and [ConfigInject], which run the pipeline of
    [Sdk] on [Inventory] and [Kptfile].

    ** What the theorems show

    - A run of a function that owns resources returns when the condition types are distinct
      and nothing is marked for deletion, whatever its callbacks return as long as they do not
      panic ([NewRun_returns]), and it never drops an item ([Run_keeps_items]).  What [diff] lists is exactly what has to change
      ([diff_deleteObjs], [diff_createObjs_updateObjs], [diff_conditions]), when it panics
      ([diff_panics_iff]), when a resource is ready and what its callback gets
      ([getReadyMap_spec]), how conditions and children are set and deleted
      ([setCondition_agrees], [deleteChildObject_marks], [rootCondition_spec]), and that the
      inventory is a map ([newInventory_spec], [inv_set_get]).
    - The conditions of a Kptfile behave like a map when their types are distinct
      ([SetConditions_lookup], [DeleteCondition_removes]), and condition types parse back
      ([ConditionType_roundtrip]).
    - Formatting-preserving updates refine the plain ones
      ([SetNestedFieldKeepFormatting_refines]) and keep data, comments and field order.
    - The setters of a NAD refine updates of the configuration its JSON text decodes to
      ([nad_update_refines], [NadConfig_roundtrip]); the functions generate the resources of
      the right kinds and contents ([interface_children], [nad_generated],
      [nad_addresses_routes], [dnn_pool_roundtrip], [vlan_claim_shared],
      [configinject_latest_ready], [nfdeploy_filled], [ueransim_generates],
      [gen_configmap_generated], [kustomize_lists]).
    - Controllers, as state machines over an API server: a package never gets a second
      published revision under the initial policy ([approval_unique], by rule induction),
      approval is only given when everything is met ([approve_only_if]) and is given then
      ([approval_progress]), delays are waited for exactly when they are annotated and not
      over ([manageDelay_bounds]); Gitea tokens whose deletion policy is delete are never
      orphaned ([token_not_orphaned]); the generic specializer writes only what it
      processes ([specializer_writes]); provisioning requests are created on the remote cluster
      and followed, and cleaned up ([focom_progress], [focom_deletion]).  Approval and
      specializer together never touch what is published, and what Porch lets other clients
      do keeps its content until it is deleted ([published_is_final]); they move lifecycles
      only forward ([lifecycle_moves]).
    - Workload clusters: secrets are delivered to the clusters they name
      ([bootstrap_secret_installs], [bootstrap_secret_delivers]), the manifests of published
      staging packages are installed in order, or the run waits for the cluster, has nothing
      to do or reports an error ([bootstrap_packages_installs]), the list of clusters SPIRE
      trusts gets the lines of every new cluster and keeps the others
      ([spire_list_updates]), and a network is ready with a configuration for each of its
      devices, or failed with the error of the step that failed ([network_ready_or_failed]).
    - Concurrent calls of [GetClient] share one Gitea client and all return
      ([gitea_singleton], [gitea_calls_return], by rule induction over all interleavings),
      and the client is looked for until it is connected, once and for all ([gitea_connected]).
    - The manager comes up with exactly the reconcilers it was asked for ([manager_starts],
      over every order of the registry), or not at all ([manager_all_or_nothing]).
    - Adding and removing a finalizer undo each other but for the order, when none is listed
      twice ([finalizer_roundtrip]), and what the Argo CD plugins print ([kpt_render_prints],
      [kpt_repo_application]).
    - Where the code does not do what it means to: [DeleteCondition_duplicate_panics],
      [nfdeploy_leaks], [token_secret_lost], [focom_remote_orphaned],
      [bootstrap_secret_wrong_cluster] and [spire_mixes_clusters] (names of clusters that are
      part of each other), [network_events] (node events are lost), [ueransim_volumes],
      [kustomize_lists] (repeated entries), [kpt_render_prints] (an incomplete list and exit
      status 0), [gitea_setup_panics] and [requeue_bounds] (a nil configuration and an
      overflow in the setup), [RemoveFinalizer_duplicate_panics].

    ** How the code is modelled

    - Code outside the repository (the kpt SDK, kyaml, the Nephio, IPAM, Porch and
      Kubernetes APIs, Gitea, the API servers) is a class of operations; what is relied on
      is a class of laws next to it, and every law class has an instance in a witness.  A
      run of a reconciler is atomic and reads the current state; a write that reports an
      error may have taken effect or not where the laws say so.
    - The callbacks that a function hands to the pipeline are functions on values that may be
      partial only through [Panic] ([total_cfg] says that they never do) and that return
      objects; callbacks that return nil objects or keep references to the items they get are
      outside the model.
    - Objects are values; the Kptfile, which the code shares by pointer with the item list,
      is shared in [Sdk] too.  Map iteration order is the class [GoRange], a permutation
      chosen per loop.  [sort.Slice] is a stable merge sort; for distinct keys every sort
      gives that list ([sort_by_unique]).
    - Go panics are [Panic]; theorems that a run returns are stated as such.  Fuel is
      used in [ParseDuration] (the length of the text; [parse_terms_enough] shows that it is
      enough) and in a [GetClient] on its own (eight moves; [GetClient_returns]).  Integers keep their width where they can overflow ([GoTime], the JSON
      integers of [Nad]).
    - The template engine of gen-configmap-fn is a parameter, because its templates are
      input; the two fixed templates of ueransim-deploy-fn are modelled by the text they
      render.  The walk of [Programs] is the list of the visits [filepath.Walk] makes.
    - The calls of [GetClient] interleave at every access to the shared variables, with
      sequentially consistent memory; elsewhere a run is sequential.
    - Log output is not modelled.  The results and events a run records are part of its
      state.  Texts are ASCII where the code quotes, lowers or encodes them.

    ** Not modelled

    The mutexes of the inventory and of the reconcilers (a run is sequential); flag parsing,
    log output and the command lines of the functions and of the FOCOM operator, which only
    call libraries; generated deep copies, mocks and fakes; the Go types of the FOCOM API
    beyond what its controller reads; a finer interleaving of reconcilers than run by run,
    which would need the caches of controller-runtime and the concurrency control of the API
    server. *)
From stdpp Require Export base tactics list gmap strings sorting pretty.
From Stdlib Require Export Ascii.

Declare Scope go_scope.
Delimit Scope go_scope with go.
Open Scope list_scope.

Create HintDb nephio.

(** ** Control effects of Go code *)

(** A computation that can end in a run-time panic (nil dereference, slice
    bounds, an explicit [panic]). *)
Inductive comp (A : Type) : Type :=
| Done (a : A)
| Panic (why : string).
Arguments Done {A} _.
Arguments Panic {A} _.
(** What Go panics with when a nil pointer is dereferenced. *)
Definition nil_dereference : string := "invalid memory address or nil pointer dereference".

(** A Go [error] value is its message; [nil] is [None]. *)
Definition error := string.

(** The [(T, error)] results whose value is meaningful only without an error. *)
Inductive result (A : Type) : Type :=
| Ok (a : A)
| Err (e : error).
Arguments Ok {A} _.
Arguments Err {A} _.

#[export] Instance comp_ret : MRet comp := λ A a, Done a.
#[export] Instance comp_bind : MBind comp := λ A B f m,
  match m with Done a => f a | Panic w => Panic w end.
#[export] Instance result_ret : MRet result := λ A a, Ok a.
#[export] Instance result_bind : MBind result := λ A B f m,
  match m with Ok a => f a | Err e => Err e end.

Definition is_ok {A} (r : result A) : bool :=
  match r with Ok _ => true | Err _ => false end.

(** Go code that may panic and returns [(value, error)], left early on an error. *)
Definition try_bind {A B} (m : comp (result A)) (f : A → comp (result B)) : comp (result B) :=
  match m with
  | Done (Ok a) => f a
  | Done (Err e) => Done (Err e)
  | Panic w => Panic w
  end.
Notation "x ←? m ; k" := (try_bind m (λ x, k))
  (at level 20, m at level 100, k at level 200, right associativity) : go_scope.
Notation "' x ←? m ; k" := (try_bind m (λ x, k))
  (at level 20, x pattern, m at level 100, k at level 200, right associativity) : go_scope.
#[global] Open Scope go_scope.
Definition of_error {A} (x : A) (err : option error) : result A :=
  match err with Some e => Err e | None => Ok x end.
Fixpoint each_try {A B} (f : A → comp (result B)) (l : list A) : comp (result (list B)) :=
  match l with
  | [] => Done (Ok [])
  | x :: l => y ←? f x; ys ←? each_try f l; Done (Ok (y :: ys))
  end.

(** Code that reads and writes a state and may panic. *)
Definition prog (St A : Type) : Type := St → comp (St * A).
#[export] Instance prog_ret {St} : MRet (prog St) := λ A a s, Done (s, a).
#[export] Instance prog_bind {St} : MBind (prog St) := λ A B f m s,
  match m s with Done (s', a) => f a s' | Panic w => Panic w end.
Definition get_st {St} : prog St St := λ s, Done (s, s).
Definition modify {St} (f : St → St) : prog St () := λ s, Done (f s, ()).
Definition lift {St A} (c : comp A) : prog St A := λ s, a ← c; Done (s, a).

(** A loop over a slice. *)
Fixpoint for_each {St A} (f : A → prog St ()) (l : list A) : prog St () :=
  match l with
  | [] => mret ()
  | x :: l => f x ;; for_each f l
  end.

(** A loop that returns early with an error. *)
Fixpoint for_each_err {St A} (f : A → prog St (option error)) (l : list A) : prog St (option error) :=
  match l with
  | [] => mret None
  | x :: l =>
      err ← f x;
      match err with Some e => mret (Some e) | None => for_each_err f l end
  end.

(** A loop whose body may panic, threading a state. *)
Fixpoint foldC {A S} (f : S → A → comp S) (s : S) (l : list A) : comp S :=
  match l with
  | [] => Done s
  | x :: l => s' ← f s x; foldC f s' l
  end.

(** ** Strings, as the [strings] and [fmt] packages see them *)

(** [strings.Contains] for a single byte. *)
Fixpoint has_char (c : ascii) (s : string) : bool :=
  match s with
  | "" => false
  | String a s => if decide (a = c) then true else has_char c s
  end.

(** [strings.Split(s, sep)] for a one-byte separator. *)
Fixpoint split_on (c : ascii) (s : string) : list string :=
  match s with
  | "" => [""]
  | String a s =>
      if decide (a = c) then "" :: split_on c s
      else match split_on c s with
           | [] => [String a ""]
           | w :: ws => String a w :: ws
           end
  end.

(** [strings.HasPrefix]. *)
Definition HasPrefix (s pre : string) : bool := String.prefix pre s.

(** [strings.CutPrefix]. *)
Fixpoint CutPrefix (s pre : string) : option string :=
  match pre, s with
  | "", _ => Some s
  | String a pre, String b s => if decide (a = b) then CutPrefix s pre else None
  | String _ _, "" => None
  end.

Definition slash : ascii := "/"%char.
Definition dot : ascii := "."%char.

(** [%q] on printable ASCII text, which names and durations are. *)
Fixpoint escape (s : string) : string :=
  match s with
  | "" => ""
  | String a s =>
      let rest := String a (escape s) in
      if decide (a = "034"%char ∨ a = "092"%char) then String "092"%char rest else rest
  end.
Definition quote (s : string) : string := String "034"%char (escape s +:+ String "034"%char "").

(** ** The in-place deletion idiom
    [[
    for idx, c := range s { if p(c) { s = append(s[:idx], s[idx+1:]...) } }
    ]]
    [range] evaluates the slice header once, so the loop runs over the original
    length, but reads the elements of the shared backing array at each
    iteration; [append] overwrites that array in place. *)

(** The backing array after [append(s[:idx], s[idx+1:]...)] for a slice [s] that
    starts at the array's base and has length [len]. *)
Definition slice_delete {A} (idx len : nat) (arr : list A) : list A :=
  take idx arr ++ drop (S idx) (take len arr) ++ drop (len - 1) arr.

Fixpoint delete_loop {A} (p : A → bool) (todo idx : nat) (arr : list A) (len : nat)
    : comp (list A) :=
  match todo with
  | 0 => Done (take len arr)
  | S todo =>
      match arr !! idx with
      | None => Panic "index out of range"
      | Some c =>
          if p c then
            if decide (S idx ≤ len)
            then delete_loop p todo (S idx) (slice_delete idx len arr) (len - 1)
            else Panic "slice bounds out of range"
          else delete_loop p todo (S idx) arr len
      end
  end.

Definition delete_in_range {A} (p : A → bool) (l : list A) : comp (list A) :=
  delete_loop p (length l) 0 l (length l).

(** ** Sorting by a string key, as [sort.Slice] with a [<] on the keys.
    [sort.Slice] is not stable: it yields some permutation sorted by the key.
    With distinct keys there is only one ([sort_by_unique]). *)
Definition key_le {A} (key : A → string) (x y : A) : Prop := String.le (key x) (key y).

#[export] Instance key_le_dec {A} (key : A → string) : RelDecision (key_le key).
Proof. unfold key_le. intros x y. apply _. Defined.

Definition sort_by {A} (key : A → string) (l : list A) : list A :=
  merge_sort (key_le key) l.

(** ** Tactics of the development *)

(** Case analysis on the scrutinee of a [match] or [if], keeping the equation. *)
Ltac inv_match :=
  repeat match goal with
  | H : context [match ?x with _ => _ end] |- _ => destruct x eqn:?; try discriminate
  end.

Ltac go_cases :=
  repeat case_match; simplify_eq/=; try done.

(** ** Lemmas on the control effects *)

Lemma Done_inj {A} (a b : A) : Done a = Done b → a = b.
Proof. by intros [= ->]. Qed.

Lemma comp_bind_Done {A B} (m : comp A) (f : A → comp B) b :
  (m ≫= f) = Done b ↔ ∃ a, m = Done a ∧ f a = Done b.
Proof. destruct m; naive_solver. Qed.

Lemma result_bind_Ok {A B} (m : result A) (f : A → result B) b :
  (m ≫= f) = Ok b ↔ ∃ a, m = Ok a ∧ f a = Ok b.
Proof. destruct m; naive_solver. Qed.

Lemma result_bind_Err {A B} (m : result A) (f : A → result B) e :
  (m ≫= f) = Err e ↔ m = Err e ∨ ∃ a, m = Ok a ∧ f a = Err e.
Proof. destruct m; naive_solver. Qed.

Lemma try_bind_Ok {A B} (m : comp (result A)) (f : A → comp (result B)) b :
  try_bind m f = Done (Ok b) ↔ ∃ a, m = Done (Ok a) ∧ f a = Done (Ok b).
Proof. unfold try_bind. destruct m as [[]|]; naive_solver. Qed.

Lemma each_try_Ok {A B} (f : A → comp (result B)) l ys :
  each_try f l = Done (Ok ys) ↔ Forall2 (λ x y, f x = Done (Ok y)) l ys.
Proof.
  revert ys. induction l as [|x l IH]; intros ys; simpl.
  - split; [by intros [= <-]|by inversion 1].
  - rewrite try_bind_Ok. setoid_rewrite try_bind_Ok. setoid_rewrite IH. split.
    + intros (y & ? & ys' & ? & [= <-]). by constructor.
    + inversion 1; subst. by eauto 6.
Qed.

Lemma foldC_app {A S} (f : S → A → comp S) s l1 l2 :
  foldC f s (l1 ++ l2) = (foldC f s l1 ≫= λ s', foldC f s' l2).
Proof. revert s. induction l1 as [|x l1 IH]; intros s; [done|]. simpl. destruct (f s x); simpl; [apply IH|done]. Qed.

(** Loop-invariant rule for [foldC]: the invariant sees the elements done. *)
Lemma foldC_invariant {A S} (I : list A → S → Prop) (f : S → A → comp S) l s s' :
  foldC f s l = Done s' →
  I [] s →
  (∀ done x s1 s2, x ∈ l → I done s1 → f s1 x = Done s2 → I (done ++ [x]) s2) →
  I l s'.
Proof.
  intros Hrun H0 Hstep.
  assert (∀ rest pre s, pre ++ rest = l → I pre s → foldC f s rest = Done s' → I l s') as Hgen.
  { induction rest as [|x rest IH]; intros pre s1 Heq Hi Hf; simpl in Hf.
    - simplify_eq. by rewrite app_nil_r in *.
    - apply comp_bind_Done in Hf as (s2 & Hf & Hrest).
      apply (IH (pre ++ [x]) s2); [by rewrite <-app_assoc| |done].
      eapply Hstep; [|done|done]. rewrite <-Heq. set_solver. }
  by apply (Hgen l [] s).
Qed.

(** A loop whose body never panics does not panic. *)
Lemma foldC_total {A S} (I : S → Prop) (f : S → A → comp S) l s :
  I s →
  (∀ x s, x ∈ l → I s → ∃ s', f s x = Done s' ∧ I s') →
  ∃ s', foldC f s l = Done s' ∧ I s'.
Proof.
  revert s. induction l as [|x l IH]; intros s Hs Hf; [by exists s|].
  destruct (Hf x s) as (s1 & Hx & Hs1); [set_solver|done|].
  destruct (IH s1) as (s2 & ? & ?); [done|intros; apply Hf; [set_solver|done]|].
  exists s2. simpl. by rewrite Hx.
Qed.

(** A loop panics with the panic of one of its elements. *)
Lemma foldC_Panic {A S} (f : S → A → comp S) l s w :
  foldC f s l = Panic w → ∃ x s', x ∈ l ∧ f s' x = Panic w.
Proof.
  revert s. induction l as [|x l IH]; intros s; simpl; [done|].
  destruct (f s x) as [s1|w'] eqn:Hf; simpl.
  - intros (y & s' & ? & ?)%IH. exists y, s'. set_solver.
  - intros [= ->]. exists x, s. set_solver.
Qed.

(** A loop returns exactly when no element makes its body panic, for a body whose
    panics depend on the element only. *)
Lemma foldC_Done_iff {A S} (ok : A → Prop) (f : S → A → comp S) l s :
  (∀ s x, (∃ s', f s x = Done s') ↔ ok x) →
  (∃ s', foldC f s l = Done s') ↔ ∀ x, x ∈ l → ok x.
Proof.
  intros Hok. revert s. induction l as [|x l IH]; intros s; simpl; [set_solver|].
  setoid_rewrite elem_of_cons. destruct (f s x) as [s1|w] eqn:Hf; simpl.
  - rewrite IH. assert (ok x) by (apply (Hok s x); by exists s1). naive_solver.
  - split; [by intros [? [=]]|]. intros Hall.
    destruct (proj2 (Hok s x)) as [? Hd]; [by apply Hall; left|congruence].
Qed.

(** ** Reasoning about programs with a state *)

(** Every run of [m] that returns relates its initial to its final state by [R]. *)
Definition evolves {St A} (R : relation St) (m : prog St A) : Prop :=
  ∀ s s' a, m s = Done (s', a) → R s s'.
(** From every state that satisfies [I], [m] returns, in a state that satisfies [J]. *)
Definition steps {St A} (I J : St → Prop) (m : prog St A) : Prop :=
  ∀ s, I s → ∃ s' a, m s = Done (s', a) ∧ J s'.
Definition safe {St A} (I : St → Prop) (m : prog St A) : Prop := steps I I m.

Create HintDb prog discriminated.
#[export] Hint Constants Opaque : prog.
#[export] Hint Transparent prog error : prog.

Section prog_lemmas.
Context {St : Type}.

Lemma prog_bind_Done {A B} (m : prog St A) (f : A → prog St B) s s' b :
  (m ≫= f) s = Done (s', b) ↔ ∃ s1 a, m s = Done (s1, a) ∧ f a s1 = Done (s', b).
Proof. unfold mbind, prog_bind. destruct (m s) as [[s1 a]|]; naive_solver. Qed.

Lemma steps_bind {A B} (I J K : St → Prop) (m : prog St A) (f : A → prog St B) :
  steps I J m → (∀ a, steps J K (f a)) → steps I K (m ≫= f).
Proof.
  intros Hm Hf s Hs. destruct (Hm s Hs) as (s1 & a & H1 & Hs1). destruct (Hf a s1 Hs1) as (s2 & b & H2 & Hs2).
  exists s2, b. split; [|done]. apply prog_bind_Done. by eauto.
Qed.
Lemma steps_mono {A} (I I' J J' : St → Prop) (m : prog St A) :
  steps I J m → (∀ s, I' s → I s) → (∀ s, J s → J' s) → steps I' J' m.
Proof. intros Hm HI HJ s Hs. destruct (Hm s (HI s Hs)) as (s' & a & ? & ?). by eauto. Qed.
Lemma steps_get_bind {B} (I J : St → Prop) (f : St → prog St B) :
  (∀ s, I s → steps I J (f s)) → steps I J (get_st ≫= f).
Proof. intros Hf s Hs. exact (Hf s Hs s Hs). Qed.
Lemma steps_lift_bind {A B} (I J : St → Prop) (c : comp A) (f : A → prog St B) :
  (∃ a, c = Done a ∧ steps I J (f a)) → steps I J (lift c ≫= f).
Proof. intros (a & -> & Hf) s Hs. exact (Hf s Hs). Qed.

Section evolves.
Context (R : relation St) `{!PreOrder R}.

Lemma evolves_ret {A} (a : A) : evolves R (mret a).
Proof. intros s s' a' [= <- _]. reflexivity. Qed.
Lemma evolves_get : evolves R get_st.
Proof. intros s s' a [= <- _]. reflexivity. Qed.
Lemma evolves_lift {A} (c : comp A) : evolves R (lift c).
Proof. intros s s' a. unfold lift. destruct c; [|done]. intros [= <- _]. reflexivity. Qed.
Lemma evolves_panic {A} w : evolves R ((λ _, Panic w) : prog St A).
Proof. by intros s s' a. Qed.
Lemma evolves_bind {A B} (m : prog St A) (f : A → prog St B) :
  evolves R m → (∀ a, evolves R (f a)) → evolves R (m ≫= f).
Proof.
  intros Hm Hf s s' b (s1 & a & H1 & H2)%prog_bind_Done. transitivity s1; [by eapply Hm|by eapply Hf].
Qed.
Lemma evolves_for_each {A} (f : A → prog St ()) l : (∀ x, evolves R (f x)) → evolves R (for_each f l).
Proof. intros Hf. induction l as [|x l IH]; [apply evolves_ret|]. by apply evolves_bind; intros. Qed.
Lemma evolves_for_each_err {A} (f : A → prog St (option error)) l :
  (∀ x, evolves R (f x)) → evolves R (for_each_err f l).
Proof.
  intros Hf. induction l as [|x l IH]; [apply evolves_ret|]. apply evolves_bind; [done|].
  intros [e|]; [apply evolves_ret|done].
Qed.
End evolves.

Section safe.
Context (I : St → Prop).

Lemma safe_ret {A} (a : A) : safe I (mret a).
Proof. intros s Hs. by exists s, a. Qed.
Lemma safe_get : safe I get_st.
Proof. intros s Hs. by exists s, s. Qed.
Lemma safe_bind {A B} (m : prog St A) (f : A → prog St B) :
  safe I m → (∀ a, safe I (f a)) → safe I (m ≫= f).
Proof. apply steps_bind. Qed.
Lemma safe_get_bind {B} (f : St → prog St B) : (∀ s, I s → safe I (f s)) → safe I (get_st ≫= f).
Proof. apply steps_get_bind. Qed.
Lemma safe_for_each {A} (f : A → prog St ()) l : (∀ x, x ∈ l → safe I (f x)) → safe I (for_each f l).
Proof.
  induction l as [|x l IH]; intros Hf; [apply safe_ret|]. apply safe_bind; [apply Hf; by left|].
  intros _. apply IH. intros y Hy. apply Hf. by right.
Qed.
Lemma safe_for_each_err {A} (f : A → prog St (option error)) l :
  (∀ x, x ∈ l → safe I (f x)) → safe I (for_each_err f l).
Proof.
  induction l as [|x l IH]; intros Hf; [apply safe_ret|]. apply safe_bind; [apply Hf; by left|].
  intros [e|]; [apply safe_ret|]. apply IH. intros y Hy. apply Hf. by right.
Qed.
End safe.
End prog_lemmas.

(** What a projection of the state is after a loop that met no error. *)
Lemma for_each_err_proj {A St X} (π : St → X) (g : X → A → X) (upd : A → prog St (option error)) l s s' :
  (∀ x s s', upd x s = Done (s', None) → π s' = g (π s) x) →
  for_each_err upd l s = Done (s', None) → π s' = foldl g (π s) l.
Proof.
  intros Hupd. revert s. induction l as [|x l IH]; intros s; [by intros [= <-]|].
  cbn [for_each_err]. intros (s1 & [e|] & Hx & Hr)%prog_bind_Done; [done|]. apply Hupd in Hx. apply IH in Hr.
  rewrite Hr. cbn [foldl]. by rewrite <-Hx.
Qed.

#[export] Hint Resolve evolves_ret evolves_get evolves_lift evolves_panic : prog.
#[export] Hint Resolve safe_ret safe_get : prog.
#[export] Hint Extern 1 (PreOrder _) => typeclasses eauto : prog.

(** Walk through a program; the hint database [prog] knows the operations. *)
Ltac evolve :=
  repeat first
    [ solve [eauto with prog]
    | lazymatch goal with
      | |- evolves _ (_ ≫= _) => apply evolves_bind; [typeclasses eauto| |intros ?]
      | |- evolves _ (for_each _ _) => apply evolves_for_each; [typeclasses eauto|intros ?]
      | |- evolves _ (for_each_err _ _) => apply evolves_for_each_err; [typeclasses eauto|intros ?]
      | |- evolves _ (match _ with _ => _ end) => case_match; subst
      | |- evolves _ (let _ := _ in _) => progress cbv zeta
      end ].
Ltac safely :=
  repeat first
    [ solve [eauto with prog]
    | lazymatch goal with
      | |- safe _ (get_st ≫= _) => apply safe_get_bind; intros ? ?
      | |- safe _ (_ ≫= _) => apply safe_bind; [|intros ?]
      | |- safe _ (for_each _ _) => apply safe_for_each; intros ? ?
      | |- safe _ (for_each_err _ _) => apply safe_for_each_err; intros ? ?
      | |- safe _ (match _ with _ => _ end) => case_match; subst
      | |- safe _ (let _ := _ in _) => progress cbv zeta
      end ].

(** ** Lemmas on strings *)

Lemma string_app_assoc (s1 s2 s3 : string) : s1 +:+ (s2 +:+ s3) = (s1 +:+ s2) +:+ s3.
Proof. induction s1 as [|a s1 IH]; [done|]. by apply (f_equal (String a)). Qed.

Lemma string_app_nil_r (s : string) : s +:+ "" = s.
Proof. induction s as [|a s IH]; [done|]. by apply (f_equal (String a)). Qed.

Lemma string_app_cons a (s1 s2 : string) : String a s1 +:+ s2 = String a (s1 +:+ s2).
Proof. done. Qed.

Lemma string_length_app (s1 s2 : string) : String.length (s1 +:+ s2) = String.length s1 + String.length s2.
Proof. induction s1 as [|c s1 IH]; [done|]. rewrite string_app_cons. simpl. by rewrite IH. Qed.
Lemma string_app_inj_r (s1 s2 s : string) : s1 +:+ s = s2 +:+ s → s1 = s2.
Proof.
  intros Heq. assert (String.length s1 = String.length s2) as Hl.
  { apply (f_equal String.length) in Heq. rewrite !string_length_app in Heq. lia. }
  revert s2 Heq Hl. induction s1 as [|c s1 IH]; intros [|d s2] Heq Hl; try done.
  injection Heq as -> Heq. injection Hl as Hl. by rewrite (IH s2).
Qed.

Lemma has_char_app c (s1 s2 : string) : has_char c (s1 +:+ s2) = has_char c s1 || has_char c s2.
Proof. induction s1 as [|a s1 IH]; [done|]. simpl. by case_decide. Qed.

Lemma split_on_no_sep c (s : string) : has_char c s = false → split_on c s = [s].
Proof.
  induction s as [|a s IH]; [done|]. simpl. case_decide; [done|].
  intros Hc. by rewrite IH.
Qed.

Lemma split_on_sep c (s1 s2 : string) :
  has_char c s1 = false → split_on c (s1 +:+ String c s2) = s1 :: split_on c s2.
Proof.
  induction s1 as [|a s1 IH]; simpl; [by rewrite decide_True|].
  case_decide; [done|]. intros Hc. by rewrite IH.
Qed.

Lemma split_on_not_nil c (s : string) : split_on c s ≠ [].
Proof. destruct s; [done|]. simpl. case_decide; [done|]. by destruct (split_on c s). Qed.

(** Joining the parts of a split gives the string back, and no part has the
    separator. *)
Lemma split_on_parts c (s : string) : Forall (λ w, has_char c w = false) (split_on c s).
Proof.
  induction s as [|a s IH]; simpl; [by repeat constructor|].
  case_decide; [by constructor|].
  destruct (split_on c s) as [|w ws]; simpl in *;
    [|apply Forall_cons in IH as [??]]; constructor; simpl; try done;
    by rewrite decide_False.
Qed.

Lemma HasPrefix_app (pre s : string) : HasPrefix (pre +:+ s) pre = true.
Proof.
  unfold HasPrefix. induction pre as [|a pre IH]; simpl; [by destruct s|].
  by destruct (ascii_dec a a).
Qed.

Lemma HasPrefix_spec (s pre : string) : HasPrefix s pre = true ↔ ∃ s', s = pre +:+ s'.
Proof.
  split; [|intros [s' ->]; apply HasPrefix_app].
  unfold HasPrefix. revert s. induction pre as [|a pre IH]; intros s; [by exists s|].
  destruct s as [|b s]; simpl; [done|]. destruct (ascii_dec a b) as [->|]; [|done].
  intros [s' ->]%IH. by exists s'.
Qed.

Lemma CutPrefix_app (pre s : string) : CutPrefix (pre +:+ s) pre = Some s.
Proof. induction pre as [|a pre IH]; simpl; [by destruct s|]. by rewrite decide_True. Qed.

Lemma CutPrefix_spec (s pre rest : string) : CutPrefix s pre = Some rest ↔ s = pre +:+ rest.
Proof.
  split; [|intros ->; apply CutPrefix_app].
  revert s. induction pre as [|a pre IH]; intros s; [by destruct s; intros [= <-]|].
  destruct s as [|b s]; simpl; [done|]. case_decide; [|done]. subst. by intros ->%IH.
Qed.

#[export] Hint Rewrite @string_app_nil_r has_char_app : nephio.
#[export] Hint Resolve HasPrefix_app split_on_not_nil : nephio.

(** ** Lemmas on the deletion idiom *)

Lemma delete_loop_S {A} (p : A → bool) todo idx (arr : list A) len c :
  arr !! idx = Some c →
  delete_loop p (S todo) idx arr len =
    if p c then
      if decide (S idx ≤ len)
      then delete_loop p todo (S idx) (slice_delete idx len arr) (len - 1)
      else Panic "slice bounds out of range"
    else delete_loop p todo (S idx) arr len.
Proof. simpl. by intros ->. Qed.

Lemma delete_loop_none {A} (p : A → bool) todo idx (arr : list A) len :
  idx + todo = length arr →
  Forall (λ x, p x = false) (drop idx arr) →
  delete_loop p todo idx arr len = Done (take len arr).
Proof.
  revert idx. induction todo as [|todo IH]; intros idx Hlen Hall; [done|].
  destruct (lookup_lt_is_Some_2 arr idx) as [c Hc]; [lia|].
  simpl. rewrite Hc. rewrite (drop_S _ c idx Hc) in Hall.
  apply Forall_cons in Hall as [-> Hall]. apply IH; [lia|done].
Qed.

Lemma delete_loop_skip {A} (p : A → bool) l1 l2 todo (len : nat) :
  Forall (λ x, p x = false) l1 →
  ∀ pre, delete_loop p (length l1 + todo) (length pre) (pre ++ l1 ++ l2) len =
         delete_loop p todo (length (pre ++ l1)) (pre ++ l1 ++ l2) len.
Proof.
  induction 1 as [|x l1 Hx _ IH]; intros pre; simpl; [by rewrite app_nil_r|].
  rewrite lookup_app_r by lia. rewrite Nat.sub_diag. simpl. rewrite Hx.
  specialize (IH (pre ++ [x])). rewrite <-!app_assoc, length_app, Nat.add_1_r in IH. exact IH.
Qed.

Lemma slice_delete_middle {A} (l1 l2 : list A) x :
  slice_delete (length l1) (length (l1 ++ x :: l2)) (l1 ++ x :: l2) =
  l1 ++ l2 ++ drop (length l1 + length l2) (l1 ++ x :: l2).
Proof.
  unfold slice_delete. rewrite (take_ge _ (length (l1 ++ x :: l2))) by done.
  rewrite take_app_length, length_app. simpl.
  replace (S (length l1)) with (length (l1 ++ [x])) by (rewrite length_app; simpl; lia).
  rewrite (cons_middle x l1 l2), (app_assoc l1 [x] l2), drop_app_length.
  by replace (length l1 + S (length l2) - 1)%nat with (length l1 + length l2)%nat by lia.
Qed.

(** With exactly one match, the idiom deletes exactly the matching element. *)
Lemma delete_in_range_one {A} (p : A → bool) (l1 l2 : list A) x :
  p x = true → Forall (λ y, p y = false) (l1 ++ l2) →
  delete_in_range p (l1 ++ x :: l2) = Done (l1 ++ l2).
Proof.
  intros Hx [H1 H2]%Forall_app. unfold delete_in_range.
  rewrite length_app at 1. simpl.
  pose proof (delete_loop_skip p l1 (x :: l2) (S (length l2)) (length (l1 ++ x :: l2)) H1 []) as Hs.
  simpl in Hs. rewrite Hs. clear Hs. cbn [delete_loop].
  rewrite lookup_app_r by lia. rewrite Nat.sub_diag. simpl. rewrite Hx.
  rewrite decide_True by (rewrite length_app; simpl; lia).
  rewrite slice_delete_middle.
  rewrite delete_loop_none.
  - rewrite length_app. simpl.
    replace (length l1 + S (length l2) - 1) with (length (l1 ++ l2)) by (rewrite length_app; lia).
    by rewrite app_assoc, take_app_length.
  - rewrite !length_app, length_drop, length_app. simpl. lia.
  - rewrite <-(Nat.add_1_r (length l1)), <-drop_drop, drop_app_length, drop_app.
    apply Forall_app; split; [by apply Forall_drop|].
    destruct l2 as [|y l2]; simpl.
    + rewrite !Nat.add_0_r. rewrite (drop_ge _ (1 - 0)); [done|].
      rewrite length_drop, length_app. simpl. lia.
    + rewrite Nat.sub_0_r, drop_0 || idtac.
      apply Forall_drop. rewrite drop_app_ge by lia.
      replace (length l1 + S (length l2) - length l1) with (S (length l2)) by lia.
      simpl. by apply Forall_drop.
Qed.

Lemma delete_in_range_none {A} (p : A → bool) (l : list A) :
  Forall (λ y, p y = false) l → delete_in_range p l = Done l.
Proof.
  intros H. unfold delete_in_range. rewrite delete_loop_none; [|lia|by rewrite drop_0].
  by rewrite firstn_all.
Qed.

Lemma filter_all {A} (P : A → Prop) `{!∀ x, Decision (P x)} (l : list A) :
  Forall P l → filter P l = l.
Proof. induction 1; [done|]. by rewrite filter_cons_True, IHForall. Qed.

Lemma filter_ext_elem {A} (P Q : A → Prop) `{!∀ x, Decision (P x), !∀ x, Decision (Q x)}
    (l : list A) :
  (∀ x, x ∈ l → P x ↔ Q x) → filter P l = filter Q l.
Proof.
  induction l as [|x l IH]; intros Hpq; [done|].
  rewrite !filter_cons, IH by (intros; apply Hpq; set_solver).
  apply decide_ext, Hpq. set_solver.
Qed.

(** The two cases together: with at most one match the idiom is [filter]. *)
Lemma delete_in_range_filter {A} (p : A → bool) (l : list A) :
  (∀ i j x y, l !! i = Some x → l !! j = Some y → p x = true → p y = true → i = j) →
  delete_in_range p l = Done (filter (λ x, p x = false) l).
Proof.
  intros Huniq. destruct (decide (Forall (λ y, p y = false) l)) as [Hall|Hex].
  - rewrite delete_in_range_none by done. f_equal. by rewrite filter_all.
  - apply not_Forall_Exists in Hex; [|apply _].
    apply Exists_exists in Hex as (x & Hin & Hx). apply not_false_iff_true in Hx.
    apply list_elem_of_split in Hin as (l1 & l2 & ->).
    assert (Forall (λ y, p y = false) (l1 ++ l2)) as Hno.
    { apply Forall_forall. intros y Hy. destruct (p y) eqn:Hpy; [|done]. exfalso.
      apply elem_of_app in Hy as [Hy|Hy]; apply list_elem_of_lookup in Hy as [i Hi].
      - assert (i = length l1); [|by apply lookup_lt_Some in Hi; lia].
        apply (Huniq i (length l1) y x); [by apply lookup_app_l_Some| |done|done].
        by apply list_lookup_middle.
      - assert (length l1 + S i = length l1); [|lia].
        apply (Huniq (length l1 + S i) (length l1) y x); [|by apply list_lookup_middle|done|done].
        rewrite lookup_app_r by lia. by replace (length l1 + S i - length l1) with (S i) by lia. }
    rewrite delete_in_range_one by done. f_equal.
    rewrite filter_app, filter_cons, decide_False by congruence.
    apply Forall_app in Hno as [H1 H2]. by rewrite !filter_all.
Qed.

(** With two matches the idiom goes wrong: it panics when they are the last two
    elements, and keeps the second one when they are adjacent elsewhere. *)
Lemma delete_in_range_dup_end {A} (p : A → bool) (l : list A) x y :
  p x = true → p y = true → Forall (λ z, p z = false) l →
  delete_in_range p (l ++ [x; y]) = Panic "slice bounds out of range".
Proof.
  intros Hx Hy Hl. unfold delete_in_range. rewrite length_app at 1. simpl.
  pose proof (delete_loop_skip p l [x; y] 2 (length (l ++ [x; y])) Hl []) as Hs.
  simpl in Hs. rewrite Hs. clear Hs. cbn [delete_loop].
  rewrite lookup_app_r, Nat.sub_diag by lia. simpl. rewrite Hx, decide_True by (rewrite length_app; simpl; lia).
  rewrite (slice_delete_middle l [y] x). simpl.
  rewrite (lookup_app_r l), drop_app_ge by lia.
  replace (S (length l) - length l) with 1 by lia.
  replace (length l + 1 - length l) with 1 by lia. simpl. rewrite Hy.
  rewrite decide_False; [done|]. rewrite length_app. simpl. lia.
Qed.

Lemma delete_in_range_dup_adjacent {A} (p : A → bool) (l1 l2 : list A) x y z :
  p x = true → p y = true → Forall (λ z, p z = false) (l1 ++ l2 ++ [z]) →
  delete_in_range p (l1 ++ x :: y :: l2 ++ [z]) = Done (l1 ++ y :: l2 ++ [z]).
Proof.
  intros Hx Hy [H1 H2]%Forall_app. unfold delete_in_range. rewrite length_app at 1. simpl.
  pose proof (delete_loop_skip p l1 (x :: y :: l2 ++ [z]) (S (S (length (l2 ++ [z]))))
    (length (l1 ++ x :: y :: l2 ++ [z])) H1 []) as Hs.
  change (length []) with 0 in Hs. rewrite !app_nil_l in Hs. rewrite Hs. clear Hs.
  rewrite (delete_loop_S _ _ _ _ _ x) by by apply list_lookup_middle.
  rewrite Hx, decide_True by (rewrite length_app; simpl; lia).
  rewrite (slice_delete_middle l1 (y :: l2 ++ [z]) x). cbn [length].
  rewrite (drop_app_ge l1) by lia.
  replace (length l1 + S (length (l2 ++ [z])) - length l1) with (S (S (length l2)))
    by (rewrite length_app; simpl; lia).
  cbn [drop]. rewrite drop_app_length.
  rewrite (delete_loop_none p (S (length (l2 ++ [z])))).
  - f_equal. rewrite !app_assoc. apply take_app_length'. rewrite !length_app. simpl. rewrite !length_app. simpl. lia.
  - rewrite !length_app. simpl. rewrite !length_app. simpl. lia.
  - rewrite <-(Nat.add_1_r (length l1)), <-drop_drop, drop_app_length. simpl.
    apply Forall_app; split; [done|]. by apply Forall_app in H2 as [_ ?].
Qed.

(** ** Lemmas on sorting *)

#[export] Instance key_le_total {A} (key : A → string) : Total (key_le key).
Proof. intros x y. unfold key_le. apply (total String.le). Qed.
#[export] Instance key_le_trans {A} (key : A → string) : Transitive (key_le key).
Proof. intros x y z. unfold key_le. apply transitivity. Qed.

Lemma sort_by_perm {A} (key : A → string) l : sort_by key l ≡ₚ l.
Proof. apply merge_sort_Permutation. Qed.

Lemma sort_by_sorted {A} (key : A → string) l : Sorted (key_le key) (sort_by key l).
Proof. apply Sorted_merge_sort. apply _. Qed.

(** Two sorted arrangements of elements with distinct keys are equal, so the
    result of an unstable sort does not depend on the input order. *)
Lemma sorted_unique {A} (key : A → string) (l1 l2 : list A) :
  (∀ x y, x ∈ l1 → y ∈ l1 → key x = key y → x = y) →
  Sorted (key_le key) l1 → Sorted (key_le key) l2 → l1 ≡ₚ l2 → l1 = l2.
Proof.
  intros Hinj H1 H2 Hp. apply (Sorted_unique_strong (key_le key)); try done.
  intros x y Hx Hy Hxy Hyx. apply Hinj; [done|by rewrite Hp|]. by apply (anti_symm String.le).
Qed.

Lemma sort_by_unique {A} (key : A → string) (l1 l2 : list A) :
  (∀ x y, x ∈ l1 → y ∈ l1 → key x = key y → x = y) →
  l1 ≡ₚ l2 → sort_by key l1 = sort_by key l2.
Proof.
  intros Hinj Hp. apply (sorted_unique key); try apply sort_by_sorted.
  - intros x y. rewrite !(sort_by_perm key l1). apply Hinj.
  - by rewrite !sort_by_perm.
Qed.

(** ** Lists *)
Lemma elem_of_concat {A} (x : A) ls : x ∈ concat ls ↔ ∃ l, l ∈ ls ∧ x ∈ l.
Proof. rewrite list_elem_of_In, in_concat. setoid_rewrite list_elem_of_In. done. Qed.
Lemma Forall2_elem_l {A B} (P : A → B → Prop) l k x : Forall2 P l k → x ∈ l → ∃ y, y ∈ k ∧ P x y.
Proof. intros HF [i Hi]%list_elem_of_lookup. destruct (Forall2_lookup_l _ _ _ _ _ HF Hi) as (y & Hy & ?). exists y. split; [by eapply list_elem_of_lookup_2|done]. Qed.
Lemma Forall2_elem_r {A B} (P : A → B → Prop) l k y : Forall2 P l k → y ∈ k → ∃ x, x ∈ l ∧ P x y.
Proof. intros HF%Forall2_flip Hy. exact (Forall2_elem_l _ _ _ _ HF Hy). Qed.
Lemma foldl_id {A B} (x : A) (l : list B) : foldl (λ x _, x) x l = x.
Proof. by induction l. Qed.
Lemma foldl_omap {A B C} (g : C → B → C) (h : A → option B) c l :
  foldl (λ c a, from_option (g c) c (h a)) c l = foldl g c (omap h l).
Proof. revert c. induction l as [|a l IH]; intros c; [done|]. simpl. by destruct (h a). Qed.
Lemma foldl_fst {A B C} (g : A → C → A) (a : A) (b : B) l :
  foldl (λ x c, (g x.1 c, x.2)) (a, b) l = (foldl g a l, b).
Proof. revert a. induction l as [|c l IH]; intros a; [done|]. apply IH. Qed.
Lemma foldl_snd {A B C} (g : B → C → B) (a : A) (b : B) l :
  foldl (λ x c, (x.1, g x.2 c)) (a, b) l = (a, foldl g b l).
Proof. revert b. induction l as [|c l IH]; intros b; [done|]. apply IH. Qed.
