(* ===== verification/GoStrings.v ===== *)
(** * More of the [strings] package

    Substrings, prefixes and suffixes, white space and replacements, on ASCII text. *)
From S2P Require Import Prelude.

(** ** The functions *)

(** [strings.Contains]: [sub] is a prefix of some suffix. *)
Fixpoint Contains (s sub : string) : bool :=
  HasPrefix s sub ||
  match s with
  | EmptyString => false
  | String _ s => Contains s sub
  end.

Definition TrimPrefix (s pre : string) : string := default s (CutPrefix s pre).

(** [strings.TrimSuffix]. *)
Fixpoint CutSuffix (s suf : string) : option string :=
  if decide (s = suf) then Some ""
  else match s with
       | EmptyString => None
       | String a s => String a <$> CutSuffix s suf
       end.
Definition TrimSuffix (s suf : string) : string := default s (CutSuffix s suf).

(** ASCII white space, as [unicode.IsSpace] has it. *)
Definition is_space (a : ascii) : bool :=
  existsb (λ n, bool_decide (nat_of_ascii a = n)) [9; 10; 11; 12; 13; 32].
Fixpoint trim_left (s : string) : string :=
  match s with
  | String a s' => if is_space a then trim_left s' else s
  | EmptyString => s
  end.
(** A character stays when it is not white space or something after it stays. *)
Fixpoint trim_right (s : string) : string :=
  match s with
  | EmptyString => ""
  | String a s => match trim_right s with
                  | EmptyString => if is_space a then "" else String a ""
                  | s' => String a s'
                  end
  end.
Definition TrimSpace (s : string) : string := trim_right (trim_left s).

(** [strings.ReplaceAll] of a one-byte text. *)
Fixpoint ReplaceAll (s : string) (old : ascii) (new : string) : string :=
  match s with
  | EmptyString => ""
  | String a s => if decide (a = old) then new +:+ ReplaceAll s old new else String a (ReplaceAll s old new)
  end.

(** [i := strings.LastIndex(s, c)] with the slices [s[:i]] and [s[i:]] for a one-byte [c]. *)
Fixpoint cut_last (c : ascii) (s : string) : option (string * string) :=
  match s with
  | EmptyString => None
  | String a s' =>
      match cut_last c s' with
      | Some (x, y) => Some (String a x, y)
      | None => if decide (a = c) then Some ("", s) else None
      end
  end.

(** [strings.ToUpper]. *)
Definition upper (c : ascii) : ascii :=
  let n := nat_of_ascii c in if decide (97 ≤ n ∧ n ≤ 122)%nat then ascii_of_nat (n - 32) else c.
Fixpoint ToUpper (s : string) : string :=
  match s with
  | EmptyString => EmptyString
  | String c s => String (upper c) (ToUpper s)
  end.

Definition comma : ascii := ","%char.
Definition newline : ascii := "010"%char.
Definition dquote : ascii := "034"%char.
(** ["%s"] between double quotes, without escapes. *)
Definition in_quotes (s : string) : string := String dquote (s +:+ String dquote "").

(** ** Substrings *)
Definition substring_of (sub s : string) : Prop := ∃ x y, s = x +:+ (sub +:+ y).

Lemma Contains_spec s sub : Contains s sub = true ↔ substring_of sub s.
Proof.
  induction s as [|a s IH]; cbn [Contains]; rewrite orb_true_iff, HasPrefix_spec.
  - split; [intros [[y Hy]|]; [by exists "", y|done]|].
    intros ([|] & y & [=]). left. by exists y.
  - rewrite IH. split.
    + intros [[y Hy]|(x & y & ->)]; [by exists "", y|by exists (String a x), y].
    + intros ([|b x] & y & Heq); [left; by exists y|right]. injection Heq as <- ->. by exists x, y.
Qed.

#[export] Instance substring_of_dec sub s : Decision (substring_of sub s).
Proof. refine (cast_if (decide (Contains s sub = true))); rewrite <- Contains_spec; done. Defined.
#[export] Instance substring_of_po : PreOrder substring_of.
Proof.
  split.
  - intros s. exists "", "". by rewrite string_app_nil_r.
  - intros s1 s2 s3 (x & y & ->) (x' & y' & ->). exists (x' +:+ x), (y +:+ y'). by rewrite !string_app_assoc.
Qed.
Lemma substring_app_l s x : substring_of s (x +:+ s).
Proof. exists x, "". by rewrite string_app_nil_r. Qed.
Lemma substring_app_r s y : substring_of s (s +:+ y).
Proof. by exists "", y. Qed.
Lemma substring_mid s x y : substring_of s (x +:+ (s +:+ y)).
Proof. by exists x, y. Qed.
#[export] Hint Resolve substring_app_l substring_app_r substring_mid : nephio.

(** Two texts that start the same are comparable. *)
Lemma string_app_split (x y u v : string) :
  x +:+ y = u +:+ v → (∃ m, u = x +:+ m ∧ y = m +:+ v) ∨ (∃ m, x = u +:+ m ∧ v = m +:+ y).
Proof.
  revert u. induction x as [|a x IH]; intros u Heq; [left; by exists u|].
  destruct u as [|b u]; [right; by exists (String a x)|]. injection Heq as <- Heq.
  destruct (IH u Heq) as [(m & -> & ->)|(m & -> & ->)]; [left|right]; by exists m.
Qed.

(** A text without the separator that occurs in [x +:+ String c y] occurs on one side. *)
Lemma substring_sep c sub x y :
  has_char c sub = false → substring_of sub (x +:+ String c y) → substring_of sub x ∨ substring_of sub y.
Proof.
  intros Hc (u & v & Heq). apply string_app_split in Heq as [(m & -> & Heq)|(m & -> & Heq)].
  - destruct m as [|d m].
    + destruct sub as [|d sub]; [left; by exists "", x|]. injection Heq as -> ->.
      simpl in Hc. by rewrite decide_True in Hc.
    + injection Heq as -> ->. right. apply substring_mid.
  - apply string_app_split in Heq as [(n & -> & Heq)|(n & -> & Heq)].
    + left. apply substring_mid.
    + destruct n as [|d n]; [left; rewrite string_app_nil_r; apply substring_app_l|].
      injection Heq as -> ->. rewrite has_char_app, orb_false_iff in Hc. destruct Hc as [_ Hc].
      simpl in Hc. by rewrite decide_True in Hc.
Qed.

(** Splitting at a separator. *)
Lemma split_on_app_sep c x y : split_on c (x +:+ String c y) = split_on c x ++ split_on c y.
Proof.
  induction x as [|a x IH]; [simpl; by rewrite decide_True|]. simpl. rewrite IH. case_decide; [done|].
  destruct (split_on c x) as [|w ws] eqn:Hx; [by apply split_on_not_nil in Hx|done].
Qed.

(** ** Replacement, trimming, the last separator *)
Lemma ReplaceAll_app old new x y : ReplaceAll (x +:+ y) old new = ReplaceAll x old new +:+ ReplaceAll y old new.
Proof.
  induction x as [|a x IH]; [done|]. simpl. case_decide; rewrite IH; [by rewrite string_app_assoc|done].
Qed.
Lemma ReplaceAll_absent old new s : has_char old s = false → ReplaceAll s old new = s.
Proof. induction s as [|a s IH]; [done|]. simpl. case_decide; [done|]. intros Hs. by rewrite IH. Qed.
Lemma trim_right_end x a : is_space a = false → trim_right (x +:+ String a "") = x +:+ String a "".
Proof. intros Ha. induction x as [|b x IH]; simpl; [by rewrite Ha|]. rewrite IH. by destruct x. Qed.
Lemma cut_last_end c x : cut_last c (x +:+ String c "") = Some (x, String c "").
Proof. induction x as [|a x IH]; simpl; [by rewrite decide_True|by rewrite IH]. Qed.
Lemma has_char_in_quotes c s : c ≠ dquote → has_char c (in_quotes s) = has_char c s.
Proof.
  intros Hc. unfold in_quotes. simpl. rewrite decide_False by done. rewrite has_char_app. simpl.
  rewrite decide_False by done. by rewrite orb_false_r.
Qed.
