(* ===== verification/External.v ===== *)
(** * Interfaces of the libraries the program is built on

    The kpt function SDK ([github.com/kptdev/krm-functions-sdk/go/fn]), kyaml,
    apimachinery and go-cmp are not part of this repository.  Their data types
    (as far as the code reads them) are records here; their functions are the
    operations of the class [FnSDK], and what the code relies on is the class
    [FnSDKLaws].  The file [SdkModel] gives a concrete instance of both. *)
From S2P Require Import Prelude.

(** ** [corev1.ObjectReference] *)
Record ObjectReference := mkObjectReference {
  Kind : string;
  Namespace : string;
  Name : string;
  UID : string;
  APIVersion : string;
  ResourceVersion : string;
  FieldPath : string
}.

#[export] Instance ObjectReference_eq_dec : EqDecision ObjectReference.
Proof. solve_decision. Defined.

#[export] Instance ObjectReference_countable : Countable ObjectReference.
Proof.
  apply (inj_countable'
    (λ r, (Kind r, Namespace r, Name r, UID r, APIVersion r, ResourceVersion r, FieldPath r))
    (λ '(k, ns, n, u, a, rv, fp), mkObjectReference k ns n u a rv fp)).
  by intros [].
Defined.

(** [corev1.ObjectReference{}]. *)
Definition emptyRef : ObjectReference := mkObjectReference "" "" "" "" "" "" "".

(** [corev1.ObjectReference{APIVersion: a, Kind: k, Name: n}]. *)
Definition gvkn (a k n : string) : ObjectReference := mkObjectReference k "" n "" a "" "".

(** [corev1.ObjectReference{APIVersion: a, Kind: k}]. *)
Definition gvk (a k : string) : ObjectReference := gvkn a k "".

(** ** [kptv1.Condition] and [kptv1.ReadinessGate] *)
Definition ConditionStatus := string.
Definition ConditionTrue : ConditionStatus := "True".
Definition ConditionFalse : ConditionStatus := "False".

Record Condition := mkCondition {
  Type_ : string;
  Status : ConditionStatus;
  Reason : string;
  Message : string
}.

#[export] Instance Condition_eq_dec : EqDecision Condition.
Proof. solve_decision. Defined.

Record ReadinessGate := mkReadinessGate { ConditionType : string }.

#[export] Instance ReadinessGate_eq_dec : EqDecision ReadinessGate.
Proof. solve_decision. Defined.

(** ** [yaml.Node], with the fields the formatting code reads or writes *)
Inductive NodeKind :=
| DocumentNode | SequenceNode | MappingNode | ScalarNode | AliasNode
| UnknownNode (k : N).

#[export] Instance NodeKind_eq_dec : EqDecision NodeKind.
Proof. solve_decision. Defined.

Inductive Node := mkNode {
  n_Kind : NodeKind;
  n_Tag : string;
  n_Value : string;
  n_HeadComment : string;
  n_LineComment : string;
  n_FootComment : string;
  n_Content : list Node
}.

(** Induction with the hypothesis for every child. *)
Lemma Node_ind' (P : Node → Prop) :
  (∀ k t v h l f c, Forall P c → P (mkNode k t v h l f c)) → ∀ n, P n.
Proof.
  intros Hn. fix IH 1. intros [k t v h l f c]. apply Hn.
  induction c as [|x c IHc]; constructor; [apply IH|apply IHc].
Qed.

(** The key/value pairs of a mapping's content. *)
Fixpoint pairs (c : list Node) : list (Node * Node) :=
  match c with
  | k :: v :: c => (k, v) :: pairs c
  | _ => []
  end.

(** ** The data of a YAML tree *)

(** Every mapping has an even number of children and every node a known kind:
    the shape a YAML parser produces. *)
Fixpoint well_formed (n : Node) : bool :=
  match n with
  | mkNode k t v h l f c =>
      match k with
      | MappingNode => Nat.even (length c)
      | UnknownNode _ => false
      | _ => true
      end && forallb well_formed c
  end.

(** [c1] is [c] up to the order of the fields, when the node is a mapping. *)
Definition reordered (k : NodeKind) (c c1 : list Node) : Prop :=
  c = c1 ∨
  (k = MappingNode ∧ Nat.even (length c) = true ∧ length c = length c1 ∧ pairs c ≡ₚ pairs c1).

(** Two trees with the same data: they differ in comments and in the order of the
    fields of mappings only. *)
Inductive same_data : Node → Node → Prop :=
| same_data_node k t v h l f h' l' f' c c1 c' :
    reordered k c c1 →
    Forall2 same_data c1 c' →
    same_data (mkNode k t v h l f c) (mkNode k t v h' l' f' c').

(** ** [schema.GroupVersion] *)
Record GroupVersion := mkGroupVersion { gv_Group : string; gv_Version : string }.

(** The outcome of [yaml.Decoder.Decode]. *)
Inductive decoded := DecNode (n : Node) | DecEOF | DecErr (e : error).

(** ** The operations

    An operation that mutates its receiver returns the receiver it leaves behind,
    together with the Go error. *)
Class FnSDK := {
  (** [fn.KubeObject]; [zeroKubeObject] is [fn.KubeObject{}] *)
  KubeObject : Type;
  zeroKubeObject : KubeObject;
  GetAPIVersion : KubeObject → string;
  GetKind : KubeObject → string;
  GetName : KubeObject → string;
  GetNamespace : KubeObject → string;
  GetAnnotations : KubeObject → gmap string string;
  GetAnnotation : KubeObject → string → string;
  SetAnnotation : KubeObject → string → string → KubeObject * option error;
  (** [fn.IsGroupVersionKind] at the GVK of the apiVersion and kind given *)
  IsGroupVersionKind : string → string → KubeObject → bool;
  (** [o.NestedResource(&map[string]any{}, "spec")], and [cmp.Diff] on its values *)
  specMap : Type;
  NestedSpec : KubeObject → result (option specMap);
  cmp_Diff : specMap → specMap → string;
  (** [fn.KubeObjects.GetRootKptfile] and [fn.ResourceList.UpsertObjectToItems(o, nil, true)]
      on lists of pointers, given what the pointers point to *)
  GetRootKptfile : ∀ {A}, (A → KubeObject) → list A → option A;
  UpsertObjectToItems : ∀ {A}, (A → KubeObject) → A → list A → list A * option error;
  (** [fn.Results] *)
  Results : Type;
  Results_ErrorE : error → Results → Results;
  Results_Errorf : string → Results → Results;
  Results_Infof : string → Results → Results;
  (** the Go values handed over as [interface{}], and the two kinds used for a Kptfile *)
  any : Type;
  any_conditions : list Condition → any;
  any_gates : list ReadinessGate → any;
  SetNestedField : KubeObject → any → list string → KubeObject * option error;
  NewFromTypedObject : any → result KubeObject;
  (** [o.UpsertMap(field)] as an update of [o], and [o.UpsertMap("status").As(&status)],
      [o.UpsertMap("info").As(&info)] as reads of the list the code takes from them *)
  UpsertMap : KubeObject → string → KubeObject;
  As_conditions : KubeObject → result (list Condition);
  As_readinessGates : KubeObject → result (list ReadinessGate);
  (** YAML text *)
  bytes : Type;
  SubObject_String : KubeObject → bytes;
  ParseKubeObject : bytes → result KubeObject;
  Decode : bytes → decoded;
  Encode : Node → result bytes;
  (** apimachinery's [schema.ParseGroupVersion] and [GroupVersion.String],
      [ObjectReference.String] *)
  ParseGroupVersion : string → result GroupVersion;
  GroupVersion_String : GroupVersion → string;
  ObjectReference_String : ObjectReference → string;
  (** [fmt.Errorf] of a format and one string argument *)
  fmt_Errorf1 : string → string → error
}.


(** The resource identifier [UpsertObjectToItems] compares. *)
Definition same_id `{FnSDK} (o1 o2 : KubeObject) : bool :=
  bool_decide (GetAPIVersion o1 = GetAPIVersion o2 ∧ GetKind o1 = GetKind o2 ∧
               GetName o1 = GetName o2 ∧ GetNamespace o1 = GetNamespace o2).

(** Two objects with the same data for every accessor the code uses. *)
Definition same_view `{FnSDK} (o1 o2 : KubeObject) : Prop :=
  GetAPIVersion o1 = GetAPIVersion o2 ∧ GetKind o1 = GetKind o2 ∧
  GetName o1 = GetName o2 ∧ GetNamespace o1 = GetNamespace o2 ∧
  GetAnnotations o1 = GetAnnotations o2 ∧ NestedSpec o1 = NestedSpec o2 ∧
  As_conditions o1 = As_conditions o2 ∧ As_readinessGates o1 = As_readinessGates o2.

(** The same but for one of the parts a Kptfile update sets. *)
Definition same_header `{FnSDK} (o1 o2 : KubeObject) : Prop :=
  GetAPIVersion o1 = GetAPIVersion o2 ∧ GetKind o1 = GetKind o2 ∧
  GetName o1 = GetName o2 ∧ GetNamespace o1 = GetNamespace o2.

(** ** What the code relies on *)
Class FnSDKLaws `{FnSDK} : Prop := {
  GetAnnotation_spec o k : GetAnnotation o k = default "" (GetAnnotations o !! k);
  SetAnnotation_spec o k v o' :
    SetAnnotation o k v = (o', None) →
    GetAnnotations o' = <[k := v]> (GetAnnotations o) ∧ same_header o o' ∧ NestedSpec o = NestedSpec o';
  (** [cmp.Diff] returns an empty string if and only if the values are equal *)
  cmp_Diff_spec s1 s2 : cmp_Diff s1 s2 = "" ↔ s1 = s2;
  (** [GetRootKptfile] returns one of the objects; [UpsertObjectToItems(o, nil, true)]
      replaces the item with the identifier of [o] or appends [o] *)
  GetRootKptfile_elem {A} (deref : A → KubeObject) l p : GetRootKptfile deref l = Some p → p ∈ l;
  Upsert_replace {A} (deref : A → KubeObject) o l1 x l2 :
    same_id (deref o) (deref x) = true → Forall (λ y, same_id (deref o) (deref y) = false) l1 →
    UpsertObjectToItems deref o (l1 ++ x :: l2) = (l1 ++ o :: l2, None);
  Upsert_append {A} (deref : A → KubeObject) o l :
    Forall (λ y, same_id (deref o) (deref y) = false) l → UpsertObjectToItems deref o l = (l ++ [o], None);
  (** the text of an object parses to a YAML mapping, possibly in a document node *)
  object_yaml o : ∃ n, n_Kind n = MappingNode ∧ well_formed n = true ∧
    (Decode (SubObject_String o) = DecNode n ∨
     ∃ t v h l f, Decode (SubObject_String o) = DecNode (mkNode DocumentNode t v h l f [n]));
  (** writing back a tree with the same data gives an object with the same data *)
  yaml_object o t v h l f n n' :
    n_Kind n = MappingNode →
    (Decode (SubObject_String o) = DecNode n ∨
     Decode (SubObject_String o) = DecNode (mkNode DocumentNode t v h l f [n])) →
    same_data n n' → ∃ b o', Encode n' = Ok b ∧ ParseKubeObject b = Ok o' ∧ same_view o o';
  (** setting the two lists of a Kptfile *)
  SetNestedField_conditions o cs o' :
    SetNestedField o (any_conditions cs) ["status"; "conditions"] = (o', None) →
    As_conditions o' = Ok cs ∧ As_readinessGates o' = As_readinessGates o ∧ same_header o o' ∧
    GetAnnotations o' = GetAnnotations o;
  SetNestedField_gates o gs o' :
    SetNestedField o (any_gates gs) ["info"; "readinessGates"] = (o', None) →
    As_readinessGates o' = Ok gs ∧ As_conditions o' = As_conditions o ∧ same_header o o' ∧
    GetAnnotations o' = GetAnnotations o;
  (** a call that fails changes no data *)
  SetNestedField_err o v path o' e : SetNestedField o v path = (o', Some e) → same_view o o';
  (** creating an absent [status] or [info] map changes no data *)
  UpsertMap_spec o f : f = "status" ∨ f = "info" → same_view o (UpsertMap o f);
  (** [ParseGroupVersion] and [GroupVersion.String] on "group/version" and "version" *)
  ParseGroupVersion_group g v :
    has_char slash g = false → has_char slash v = false →
    ParseGroupVersion (g +:+ String slash v) = Ok (mkGroupVersion g v);
  ParseGroupVersion_core v :
    has_char slash v = false → v ≠ "" → ParseGroupVersion v = Ok (mkGroupVersion "" v);
  GroupVersion_String_group g v :
    g ≠ "" → GroupVersion_String (mkGroupVersion g v) = g +:+ String slash v;
  GroupVersion_String_core v : GroupVersion_String (mkGroupVersion "" v) = v;
  (** an argument for which the format has no verb is reported as an extra one *)
  fmt_Errorf1_extra f a : has_char "%"%char f = false → fmt_Errorf1 f a = f +:+ "%!(EXTRA string=" +:+ a +:+ ")";
  (** [fn.IsGroupVersionKind] accepts the objects of its own apiVersion and kind *)
  IsGroupVersionKind_refl o : IsGroupVersionKind (GetAPIVersion o) (GetKind o) o = true
}.
