(* ===== verification/KubeObjectLib.v ===== *)
(** * [krm-functions/lib/kubeobject]: setting fields while keeping the formatting

    The formatting code of [kubeobject.go] works on [yaml.Node] trees: it copies
    comments and the order of map fields from the tree before a change to the tree
    after it.  Go mutates the destination in place; here each function returns the
    destination it leaves behind.  Source and destination are separate trees (both
    come from their own parse), so there is no aliasing between them. *)
From S2P Require Import Prelude External.

(** ** Copying the formatting *)

(** [shallowCopyComments] copies comments from [src] to [dst] non-recursively. *)
Definition shallowCopyComments (src dst : Node) : Node :=
  mkNode (n_Kind dst) (n_Tag dst) (n_Value dst)
    (n_HeadComment src) (n_LineComment src) (n_FootComment src) (n_Content dst).

Definition asString (node : Node) : option string :=
  if decide (n_Kind node = ScalarNode ∧ (n_Tag node = "!!str" ∨ n_Tag node = ""))
  then Some (n_Value node) else None.

(** The index of [key] in the content of a mapping: keys are at even positions. *)
Fixpoint findKey (mapContents : list Node) (key : string) : option nat :=
  match mapContents with
  | [] => None
  | k :: rest =>
      if decide (asString k = Some key) then Some 0
      else match rest with
           | [] => None
           | _ :: rest => option_map (λ i, S (S i)) (findKey rest key)
           end
  end.

Definition odd_content (n : Node) : bool := negb (Nat.even (length (n_Content n))).

(** The loop of [shouldCopyFormatting] over the fields of a map. *)
Definition should_fields (should : Node → Node → comp bool)
    : list Node → list Node → comp bool :=
  fix go (sc dc : list Node) : comp bool :=
    match sc with
    | k :: v :: sc =>
        match asString k with
        | None => Done false
        | Some key =>
            match findKey dc key with
            | None => Done false
            | Some j =>
                match dc !! S j with
                | None => Panic "index out of range"
                | Some dv => b ← should v dv; if b : bool then go sc dc else Done false
                end
            end
        end
    | [k] => Panic "index out of range"
    | [] => Done true
    end.

Fixpoint shouldCopyFormatting (src dst : Node) {struct src} : comp bool :=
  match src with
  | mkNode k t v h l f c =>
      if decide (k ≠ n_Kind dst) then Done false
      else
        match k with
        | ScalarNode => Done (bool_decide (v = n_Value dst))
        | MappingNode =>
            if negb (Nat.even (length c)) || odd_content dst
            then Panic "unexpected number of children for YAML map"
            else should_fields shouldCopyFormatting c (n_Content dst)
        | SequenceNode => Done true
        | AliasNode | DocumentNode => Done true
        | UnknownNode _ => Panic "unexpected YAML node type"
        end
  end.

Fixpoint findMatchingItemForFormattingCopy (srcItem : Node) (dstList : list Node)
    : comp (option nat) :=
  match dstList with
  | [] => Done None
  | dstItem :: rest =>
      b ← shouldCopyFormatting srcItem dstItem;
      if b : bool then Done (Some 0)
      else r ← findMatchingItemForFormattingCopy srcItem rest; Done (option_map S r)
  end.

(** Swap the key and value at [j] with those at the front. *)
Definition swap_to_front (j : nat) (u : list Node) : option (list Node) :=
  if decide (j = 0) then Some u else
  kj ← u !! j; vj ← u !! S j; k0 ← u !! 0; v0 ← u !! 1;
  Some (<[1 := vj]> (<[S j := v0]> (<[0 := kj]> (<[j := k0]> u)))).

(** The loop of [copyMapFormatting]: [sc] is what is left of [src.Content] and [u]
    is [unorderedPartOfDst]; the result is what that part of [dst.Content] becomes. *)
Definition map_loop (dcf : Node → Node → comp Node) : list Node → list Node → comp (list Node) :=
  fix go (sc u : list Node) : comp (list Node) :=
    match sc with
    | k :: v :: sc =>
        match asString k with
        | None => go sc u
        | Some key =>
            match findKey u key with
            | None => go sc u
            | Some j =>
                match swap_to_front j u with
                | Some (k0 :: v0 :: rest) =>
                    v0' ← dcf v v0;
                    rest' ← go sc rest;
                    Done (shallowCopyComments k k0 :: v0' :: rest')
                | _ => Panic "index out of range"
                end
            end
        end
    | _ => Done u
    end.

Definition copyMapFormatting (dcf : Node → Node → comp Node)
    (src : Node) (srcContent : list Node) (dst : Node) : comp Node :=
  if negb (Nat.even (length srcContent)) || odd_content dst
  then Panic "unexpected number of children for a YAML MappingNode"
  else
    c ← map_loop dcf srcContent (n_Content dst);
    Done (shallowCopyComments src
            (mkNode (n_Kind dst) (n_Tag dst) (n_Value dst)
               (n_HeadComment dst) (n_LineComment dst) (n_FootComment dst) c)).

(** The loop of [copyListFormatting] over [src.Content]. *)
Definition list_loop (dcf : Node → Node → comp Node) : list Node → list Node → comp (list Node) :=
  fix go (sc dc : list Node) : comp (list Node) :=
    match sc with
    | [] => Done dc
    | srcItem :: sc =>
        found ← findMatchingItemForFormattingCopy srcItem dc;
        match found with
        | None => go sc dc
        | Some j =>
            match dc !! j with
            | None => Panic "index out of range"
            | Some d => d' ← dcf srcItem d; go sc (<[j := d']> dc)
            end
        end
    end.

Definition copyListFormatting (dcf : Node → Node → comp Node)
    (src : Node) (srcContent : list Node) (dst : Node) : comp Node :=
  c ← list_loop dcf srcContent (n_Content dst);
  Done (shallowCopyComments src
          (mkNode (n_Kind dst) (n_Tag dst) (n_Value dst)
             (n_HeadComment dst) (n_LineComment dst) (n_FootComment dst) c)).

(** [deepCopyFormatting] copies formatting (comments and order of fields) from
    [src] to [dst] recursively. *)
Fixpoint deepCopyFormatting (src dst : Node) {struct src} : comp Node :=
  match src with
  | mkNode k t v h l f c =>
      if decide (k ≠ n_Kind dst) then Done dst
      else
        match n_Kind dst with
        | MappingNode => copyMapFormatting deepCopyFormatting src c dst
        | SequenceNode => copyListFormatting deepCopyFormatting src c dst
        | DocumentNode =>
            match c, n_Content dst with
            | [s], [d] =>
                d' ← deepCopyFormatting s d;
                Done (shallowCopyComments src
                        (mkNode (n_Kind dst) (n_Tag dst) (n_Value dst)
                           (n_HeadComment dst) (n_LineComment dst) (n_FootComment dst) [d']))
            | _, _ => copyListFormatting deepCopyFormatting src c dst
            end
        | _ => Done (shallowCopyComments src dst)
        end
  end.

(** ** YAML round trips and field updates *)
Section fields.
Context `{FnSDK}.

Definition zeroNode : Node := mkNode (UnknownNode 0) "" "" "" "" "" [].

(** unmarshal YAML text (bytes) to a [yaml.Node]; an empty input is a zero node *)
Definition parseFirstObj (b : bytes) : result Node :=
  match Decode b with
  | DecNode n => Ok n
  | DecEOF => Ok zeroNode
  | DecErr e => Err e
  end.

(** marshal [yaml.Node] to YAML text (bytes) *)
Definition toYAML (node : Node) : result bytes :=
  if decide (n_Kind node = DocumentNode ∧ n_Content node = [])
  then Err "ToYAML: invalid DocumentNode"
  else Encode node.

(** [yamlNodeOf] returns with the unexposed [yaml.Node] inside [obj]. *)
Definition yamlNodeOf (obj : KubeObject) : comp Node :=
  match parseFirstObj (SubObject_String obj) with
  | Err err => Panic ("round-trip YAML serialization failed (ParseFirstObj): " +:+ err)
  | Ok node =>
      if decide (n_Kind node = DocumentNode) then
        match n_Content node with
        | [n] => Done n
        | _ => Panic "unexpected YAML DocumentNode after round-trip YAML serialization"
        end
      else Done node
  end.

(** [setYamlNodeOf] puts [newNode] inside [obj]: the object it leaves and the error. *)
Definition setYamlNodeOf (obj : KubeObject) (newNode : Node) : KubeObject * option error :=
  match toYAML newNode with
  | Err err => (obj, Some ("unexpected error during round-trip YAML parsing (ToYAML): " +:+ err))
  | Ok b =>
      match ParseKubeObject b with
      | Err err => (obj, Some ("unexpected error during round-trip YAML parsing (ParseKubeObject): " +:+ err))
      | Ok obj2 => (obj2, None)
      end
  end.

(** [SetNestedFieldKeepFormatting] is similar to [KubeObject.SetNestedField()], but
    keeps the comments and the order of fields in the YAML wherever possible. *)
Definition SetNestedFieldKeepFormatting (obj : KubeObject) (value : any) (fields : list string)
    : comp (KubeObject * option error) :=
  oldNode ← yamlNodeOf obj;
  let '(obj1, err) :=
    match fields with
    | [] => match NewFromTypedObject value with
            | Err e => (obj, Some e)
            | Ok obj2 => (obj2, None)
            end
    | _ => SetNestedField obj value fields
    end in
  match err with
  | Some e => Done (obj1, Some e)
  | None =>
      newNode ← yamlNodeOf obj1;
      newNode' ← deepCopyFormatting oldNode newNode;
      Done (setYamlNodeOf obj1 newNode')
  end.
End fields.

(** ** Typed access: [KubeObjectExt] and the generic lists *)

(** A Go type [T] the generic functions are instantiated at: what the [reflect]
    package and the scheme know of it, and the decoding of an object into it
    ([o.As(&x)], which leaves a value behind even when it fails). *)
Class GoType `{FnSDK} (T : Type) := {
  go_name : string;
  go_is_struct : bool;
  go_As : KubeObject → T * option error;
  go_any : T → any;
  go_field : T → string → option any;
  go_scheme_gvk : option (string * string)   (** apiVersion and kind in [TheScheme] *)
}.

Section typed.
Context `{!FnSDK} {T : Type} `{!GoType T}.

(** [KubeObjectToStruct] is a lightweight wrapper around [obj.As()]; it returns the
    address of the decoded value also with an error, and nil for a nil object. *)
Definition KubeObjectToStruct (obj : option KubeObject) : option T * option error :=
  match obj with
  | None => (None, Some "cannot convert nil KubeObject")
  | Some o => let '(x, err) := go_As o in (Some x, err)
  end.

Definition validateTypeOrPanic : comp unit :=
  if go_is_struct (T:=T) then Done tt
  else Panic ("type " +:+ go_name (T:=T) +:+ " is not a struct").

(** [KubeObjectExt] embeds its [fn.KubeObject]. *)
Record KubeObjectExt := mkKubeObjectExt { koe_KubeObject : KubeObject }.

Definition GetGoStruct (r : KubeObjectExt) : comp (T * option error) :=
  _ ← validateTypeOrPanic; Done (go_As (koe_KubeObject r)).

Definition NewFromKubeObject (o : option KubeObject) : comp (result KubeObjectExt) :=
  _ ← validateTypeOrPanic;
  match o with
  | None => Done (Err "cannot initialize with a nil object")
  | Some o => Done (Ok (mkKubeObjectExt o))
  end.

Definition NewFromYaml (b : bytes) : comp (result KubeObjectExt) :=
  _ ← validateTypeOrPanic;
  match ParseKubeObject b with
  | Err e => Done (Err e)
  | Ok o => NewFromKubeObject (Some o)
  end.

Definition NewFromGoStruct (x : option T) : comp (result KubeObjectExt) :=
  _ ← validateTypeOrPanic;
  match x with
  | None => Done (Err "cannot initialize with nil pointer")
  | Some x =>
      match NewFromTypedObject (go_any x) with
      | Err e => Done (Err e)
      | Ok o => NewFromKubeObject (Some o)
      end
  end.

Definition getFieldOrPanic (value : T) (fieldName : string) : comp any :=
  if go_is_struct (T:=T) then
    match go_field value fieldName with
    | None => Panic ("type " +:+ go_name (T:=T) +:+ " doesn't have a " +:+ fieldName +:+ " field")
    | Some v => Done v
    end
  else Panic ("type " +:+ go_name (T:=T) +:+ " is not a struct, so it doesn't have a " +:+ fieldName +:+ " field").

Definition SetNestedField_koe (o : KubeObjectExt) (value : any) (fields : list string)
    : comp (KubeObjectExt * option error) :=
  '(o', err) ← SetNestedFieldKeepFormatting (koe_KubeObject o) value fields;
  Done (mkKubeObjectExt o', err).

Definition UnsafeSetSpec o newSpec := SetNestedField_koe o newSpec ["spec"].
Definition UnsafeSetStatus o newStatus := SetNestedField_koe o newStatus ["status"].
Definition SetFromTypedObject (o : KubeObjectExt) (value : T) := SetNestedField_koe o (go_any value) [].
Definition SetSpec (o : KubeObjectExt) (value : T) : comp (KubeObjectExt * option error) :=
  v ← getFieldOrPanic value "Spec"; SetNestedField_koe o v ["spec"].
Definition SetStatus (o : KubeObjectExt) (value : T) : comp (KubeObjectExt * option error) :=
  v ← getFieldOrPanic value "Status"; SetNestedField_koe o v ["status"].

(** *** [lists.go] *)
Definition GetGVKOrPanic : comp (string * string) :=
  match go_scheme_gvk (T:=T) with
  | None => Panic "no kind is registered for the type"
  | Some gvk => Done gvk
  end.

(** The typed objects, the rest, and a potential error. *)
Fixpoint FilterByType (objs : list KubeObject) : comp (result (list T * list KubeObject)) :=
  match objs with
  | [] => Done (Ok ([], []))
  | o :: objs =>
      gvk ← GetGVKOrPanic;
      if IsGroupVersionKind (fst gvk) (snd gvk) o then
        match go_As o with
        | (_, Some err) => Done (Err err)
        | (x, None) =>
            r ← FilterByType objs;
            Done ('(xs, rest) ← r; Ok (x :: xs, rest))
        end
      else
        r ← FilterByType objs;
        Done ('(xs, rest) ← r; Ok (xs, o :: rest))
  end.

Definition GetSingleton (objs : list KubeObject) : comp (result T) :=
  r ← FilterByType objs;
  match r with
  | Err e => Done (Err e)
  | Ok ([x], _) => Done (Ok x)
  | Ok (typedObjs, _) =>
      Done (Err ("expected exactly 1 instance of " +:+ go_name (T:=T) +:+
                 " in the kpt package, but got " +:+ pretty (length typedObjs)))
  end.
End typed.


(** ** What formatting copies must not change *)

(** The string keys of a mapping, in order. *)
Definition field_keys (c : list Node) : list string :=
  omap (λ kv, asString (fst kv)) (pairs c).

(** ** Lemmas *)

Lemma list_pair_ind {A} (P : list A → Prop) :
  P [] → (∀ x, P [x]) → (∀ x y l, P l → P (x :: y :: l)) → ∀ l, P l.
Proof.
  intros H0 H1 H2. assert (∀ l, P l ∧ ∀ x, P (x :: l)) as H; [|intros; apply H].
  induction l as [|y l [IH1 IH2]]; split; auto.
Qed.

Lemma pairs_app (a b : list Node) :
  Nat.even (length a) = true → pairs (a ++ b) = pairs a ++ pairs b.
Proof. induction a as [|x|x y a IH] using list_pair_ind; [done|done|]. intros H. simpl. by rewrite IH. Qed.

Lemma even_app_l {A} (a b : list A) :
  Nat.even (length a) = true → Nat.even (length (a ++ b)) = Nat.even (length b).
Proof. intros H. rewrite length_app, Nat.even_add, H. by destruct (Nat.even (length b)). Qed.

Lemma field_keys_cons k v c :
  field_keys (k :: v :: c) =
  match asString k with Some key => key :: field_keys c | None => field_keys c end.
Proof. done. Qed.

Lemma elem_of_pairs c x :
  Nat.even (length c) = true → x ∈ c ↔ ∃ kv, kv ∈ pairs c ∧ (x = fst kv ∨ x = snd kv).
Proof.
  induction c as [|k|k v c IH] using list_pair_ind; intros Hev; [set_solver|done|].
  simpl in *. rewrite !elem_of_cons, IH by done. split.
  - intros [->|[->|(kv & ? & ?)]]; [exists (k, v)..|exists kv]; set_solver.
  - intros (kv & [->|?]%elem_of_cons & Hx); naive_solver.
Qed.

Lemma findKey_Some u key j :
  findKey u key = Some j →
  ∃ a k b, u = a ++ k :: b ∧ length a = j ∧ Nat.even (length a) = true ∧
           asString k = Some key ∧ key ∉ field_keys a.
Proof.
  revert j. induction u as [|x|x y u IH] using list_pair_ind; intros j; simpl; [done| |].
  - case_decide; [|done]. intros [= <-]. exists [], x, []. repeat split; auto. set_solver.
  - case_decide as Hx; [intros [= <-]; exists [], x, (y :: u); repeat split; auto; set_solver|].
    destruct (findKey u key) as [i|]; [|done]. intros [= <-].
    destruct (IH i eq_refl) as (a & k & b & -> & <- & ? & ? & Hn).
    exists (x :: y :: a), k, b. repeat split; auto.
    unfold field_keys in *. simpl. destruct (asString x) eqn:?; [|done]. set_solver.
Qed.

Lemma findKey_None u key : findKey u key = None → key ∉ field_keys u.
Proof.
  induction u as [|x|x y u IH] using list_pair_ind; simpl; [set_solver|set_solver|].
  case_decide as Hx; [done|]. intros Hf. destruct (findKey u key); [done|].
  unfold field_keys in *. simpl. destruct (asString x) eqn:?; set_solver.
Qed.

Lemma swap_to_front_middle k0 v0 a k v b :
  swap_to_front (S (S (length a))) (k0 :: v0 :: a ++ k :: v :: b) =
  Some (k :: v :: a ++ k0 :: v0 :: b).
Proof.
  unfold swap_to_front. rewrite decide_False by done. simpl.
  assert ((a ++ k :: v :: b) !! length a = Some k) as -> by by apply list_lookup_middle.
  assert ((a ++ k :: v :: b) !! S (length a) = Some v) as ->.
  { rewrite lookup_app_r by lia. by replace (S (length a) - length a) with 1 by lia. }
  simpl. do 3 f_equal.
  pose proof (insert_app_r a (k :: v :: b) 0 k0) as H0. rewrite Nat.add_0_r in H0. rewrite H0.
  pose proof (insert_app_r a (k0 :: v :: b) 1 v0) as H1. rewrite Nat.add_1_r in H1. exact H1.
Qed.

(** Swapping keeps the pairs and puts the found one in front. *)
Lemma swap_to_front_spec u key j :
  Nat.even (length u) = true → findKey u key = Some j →
  ∃ k0 v0 rest, swap_to_front j u = Some (k0 :: v0 :: rest) ∧
    asString k0 = Some key ∧ length u = S (S (length rest)) ∧
    Nat.even (length rest) = true ∧ pairs u ≡ₚ (k0, v0) :: pairs rest.
Proof.
  intros Hev (a & k & b & -> & <- & Ha & Hk & _)%findKey_Some.
  rewrite even_app_l in Hev by done. destruct b as [|v b]; [done|]. simpl in Hev.
  destruct a as [|k0 a]; [exists k, v, b; repeat split; auto|].
  destruct a as [|v0 a]; [done|]. simpl in Ha.
  exists k, v, (a ++ k0 :: v0 :: b). split; [apply swap_to_front_middle|].
  split; [done|]. split; [simpl; rewrite !length_app; simpl; lia|].
  split; [by rewrite even_app_l|].
  simpl. rewrite !pairs_app by done. simpl. rewrite <-!Permutation_middle. by constructor.
Qed.

(** Between a mapping's content and its pairs. *)
Definition unpairs (ps : list (Node * Node)) : list Node := mjoin ((λ kv, [kv.1; kv.2]) <$> ps).

Lemma pairs_unpairs ps : pairs (unpairs ps) = ps.
Proof. induction ps as [|[k v] ps IH]; [done|]. by apply (f_equal (cons (k, v))). Qed.

Lemma unpairs_pairs c : Nat.even (length c) = true → unpairs (pairs c) = c.
Proof.
  induction c as [|k|k v c IH] using list_pair_ind; intros Hev; [done|done|].
  by apply (f_equal (λ c, k :: v :: c)), IH.
Qed.

Lemma length_pairs c : Nat.even (length c) = true → length c = 2 * length (pairs c).
Proof.
  induction c as [|k|k v c IH] using list_pair_ind; intros Hev; [done|done|].
  simpl in *. rewrite (IH Hev) at 1. lia.
Qed.

Section pair_rel.
Context (R : Node → Node → Prop).
Let R2 (a b : Node * Node) : Prop := R a.1 b.1 ∧ R a.2 b.2.

Lemma Forall2_pairs c d : Forall2 R c d → Forall2 R2 (pairs c) (pairs d).
Proof.
  revert d. induction c as [|k|k v c IH] using list_pair_ind; intros d H;
    repeat (apply Forall2_cons_inv_l in H as (? & ? & ? & H & ->) || apply Forall2_nil_inv_l in H as ->);
    simpl; constructor; auto. by split.
Qed.

Lemma Forall2_unpairs ps qs : Forall2 R2 ps qs → Forall2 R (unpairs ps) (unpairs qs).
Proof. unfold unpairs. induction 1 as [|p q ps qs [??] _ IH]; simpl; [done|]. by repeat constructor. Qed.

(** A reordering of the right-hand side can be done on the left first. *)
Lemma reordered_commute k c1 c' c2 :
  Forall2 R c1 c' → reordered k c' c2 → ∃ c1', reordered k c1 c1' ∧ Forall2 R c1' c2.
Proof.
  intros HF [<-|(-> & Hev & Hlen & Hp)]; [exists c1; by split; [left|]|].
  pose proof (Forall2_length _ _ _ HF) as Hl.
  apply Forall2_pairs, Forall2_flip in HF.
  destruct (Permutation_Forall2 Hp HF) as (p1 & Hp1 & HF1).
  assert (Hev2 : Nat.even (length c2) = true) by by rewrite <-Hlen.
  assert (length p1 = length (pairs c2)) as Hl2.
  { symmetry. by eapply Forall2_length. }
  exists (unpairs p1). split.
  - right. split; [done|]. split; [by rewrite Hl|]. rewrite pairs_unpairs. split; [|done].
    rewrite Hl, Hlen, (length_pairs c2 Hev2), <-Hl2, (length_pairs (unpairs p1)); [by rewrite pairs_unpairs|].
    clear. induction p1; [done|]. exact IHp1.
  - rewrite <-(unpairs_pairs c2 Hev2). apply Forall2_unpairs, Forall2_flip, HF1.
Qed.
End pair_rel.

Lemma reordered_trans k c1 c2 c3 : reordered k c1 c2 → reordered k c2 c3 → reordered k c1 c3.
Proof.
  intros [->|(-> & ? & Hl & Hp)]; [done|]. intros [->|(_ & ? & Hl' & Hp')]; right; [done|].
  repeat split; [done|congruence|]. by rewrite Hp.
Qed.

Lemma same_data_refl n : same_data n n.
Proof.
  induction n as [k t v h l f c IH] using Node_ind'. econstructor; [by left|].
  induction IH; constructor; auto.
Qed.

Lemma same_data_list_refl c : Forall2 same_data c c.
Proof. apply Forall2_same_length_lookup. split; [done|]. intros; simplify_eq. apply same_data_refl. Qed.
#[export] Hint Resolve same_data_refl same_data_list_refl : nephio.

Lemma same_data_trans n1 n2 n3 : same_data n1 n2 → same_data n2 n3 → same_data n1 n3.
Proof.
  revert n1 n2. induction n3 as [k t v h l f c IH] using Node_ind'. intros n1 n2 H1 H2.
  inversion H2 as [? ? ? h2 l2 f2 ? ? ? c2 d2 ? Hr2 HF2]; subst.
  inversion H1 as [? ? ? h1 l1 f1 ? ? ? c1 d1 ? Hr1 HF1]; subst.
  destruct (reordered_commute same_data k d1 c2 d2 HF1 Hr2) as (d3 & Hr3 & HF3).
  econstructor; [by eapply reordered_trans|].
  clear -IH HF2 HF3. revert d2 d3 HF2 HF3.
  induction IH as [|x c Hx _ IHc]; intros d2 d3 HF2 HF3.
  - apply Forall2_nil_inv_r in HF2 as ->. by apply Forall2_nil_inv_r in HF3 as ->.
  - apply Forall2_cons_inv_r in HF2 as (y & d2' & ? & ? & ->).
    apply Forall2_cons_inv_r in HF3 as (z & d3' & ? & ? & ->). constructor; eauto.
Qed.

Lemma same_data_comments src n : same_data n (shallowCopyComments src n).
Proof. destruct n. econstructor; [by left|]. auto with nephio. Qed.
#[export] Hint Resolve same_data_comments : nephio.

Lemma well_formed_comments src n : well_formed (shallowCopyComments src n) = well_formed n.
Proof. by destruct n. Qed.

(** *** The map loop *)
Section map_loop.
Context (dcf : Node → Node → comp Node).

Lemma map_loop_same_data sc u u' :
  Forall (λ s, ∀ d d', dcf s d = Done d' → same_data d d') sc →
  Nat.even (length u) = true →
  map_loop dcf sc u = Done u' →
  ∃ u1, length u = length u1 ∧ pairs u ≡ₚ pairs u1 ∧ Forall2 same_data u1 u'.
Proof.
  revert u u'. induction sc as [|k|k v sc IH] using list_pair_ind;
    intros u u' Hdcf Hev Hrun; simpl in Hrun; [simplify_eq; eauto with nephio..|].
  apply Forall_cons in Hdcf as [_ [Hv Hdcf]%Forall_cons].
  destruct (asString k) as [key|]; [|by eapply IH].
  destruct (findKey u key) as [j|] eqn:Hf; [|by eapply IH].
  destruct (swap_to_front_spec u key j Hev Hf) as (k0 & v0 & rest & Hsw & _ & Hlen & Hevr & Hp).
  rewrite Hsw in Hrun.
  apply comp_bind_Done in Hrun as (v0' & Hv0 & Hrun).
  apply comp_bind_Done in Hrun as (rest' & Hrest & [= <-]).
  destruct (IH rest rest' Hdcf Hevr Hrest) as (r1 & Hl1 & Hp1 & HF).
  exists (k0 :: v0 :: r1). split; [simpl; lia|]. split; [by rewrite Hp, Hp1|].
  repeat constructor; auto with nephio.
Qed.

(** Fields of [src] that are in [dst] come first, in the order of [src]. *)
Lemma map_loop_order sc u u' :
  Nat.even (length sc) = true → Nat.even (length u) = true →
  NoDup (field_keys sc) → NoDup (field_keys u) →
  map_loop dcf sc u = Done u' →
  ∃ rest, field_keys u' = filter (λ k, k ∈ field_keys u) (field_keys sc) ++ rest ∧
          ∀ k, k ∈ rest ↔ k ∈ field_keys u ∧ k ∉ field_keys sc.
Proof.
  revert u u'. induction sc as [|k|k v sc IH] using list_pair_ind;
    intros u u' Hevs Hev Hnds Hndu Hrun; simpl in Hrun; [|done|].
  { simplify_eq. exists (field_keys u'). split; [done|]. intros k. set_solver. }
  simpl in Hevs. rewrite field_keys_cons in Hnds |- *.
  destruct (asString k) as [key|] eqn:Hk; [|by apply IH].
  apply NoDup_cons in Hnds as [Hnk Hnds].
  destruct (findKey u key) as [j|] eqn:Hf.
  2:{ destruct (IH u u') as (rest & Hu' & Hr); auto. exists rest.
      rewrite filter_cons_False by by apply findKey_None. split; [done|].
      intros x. rewrite Hr. pose proof (findKey_None _ _ Hf). set_solver. }
  destruct (swap_to_front_spec u key j Hev Hf) as (k0 & v0 & rst & Hsw & Hk0 & Hlen & Hevr & Hp).
  rewrite Hsw in Hrun.
  apply comp_bind_Done in Hrun as (v0' & Hv0 & Hrun).
  apply comp_bind_Done in Hrun as (rst' & Hrest & [= <-]).
  assert (field_keys u ≡ₚ key :: field_keys rst) as Hfk.
  { unfold field_keys. rewrite Hp. simpl. by rewrite Hk0. }
  rewrite Hfk in Hndu. apply NoDup_cons in Hndu as [Hkr Hndr].
  destruct (IH rst rst') as (rest & Hu' & Hr); auto.
  exists rest. split; [|intros x; rewrite Hr, Hfk; set_solver].
  rewrite filter_cons_True by (rewrite Hfk; set_solver).
  rewrite field_keys_cons. change (asString (shallowCopyComments k k0)) with (asString k0).
  rewrite Hk0, Hu'. simpl. do 2 f_equal.
  apply filter_ext_elem. intros x Hx. rewrite Hfk. set_solver.
Qed.

Lemma map_loop_total sc u :
  Forall (λ s, ∀ d, well_formed d = true → ∃ d', dcf s d = Done d' ∧ well_formed d' = true) sc →
  Nat.even (length u) = true → forallb well_formed u = true →
  ∃ u', map_loop dcf sc u = Done u' ∧ length u' = length u ∧ forallb well_formed u' = true.
Proof.
  revert u. induction sc as [|k|k v sc IH] using list_pair_ind;
    intros u Hdcf Hev Hwf; simpl; [by eauto..|].
  apply Forall_cons in Hdcf as [_ [Hv Hdcf]%Forall_cons].
  destruct (asString k) as [key|]; [|by apply IH].
  destruct (findKey u key) as [j|] eqn:Hf; [|by apply IH].
  destruct (swap_to_front_spec u key j Hev Hf) as (k0 & v0 & rst & -> & _ & Hlen & Hevr & Hp).
  assert (Hwf' : forallb well_formed (k0 :: v0 :: rst) = true).
  { rewrite forallb_forall in Hwf |- *. intros x Hx%list_elem_of_In. apply Hwf, list_elem_of_In.
    apply (elem_of_pairs _ _ Hev). setoid_rewrite Hp. by apply (elem_of_pairs (k0 :: v0 :: rst)). }
  simpl in Hwf'. apply andb_true_iff in Hwf' as [Hwk [Hwv Hwr]%andb_true_iff].
  destruct (Hv v0 Hwv) as (v0' & -> & Hv0').
  destruct (IH rst Hdcf Hevr Hwr) as (rst' & -> & Hl & Hr). simpl.
  eexists. split; [done|]. split; [simpl; lia|].
  cbn [forallb]. by rewrite well_formed_comments, Hwk, Hv0', Hr.
Qed.
End map_loop.

(** *** The list loop *)

(** [shouldCopyFormatting] returns on well-formed trees. *)
Lemma should_fields_total should sc dc :
  Forall (λ s, ∀ d, well_formed d = true → ∃ b, should s d = Done b) sc →
  Nat.even (length sc) = true → Nat.even (length dc) = true → forallb well_formed dc = true →
  ∃ b, should_fields should sc dc = Done b.
Proof.
  induction sc as [|k|k v sc IH] using list_pair_ind; intros Hs Hev Hevd Hwf; simpl in *; [by eauto|done|].
  apply Forall_cons in Hs as [_ [Hv Hs]%Forall_cons].
  destruct (asString k) as [key|]; [|by eauto].
  destruct (findKey dc key) as [j|] eqn:Hf; [|by eauto].
  apply findKey_Some in Hf as (a & x & b & -> & <- & Ha & _).
  rewrite even_app_l in Hevd by done. destruct b as [|y b]; [done|].
  rewrite lookup_app_r by lia. replace (S (length a) - length a) with 1 by lia. simpl.
  rewrite forallb_app in Hwf. simpl in Hwf. rewrite !andb_true_iff in Hwf.
  destruct (Hv y) as [c ->]; [naive_solver|]. destruct c; simpl; [|by eauto].
  apply IH; auto; [by rewrite even_app_l|]. rewrite forallb_app. simpl. rewrite !andb_true_iff. naive_solver.
Qed.

Lemma shouldCopyFormatting_total src dst :
  well_formed src = true → well_formed dst = true → ∃ b, shouldCopyFormatting src dst = Done b.
Proof.
  revert dst. induction src as [k t v h l f c IH] using Node_ind'. intros dst Hs Hd. simpl in *.
  apply andb_true_iff in Hs as [Hk Hc].
  destruct (decide (k ≠ n_Kind dst)) as [Hkd|Hkd%dec_stable]; [by eauto|].
  destruct k; try by eauto. destruct dst as [k' t' v' h' l' f' c']. simpl in *. subst k'.
  apply andb_true_iff in Hd as [Hk' Hc']. unfold odd_content. simpl. rewrite Hk, Hk'. simpl.
  apply should_fields_total; auto. rewrite forallb_forall in Hc. rewrite Forall_forall in IH |- *.
  intros x Hx d Hd. apply IH; auto. by apply Hc, list_elem_of_In.
Qed.

Lemma findMatchingItem_total s dc :
  well_formed s = true → forallb well_formed dc = true →
  ∃ r, findMatchingItemForFormattingCopy s dc = Done r ∧ ∀ j, r = Some j → j < length dc.
Proof.
  intros Hs. induction dc as [|d dc IH]; simpl; intros Hwf; [by exists None|].
  apply andb_true_iff in Hwf as [Hd Hwf].
  destruct (shouldCopyFormatting_total s d Hs Hd) as [[] ->]; simpl.
  { eexists; split; [done|]. intros j [= <-]. lia. }
  destruct (IH Hwf) as (r & -> & Hr). simpl. eexists; split; [done|].
  intros j. destruct r as [i|]; [|done]. intros [= <-]. specialize (Hr i eq_refl). lia.
Qed.

Lemma list_loop_total dcf sc dc :
  Forall (λ s, well_formed s = true ∧
               ∀ d, well_formed d = true → ∃ d', dcf s d = Done d' ∧ well_formed d' = true) sc →
  forallb well_formed dc = true →
  ∃ dc', list_loop dcf sc dc = Done dc' ∧ length dc' = length dc ∧ forallb well_formed dc' = true.
Proof.
  revert dc. induction sc as [|s sc IH]; intros dc Hsc Hwf; simpl; [by eauto|].
  apply Forall_cons in Hsc as [[Hs Hdcf] Hsc].
  destruct (findMatchingItem_total s dc Hs Hwf) as ([j|] & -> & Hj); simpl; [|by apply IH].
  destruct (lookup_lt_is_Some_2 dc j) as [d Hd]; [by apply Hj|]. rewrite Hd.
  assert (Hwd : well_formed d = true).
  { rewrite forallb_forall in Hwf. by eapply Hwf, list_elem_of_In, list_elem_of_lookup_2. }
  destruct (Hdcf d Hwd) as (d' & -> & Hd'). simpl.
  destruct (IH (<[j:=d']> dc)) as (dc' & -> & Hl & Hw); [done| |].
  - rewrite forallb_forall in Hwf |- *. intros x Hx%list_elem_of_In.
    apply list_elem_of_lookup in Hx as [i Hi].
    apply list_lookup_insert_Some in Hi as [(-> & -> & _)|[_ Hi]]; [done|].
    by eapply Hwf, list_elem_of_In, list_elem_of_lookup_2.
  - exists dc'. by rewrite Hl, length_insert.
Qed.

Lemma list_loop_same_data dcf sc dc dc' :
  Forall (λ s, ∀ d d', dcf s d = Done d' → same_data d d') sc →
  list_loop dcf sc dc = Done dc' → Forall2 same_data dc dc'.
Proof.
  intros Hsc. revert dc. induction Hsc as [|s sc Hs _ IH]; intros dc Hrun; simpl in Hrun;
    [simplify_eq; auto with nephio|].
  apply comp_bind_Done in Hrun as ([j|] & _ & Hrun); [|by apply IH].
  destruct (dc !! j) as [d|] eqn:Hj; [|done].
  apply comp_bind_Done in Hrun as (d' & Hd & Hrun). apply IH in Hrun.
  eapply Forall2_trans; [apply same_data_trans| |exact Hrun].
  rewrite <-(list_insert_id dc j d) at 1 by done.
  apply Forall2_insert; auto with nephio.
Qed.

(** *** The recursion *)

Lemma deepCopyFormatting_data src dst dst' :
  deepCopyFormatting src dst = Done dst' → same_data dst dst'.
Proof.
  revert dst dst'. induction src as [k t v h l f c IH] using Node_ind'. intros [k' t' v' h' l' f' c'] dst' Hrun.
  simpl in Hrun. destruct (decide (k ≠ k')) as [|<-%dec_stable]; [simplify_eq; auto with nephio|].
  destruct k.
  - destruct c as [|s [|]], c' as [|d [|]];
      try (apply comp_bind_Done in Hrun as (c'' & Hc%list_loop_same_data & [= <-]); [|done];
           by econstructor; [left|]).
    apply comp_bind_Done in Hrun as (d' & Hd & [= <-]). apply Forall_cons in IH as [IH _].
    econstructor; [by left|]. repeat constructor. by apply IH.
  - apply comp_bind_Done in Hrun as (c'' & Hc%list_loop_same_data & [= <-]); [|done].
    by econstructor; [left|].
  - unfold copyMapFormatting in Hrun. case_match eqn:Hev; [done|].
    apply orb_false_iff in Hev as [_ Hev]. unfold odd_content in Hev. simpl in Hev.
    apply negb_false_iff in Hev.
    apply comp_bind_Done in Hrun as (c'' & Hc & [= <-]).
    apply map_loop_same_data in Hc as (u1 & ? & ? & ?); auto.
    econstructor; [right|]; eauto.
  - simplify_eq. apply same_data_comments.
  - simplify_eq. apply same_data_comments.
  - simplify_eq. apply same_data_comments.
Qed.

(** The content of a destination mapping after a copy, when it succeeds. *)
Lemma deepCopyFormatting_map t v h l f c t' v' h' l' f' c' dst' :
  deepCopyFormatting (mkNode MappingNode t v h l f c) (mkNode MappingNode t' v' h' l' f' c') = Done dst' →
  ∃ c'', Nat.even (length c) = true ∧ Nat.even (length c') = true ∧
    map_loop deepCopyFormatting c c' = Done c'' ∧ dst' = mkNode MappingNode t' v' h l f c''.
Proof.
  simpl. unfold copyMapFormatting, odd_content. simpl. intros H. case_match eqn:Hev; [done|].
  apply orb_false_iff in Hev as [?%negb_false_iff ?%negb_false_iff].
  apply comp_bind_Done in H as (c'' & ? & [= <-]). by exists c''.
Qed.

Lemma deepCopyFormatting_total src dst :
  well_formed src = true → well_formed dst = true →
  ∃ dst', deepCopyFormatting src dst = Done dst' ∧ well_formed dst' = true.
Proof.
  revert dst. induction src as [k t v h l f c IH] using Node_ind'. intros [k' t' v' h' l' f' c'] Hs Hd.
  simpl in Hs, Hd. apply andb_true_iff in Hs as [Hk Hc], Hd as [Hk' Hc'].
  assert (Forall (λ s, well_formed s = true ∧ ∀ d, well_formed d = true →
            ∃ d', deepCopyFormatting s d = Done d' ∧ well_formed d' = true) c) as Hsub.
  { rewrite forallb_forall in Hc. rewrite Forall_forall in IH |- *. intros x Hx.
    split; [by apply Hc, list_elem_of_In|]. intros d. apply IH; [done|by apply Hc, list_elem_of_In]. }
  simpl. destruct (decide (k ≠ k')) as [|<-%dec_stable].
  { eexists; split; [done|]. simpl. by rewrite Hk', Hc'. }
  destruct k; try (eexists; split; [done|]; simpl; by rewrite ?Hk', ?Hc').
  - assert (∃ dst', copyListFormatting deepCopyFormatting (mkNode DocumentNode t v h l f c) c
              (mkNode DocumentNode t' v' h' l' f' c') = Done dst' ∧ well_formed dst' = true) as Hlist.
    { unfold copyListFormatting. simpl.
      destruct (list_loop_total deepCopyFormatting c c' Hsub Hc') as (c'' & -> & _ & Hw).
      eexists; split; [done|]. done. }
    destruct c as [|s [|]], c' as [|d [|]]; try exact Hlist.
    simpl in Hc'. rewrite andb_true_r in Hc'. apply Forall_cons in Hsub as [[_ Hs] _].
    destruct (Hs d Hc') as (d' & -> & Hd'). eexists; split; [done|]. simpl. by rewrite Hd'.
  - unfold copyListFormatting. simpl.
    destruct (list_loop_total deepCopyFormatting c c' Hsub Hc') as (c'' & -> & _ & Hw).
    eexists; split; [done|]. done.
  - unfold copyMapFormatting, odd_content. simpl. rewrite Hk, Hk'. simpl.
    destruct (map_loop_total deepCopyFormatting c c') as (c'' & -> & Hl & Hw); auto.
    { eapply Forall_impl; [exact Hsub|]. by intros ? []. }
    eexists; split; [done|]. simpl. by rewrite Hl, Hk', Hw.
Qed.

(** *** Field updates *)
Section field_lemmas.
Context `{!FnSDK, !FnSDKLaws}.

Lemma yamlNodeOf_spec o :
  ∃ n, yamlNodeOf o = Done n ∧ n_Kind n = MappingNode ∧ well_formed n = true ∧
    ∀ n', same_data n n' → ∃ o', setYamlNodeOf o n' = (o', None) ∧ same_view o o'.
Proof.
  destruct (object_yaml o) as (n & Hk & Hwf & Hdec). exists n.
  assert (∀ n', same_data n n' → ∃ o', setYamlNodeOf o n' = (o', None) ∧ same_view o o') as Hset.
  { intros n' Hn'. assert (∃ b o', Encode n' = Ok b ∧ ParseKubeObject b = Ok o' ∧ same_view o o')
      as (b & o' & He & Hp & Hv).
    { destruct Hdec as [Hd|(t & v & h & l & f & Hd)].
      - by apply (yaml_object o "" "" "" "" "" n n'); auto.
      - by apply (yaml_object o t v h l f n n'); auto. }
    exists o'. split; [|done]. unfold setYamlNodeOf, toYAML.
    rewrite decide_False; [by rewrite He, Hp|].
    destruct Hn'. simpl in Hk. subst. naive_solver. }
  unfold yamlNodeOf, parseFirstObj.
  destruct Hdec as [->|(t & v & h & l & f & ->)]; simpl; [|done].
  rewrite decide_False; [done|]. by rewrite Hk.
Qed.

Lemma SetNestedFieldKeepFormatting_ok o value fields o1 :
  fields ≠ [] → SetNestedField o value fields = (o1, None) →
  ∃ o2, SetNestedFieldKeepFormatting o value fields = Done (o2, None) ∧ same_view o1 o2.
Proof.
  intros Hf Hset. unfold SetNestedFieldKeepFormatting.
  destruct (yamlNodeOf_spec o) as (n & -> & _ & Hn & _). simpl.
  destruct fields as [|f fs]; [done|]. rewrite Hset.
  destruct (yamlNodeOf_spec o1) as (n1 & -> & _ & Hn1 & Hback). simpl.
  destruct (deepCopyFormatting_total n n1 Hn Hn1) as (n2 & Hcopy & _). rewrite Hcopy. simpl.
  destruct (Hback n2) as (o2 & -> & Hv); [by eapply deepCopyFormatting_data|]. by exists o2.
Qed.

Lemma SetNestedFieldKeepFormatting_err o value fields o1 e :
  fields ≠ [] → SetNestedField o value fields = (o1, Some e) →
  SetNestedFieldKeepFormatting o value fields = Done (o1, Some e).
Proof.
  intros Hf Hset. unfold SetNestedFieldKeepFormatting.
  destruct (yamlNodeOf_spec o) as (n & -> & _). simpl.
  destruct fields as [|f fs]; [done|]. by rewrite Hset.
Qed.
End field_lemmas.
