(* ===== verification/SdkModel.v ===== *)
(** * A concrete instance of the SDK interface

    [Model.sdk] satisfies [FnSDKLaws]: it shows that the laws can hold together and
    lets witnesses evaluate.  An object is a record; its YAML text is a tree that
    holds the record's parts in order. *)
From S2P Require Import Prelude External KubeObjectLib.

Module Model.

Record obj := mkObj {
  o_api : string; o_kind : string; o_name : string; o_ns : string;
  o_ann : gmap string string;
  o_conds : list Condition;
  o_gates : list ReadinessGate;
  o_spec : option string;
  o_extra : gmap string string
}.

Inductive value := VConds (cs : list Condition) | VGates (gs : list ReadinessGate)
  | VString (s : string) | VObject (o : obj).

(** ** The YAML tree of an object *)
Definition scalar (s : string) : Node := mkNode ScalarNode "!!str" s "" "" "" [].
Definition seqn (c : list Node) : Node := mkNode SequenceNode "!!seq" "" "" "" "" c.

Definition strings_node (m : gmap string string) : Node :=
  seqn ((λ kv, seqn [scalar kv.1; scalar kv.2]) <$> map_to_list m).
Definition cond_node (c : Condition) : Node :=
  seqn [scalar (Type_ c); scalar (Status c); scalar (Reason c); scalar (Message c)].
Definition spec_node (s : option string) : Node :=
  match s with None => seqn [] | Some s => seqn [scalar s] end.

Definition to_node (o : obj) : Node :=
  mkNode MappingNode "!!map" "" "" "" "" [scalar "object";
    seqn [scalar (o_api o); scalar (o_kind o); scalar (o_name o); scalar (o_ns o);
          strings_node (o_ann o); seqn (cond_node <$> o_conds o);
          seqn ((λ g, scalar (ConditionType g)) <$> o_gates o);
          spec_node (o_spec o); strings_node (o_extra o)]].

Definition pair_of (n : Node) : string * string :=
  match n_Content n with [a; b] => (n_Value a, n_Value b) | _ => ("", "") end.
Definition strings_of (n : Node) : gmap string string := list_to_map (pair_of <$> n_Content n).
Definition cond_of (n : Node) : Condition :=
  match n_Content n with
  | [a; b; c; d] => mkCondition (n_Value a) (n_Value b) (n_Value c) (n_Value d)
  | _ => mkCondition "" "" "" ""
  end.
Definition spec_of (n : Node) : option string :=
  match n_Content n with [s] => Some (n_Value s) | _ => None end.

Definition from_node (n : Node) : result obj :=
  match n_Content n with
  | [_; b] =>
      match n_Content b with
      | [a; k; nm; ns; ann; cs; gs; sp; ex] =>
          Ok (mkObj (n_Value a) (n_Value k) (n_Value nm) (n_Value ns) (strings_of ann)
                (cond_of <$> n_Content cs) ((λ g, mkReadinessGate (n_Value g)) <$> n_Content gs)
                (spec_of sp) (strings_of ex))
      | _ => Err "not an object"
      end
  | _ => Err "not an object"
  end.

(** Comments do not matter to [from_node]. *)
Fixpoint erase (n : Node) : Node :=
  match n with mkNode k t v _ _ _ c => mkNode k t v "" "" "" (map erase c) end.

(** ** The operations *)
Fixpoint upsert {A} (same : A → A → bool) (o : A) (l : list A) : list A :=
  match l with
  | [] => [o]
  | x :: l => if same o x then o :: l else x :: upsert same o l
  end.

Definition obj_same (o1 o2 : obj) : bool :=
  bool_decide (o_api o1 = o_api o2 ∧ o_kind o1 = o_kind o2 ∧ o_name o1 = o_name o2 ∧ o_ns o1 = o_ns o2).

Definition put_conds (o : obj) cs := mkObj (o_api o) (o_kind o) (o_name o) (o_ns o) (o_ann o)
  cs (o_gates o) (o_spec o) (o_extra o).
Definition put_gates (o : obj) gs := mkObj (o_api o) (o_kind o) (o_name o) (o_ns o) (o_ann o)
  (o_conds o) gs (o_spec o) (o_extra o).
Definition put_ann (o : obj) k v := mkObj (o_api o) (o_kind o) (o_name o) (o_ns o)
  (<[k := v]> (o_ann o)) (o_conds o) (o_gates o) (o_spec o) (o_extra o).
Definition put_extra (o : obj) k v := mkObj (o_api o) (o_kind o) (o_name o) (o_ns o)
  (o_ann o) (o_conds o) (o_gates o) (o_spec o) (<[k := v]> (o_extra o)).

Definition join (path : list string) : string := foldr (λ f s, f +:+ "." +:+ s) "" path.

Definition put_field (o : obj) (v : value) (path : list string) : obj * option error :=
  match v with
  | VConds cs => if decide (path = ["status"; "conditions"]) then (put_conds o cs, None)
                 else (o, Some "not a list field")
  | VGates gs => if decide (path = ["info"; "readinessGates"]) then (put_gates o gs, None)
                 else (o, Some "not a list field")
  | VString s => (put_extra o (join path) s, None)
  | VObject _ => (o, Some "not a field value")
  end.

Definition parse_gv (s : string) : result GroupVersion :=
  match split_on slash s with
  | [v] => Ok (mkGroupVersion "" v)
  | [g; v] => Ok (mkGroupVersion g v)
  | _ => Err ("unexpected GroupVersion string: " +:+ s)
  end.

Definition gv_string (gv : GroupVersion) : string :=
  if decide (gv_Group gv = "") then gv_Version gv
  else gv_Group gv +:+ String slash (gv_Version gv).

Definition ref_string (r : ObjectReference) : string :=
  "&ObjectReference{Kind:" +:+ Kind r +:+ ",Namespace:" +:+ Namespace r +:+ ",Name:" +:+ Name r +:+
  ",UID:" +:+ UID r +:+ ",APIVersion:" +:+ APIVersion r +:+ ",ResourceVersion:" +:+
  ResourceVersion r +:+ ",FieldPath:" +:+ FieldPath r +:+ ",}".

#[export] Instance sdk : FnSDK := {
  KubeObject := obj;
  zeroKubeObject := mkObj "" "" "" "" ∅ [] [] None ∅;
  GetAPIVersion := o_api; GetKind := o_kind; GetName := o_name; GetNamespace := o_ns;
  GetAnnotations := o_ann;
  GetAnnotation o k := default "" (o_ann o !! k);
  SetAnnotation o k v := (put_ann o k v, None);
  IsGroupVersionKind a k o := bool_decide (o_api o = a ∧ o_kind o = k);
  specMap := string;
  NestedSpec o := Ok (o_spec o);
  cmp_Diff s1 s2 := if decide (s1 = s2) then "" else "differs";
  GetRootKptfile _ deref l := List.find (λ p, bool_decide (o_kind (deref p) = "Kptfile")) l;
  UpsertObjectToItems _ deref o l := (upsert (λ p q, obj_same (deref p) (deref q)) o l, None);
  Results := list string;
  Results_ErrorE e l := l ++ [e];
  Results_Errorf e l := l ++ [e];
  Results_Infof e l := l ++ [e];
  any := value;
  any_conditions := VConds;
  any_gates := VGates;
  SetNestedField := put_field;
  NewFromTypedObject v := match v with VObject o => Ok o | _ => Err "not an object" end;
  UpsertMap o _ := o;
  As_conditions o := Ok (o_conds o);
  As_readinessGates o := Ok (o_gates o);
  bytes := Node;
  SubObject_String := to_node;
  ParseKubeObject n := from_node (erase n);
  Decode := DecNode;
  Encode n := Ok n;
  ParseGroupVersion := parse_gv;
  GroupVersion_String := gv_string;
  ObjectReference_String := ref_string;
  fmt_Errorf1 f a := f +:+ "%!(EXTRA string=" +:+ a +:+ ")"
}.

(** ** The laws *)

(** Trees whose mappings have at most one field: reordering cannot change them. *)
Fixpoint small (n : Node) : bool :=
  match n with
  | mkNode k _ _ _ _ _ c =>
      (if decide (k = MappingNode) then bool_decide (length c = 2) else true) && forallb small c
  end.

Lemma reordered_two k c c1 :
  reordered k c c1 → (k = MappingNode → length c = 2) → c = c1.
Proof.
  intros [->|(-> & _ & Hl & Hp)] H2; [done|]. specialize (H2 eq_refl).
  destruct c as [|a [|b [|]]], c1 as [|a' [|b' [|]]]; simplify_eq/=; try lia.
  apply Permutation_singleton_inj in Hp. by simplify_eq.
Qed.

Lemma same_data_erase n n' : same_data n n' → small n = true → erase n = erase n'.
Proof.
  revert n. induction n' as [k t v h l f c' IH] using Node_ind'. intros n Hn Hs.
  inversion Hn as [? ? ? h1 l1 f1 ? ? ? c c1 ? Hr HF]; subst. simpl in Hs |- *.
  apply andb_true_iff in Hs as [Hk Hc].
  assert (c = c1) as <-.
  { eapply reordered_two; [done|]. intros ->. by apply bool_decide_eq_true in Hk. }
  f_equal. clear -IH Hc HF. revert IH Hc. induction HF as [|x y c c' Hxy HF IHF]; [done|].
  intros [Hy IH]%Forall_cons [Hx Hc]%andb_true_iff. simpl. f_equal; auto.
Qed.

Lemma forallb_fmap {A B} (p : B → bool) (f : A → B) l :
  (∀ x, p (f x) = true) → forallb p (f <$> l) = true.
Proof. intros Hp. induction l as [|x l IH]; [done|]. simpl. by rewrite Hp. Qed.

Lemma small_to_node o : small (to_node o) = true.
Proof. unfold to_node, strings_node. simpl. rewrite !forallb_fmap by done. by destruct (o_spec o). Qed.

Lemma well_formed_to_node o : well_formed (to_node o) = true.
Proof. unfold to_node, strings_node. simpl. rewrite !forallb_fmap by done. by destruct (o_spec o). Qed.

Lemma map_erase_fmap {A} (f : A → Node) l : (∀ x, erase (f x) = f x) → map erase (f <$> l) = f <$> l.
Proof. intros Hf. induction l as [|x l IH]; [done|]. apply (f_equal2 cons); [apply Hf|exact IH]. Qed.

Lemma erase_to_node o : erase (to_node o) = to_node o.
Proof. unfold to_node, strings_node. simpl. rewrite !map_erase_fmap by done. by destruct (o_spec o). Qed.

Lemma fmap_inverse {A B} (f : A → B) (g : B → A) (l : list A) : (∀ x, g (f x) = x) → g <$> (f <$> l) = l.
Proof. intros Hgf. induction l as [|x l IH]; [done|]. by rewrite !fmap_cons, Hgf, IH. Qed.

Lemma strings_of_node m : strings_of (strings_node m) = m.
Proof.
  unfold strings_of, strings_node. cbn [n_Content seqn].
  rewrite fmap_inverse; [apply list_to_map_to_list|by intros []].
Qed.

Lemma from_to_node o : from_node (to_node o) = Ok o.
Proof.
  unfold from_node, to_node. cbn [n_Content n_Value scalar seqn].
  rewrite !strings_of_node, !fmap_inverse; [|by intros []..].
  by destruct o as [? ? ? ? ? ? ? [] ?].
Qed.

Lemma upsert_replace {A} (p : A → A → bool) o l1 x l2 :
  p o x = true → Forall (λ y, p o y = false) l1 → upsert p o (l1 ++ x :: l2) = l1 ++ o :: l2.
Proof. intros Hx. induction 1 as [|y l1 Hy _ IH]; simpl; [by rewrite Hx|]. by rewrite Hy, IH. Qed.

Lemma upsert_append {A} (p : A → A → bool) o l : Forall (λ y, p o y = false) l → upsert p o l = l ++ [o].
Proof. induction 1 as [|y l1 Hy _ IH]; simpl; [done|]. by rewrite Hy, IH. Qed.

#[export] Instance sdk_laws : FnSDKLaws.
Proof.
  constructor; simpl.
  - done.
  - intros o k v o' [= <-]. done.
  - intros s1 s2. by case_decide.
  - intros A deref l p Hp. apply List.find_some in Hp as [Hp _]. by apply list_elem_of_In.
  - intros. by rewrite upsert_replace.
  - intros. by rewrite upsert_append.
  - intros o. exists (to_node o). split_and!; [done|apply well_formed_to_node|by left].
  - intros o t v h l f n n' Hn [[= <-]|[=]] Hsd.
    exists n', o. split_and!; [done| |done].
    rewrite <-(same_data_erase _ _ Hsd (small_to_node o)), erase_to_node. apply from_to_node.
  - intros o cs o' [= <-]. done.
  - intros o gs o' [= <-]. done.
  - intros o v path o' e. unfold put_field. intros Hp. assert (o' = o) as -> by (repeat case_match; congruence). done.
  - done.
  - intros g v Hg Hv. unfold parse_gv. by rewrite split_on_sep, split_on_no_sep.
  - intros v Hv Hne. unfold parse_gv. by rewrite split_on_no_sep.
  - intros g v Hg. unfold gv_string. by rewrite decide_False.
  - done.
  - done.
  - intros o. by rewrite bool_decide_true.
Qed.

End Model.
