(* ===== verification/KubeObjectTheorems.v ===== *)
(** * Theorems on [krm-functions/lib/kubeobject]

    Formatting copies keep the data, restore the order of map fields and never panic
    on parsed YAML; a field update that keeps the formatting stores the same data as
    the SDK's plain update; the generic list functions. *)
From S2P Require Import Prelude External KubeObjectLib SdkModel.

(** copying the formatting of one parsed YAML tree onto another never panics, and
    the result has exactly the data of the destination: kinds, tags, values, list
    items in their order and the fields of every map. *)
Theorem deepCopyFormatting_keeps_data src dst :
  well_formed src = true → well_formed dst = true →
  ∃ dst', deepCopyFormatting src dst = Done dst' ∧ same_data dst dst' ∧ well_formed dst' = true.
Proof.
  intros Hs Hd. destruct (deepCopyFormatting_total src dst Hs Hd) as (dst' & Hrun & Hwf).
  exists dst'. split_and!; [done|by eapply deepCopyFormatting_data|done].
Qed.

(** after copying the formatting of a map with unique keys, the fields that the
    source has too come first, in the order of the source; the fields that only the
    destination has follow; and the map carries the source's comments. *)
Theorem deepCopyFormatting_restores_order src dst dst' :
  n_Kind src = MappingNode → n_Kind dst = MappingNode →
  NoDup (field_keys (n_Content src)) → NoDup (field_keys (n_Content dst)) →
  deepCopyFormatting src dst = Done dst' →
  (∃ rest, field_keys (n_Content dst') =
     filter (λ k, k ∈ field_keys (n_Content dst)) (field_keys (n_Content src)) ++ rest ∧
     ∀ k, k ∈ rest ↔ k ∈ field_keys (n_Content dst) ∧ k ∉ field_keys (n_Content src)) ∧
  n_HeadComment dst' = n_HeadComment src ∧ n_LineComment dst' = n_LineComment src ∧
  n_FootComment dst' = n_FootComment src.
Proof.
  destruct src as [k t v h l f c], dst as [k' t' v' h' l' f' c']. cbn [n_Kind n_Content].
  intros -> -> Hs Hd (c'' & Hev & Hev' & Hrun & ->)%deepCopyFormatting_map.
  split; [|done]. by apply (map_loop_order deepCopyFormatting).
Qed.

Section with_sdk.
Context `{!FnSDK, !FnSDKLaws}.

(** C21: [SetNestedFieldKeepFormatting] implements the SDK's [SetNestedField]: when
    that succeeds it succeeds too and leaves an object with the same data, and when
    that fails it returns the same error and object; it never panics. *)
Theorem SetNestedFieldKeepFormatting_refines o value fields :
  fields ≠ [] →
  ∃ o2, SetNestedFieldKeepFormatting o value fields = Done (o2, snd (SetNestedField o value fields)) ∧
        same_view (fst (SetNestedField o value fields)) o2.
Proof.
  intros Hf. destruct (SetNestedField o value fields) as [o1 [e|]] eqn:Hset.
  - exists o1. rewrite (SetNestedFieldKeepFormatting_err _ _ _ o1 e) by done. by split.
  - destruct (SetNestedFieldKeepFormatting_ok _ _ _ _ Hf Hset) as (o2 & -> & Hv). by exists o2.
Qed.
End with_sdk.

Section typed_lists.
Context `{!FnSDK} {T : Type} `{!GoType T}.

(** The objects of the registered kind of [T]. *)
Definition of_kind (gvk : string * string) (o : KubeObject) : bool :=
  IsGroupVersionKind (fst gvk) (snd gvk) o.

Lemma FilterByType_ok gvk objs :
  go_scheme_gvk (T:=T) = Some gvk →
  Forall (λ o, of_kind gvk o = true → snd (go_As (T:=T) o) = None) objs →
  FilterByType (T:=T) objs =
    Done (Ok (fst ∘ go_As <$> filter (λ o, of_kind gvk o = true) objs,
              filter (λ o, of_kind gvk o = false) objs)).
Proof.
  intros Hgvk. induction 1 as [|o objs Ho _ IH]; [done|].
  cbn [FilterByType]. unfold GetGVKOrPanic. rewrite Hgvk. simpl mbind.
  rewrite !filter_cons. unfold of_kind in *. destruct (IsGroupVersionKind gvk.1 gvk.2 o) eqn:Hk.
  - rewrite decide_True, decide_False by done. specialize (Ho eq_refl).
    destruct (go_As o) as [x e] eqn:Has. simpl in Ho. subst e. rewrite IH. simpl. by rewrite Has.
  - rewrite decide_False, decide_True by done. by rewrite IH.
Qed.

(** [FilterByType] partitions the objects by the kind of the Go type, in order,
    when every object of that kind decodes. *)
Theorem FilterByType_partition gvk objs :
  go_scheme_gvk (T:=T) = Some gvk →
  Forall (λ o, of_kind gvk o = true → snd (go_As (T:=T) o) = None) objs →
  ∃ xs rest, FilterByType (T:=T) objs = Done (Ok (xs, rest)) ∧
    xs = (λ o, fst (go_As o)) <$> filter (λ o, of_kind gvk o = true) objs ∧
    rest = filter (λ o, of_kind gvk o = false) objs ∧
    length objs = length xs + length rest.
Proof.
  intros Hgvk Hdec. rewrite (FilterByType_ok gvk) by done. do 2 eexists. split_and!; [done..|].
  rewrite length_fmap. clear Hdec. induction objs as [|o objs IH]; [done|].
  rewrite !filter_cons. destruct (of_kind gvk o); simpl; rewrite IH; lia.
Qed.

(** [GetSingleton] returns a value exactly when one object of the Go type's kind
    is in the list, and it is the decoding of that object. *)
Theorem GetSingleton_spec gvk objs x :
  go_scheme_gvk (T:=T) = Some gvk →
  Forall (λ o, of_kind gvk o = true → snd (go_As (T:=T) o) = None) objs →
  GetSingleton (T:=T) objs = Done (Ok x) ↔
  ∃ o, filter (λ o, of_kind gvk o = true) objs = [o] ∧ x = fst (go_As o).
Proof.
  intros Hgvk Hdec. unfold GetSingleton. rewrite (FilterByType_ok gvk) by done. simpl.
  destruct (filter (λ o, of_kind gvk o = true) objs) as [|o [|]]; simpl; naive_solver.
Qed.
End typed_lists.

(** ** Witnesses *)
Module KubeObjectWitnesses.
Import Model.

(** An [apiVersion]/[kind]/[spec] map with a comment, and its update with the keys
    in another order. *)
Definition old_tree : Node :=
  mkNode MappingNode "!!map" "" "# head" "" ""
    [scalar "kind"; mkNode ScalarNode "!!str" "A" "" "# the kind" "" [];
     scalar "apiVersion"; scalar "v1"; scalar "spec"; seqn [scalar "x"; scalar "y"]].
Definition new_tree : Node :=
  mkNode MappingNode "!!map" "" "" "" ""
    [scalar "status"; scalar "ok"; scalar "apiVersion"; scalar "v1";
     scalar "spec"; seqn [scalar "y"; scalar "z"]; scalar "kind"; scalar "B"].
Definition merged_tree : Node :=
  match deepCopyFormatting old_tree new_tree with Done n => n | Panic _ => new_tree end.

Lemma deepCopyFormatting_keeps_data_witness :
  well_formed old_tree = true ∧
  ∃ dst', deepCopyFormatting old_tree new_tree = Done dst' ∧ same_data new_tree dst' ∧ well_formed dst' = true.
Proof.
  split; [reflexivity|]. apply (deepCopyFormatting_keeps_data old_tree new_tree); reflexivity.
Defined.

Lemma deepCopyFormatting_restores_order_witness :
  field_keys (n_Content merged_tree) = ["kind"; "apiVersion"; "spec"; "status"] ∧
  n_HeadComment merged_tree = "# head".
Proof.
  split; [vm_compute; reflexivity|].
  apply (deepCopyFormatting_restores_order old_tree new_tree merged_tree); [reflexivity..| | |vm_compute; reflexivity];
    apply (bool_decide_eq_true_1 _); vm_compute; reflexivity.
Defined.

Definition pkg : KubeObject := mkObj "kpt.dev/v1" "Kptfile" "pkg" "" ∅ [] [] None ∅.

Lemma SetNestedFieldKeepFormatting_refines_witness :
  ∃ o2, SetNestedFieldKeepFormatting pkg (VString "v" : @any sdk) ["spec"; "config"] = Done (o2, None) ∧
        same_view (fst (SetNestedField pkg (VString "v" : @any sdk) ["spec"; "config"])) o2.
Proof. apply (SetNestedFieldKeepFormatting_refines pkg (VString "v" : @any sdk) ["spec"; "config"]). discriminate. Defined.

(** A Go type whose values are the names of its objects. *)
#[local] Instance cluster_type : GoType string := {
  go_name := "WorkloadCluster"; go_is_struct := true;
  go_As o := (o_name o, None); go_any s := VString s; go_field _ _ := None;
  go_scheme_gvk := Some ("infra.nephio.org/v1alpha1", "WorkloadCluster") }.

Definition cluster (n : string) : KubeObject :=
  mkObj "infra.nephio.org/v1alpha1" "WorkloadCluster" n "" ∅ [] [] None ∅.

Lemma FilterByType_partition_witness :
  ∃ xs rest, FilterByType (T:=string) [pkg; cluster "a"; cluster "b"] = Done (Ok (xs, rest)) ∧
    length [pkg; cluster "a"; cluster "b"] = length xs + length rest.
Proof.
  destruct (FilterByType_partition (T:=string) ("infra.nephio.org/v1alpha1", "WorkloadCluster")
    [pkg; cluster "a"; cluster "b"]) as (xs & rest & Hf & _ & _ & Hl); [reflexivity|by repeat constructor|].
  exists xs, rest. exact (conj Hf Hl).
Defined.

Lemma GetSingleton_spec_witness :
  GetSingleton (T:=string) [pkg; cluster "a"] = Done (Ok "a").
Proof.
  apply (GetSingleton_spec (T:=string) ("infra.nephio.org/v1alpha1", "WorkloadCluster"));
    [reflexivity|by repeat constructor|].
  exists (cluster "a"). split; vm_compute; reflexivity.
Defined.
End KubeObjectWitnesses.
