(* ===== verification/Ref.v ===== *)
(** * [krm-functions/lib/ref]: object references *)
From S2P Require Import Prelude External.

(** The [%v] rendering of an [ObjectReference] value and of a slice of them. *)
Definition fmt_ref (r : ObjectReference) : string :=
  "{" +:+ Kind r +:+ " " +:+ Namespace r +:+ " " +:+ Name r +:+ " " +:+ UID r +:+ " " +:+
  APIVersion r +:+ " " +:+ ResourceVersion r +:+ " " +:+ FieldPath r +:+ "}".

Fixpoint fmt_words (ws : list string) : string :=
  match ws with
  | [] => ""
  | [w] => w
  | w :: ws => w +:+ " " +:+ fmt_words ws
  end.

Definition fmt_refs (rs : list ObjectReference) : string :=
  "[" +:+ fmt_words (fmt_ref <$> rs) +:+ "]".

(** [ValidateGVKRef] returns an error if the APIVersion or Kind contain an empty string. *)
Definition ValidateGVKRef (ref : ObjectReference) : option error :=
  if decide (APIVersion ref = "" ∨ Kind ref = "")
  then Some ("gvk not initialized, got: " +:+ fmt_ref ref) else None.

(** [IsWildCardRef]: apiVersion = "*" and kind = "*". *)
Definition IsWildCardRef (ref : ObjectReference) : bool :=
  if decide (APIVersion ref = "*" ∧ Kind ref = "*") then true else false.

Definition ValidateGVKNRef (ref : ObjectReference) : option error :=
  if decide (APIVersion ref = "" ∨ Kind ref = "" ∨ Name ref = "")
  then Some ("gvk or name not initialized, got: " +:+ fmt_ref ref) else None.

(** [GetGVKRefFromGVKNref] returns a new reference with only APIVersion and Kind. *)
Definition GetGVKRefFromGVKNref (ref : ObjectReference) : ObjectReference :=
  gvk (APIVersion ref) (Kind ref).

Definition is_nil {A} (o : option A) : bool := match o with None => true | Some _ => false end.

(** [IsRefsValid] validates if the references are initialized. *)
Definition IsRefsValid (refs : list ObjectReference) : bool :=
  match refs with
  | [] => false
  | [r0] => is_nil (ValidateGVKNRef r0)
  | [r0; r1] => is_nil (ValidateGVKNRef r0) && is_nil (ValidateGVKNRef r1)
  | _ => false
  end.

(** [IsGVKNNEqual] compares APIVersion, Kind and Name (the namespace is commented out). *)
Definition IsGVKNNEqual `{FnSDK} (curobj newobj : KubeObject) : bool :=
  bool_decide (GetAPIVersion curobj = GetAPIVersion newobj ∧
               GetKind curobj = GetKind newobj ∧ GetName curobj = GetName newobj).

Definition GetRefsString (refs : list ObjectReference) : string :=
  match refs with
  | [] => ""
  | r :: rs => Kind r +:+ "/" +:+ Name r +:+
      foldr (λ r s, " " +:+ Kind r +:+ "/" +:+ Name r +:+ s) "" rs
  end.

(** ** Lemmas *)

(** A reference is initialised. *)
Definition valid_gvkn (r : ObjectReference) : Prop :=
  APIVersion r ≠ "" ∧ Kind r ≠ "" ∧ Name r ≠ "".

Lemma ValidateGVKNRef_None r : ValidateGVKNRef r = None ↔ valid_gvkn r.
Proof. unfold ValidateGVKNRef, valid_gvkn. case_decide; naive_solver. Qed.

Lemma ValidateGVKRef_None r : ValidateGVKRef r = None ↔ APIVersion r ≠ "" ∧ Kind r ≠ "".
Proof. unfold ValidateGVKRef. case_decide; naive_solver. Qed.

Lemma is_nil_true {A} (o : option A) : is_nil o = true ↔ o = None.
Proof. by destruct o. Qed.

Lemma IsRefsValid_spec refs :
  IsRefsValid refs = true ↔ (length refs = 1 ∨ length refs = 2) ∧ Forall valid_gvkn refs.
Proof.
  destruct refs as [|r0 [|r1 [|]]]; simpl; try (split; [done|intros [[]]; lia]).
  - rewrite is_nil_true, ValidateGVKNRef_None, Forall_singleton. naive_solver.
  - rewrite andb_true_iff, !is_nil_true, !ValidateGVKNRef_None, !Forall_cons, Forall_nil. naive_solver.
Qed.
