(* ===== verification/Kptfile.v ===== *)
(** * [krm-functions/lib/kptfile/v1]: conditions and readiness gates of a Kptfile

    A [KptFile] wraps the Kptfile's [fn.KubeObject]; its methods read and write
    [status.conditions] and [info.readinessGates].  Reading creates the [status] or
    [info] map when it is absent ([UpsertMap]), so a read returns the object it
    leaves too. *)
From S2P Require Import Prelude External KubeObjectLib SdkModel Ref.

Section kptfile.
Context `{FnSDK}.

(** ** [condition_type.go] *)

(** [GetConditionType] returns a string based on the KRM object Reference. *)
Definition GetConditionType (o : ObjectReference) : string :=
  let sb :=
    if decide (APIVersion o = "") then ""
    else match ParseGroupVersion (APIVersion o) with
         | Ok gv => GroupVersion_String gv
         | Err _ => ""
         end in
  let sb :=
    if decide (Kind o = "") then sb
    else (if decide (sb = "") then sb else sb +:+ ".") +:+ Kind o in
  if decide (Name o = "") then sb
  else (if decide (sb = "") then sb else sb +:+ ".") +:+ Name o.

(** [GetGVKNFromConditionType] returns a KRM ObjectReference from a string; it
    expects an APIVersion with a / and a kind and a name. *)
Definition GetGVKNFromConditionType (ct : string) : ObjectReference :=
  let '(group, vkn) :=
    match split_on slash ct with
    | g :: v :: _ => (g, v)
    | _ => ("", ct)
    end in
  match split_on dot vkn with
  | [v; k; n] => gvkn (group +:+ String slash v) k n
  | _ => emptyRef
  end.

Definition GetConditionByRef (refs : list ObjectReference) (msg : string)
    (status : ConditionStatus) (ec : option Condition) : result Condition :=
  if IsRefsValid refs then
    match refs with
    | r0 :: r1 :: _ => Ok (mkCondition (GetConditionType r1) status (GetConditionType r0) msg)
    | r0 :: _ => Ok (mkCondition (GetConditionType r0) status "" msg)
    | [] => Err "index out of range"
    end
  else Err ("cannot set resource in resource list as the object has no valid refs: " +:+ fmt_refs refs).

(** ** [kptfile.go] *)
Definition infoFieldName := "info".
Definition readinessGatesFieldName := "readinessGates".
Definition statusFieldName := "status".
Definition conditionsFieldName := "conditions".

Record KptFile := mkKptFile { Kptfile : KubeObject }.

Definition GetReadinessGates (r : KptFile) : KptFile * list ReadinessGate :=
  let r := mkKptFile (UpsertMap (Kptfile r) infoFieldName) in
  (r, match As_readinessGates (Kptfile r) with Ok gs => gs | Err _ => [] end).

Definition has_gate (ct : string) (gs : list ReadinessGate) : bool :=
  existsb (λ rg, bool_decide (ConditionType rg = ct)) gs.

Definition HasReadinessGate (r : KptFile) (ct : string) : KptFile * bool :=
  let '(r, gs) := GetReadinessGates r in (r, has_gate ct gs).

(** The loops of [SetReadinessGates] over the new condition types. *)
Definition add_gate (ergs : list ReadinessGate) (nct : string) : list ReadinessGate :=
  if has_gate nct ergs then ergs else ergs ++ [mkReadinessGate nct].

Definition set_field (r : KptFile) (v : any) (fields : list string)
    : comp (KptFile * option error) :=
  '(o, err) ← SetNestedFieldKeepFormatting (Kptfile r) v fields; Done (mkKptFile o, err).

Definition SetReadinessGates (r : KptFile) (cs : list string) : comp (KptFile * option error) :=
  let '(r, ergs) := GetReadinessGates r in
  set_field r (any_gates (foldl add_gate ergs cs)) [infoFieldName; readinessGatesFieldName].

(** [GetConditions] returns with (a copy of) the list of current conditions. *)
Definition GetConditions (r : KptFile) : KptFile * list Condition :=
  let r := mkKptFile (UpsertMap (Kptfile r) statusFieldName) in
  (r, match As_conditions (Kptfile r) with Ok cs => cs | Err _ => [] end).

Definition find_condition (conditionType : string) (cs : list Condition) : option Condition :=
  List.find (λ c, bool_decide (Type_ c = conditionType)) cs.

Definition GetCondition (r : KptFile) (conditionType : string) : KptFile * option Condition :=
  let '(r, cs) := GetConditions r in (r, find_condition conditionType cs).

(** One new condition overwrites the first existing one of its type, or is appended. *)
Fixpoint upsert_condition (ecs : list Condition) (nc : Condition) : list Condition :=
  match ecs with
  | [] => [nc]
  | ec :: ecs => if decide (Type_ ec = Type_ nc) then nc :: ecs else ec :: upsert_condition ecs nc
  end.

Definition SetConditions (r : KptFile) (ncs : list Condition) : comp (KptFile * option error) :=
  let '(r, ecs) := GetConditions r in
  set_field r (any_conditions (foldl upsert_condition ecs ncs)) [statusFieldName; conditionsFieldName].

(** [DeleteCondition] deletes the conditions from the list with a given type. *)
Definition DeleteCondition (r : KptFile) (ct : string) : comp (KptFile * option error) :=
  let '(r, ecs) := GetConditions r in
  ecs ← delete_in_range (λ c, bool_decide (Type_ c = ct)) ecs;
  set_field r (any_conditions ecs) [statusFieldName; conditionsFieldName].

Definition DeleteConditionRef (r : KptFile) (ref : ObjectReference) : comp (KptFile * option error) :=
  DeleteCondition r (GetConditionType ref).

Definition SetConditionRefFailed (r : KptFile) (ref : ObjectReference) (msg : string)
    : comp (KptFile * option error) :=
  let condType := GetConditionType ref in
  let '(r, c) := GetCondition r condType in
  match c with
  | Some c => SetConditions r [mkCondition (Type_ c) ConditionFalse (Reason c) msg]
  | None => SetConditions r [mkCondition condType ConditionFalse "" msg]
  end.

(** The loop of [IsReady]. *)
Fixpoint ready_loop (ctPrefix : string) (found : bool) (cs : list Condition) : bool :=
  match cs with
  | [] => found
  | c :: cs =>
      if HasPrefix (Type_ c) ctPrefix then
        if decide (Status c = ConditionFalse) then false else ready_loop ctPrefix true cs
      else ready_loop ctPrefix found cs
  end.

Definition IsReady (r : KptFile) (ctPrefix : string) : KptFile * bool :=
  let '(r, cs) := GetConditions r in (r, ready_loop ctPrefix false cs).
End kptfile.

(** ** Lemmas on lists of conditions *)

Definition types (cs : list Condition) : list string := Type_ <$> cs.

Lemma find_condition_Some t cs c : find_condition t cs = Some c → Type_ c = t ∧ c ∈ cs.
Proof.
  unfold find_condition. intros [Hin Ht]%find_some. apply bool_decide_eq_true in Ht.
  by rewrite list_elem_of_In.
Qed.

Lemma find_condition_None t cs : find_condition t cs = None ↔ t ∉ types cs.
Proof.
  induction cs as [|c cs IH]; [set_solver|]. unfold find_condition, types in *. simpl.
  rewrite not_elem_of_cons. case_bool_decide; [naive_solver|]. rewrite IH. naive_solver.
Qed.

Lemma find_upsert cs nc t :
  find_condition t (upsert_condition cs nc) =
  if decide (t = Type_ nc) then Some nc else find_condition t cs.
Proof.
  unfold find_condition. induction cs as [|c cs IH]; simpl.
  - repeat (case_bool_decide || case_decide); congruence.
  - destruct (decide (Type_ c = Type_ nc)) as [Hc|Hc]; simpl; rewrite ?IH;
      repeat (case_bool_decide || case_decide); congruence.
Qed.

Lemma types_upsert cs nc :
  types (upsert_condition cs nc) =
  if decide (Type_ nc ∈ types cs) then types cs else types cs ++ [Type_ nc].
Proof.
  unfold types. induction cs as [|c cs IH]; cbn [upsert_condition].
  - rewrite decide_False; [done|set_solver].
  - destruct (decide (Type_ c = Type_ nc)) as [Hc|Hc]; rewrite !fmap_cons, ?IH.
    + rewrite decide_True by set_solver. by rewrite Hc.
    + destruct (decide (Type_ nc ∈ Type_ <$> cs)) as [Hin|Hin].
      * rewrite decide_True by set_solver. done.
      * rewrite decide_False by set_solver. done.
Qed.

Lemma NoDup_upsert cs nc : NoDup (types cs) → NoDup (types (upsert_condition cs nc)).
Proof.
  intros Hnd. rewrite types_upsert. case_decide; [done|].
  apply NoDup_app. split_and!; [done|set_solver|apply NoDup_singleton].
Qed.

Lemma NoDup_upserts ncs cs : NoDup (types cs) → NoDup (types (foldl upsert_condition cs ncs)).
Proof. revert cs. induction ncs; simpl; auto using NoDup_upsert. Qed.

(** With unique types the deletion idiom removes the condition of the type given. *)
Lemma delete_condition_unique ct cs :
  NoDup (types cs) →
  delete_in_range (λ c, bool_decide (Type_ c = ct)) cs = Done (filter (λ c, Type_ c ≠ ct) cs).
Proof.
  intros Hnd. rewrite delete_in_range_filter.
  - f_equal. apply list_filter_iff. intros c. by rewrite bool_decide_eq_false.
  - intros i j x y Hi Hj [= Hx%bool_decide_eq_true] [= Hy%bool_decide_eq_true].
    apply (NoDup_lookup (types cs) i j ct); [done|..]; unfold types; rewrite list_lookup_fmap;
      [by rewrite Hi; simpl; f_equal|by rewrite Hj; simpl; f_equal].
Qed.

Lemma find_filter t ct cs :
  find_condition t (filter (λ c, Type_ c ≠ ct) cs) =
  if decide (t = ct) then None else find_condition t cs.
Proof.
  unfold find_condition. induction cs as [|c cs IH]; simpl; [by case_decide|].
  rewrite filter_cons. destruct (decide (Type_ c ≠ ct)) as [Hc|Hc%dec_stable]; simpl; rewrite ?IH;
    repeat (case_bool_decide || case_decide); congruence.
Qed.

Lemma types_filter ct cs : types (filter (λ c, Type_ c ≠ ct) cs) = filter (λ t, t ≠ ct) (types cs).
Proof.
  unfold types. induction cs as [|c cs IH]; [done|]. rewrite fmap_cons, !filter_cons.
  case_decide; by rewrite ?fmap_cons, IH.
Qed.

(** [IsReady]'s loop: some condition has the prefix and none of those is False. *)
Lemma ready_loop_spec ctPrefix found cs :
  ready_loop ctPrefix found cs = true ↔
  (found = true ∨ ∃ c, c ∈ cs ∧ HasPrefix (Type_ c) ctPrefix = true) ∧
  ∀ c, c ∈ cs → HasPrefix (Type_ c) ctPrefix = true → Status c ≠ ConditionFalse.
Proof.
  revert found. induction cs as [|c cs IH]; intros found; simpl; [set_solver|].
  setoid_rewrite elem_of_cons. destruct (HasPrefix (Type_ c) ctPrefix) eqn:Hp.
  - case_decide as Hs; [split; [done|naive_solver]|]. rewrite IH. naive_solver.
  - rewrite IH. naive_solver congruence.
Qed.

(** ** Lemmas on the Kptfile *)
Section kptfile_lemmas.
Context `{!FnSDK, !FnSDKLaws}.

(** The conditions and gates a Kptfile holds. *)
Definition conds (r : KptFile) : list Condition := snd (GetConditions r).
Definition gates (r : KptFile) : list ReadinessGate := snd (GetReadinessGates r).

Definition kpt_view (r r' : KptFile) : Prop := same_view (Kptfile r) (Kptfile r').

Lemma conds_alt r : conds r = match As_conditions (Kptfile r) with Ok cs => cs | Err _ => [] end.
Proof.
  unfold conds, GetConditions. simpl.
  destruct (UpsertMap_spec (Kptfile r) "status") as (_ & _ & _ & _ & _ & _ & Hc & _); [by left|].
  unfold statusFieldName. by rewrite Hc.
Qed.

Lemma gates_alt r : gates r = match As_readinessGates (Kptfile r) with Ok gs => gs | Err _ => [] end.
Proof.
  unfold gates, GetReadinessGates. simpl.
  destruct (UpsertMap_spec (Kptfile r) "info") as (_ & _ & _ & _ & _ & _ & _ & Hc); [by right|].
  unfold infoFieldName. by rewrite Hc.
Qed.

Lemma GetConditions_view r r' cs : GetConditions r = (r', cs) → cs = conds r ∧ conds r' = conds r ∧ gates r' = gates r.
Proof.
  intros Heq. assert (cs = conds r) as -> by (unfold conds; by rewrite Heq). split; [done|].
  unfold GetConditions in Heq. simplify_eq. rewrite !conds_alt, !gates_alt. simpl.
  destruct (UpsertMap_spec (Kptfile r) "status") as (_ & _ & _ & _ & _ & _ & Hc & Hg); [by left|].
  unfold statusFieldName. by rewrite <-Hc, <-Hg.
Qed.

Lemma set_field_ok r v f fs r' :
  set_field r v (f :: fs) = Done (r', None) →
  ∃ o1, SetNestedField (Kptfile r) v (f :: fs) = (o1, None) ∧ same_view o1 (Kptfile r').
Proof.
  unfold set_field. intros Hs. destruct (SetNestedField (Kptfile r) v (f :: fs)) as [o1 [e|]] eqn:Hset.
  - rewrite (SetNestedFieldKeepFormatting_err (Kptfile r) v (f :: fs) o1 e) in Hs by done. simplify_eq/=.
  - destruct (SetNestedFieldKeepFormatting_ok (Kptfile r) v (f :: fs) o1) as (o2 & Hk & Hv); [done..|].
    rewrite Hk in Hs. simplify_eq/=. by exists o1.
Qed.

Lemma set_field_total r v f fs : ∃ r' e, set_field r v (f :: fs) = Done (r', e).
Proof.
  unfold set_field. destruct (SetNestedField (Kptfile r) v (f :: fs)) as [o1 [e|]] eqn:Hset.
  - rewrite (SetNestedFieldKeepFormatting_err (Kptfile r) v (f :: fs) o1 e) by done. by eauto.
  - destruct (SetNestedFieldKeepFormatting_ok (Kptfile r) v (f :: fs) o1) as (o2 & Hk & Hv); [done..|].
    rewrite Hk. by eauto.
Qed.

Lemma set_conditions_spec r cs r' :
  set_field r (any_conditions cs) [statusFieldName; conditionsFieldName] = Done (r', None) →
  conds r' = cs ∧ gates r' = gates r.
Proof.
  intros (o1 & Hset & _ & _ & _ & _ & _ & _ & Hc & Hg)%set_field_ok.
  apply SetNestedField_conditions in Hset as (Hc1 & Hg1 & _).
  by rewrite conds_alt, !gates_alt, <-Hc, <-Hg, Hc1, Hg1.
Qed.

Lemma set_gates_spec r gs r' :
  set_field r (any_gates gs) [infoFieldName; readinessGatesFieldName] = Done (r', None) →
  gates r' = gs ∧ conds r' = conds r.
Proof.
  intros (o1 & Hset & _ & _ & _ & _ & _ & _ & Hc & Hg)%set_field_ok.
  apply SetNestedField_gates in Hset as (Hg1 & Hc1 & _).
  by rewrite gates_alt, !conds_alt, <-Hc, <-Hg, Hc1, Hg1.
Qed.

Lemma SetConditions_conds r ncs r' :
  SetConditions r ncs = Done (r', None) →
  conds r' = foldl upsert_condition (conds r) ncs ∧ gates r' = gates r.
Proof.
  unfold SetConditions. destruct (GetConditions r) as [r1 ecs] eqn:Hg.
  apply GetConditions_view in Hg as (-> & _ & Hgr). intros [Hc Hg]%set_conditions_spec.
  by rewrite Hg.
Qed.

Lemma SetConditions_total r ncs : ∃ r' e, SetConditions r ncs = Done (r', e).
Proof. unfold SetConditions. destruct (GetConditions r). apply set_field_total. Qed.

Lemma DeleteCondition_conds r ct r' :
  NoDup (types (conds r)) → DeleteCondition r ct = Done (r', None) →
  conds r' = filter (λ c, Type_ c ≠ ct) (conds r) ∧ gates r' = gates r.
Proof.
  unfold DeleteCondition. destruct (GetConditions r) as [r1 ecs] eqn:Hg.
  apply GetConditions_view in Hg as (-> & _ & Hgr). intros Hnd.
  rewrite delete_condition_unique by done. intros [Hc Hg]%set_conditions_spec. by rewrite Hg.
Qed.

Lemma GetCondition_spec r t : snd (GetCondition r t) = find_condition t (conds r).
Proof. unfold GetCondition, conds. by destruct (GetConditions r). Qed.

(** What [SetConditionRefFailed] stores. *)
Definition failed_condition (r : KptFile) (ct msg : string) : Condition :=
  match find_condition ct (conds r) with
  | Some c => mkCondition (Type_ c) ConditionFalse (Reason c) msg
  | None => mkCondition ct ConditionFalse "" msg
  end.

Lemma failed_condition_type r ct msg : Type_ (failed_condition r ct msg) = ct.
Proof.
  unfold failed_condition. destruct (find_condition _ _) eqn:Hf; [|done].
  by apply find_condition_Some in Hf as [? _].
Qed.

Lemma SetConditionRefFailed_conds r ref msg r' :
  SetConditionRefFailed r ref msg = Done (r', None) →
  conds r' = upsert_condition (conds r) (failed_condition r (GetConditionType ref) msg) ∧
  gates r' = gates r.
Proof.
  unfold SetConditionRefFailed, failed_condition, GetCondition.
  destruct (GetConditions r) as [r1 ecs] eqn:Hg. apply GetConditions_view in Hg as (-> & Hc & Hgr).
  destruct (find_condition (GetConditionType ref) (conds r)); intros [Hc' Hg']%SetConditions_conds;
    simpl in Hc'; rewrite Hc', Hg', Hc; done.
Qed.

(** A call leaves the Kptfile the same object with the same annotations, and keeps its condition types distinct,
    whether it returns an error or not. *)
Definition kpt_keeps (r r' : KptFile) : Prop :=
  same_header (Kptfile r) (Kptfile r') ∧ GetAnnotations (Kptfile r') = GetAnnotations (Kptfile r) ∧
  (NoDup (types (conds r)) → NoDup (types (conds r'))).

Lemma same_view_header o1 o2 : same_view o1 o2 → same_header o1 o2.
Proof. unfold same_view, same_header. naive_solver. Qed.

Lemma same_header_trans o1 o2 o3 : same_header o1 o2 → same_header o2 o3 → same_header o1 o3.
Proof. unfold same_header. naive_solver congruence. Qed.

Lemma conds_view r r' : same_view (Kptfile r) (Kptfile r') → conds r' = conds r.
Proof. intros (_ & _ & _ & _ & _ & _ & Hc & _). by rewrite !conds_alt, Hc. Qed.

Lemma kpt_keeps_refl r : kpt_keeps r r.
Proof. done. Qed.

Lemma kpt_keeps_trans r1 r2 r3 : kpt_keeps r1 r2 → kpt_keeps r2 r3 → kpt_keeps r1 r3.
Proof. intros (? & ? & ?) (? & ? & ?). split_and!; [by eapply same_header_trans|congruence|auto]. Qed.

Lemma kpt_keeps_view r r' : same_view (Kptfile r) (Kptfile r') → kpt_keeps r r'.
Proof.
  intros Hv. split_and!; [by apply same_view_header| |by rewrite (conds_view r r')].
  destruct Hv as (_ & _ & _ & _ & Ha & _). done.
Qed.

Lemma set_field_err r v f fs r' e : set_field r v (f :: fs) = Done (r', Some e) → kpt_keeps r r'.
Proof.
  unfold set_field. intros Hs. destruct (SetNestedField (Kptfile r) v (f :: fs)) as [o1 [e'|]] eqn:Hset.
  - rewrite (SetNestedFieldKeepFormatting_err (Kptfile r) v (f :: fs) o1 e') in Hs by done.
    simplify_eq/=. apply kpt_keeps_view. by eapply SetNestedField_err.
  - destruct (SetNestedFieldKeepFormatting_ok (Kptfile r) v (f :: fs) o1) as (o2 & Hk & Hv); [done..|].
    rewrite Hk in Hs. simplify_eq/=.
Qed.

Lemma set_conditions_keeps r cs r' e :
  (NoDup (types (conds r)) → NoDup (types cs)) →
  set_field r (any_conditions cs) [statusFieldName; conditionsFieldName] = Done (r', e) → kpt_keeps r r'.
Proof.
  intros Hcs Hs. destruct e as [e|]; [by eapply set_field_err|]. unfold kpt_keeps. apply and_assoc. split.
  - apply set_field_ok in Hs as (o1 & Hset & Hv). apply SetNestedField_conditions in Hset as (_ & _ & Hh & Ha).
    split; [eapply same_header_trans; [done|]; by apply same_view_header|].
    destruct Hv as (_ & _ & _ & _ & Ha' & _). congruence.
  - apply set_conditions_spec in Hs as [-> _]. done.
Qed.

Lemma GetConditions_keeps r r' cs : GetConditions r = (r', cs) → kpt_keeps r r' ∧ cs = conds r ∧ conds r' = conds r.
Proof.
  intros Hg. pose proof (GetConditions_view r r' cs Hg) as (-> & Hc & _). split_and!; [|done..].
  unfold GetConditions in Hg. simplify_eq. apply kpt_keeps_view. apply UpsertMap_spec. by left.
Qed.

Lemma SetConditions_keeps r ncs r' e : SetConditions r ncs = Done (r', e) → kpt_keeps r r'.
Proof.
  unfold SetConditions. destruct (GetConditions r) as [r1 ecs] eqn:Hg.
  apply GetConditions_keeps in Hg as (Hk & -> & Hc). intros Hs. eapply kpt_keeps_trans; [done|].
  eapply set_conditions_keeps; [|done]. rewrite Hc. apply NoDup_upserts.
Qed.

Lemma SetReadinessGates_keeps r cts r' e : SetReadinessGates r cts = Done (r', e) → kpt_keeps r r'.
Proof.
  unfold SetReadinessGates. destruct (GetReadinessGates r) as [r1 gs] eqn:Hg.
  unfold GetReadinessGates in Hg. injection Hg as <- <-. intros Hs.
  apply kpt_keeps_trans with (mkKptFile (UpsertMap (Kptfile r) infoFieldName)).
  { apply kpt_keeps_view, (UpsertMap_spec (Kptfile r) infoFieldName). by right. }
  destruct e as [e|]; [by eapply set_field_err|]. unfold kpt_keeps. apply and_assoc. split.
  - apply set_field_ok in Hs as (o1 & Hset & Hv). apply SetNestedField_gates in Hset as (_ & _ & Hh & Ha).
    split; [eapply same_header_trans; [done|]; by apply same_view_header|].
    destruct Hv as (_ & _ & _ & _ & Ha' & _). congruence.
  - apply set_gates_spec in Hs as [_ ->]. done.
Qed.

Lemma DeleteCondition_keeps r ct r' e : DeleteCondition r ct = Done (r', e) → kpt_keeps r r'.
Proof.
  unfold DeleteCondition. destruct (GetConditions r) as [r1 ecs] eqn:Hg.
  apply GetConditions_keeps in Hg as (Hk & -> & Hc).
  intros (cs & Hdel & Hs)%comp_bind_Done.
  eapply kpt_keeps_trans; [done|]. eapply set_conditions_keeps; [|done].
  rewrite Hc. intros Hnd. rewrite delete_condition_unique in Hdel by done. injection Hdel as <-.
  rewrite types_filter. by apply NoDup_filter.
Qed.

Lemma DeleteCondition_total r ct : NoDup (types (conds r)) → ∃ r' e, DeleteCondition r ct = Done (r', e).
Proof.
  intros Hnd. unfold DeleteCondition. destruct (GetConditions r) as [r1 ecs] eqn:Hg.
  apply GetConditions_keeps in Hg as (_ & -> & _). rewrite delete_condition_unique by done. apply set_field_total.
Qed.

Lemma SetConditionRefFailed_keeps r ref msg r' e : SetConditionRefFailed r ref msg = Done (r', e) → kpt_keeps r r'.
Proof.
  unfold SetConditionRefFailed, GetCondition. destruct (GetConditions r) as [r1 ecs] eqn:Hg.
  apply GetConditions_keeps in Hg as (Hk & _ & _).
  destruct (find_condition _ _); intros Hs%SetConditions_keeps; by eapply kpt_keeps_trans.
Qed.

Lemma SetConditionRefFailed_total r ref msg : ∃ r' e, SetConditionRefFailed r ref msg = Done (r', e).
Proof.
  unfold SetConditionRefFailed. destruct (GetCondition r _) as [r1 [c|]]; apply SetConditions_total.
Qed.
End kptfile_lemmas.

(** ** Lemmas on gates and condition types *)
Lemma has_gate_spec ct gs : has_gate ct gs = true ↔ mkReadinessGate ct ∈ gs.
Proof.
  unfold has_gate. rewrite existsb_exists. setoid_rewrite <-list_elem_of_In. split.
  - intros ([t] & ? & Ht%bool_decide_eq_true). simpl in Ht. by subst.
  - intros Hin. exists (mkReadinessGate ct). split; [done|]. by apply bool_decide_eq_true.
Qed.

Lemma add_gates_spec cts gs :
  (∀ ct, ct ∈ cts → has_gate ct (foldl add_gate gs cts) = true) ∧
  (∃ new, foldl add_gate gs cts = gs ++ new) ∧
  (NoDup gs → NoDup (foldl add_gate gs cts)).
Proof.
  revert gs. induction cts as [|ct cts IH]; intros gs; cbn [foldl].
  { split; [set_solver|]. split; [|done]. exists []. by rewrite app_nil_r. }
  destruct (IH (add_gate gs ct)) as (Hin & [new Hnew] & Hnd).
  assert (mkReadinessGate ct ∈ add_gate gs ct ∧ (∃ n, add_gate gs ct = gs ++ n) ∧
          (NoDup gs → NoDup (add_gate gs ct))) as (Hct & [n Hn] & Hnd1).
  { unfold add_gate. destruct (has_gate ct gs) eqn:Hg.
    - apply has_gate_spec in Hg. split_and!; [done|exists []; by rewrite app_nil_r|done].
    - split_and!; [set_solver|by eexists|]. intros Hgs. apply NoDup_app.
      split_and!; [done| |apply NoDup_singleton].
      intros x Hx ->%list_elem_of_singleton. apply has_gate_spec in Hx. congruence. }
  split_and!; [|exists (n ++ new); by rewrite Hnew, Hn, <-app_assoc|auto].
  intros ct' [->|?]%elem_of_cons; [|by apply Hin]. apply has_gate_spec. rewrite Hnew. set_solver.
Qed.

Section type_lemmas.
Context `{!FnSDK, !FnSDKLaws}.

Lemma GetReadinessGates_view r r' gs :
  GetReadinessGates r = (r', gs) → gs = gates r ∧ gates r' = gates r ∧ conds r' = conds r.
Proof.
  intros Heq. assert (gs = gates r) as -> by (unfold gates; by rewrite Heq). split; [done|].
  unfold GetReadinessGates in Heq. simplify_eq. rewrite !conds_alt, !gates_alt. simpl.
  destruct (UpsertMap_spec (Kptfile r) "info") as (_ & _ & _ & _ & _ & _ & Hc & Hg); [by right|].
  unfold infoFieldName. by rewrite <-Hc, <-Hg.
Qed.

Lemma app_cons_neq (s : string) a s' : s +:+ String a s' ≠ "".
Proof. by destruct s. Qed.

Lemma string_app_neq_l (s s' : string) : s ≠ "" → s +:+ s' ≠ "".
Proof. by destruct s. Qed.

Lemma GetConditionType_group g v k n :
  g ≠ "" → k ≠ "" → n ≠ "" → has_char slash g = false → has_char slash v = false →
  GetConditionType (gvkn (g +:+ String slash v) k n) =
  g +:+ String slash (v +:+ String dot (k +:+ String dot n)).
Proof.
  intros Hg Hk Hn Hgs Hvs. unfold GetConditionType. simpl.
  rewrite ParseGroupVersion_group, GroupVersion_String_group by done.
  rewrite (decide_False (P := n = "")), !(decide_False (P := k = "")) by done.
  rewrite !(decide_False (P := g +:+ String slash v = "")) by apply app_cons_neq.
  rewrite decide_False by auto using app_cons_neq, string_app_neq_l.
  by rewrite <-!string_app_assoc.
Qed.

Lemma GetConditionType_core v k n :
  v ≠ "" → k ≠ "" → n ≠ "" → has_char slash v = false →
  GetConditionType (gvkn v k n) = v +:+ String dot (k +:+ String dot n).
Proof.
  intros Hv Hk Hn Hvs. unfold GetConditionType. simpl.
  rewrite ParseGroupVersion_core, GroupVersion_String_core by done.
  rewrite (decide_False (P := n = "")), !(decide_False (P := k = "")) by done.
  rewrite !(decide_False (P := v = "")) by done.
  rewrite decide_False by auto using string_app_neq_l.
  by rewrite <-!string_app_assoc.
Qed.
End type_lemmas.

(** ** Theorems *)
Section theorems.
Context `{!FnSDK, !FnSDKLaws}.

(** setting one condition is a map update on the condition types: the type given
    reads back as the new condition, every other type reads as before, unique types
    stay unique and the readiness gates are untouched. *)
Theorem SetConditions_lookup r nc r' :
  SetConditions r [nc] = Done (r', None) →
  (∀ t, snd (GetCondition r' t) =
        if decide (t = Type_ nc) then Some nc else snd (GetCondition r t)) ∧
  (NoDup (types (conds r)) → NoDup (types (conds r'))) ∧ gates r' = gates r.
Proof.
  intros [Hc Hg]%SetConditions_conds. simpl in Hc. rewrite Hc. split; [|split; [apply NoDup_upsert|done]].
  intros t. by rewrite !GetCondition_spec, Hc, find_upsert.
Qed.

(** with unique condition types, [DeleteCondition] never panics, and when it
    succeeds exactly the condition of the given type is gone. *)
Theorem DeleteCondition_removes r ct :
  NoDup (types (conds r)) →
  ∃ r' e, DeleteCondition r ct = Done (r', e) ∧
    (e = None →
      (∀ t, snd (GetCondition r' t) = if decide (t = ct) then None else snd (GetCondition r t)) ∧
      NoDup (types (conds r'))).
Proof.
  intros Hnd. assert (∃ r' e, DeleteCondition r ct = Done (r', e)) as (r' & e & Hdel).
  { unfold DeleteCondition. destruct (GetConditions r) as [r1 ecs] eqn:Hg.
    apply GetConditions_view in Hg as (-> & _). rewrite delete_condition_unique by done.
    apply set_field_total. }
  exists r', e. split; [done|]. intros ->. apply DeleteCondition_conds in Hdel as [Hc _]; [|done].
  split; [intros t; by rewrite !GetCondition_spec, Hc, find_filter|].
  rewrite Hc, types_filter. by apply NoDup_filter.
Qed.

(** a Kptfile whose last two conditions have the same type makes
    [DeleteCondition] of that type panic: the slice shrinks while the loop still
    runs over its original length. *)
Theorem DeleteCondition_duplicate_panics r ct cs c1 c2 :
  conds r = cs ++ [c1; c2] → Type_ c1 = ct → Type_ c2 = ct → ct ∉ types cs →
  DeleteCondition r ct = Panic "slice bounds out of range".
Proof.
  intros Hcs H1 H2 Hn. unfold DeleteCondition. destruct (GetConditions r) as [r1 ecs] eqn:Hg.
  apply GetConditions_view in Hg as (-> & _). rewrite Hcs.
  rewrite delete_in_range_dup_end; [done|by apply bool_decide_eq_true..|].
  apply Forall_forall. intros c Hc. apply bool_decide_eq_false. intros <-. apply Hn.
  by apply list_elem_of_fmap_2.
Qed.

(** Recording a failure for a resource sets its condition to False with the
    message, keeps the owner recorded in the reason, leaves every other condition
    alone, and makes the package not ready under every prefix of that condition. *)
Theorem SetConditionRefFailed_spec r ref msg r' :
  let ct := GetConditionType ref in
  SetConditionRefFailed r ref msg = Done (r', None) →
  snd (GetCondition r' ct) =
    Some (mkCondition ct ConditionFalse (from_option Reason "" (snd (GetCondition r ct))) msg) ∧
  (∀ t, t ≠ ct → snd (GetCondition r' t) = snd (GetCondition r t)) ∧
  (∀ ctPrefix, HasPrefix ct ctPrefix = true → snd (IsReady r' ctPrefix) = false).
Proof.
  intros ct [Hc _]%SetConditionRefFailed_conds. fold ct in Hc.
  assert (Hlook : ∀ t, snd (GetCondition r' t) =
    if decide (t = ct) then Some (failed_condition r ct msg) else snd (GetCondition r t)).
  { intros t. by rewrite !GetCondition_spec, Hc, find_upsert, failed_condition_type. }
  assert (Hf : failed_condition r ct msg =
    mkCondition ct ConditionFalse (from_option Reason "" (snd (GetCondition r ct))) msg).
  { unfold failed_condition. rewrite GetCondition_spec.
    destruct (find_condition ct (conds r)) eqn:Hfind; [|done].
    by apply find_condition_Some in Hfind as [-> _]. }
  split_and!.
  - by rewrite Hlook, decide_True, Hf.
  - intros t Ht. by rewrite Hlook, decide_False.
  - intros pre Hpre. specialize (Hlook ct). rewrite decide_True, GetCondition_spec in Hlook by done.
    apply find_condition_Some in Hlook as [_ Hin]. rewrite Hf in Hin.
    apply not_true_iff_false. unfold IsReady. destruct (GetConditions r') as [r1 ecs] eqn:Hg.
    apply GetConditions_view in Hg as (-> & _). simpl. rewrite ready_loop_spec.
    intros [_ Hall]. by apply (Hall _ Hin Hpre).
Qed.

(** A package is ready for a prefix exactly when some condition type has the
    prefix and no condition with the prefix is False. *)
Theorem IsReady_spec r ctPrefix :
  snd (IsReady r ctPrefix) = true ↔
  (∃ c, c ∈ conds r ∧ HasPrefix (Type_ c) ctPrefix = true) ∧
  (∀ c, c ∈ conds r → HasPrefix (Type_ c) ctPrefix = true → Status c ≠ ConditionFalse).
Proof.
  unfold IsReady. destruct (GetConditions r) as [r1 ecs] eqn:Hg.
  apply GetConditions_view in Hg as (-> & _). simpl. rewrite ready_loop_spec. naive_solver.
Qed.

(** Setting readiness gates adds every requested gate, keeps the existing ones
    in place without duplicating any, and leaves the conditions alone. *)
Theorem SetReadinessGates_spec r cts r' :
  SetReadinessGates r cts = Done (r', None) →
  (∀ ct, ct ∈ cts → snd (HasReadinessGate r' ct) = true) ∧
  (∃ new, gates r' = gates r ++ new) ∧
  (NoDup (gates r) → NoDup (gates r')) ∧ conds r' = conds r.
Proof.
  unfold SetReadinessGates. destruct (GetReadinessGates r) as [r1 gs] eqn:Hg.
  apply GetReadinessGates_view in Hg as (-> & Hgr & Hcr). intros [Hg Hc]%set_gates_spec.
  rewrite Hg, Hc. destruct (add_gates_spec cts (gates r)) as (Hin & Hpre & Hnd).
  split_and!; try done. intros ct Hct. unfold HasReadinessGate.
  destruct (GetReadinessGates r') as [r2 gs] eqn:Hg2. apply GetReadinessGates_view in Hg2 as (-> & _).
  simpl. rewrite Hg. by apply Hin.
Qed.

(** the condition type of a reference with a group, a version, a kind and a name
    without separators parses back to that reference. *)
Theorem ConditionType_roundtrip g v k n :
  g ≠ "" → k ≠ "" → n ≠ "" → has_char slash g = false →
  Forall (λ s, has_char slash s = false ∧ has_char dot s = false) [v; k; n] →
  let r := gvkn (g +:+ String slash v) k n in
  GetGVKNFromConditionType (GetConditionType r) = r.
Proof.
  intros Hg Hk Hn Hgs Hs. rewrite !Forall_cons in Hs.
  destruct Hs as ([Hvs Hvd] & [Hks Hkd] & [Hns Hnd] & _). simpl.
  rewrite (GetConditionType_group g v k n) by done. unfold GetGVKNFromConditionType.
  rewrite split_on_sep by done.
  assert (has_char slash (v +:+ String dot (k +:+ String dot n)) = false) as Hsl.
  { rewrite has_char_app. simpl. rewrite has_char_app. simpl. by rewrite Hvs, Hks, Hns. }
  rewrite (split_on_no_sep slash) by done.
  by rewrite !(split_on_sep dot), (split_on_no_sep dot) by done.
Qed.

(** For a resource of the core API group the condition type does not parse back:
    the apiVersion comes out with a leading slash. *)
Theorem ConditionType_core_group v k n :
  v ≠ "" → k ≠ "" → n ≠ "" →
  Forall (λ s, has_char slash s = false ∧ has_char dot s = false) [v; k; n] →
  GetGVKNFromConditionType (GetConditionType (gvkn v k n)) = gvkn (String slash v) k n.
Proof.
  intros Hv Hk Hn Hs. rewrite !Forall_cons in Hs.
  destruct Hs as ([Hvs Hvd] & [Hks Hkd] & [Hns Hnd] & _).
  rewrite (GetConditionType_core v k n) by done. unfold GetGVKNFromConditionType.
  assert (has_char slash (v +:+ String dot (k +:+ String dot n)) = false) as Hsl.
  { rewrite has_char_app. simpl. rewrite has_char_app. simpl. by rewrite Hvs, Hks, Hns. }
  rewrite (split_on_no_sep slash) by done.
  by rewrite !(split_on_sep dot), (split_on_no_sep dot) by done.
Qed.
End theorems.

(** ** Witnesses *)
Module KptfileWitnesses.
Import Model.

Definition kfg (gs : list ReadinessGate) (cs : list Condition) : KptFile :=
  mkKptFile (mkObj "kpt.dev/v1" "Kptfile" "pkg" "" ∅ cs gs None ∅ : KubeObject).
Definition kf : list Condition → KptFile := kfg [].
Definition ca := mkCondition "g/v1.K.a" "True" "g/v1.O.o" "done".
Definition cb := mkCondition "g/v1.K.b" "False" "" "".
Definition cb' := mkCondition "g/v1.K.b" "True" "r" "m".

Lemma SetConditions_lookup_witness :
  snd (GetCondition (kf [ca; cb']) "g/v1.K.b") = Some cb'.
Proof.
  destruct (SetConditions_lookup (kf [ca; cb]) cb' (kf [ca; cb'])) as [Ht _];
    [vm_compute; reflexivity|]. exact (Ht "g/v1.K.b").
Defined.

Lemma DeleteCondition_removes_witness :
  NoDup (types (conds (kf [ca; cb]))) ∧ ∃ r' e, DeleteCondition (kf [ca; cb]) "g/v1.K.a" = Done (r', e).
Proof.
  assert (NoDup (types (conds (kf [ca; cb])))) as Hnd.
  { apply (bool_decide_eq_true_1 _). vm_compute. reflexivity. }
  split; [exact Hnd|].
  destruct (DeleteCondition_removes (kf [ca; cb]) "g/v1.K.a" Hnd) as (r' & e & Hd & _).
  exists r', e. exact Hd.
Defined.

Lemma DeleteCondition_duplicate_panics_witness :
  DeleteCondition (kf [ca; cb; cb']) "g/v1.K.b" = Panic "slice bounds out of range".
Proof.
  apply (DeleteCondition_duplicate_panics _ _ [ca] cb cb'); [vm_compute; reflexivity..|].
  apply (bool_decide_eq_true_1 _). vm_compute. reflexivity.
Defined.

Lemma SetConditionRefFailed_spec_witness :
  snd (GetCondition (kf [mkCondition "g/v1.K.a" "False" "g/v1.O.o" "bad"; cb]) "g/v1.K.a") =
  Some (mkCondition "g/v1.K.a" "False" "g/v1.O.o" "bad").
Proof.
  destruct (SetConditionRefFailed_spec (kf [ca; cb]) (gvkn "g/v1" "K" "a") "bad"
    (kf [mkCondition "g/v1.K.a" "False" "g/v1.O.o" "bad"; cb])) as [Hc _]; [vm_compute; reflexivity|].
  exact Hc.
Defined.

Lemma IsReady_spec_witness : snd (IsReady (kf [ca; cb]) "g/v1.K.a") = true.
Proof.
  apply (IsReady_spec (kf [ca; cb]) "g/v1.K.a"). split.
  - exists ca. split; [apply (bool_decide_eq_true_1 _)|]; vm_compute; reflexivity.
  - intros c Hc Hp Hs. vm_compute in Hc.
    repeat (apply elem_of_cons in Hc as [->|Hc]; [vm_compute in Hs, Hp; discriminate|]).
    by apply not_elem_of_nil in Hc.
Defined.

Lemma SetReadinessGates_spec_witness :
  snd (HasReadinessGate (kfg [mkReadinessGate "ct"] []) "ct") = true.
Proof.
  destruct (SetReadinessGates_spec (kf []) ["ct"]
    (kfg [mkReadinessGate "ct"] [])) as [Hg _]; [vm_compute; reflexivity|].
  apply Hg. apply (bool_decide_eq_true_1 _). vm_compute. reflexivity.
Defined.

Lemma ConditionType_roundtrip_witness :
  GetGVKNFromConditionType (GetConditionType (gvkn "req.nephio.org/v1alpha1" "Interface" "n3")) =
  gvkn "req.nephio.org/v1alpha1" "Interface" "n3".
Proof.
  apply (ConditionType_roundtrip "req.nephio.org" "v1alpha1" "Interface" "n3"); try discriminate;
    [reflexivity|repeat constructor].
Defined.

Lemma ConditionType_core_group_witness :
  GetGVKNFromConditionType (GetConditionType (gvkn "v1" "ConfigMap" "cm")) = gvkn "/v1" "ConfigMap" "cm".
Proof. apply (ConditionType_core_group "v1" "ConfigMap" "cm"); try discriminate; repeat constructor. Defined.
End KptfileWitnesses.
