(* ===== verification/Inventory.v ===== *)
(** * The inventory of [krm-functions/lib/condkptsdk]
    ([inventory.go], [inventory_resources.go]; configuration types of [sdk.go])

    The inventory is a tree of resource contexts keyed by kind and reference: the
    "for" resources and the global watches at the first level, the "own" and specific
    "watch" resources of a for resource at the second.  The mutex is not modelled: a
    run of the SDK is sequential.  Go iterates over maps in an unspecified order;
    [GoRange] is that order, for every place in the code where a map is ranged over,
    and theorems hold for all of them. *)
From S2P Require Import Prelude External SdkModel Ref.

(** ** Ranging over Go maps *)

(** The place of a [range] loop: the loop and the for resource it runs for. *)
Definition rsite : Type := string * ObjectReference.

Class GoRange := {
  range : rsite → ∀ {K V} `{Countable K}, gmap K V → list (K * V)
}.
Class GoRangeLaws `{GoRange} : Prop := {
  range_perm s {K V} `{Countable K} (m : gmap K V) : range s m ≡ₚ map_to_list m
}.

Definition at_ (loop : string) : rsite := (loop, emptyRef).
Definition at_for (loop : string) (forRef : ObjectReference) : rsite := (loop, forRef).

(** ** Kinds *)

(** [gvkKind], with the zero value of the Go string type. *)
Inductive gvkKind := noGVKKind | forGVKKind | ownGVKKind | watchGVKKind.

#[export] Instance gvkKind_eq_dec : EqDecision gvkKind.
Proof. solve_decision. Defined.
#[export] Instance gvkKind_countable : Countable gvkKind.
Proof.
  apply (inj_countable' (λ k, match k with noGVKKind => 0 | forGVKKind => 1 | ownGVKKind => 2 | watchGVKKind => 3 end)
    (λ n, match n with 1 => forGVKKind | 2 => ownGVKKind | 3 => watchGVKKind | _ => noGVKKind end)).
  by intros [].
Defined.

Definition gvkKind_string (k : gvkKind) : string :=
  match k with noGVKKind => "" | forGVKKind => "for" | ownGVKKind => "own" | watchGVKKind => "watch" end.

(** [ResourceKind], with the zero value. *)
Inductive ResourceKind := noResourceKind | ChildRemoteCondition | ChildRemote | ChildLocal | ChildInitial.

#[export] Instance ResourceKind_eq_dec : EqDecision ResourceKind.
Proof. solve_decision. Defined.

Record sdkObjectReference := mkSdkRef { sr_gvkKind : gvkKind; sr_ref : ObjectReference }.

#[export] Instance sdkObjectReference_eq_dec : EqDecision sdkObjectReference.
Proof. solve_decision. Defined.
#[export] Instance sdkObjectReference_countable : Countable sdkObjectReference.
Proof.
  apply (inj_countable' (λ r, (sr_gvkKind r, sr_ref r)) (λ '(k, r), mkSdkRef k r)). by intros [].
Defined.

Section inventory.
Context `{!FnSDK, !GoRange}.

(** The state of the function or controller that uses the SDK: its callbacks are
    closures over it, and may panic. *)
Context {S : Type}.

(** ** Configuration ([sdk.go]) *)
Definition WatchCallbackFn : Type := S → option KubeObject → comp (S * option error).
Definition PopulateOwnResourcesFn_t : Type := S → KubeObject → comp (S * result (list KubeObject)).
Definition UpdateResourceFn_t : Type :=
  S → option KubeObject → list KubeObject → comp (S * result (list KubeObject)).

Record Config := mkConfig {
  Root : bool;
  For : ObjectReference;
  Owns : gmap ObjectReference ResourceKind;
  Watch : gmap ObjectReference (option WatchCallbackFn);
  PopulateOwnResourcesFn : option PopulateOwnResourcesFn_t;
  UpdateResourceFn : option UpdateResourceFn_t
}.

(** ** Contexts *)
Record gvkKindCtx := mkKindCtx {
  kc_gvkKind : gvkKind;
  kc_ownKind : ResourceKind;
  kc_callbackFn : option WatchCallbackFn
}.
Definition zeroKindCtx : gvkKindCtx := mkKindCtx noGVKKind noResourceKind None.

Record resourceCtx := mkResourceCtx {
  rc_kindCtx : gvkKindCtx;
  rc_existingCondition : option Condition;
  rc_existingResource : option KubeObject;
  rc_newResource : option KubeObject;
  rc_failed : bool
}.
Definition rc_ownKind (c : resourceCtx) : ResourceKind := kc_ownKind (rc_kindCtx c).
Definition zeroResourceCtx : resourceCtx := mkResourceCtx zeroKindCtx None None None false.

Inductive resources := mkResources {
  res_ctx : resourceCtx;
  res_children : gmap sdkObjectReference resources
}.
Definition emptyResources : resources := mkResources zeroResourceCtx ∅.

Record inv := mkInv {
  inv_gvkResources : gmap ObjectReference gvkKindCtx;
  inv_resources : resources;
  inv_ready : bool;
  inv_debug : bool
}.
Definition with_resources (r : inv) (rs : resources) : inv :=
  mkInv (inv_gvkResources r) rs (inv_ready r) (inv_debug r).

(** What [set] stores: a condition, an object, or a value of another Go type. *)
Inductive invObject := XCondition (c : Condition) | XObject (o : KubeObject) | XOther (shown : string).

(** ** GVK inventory ([inventory.go]) *)
Definition addGVKObjectReference (r : inv) (kc : gvkKindCtx) (ref : ObjectReference) : result inv :=
  let key := gvk (APIVersion ref) (Kind ref) in
  match inv_gvkResources r !! key with
  | Some resCtx =>
      Err ("another resource with a different kind " +:+ gvkKind_string (kc_gvkKind resCtx) +:+ " already exists")
  | None =>
      Ok (mkInv (<[key := kc]> (inv_gvkResources r)) (inv_resources r) (inv_ready r) (inv_debug r))
  end.

(** Bodies of the loops of [initializeGVKInventory] over [cfg.Owns] and [cfg.Watch]. *)
Definition addOwn (r : inv) (objRef : ObjectReference) (rk : ResourceKind) : result inv :=
  match ValidateGVKRef objRef with
  | Some err => Err err
  | None =>
      if IsWildCardRef objRef && negb (bool_decide (rk = ChildInitial))
      then Err "only childLocal wildcard refs allowed in own reference"
      else addGVKObjectReference r (mkKindCtx ownGVKKind rk None) objRef
  end.

Definition addWatch (r : inv) (objRef : ObjectReference) (cb : option WatchCallbackFn) : result inv :=
  match ValidateGVKRef objRef with
  | Some err => Err err
  | None =>
      if IsWildCardRef objRef
      then Err "no wildcard refs allowed in watch resource reference"
      else addGVKObjectReference r (mkKindCtx watchGVKKind noResourceKind cb) objRef
  end.

Definition add_all {V} (add : inv → ObjectReference → V → result inv)
    (r : inv) (l : list (ObjectReference * V)) : result inv :=
  foldl (λ acc kv, r ← acc; add r (fst kv) (snd kv)) (Ok r) l.

Definition initializeGVKInventory (r : inv) (cfg : Config) : result inv :=
  match ValidateGVKRef (For cfg) with
  | Some err => Err err
  | None =>
      if IsWildCardRef (For cfg) then Err "no wildcard refs allowed in for reference"
      else
        r ← addGVKObjectReference r (mkKindCtx forGVKKind noResourceKind None) (For cfg);
        r ← add_all addOwn r (range (at_ "initializeGVKInventory.Owns") (Owns cfg));
        r ← add_all addWatch r (range (at_ "initializeGVKInventory.Watch") (Watch cfg));
        match UpdateResourceFn cfg with
        | None => Err "a function always needs a GenerateResource function"
        | Some _ => Ok r
        end
  end.

Definition newInventory (cfg : Config) : result inv :=
  initializeGVKInventory (mkInv ∅ emptyResources true false) cfg.

Definition wildCardRef : ObjectReference := gvk "*" "*".

(** [isGVKMatch] looks the GVK of a reference up, and the wildcard if it is absent. *)
Definition isGVKMatch (r : inv) (ref : option ObjectReference) : option gvkKindCtx :=
  match ref with
  | None => None
  | Some ref =>
      match inv_gvkResources r !! gvk (APIVersion ref) (Kind ref) with
      | Some kc => Some kc
      | None => inv_gvkResources r !! wildCardRef
      end
  end.

Definition setdebug (r : inv) : inv :=
  mkInv (inv_gvkResources r) (inv_resources r) (inv_ready r) true.

(** ** Resource tree ([inventory_resources.go]) *)
Definition getSdkRefs (k : gvkKind) (refs : list ObjectReference) : result (list sdkObjectReference) :=
  match refs with
  | [] => Err "cannot walk resource tree with empty ref"
  | [r0] =>
      if decide (k ≠ forGVKKind ∧ k ≠ watchGVKKind)
      then Err "refs with len 1 only allowed for for/watch"
      else Ok [mkSdkRef k r0]
  | [r0; r1] =>
      if decide (k = forGVKKind) then Err "refs with len 2 only allowed for own/watch"
      else Ok [mkSdkRef forGVKKind r0; mkSdkRef k r1]
  | _ => Err ("refs with len > 2, got " +:+ pretty (length refs))
  end.

(** Storing at a node of the tree. *)
Definition set_ctx (c : resourceCtx) (kc : gvkKindCtx) (x : invObject) (newResource failed : bool)
    : resourceCtx * option error :=
  match x with
  | XCondition d =>
      (mkResourceCtx (rc_kindCtx c) (Some d) (rc_existingResource c) (rc_newResource c) failed, None)
  | XObject d =>
      if newResource
      then (mkResourceCtx kc (rc_existingCondition c) (rc_existingResource c) (Some d) failed, None)
      else (mkResourceCtx kc (rc_existingCondition c) (Some d) (rc_newResource c) failed, None)
  | XOther shown =>
      (mkResourceCtx (rc_kindCtx c) (rc_existingCondition c) (rc_existingResource c) (rc_newResource c) failed,
       Some ("unsupported object: " +:+ shown))
  end.

Fixpoint res_set (refs : list sdkObjectReference) (kc : gvkKindCtx) (x : invObject)
    (newResource failed : bool) (r : resources) : resources * option error :=
  match refs with
  | [] =>
      let '(c, err) := set_ctx (res_ctx r) kc x newResource failed in
      (mkResources c (res_children r), err)
  | ref :: refs =>
      let child := default emptyResources (res_children r !! ref) in
      let '(child', err) := res_set refs kc x newResource failed child in
      (mkResources (res_ctx r) (<[ref := child']> (res_children r)), err)
  end.

Definition inv_set (r : inv) (kc : gvkKindCtx) (refs : list ObjectReference) (x : invObject)
    (newResource failed : bool) : inv * option error :=
  match getSdkRefs (kc_gvkKind kc) refs with
  | Err e => (r, Some e)
  | Ok sdkRefs =>
      let '(rs, err) := res_set sdkRefs kc x newResource failed (inv_resources r) in
      (with_resources r rs, err)
  end.

(** [delete] clears the existing condition of the node. *)
Fixpoint res_delete (refs : list sdkObjectReference) (r : resources) : resources * option error :=
  match refs with
  | [] =>
      let c := res_ctx r in
      (mkResources (mkResourceCtx (rc_kindCtx c) None (rc_existingResource c) (rc_newResource c) (rc_failed c))
         (res_children r), None)
  | ref :: refs =>
      match res_children r !! ref with
      | None => (r, Some "not found")
      | Some child =>
          let '(child', err) := res_delete refs child in
          (mkResources (res_ctx r) (<[ref := child']> (res_children r)), err)
      end
  end.

Definition inv_delete (r : inv) (kc : gvkKindCtx) (refs : list ObjectReference) : inv * option error :=
  match getSdkRefs (kc_gvkKind kc) refs with
  | Err e => (r, Some e)
  | Ok sdkRefs =>
      let '(rs, err) := res_delete sdkRefs (inv_resources r) in (with_resources r rs, err)
  end.

(** [get] builds a map of (deep copies of) contexts; the copies need no operation of
    their own on values. *)
Definition collect (p : gvkKind → bool) (l : list (sdkObjectReference * resources))
    : gmap ObjectReference resourceCtx :=
  foldl (λ m kv, if p (sr_gvkKind (fst kv)) then <[sr_ref (fst kv) := res_ctx (snd kv)]> m else m) ∅ l.

Fixpoint res_get (site : rsite) (refs : list sdkObjectReference) (r : resources)
    : gmap ObjectReference resourceCtx :=
  match refs with
  | [] =>
      if decide (res_children r = ∅) then {[ emptyRef := res_ctx r ]}
      else collect (λ _, true) (range site (res_children r))
  | ref :: refs =>
      if decide (sr_ref ref = emptyRef)
      then collect (λ k, bool_decide (k = sr_gvkKind ref)) (range site (res_children r))
      else match res_children r !! ref with
           | None => ∅
           | Some child => res_get site refs child
           end
  end.

Definition inv_get (r : inv) (site : rsite) (k : gvkKind) (refs : list ObjectReference)
    : gmap ObjectReference resourceCtx :=
  match getSdkRefs k refs with
  | Err _ => ∅
  | Ok sdkRefs => res_get site sdkRefs (inv_resources r)
  end.

(** [list] gives the paths of the first two levels. *)
Definition inv_list (r : inv) : list (list sdkObjectReference) :=
  flat_map (λ kv, [fst kv] :: ((λ c, [fst kv; fst c]) <$>
                     range ("list.children", sr_ref (fst kv)) (res_children (snd kv))))
    (range (at_ "list") (res_children (inv_resources r))).
End inventory.
Arguments Config {_} S.
Arguments gvkKindCtx {_} S.
Arguments resourceCtx {_} S.
Arguments resources {_} S.
Arguments inv {_} S.

(** ** Reading the tree *)
Section lemmas.
Context `{!FnSDK, !GoRange, !GoRangeLaws} {S : Type}.
Implicit Types (r : inv S) (kc : gvkKindCtx S) (cfg : Config S).

(** The context of a first-level entry, and of an entry below a for resource. *)
Definition ctx1 r (k : gvkKind) (ref : ObjectReference) : option (resourceCtx S) :=
  res_ctx <$> res_children (inv_resources r) !! mkSdkRef k ref.
Definition ctx2 r (forRef : ObjectReference) (k : gvkKind) (ref : ObjectReference)
    : option (resourceCtx S) :=
  n ← res_children (inv_resources r) !! mkSdkRef forGVKKind forRef;
  res_ctx <$> res_children n !! mkSdkRef k ref.

Lemma range_elem s {K V} `{Countable K} (m : gmap K V) k v : (k, v) ∈ range s m ↔ m !! k = Some v.
Proof. by rewrite (range_perm s m), elem_of_map_to_list. Qed.

Lemma range_NoDup s {K V} `{Countable K} (m : gmap K V) : NoDup (range s m).*1.
Proof. rewrite (range_perm s m). apply NoDup_fst_map_to_list. Qed.

Lemma collect_lookup k (l : list (sdkObjectReference * resources S)) ref c :
  NoDup l.*1 →
  collect (λ k', bool_decide (k' = k)) l !! ref = Some c ↔
  ∃ n, (mkSdkRef k ref, n) ∈ l ∧ c = res_ctx n.
Proof.
  unfold collect. induction l as [|[[k' ref'] n'] l IH] using rev_ind; intros Hnd.
  { simpl. rewrite lookup_empty. set_solver. }
  rewrite fmap_app, NoDup_app in Hnd. destruct Hnd as (Hnd & Hdisj & _).
  assert (Hfresh : ∀ n, (mkSdkRef k' ref', n) ∉ l).
  { intros n Hn. apply (Hdisj (mkSdkRef k' ref')); [|set_solver].
    apply list_elem_of_fmap. by exists (mkSdkRef k' ref', n). }
  rewrite foldl_app. simpl. setoid_rewrite elem_of_app. setoid_rewrite list_elem_of_singleton.
  case_bool_decide as Hk; [subst k'|].
  - rewrite lookup_insert. case_decide as Hr; [subst ref'|].
    + split; [intros [= <-]; by eauto|]. intros (n & [Hn|Hn] & ->); [by apply Hfresh in Hn|by simplify_eq].
    + rewrite IH by done. split; [naive_solver|]. intros (n & [Hn|Hn] & ->); [by eauto|by simplify_eq].
  - rewrite IH by done. split; [naive_solver|]. intros (n & [Hn|Hn] & ->); [by eauto|by simplify_eq].
Qed.

Lemma collect_range s k (m : gmap sdkObjectReference (resources S)) ref :
  collect (λ k', bool_decide (k' = k)) (range s m) !! ref = res_ctx <$> m !! mkSdkRef k ref.
Proof.
  apply option_eq. intros c. rewrite collect_lookup by apply range_NoDup.
  setoid_rewrite range_elem. destruct (m !! mkSdkRef k ref); simpl; naive_solver.
Qed.

(** [get] with an empty reference lists a level of the tree, whatever the order of
    iteration. *)
Lemma inv_get_level1 r s k ref :
  k = forGVKKind ∨ k = watchGVKKind → inv_get r s k [emptyRef] !! ref = ctx1 r k ref.
Proof.
  intros Hk. unfold inv_get, getSdkRefs. rewrite decide_False by naive_solver.
  cbn [res_get]. rewrite decide_True by done. apply collect_range.
Qed.

Lemma inv_get_level2 r s k forRef ref :
  forRef ≠ emptyRef → k ≠ forGVKKind → inv_get r s k [forRef; emptyRef] !! ref = ctx2 r forRef k ref.
Proof.
  intros Hf Hk. unfold inv_get, getSdkRefs, ctx2. rewrite decide_False by done.
  cbn [res_get]. rewrite decide_False by done. simpl.
  destruct (res_children (inv_resources r) !! mkSdkRef forGVKKind forRef); simpl; [|by rewrite lookup_empty].
  apply collect_range.
Qed.

(** ** Writing the tree *)

Lemma children_default (o : option (resources S)) key :
  (res_ctx <$> res_children (default emptyResources o) !! key) =
  (o ≫= λ n, res_ctx <$> res_children n !! key).
Proof. destruct o; [done|]. simpl. by rewrite lookup_empty. Qed.

Lemma ctx_default (o : option (resources S)) :
  res_ctx (default emptyResources o) = default zeroResourceCtx (res_ctx <$> o).
Proof. by destruct o. Qed.

Lemma inv_set_1 r kc ref x new failed r' :
  kc_gvkKind kc = forGVKKind ∨ kc_gvkKind kc = watchGVKKind →
  inv_set r kc [ref] x new failed = (r', None) →
  (∀ k ref', ctx1 r' k ref' =
     if decide (k = kc_gvkKind kc ∧ ref' = ref)
     then Some (fst (set_ctx (default zeroResourceCtx (ctx1 r k ref)) kc x new failed))
     else ctx1 r k ref') ∧
  (∀ forRef k ref', ctx2 r' forRef k ref' = ctx2 r forRef k ref').
Proof.
  intros Hk. unfold inv_set, getSdkRefs. rewrite decide_False by naive_solver. cbn [res_set].
  set (n := default emptyResources (res_children (inv_resources r) !! mkSdkRef (kc_gvkKind kc) ref)).
  destruct (set_ctx (res_ctx n) kc x new failed) as [c err] eqn:Hset. intros [= <- ->]. split.
  - intros k ref'. unfold ctx1. simpl. rewrite lookup_insert. case_decide as Heq.
    + injection Heq as <- <-. rewrite decide_True by done. simpl. f_equal.
      rewrite <-ctx_default. fold n. by rewrite Hset.
    + rewrite decide_False; [done|]. intros [-> ->]. done.
  - intros forRef k ref'. unfold ctx2. simpl. rewrite lookup_insert. case_decide as Heq; [|done].
    rewrite <-Heq. simpl. apply children_default.
Qed.

Lemma inv_set_2 r kc forRef ref x new failed r' :
  kc_gvkKind kc ≠ forGVKKind →
  inv_set r kc [forRef; ref] x new failed = (r', None) →
  (∀ k ref', ctx1 r' k ref' =
     if decide (k = forGVKKind ∧ ref' = forRef)
     then Some (default zeroResourceCtx (ctx1 r forGVKKind forRef)) else ctx1 r k ref') ∧
  (∀ f k ref', ctx2 r' f k ref' =
     if decide (f = forRef ∧ k = kc_gvkKind kc ∧ ref' = ref)
     then Some (fst (set_ctx (default zeroResourceCtx (ctx2 r forRef k ref)) kc x new failed))
     else ctx2 r f k ref').
Proof.
  intros Hk. unfold inv_set, getSdkRefs. rewrite decide_False by done. cbn [res_set].
  set (f0 := default emptyResources (res_children (inv_resources r) !! mkSdkRef forGVKKind forRef)).
  set (n := default emptyResources (res_children f0 !! mkSdkRef (kc_gvkKind kc) ref)).
  destruct (set_ctx (res_ctx n) kc x new failed) as [c err] eqn:Hset. intros [= <- ->].
  assert (Hctx : ∀ k ref', (res_ctx <$> res_children f0 !! mkSdkRef k ref') = ctx2 r forRef k ref').
  { intros k ref'. apply children_default. }
  split.
  - intros k ref'. unfold ctx1. simpl. rewrite lookup_insert. case_decide as Heq.
    + injection Heq as <- <-. rewrite decide_True by done. simpl. f_equal.
      apply ctx_default.
    + rewrite decide_False; [done|]. intros [-> ->]. done.
  - intros f k ref'. unfold ctx2 at 1. simpl. rewrite lookup_insert. case_decide as Heq.
    + injection Heq as <-. simpl. rewrite lookup_insert. case_decide as Heq'.
      * injection Heq' as <- <-. rewrite decide_True by done. simpl. f_equal.
        rewrite <-Hctx, <-ctx_default. fold n. by rewrite Hset.
      * rewrite decide_False; [apply Hctx|]. intros (_ & -> & ->). done.
    + rewrite decide_False; [done|]. intros (-> & _). done.
Qed.
(** ** The GVK inventory *)
Definition gvk_of (ref : ObjectReference) : ObjectReference := gvk (APIVersion ref) (Kind ref).

Section add_all.
Context {V : Type} (ok : ObjectReference → V → bool) (kctx : V → gvkKindCtx S)
        (add : inv S → ObjectReference → V → result (inv S)).
Hypothesis add_ok : ∀ r ref v, ok ref v = true → add r ref v = addGVKObjectReference r (kctx v) ref.
Hypothesis add_err : ∀ r ref v, ok ref v = false → ∃ e, add r ref v = Err e.

Lemma add_all_cons r ref v l : add_all add r ((ref, v) :: l) = (add r ref v ≫= λ r, add_all add r l).
Proof.
  unfold add_all. simpl. destruct (add r ref v) as [r1|e]; [done|]. simpl.
  induction l as [|kv l IH]; [done|]. exact IH.
Qed.

(** The loop succeeds exactly when every entry passes its checks and the GVKs are new
    and distinct, and then it has added them all. *)
Lemma add_all_spec r l r' :
  add_all add r l = Ok r' ↔
  Forall (λ kv, ok kv.1 kv.2 = true) l ∧ NoDup (gvk_of <$> l.*1) ∧
  (∀ kv, kv ∈ l → inv_gvkResources r !! gvk_of kv.1 = None) ∧
  r' = mkInv (list_to_map ((λ kv, (gvk_of kv.1, kctx kv.2)) <$> l) ∪ inv_gvkResources r)
         (inv_resources r) (inv_ready r) (inv_debug r).
Proof.
  revert r. induction l as [|[ref v] l IH]; intros r.
  { unfold add_all. simpl. rewrite (left_id_L ∅ (∪)). split.
    - intros [= <-]. split_and!; [constructor|constructor|set_solver|by destruct r].
    - intros (_ & _ & _ & ->). by destruct r. }
  rewrite add_all_cons, result_bind_Ok. destruct (ok ref v) eqn:Hok.
  2:{ destruct (add_err r ref v Hok) as [e He]. rewrite He. split; [naive_solver|].
      intros ([Hf _]%Forall_cons & _). simpl in Hf. congruence. }
  rewrite add_ok by done. unfold addGVKObjectReference. fold (gvk_of ref).
  destruct (inv_gvkResources r !! gvk_of ref) as [kc|] eqn:Hl.
  { split; [naive_solver|]. intros (_ & _ & Hn & _). specialize (Hn (ref, v)).
    simpl in Hn. rewrite Hn in Hl by set_solver. done. }
  rewrite !fmap_cons, Forall_cons, NoDup_cons. cbn [fst snd].
  assert (∀ m : gmap ObjectReference (gvkKindCtx S), gvk_of ref ∉ gvk_of <$> l.*1 →
    list_to_map ((λ kv, (gvk_of kv.1, kctx kv.2)) <$> l) ∪ <[gvk_of ref := kctx v]> m =
    <[gvk_of ref := kctx v]> (list_to_map ((λ kv, (gvk_of kv.1, kctx kv.2)) <$> l) ∪ m)) as Hins.
  { intros m Hni. rewrite insert_union_r; [done|]. apply not_elem_of_list_to_map.
    intros Hin. apply Hni. apply list_elem_of_fmap in Hin as (p & -> & Hin).
    apply list_elem_of_fmap in Hin as (kv & -> & Hin). simpl. by apply (list_elem_of_fmap_2 gvk_of), (list_elem_of_fmap_2 fst). }
  split.
  - intros (r1 & [= <-] & Hrest). apply IH in Hrest as (Hf & Hnd & Hfresh & ->). simpl in *.
    assert (gvk_of ref ∉ gvk_of <$> l.*1) as Hni.
    { intros Hin. apply list_elem_of_fmap in Hin as (ref' & Heq & Hin).
      apply list_elem_of_fmap in Hin as (kv & -> & Hin). specialize (Hfresh kv Hin).
      rewrite <-Heq, lookup_insert_eq in Hfresh. done. }
    split_and!; [done..| |].
    + intros kv [->|Hin]%elem_of_cons; [done|]. specialize (Hfresh kv Hin).
      by apply lookup_insert_None in Hfresh as [? _].
    + rewrite Hins by done. by rewrite insert_union_l.
  - intros ((_ & Hf) & (Hni & Hnd) & Hfresh & ->). eexists. split; [done|]. apply IH. simpl.
    split_and!; [done..| |].
    + intros kv Hin. apply lookup_insert_None. split; [apply Hfresh; set_solver|].
      intros Heq. apply Hni. rewrite Heq. by apply (list_elem_of_fmap_2 gvk_of), (list_elem_of_fmap_2 fst).
    + rewrite Hins by done. by rewrite insert_union_l.
Qed.
End add_all.
End lemmas.

(** ** Which configurations are accepted *)
Section config.
Context `{!FnSDK, !GoRange, !GoRangeLaws} {S : Type}.
Implicit Types (r : inv S) (cfg : Config S).

Definition own_ok (ref : ObjectReference) (rk : ResourceKind) : bool :=
  is_nil (ValidateGVKRef ref) && (negb (IsWildCardRef ref) || bool_decide (rk = ChildInitial)).
Definition watch_ok {V} (ref : ObjectReference) (cb : V) : bool :=
  is_nil (ValidateGVKRef ref) && negb (IsWildCardRef ref).

(** The references of a configuration. *)
Definition cfg_refs cfg : list ObjectReference :=
  For cfg :: (map_to_list (Owns cfg)).*1 ++ (map_to_list (Watch cfg)).*1.

(** Every reference has a GVK, only an own resource of kind [ChildInitial] is a
    wildcard, no GVK is used twice and there is an update function. *)
Record config_valid cfg : Prop := {
  cv_for : watch_ok (For cfg) () = true;
  cv_owns : map_Forall (λ ref rk, own_ok ref rk = true) (Owns cfg);
  cv_watch : map_Forall (λ ref cb, watch_ok ref cb = true) (Watch cfg);
  cv_distinct : NoDup (gvk_of <$> cfg_refs cfg);
  cv_update : UpdateResourceFn cfg ≠ None
}.

(** The entries the configuration asks for. *)
Definition for_entry : gvkKindCtx S := mkKindCtx forGVKKind noResourceKind None.
Definition own_entry (kv : ObjectReference * ResourceKind) : ObjectReference * gvkKindCtx S :=
  (gvk_of kv.1, mkKindCtx ownGVKKind kv.2 None).
Definition watch_entry (kv : ObjectReference * option (WatchCallbackFn (S := S)))
    : ObjectReference * gvkKindCtx S :=
  (gvk_of kv.1, mkKindCtx watchGVKKind noResourceKind kv.2).

Lemma addOwn_ok r ref rk :
  own_ok ref rk = true → addOwn r ref rk = addGVKObjectReference r (mkKindCtx ownGVKKind rk None) ref.
Proof.
  unfold own_ok, addOwn. destruct (ValidateGVKRef ref); [done|]. simpl.
  destruct (IsWildCardRef ref); [|done]. simpl. by intros ->.
Qed.

Lemma addOwn_err r ref rk : own_ok ref rk = false → ∃ e, addOwn r ref rk = Err e.
Proof.
  unfold own_ok, addOwn. destruct (ValidateGVKRef ref); [by eauto|]. simpl.
  destruct (IsWildCardRef ref); [|done]. simpl. intros ->. simpl. by eauto.
Qed.

Lemma addWatch_ok r ref cb :
  watch_ok ref cb = true →
  addWatch r ref cb = addGVKObjectReference r (mkKindCtx watchGVKKind noResourceKind cb) ref.
Proof. unfold watch_ok, addWatch. destruct (ValidateGVKRef ref); [done|]. by destruct (IsWildCardRef ref). Qed.

Lemma addWatch_err r ref cb : watch_ok ref cb = false → ∃ e, addWatch r ref cb = Err e.
Proof.
  unfold watch_ok, addWatch. destruct (ValidateGVKRef ref); [by eauto|].
  destruct (IsWildCardRef ref); [by eauto|done].
Qed.

Lemma Forall_range s {K V} `{Countable K} (m : gmap K V) (P : K → V → Prop) :
  Forall (λ kv, P kv.1 kv.2) (range s m) ↔ map_Forall P m.
Proof.
  rewrite (range_perm s m), map_Forall_to_list. apply Forall_iff. by intros [].
Qed.

Lemma NoDup_gvk_range s {V} (m : gmap ObjectReference V) :
  NoDup (gvk_of <$> (range s m).*1) ↔ NoDup (gvk_of <$> (map_to_list m).*1).
Proof. by rewrite (range_perm s m). Qed.

Lemma for_checks {A} cfg (k : result A) x :
  match ValidateGVKRef (For cfg) with
  | Some err => Err err
  | None => if IsWildCardRef (For cfg) then Err "no wildcard refs allowed in for reference" else k
  end = Ok x ↔ watch_ok (For cfg) () = true ∧ k = Ok x.
Proof.
  unfold watch_ok. destruct (ValidateGVKRef (For cfg)); [naive_solver|].
  destruct (IsWildCardRef (For cfg)); naive_solver.
Qed.

Definition gvk_table cfg : gmap ObjectReference (gvkKindCtx S) :=
  list_to_map (watch_entry <$> range (at_ "initializeGVKInventory.Watch") (Watch cfg)) ∪
  (list_to_map (own_entry <$> range (at_ "initializeGVKInventory.Owns") (Owns cfg)) ∪
   {[ gvk_of (For cfg) := for_entry ]}).

Lemma keys_own s cfg :
  (own_entry <$> range s (Owns cfg)).*1 = gvk_of <$> (range s (Owns cfg)).*1.
Proof. by rewrite <-!list_fmap_compose. Qed.

Lemma keys_watch s cfg :
  (watch_entry <$> range s (Watch cfg)).*1 = gvk_of <$> (range s (Watch cfg)).*1.
Proof. by rewrite <-!list_fmap_compose. Qed.

Definition sO : rsite := at_ "initializeGVKInventory.Owns".
Definition sW : rsite := at_ "initializeGVKInventory.Watch".
Definition for_table cfg : gmap ObjectReference (gvkKindCtx S) := {[ gvk_of (For cfg) := for_entry ]}.
Definition own_table cfg : gmap ObjectReference (gvkKindCtx S) :=
  list_to_map (own_entry <$> range sO (Owns cfg)) ∪ for_table cfg.

Lemma own_table_None cfg key :
  own_table cfg !! key = None ↔ key ∉ gvk_of <$> (range sO (Owns cfg)).*1 ∧ key ≠ gvk_of (For cfg).
Proof.
  unfold own_table, for_table. rewrite lookup_union_None, <-not_elem_of_list_to_map, keys_own.
  rewrite lookup_singleton_None. naive_solver.
Qed.

Lemma cfg_refs_NoDup cfg :
  NoDup (gvk_of <$> cfg_refs cfg) ↔
  NoDup (gvk_of <$> (range sO (Owns cfg)).*1) ∧ NoDup (gvk_of <$> (range sW (Watch cfg)).*1) ∧
  (∀ kv, kv ∈ range sO (Owns cfg) → for_table cfg !! gvk_of kv.1 = None) ∧
  (∀ kv, kv ∈ range sW (Watch cfg) → own_table cfg !! gvk_of kv.1 = None).
Proof.
  unfold cfg_refs. rewrite fmap_cons, fmap_app, NoDup_cons, NoDup_app, elem_of_app.
  rewrite <-(range_perm sO (Owns cfg)), <-(range_perm sW (Watch cfg)).
  assert (Hdisj : (∀ x, x ∈ gvk_of <$> (map_to_list (Owns cfg)).*1 →
      x ∉ gvk_of <$> (map_to_list (Watch cfg)).*1) ↔
    (∀ x, x ∈ gvk_of <$> (range sO (Owns cfg)).*1 → x ∉ gvk_of <$> (range sW (Watch cfg)).*1)).
  { by setoid_rewrite <-(range_perm sO (Owns cfg)); setoid_rewrite <-(range_perm sW (Watch cfg)). }
  rewrite ?Hdisj.
  assert (Hkeys : ∀ {V} (m : gmap ObjectReference V) s (P : ObjectReference → Prop),
    (∀ kv, kv ∈ range s m → P (gvk_of kv.1)) ↔ (∀ x, x ∈ gvk_of <$> (range s m).*1 → P x)).
  { intros V m s P. setoid_rewrite list_elem_of_fmap. setoid_rewrite list_elem_of_fmap. naive_solver. }
  rewrite (Hkeys _ _ _ (λ k, for_table cfg !! k = None)), (Hkeys _ _ _ (λ k, own_table cfg !! k = None)).
  setoid_rewrite own_table_None. unfold for_table. setoid_rewrite lookup_singleton_None.
  naive_solver.
Qed.

(** [newInventory] accepts exactly the valid configurations. *)
Lemma newInventory_table cfg r :
  newInventory cfg = Ok r ↔
  config_valid cfg ∧ r = mkInv (gvk_table cfg) emptyResources true false.
Proof.
  unfold newInventory, initializeGVKInventory. rewrite for_checks.
  change (addGVKObjectReference (mkInv ∅ emptyResources true false) (mkKindCtx forGVKKind noResourceKind None) (For cfg))
    with (Ok (mkInv (for_table cfg) emptyResources true false)).
  cbn [mbind result_bind]. rewrite result_bind_Ok.
  assert (Hw : ∀ r1, (add_all addWatch r1 (range sW (Watch cfg)) ≫= λ r2 : inv S,
      match UpdateResourceFn cfg with
      | None => Err "a function always needs a GenerateResource function"
      | Some _ => Ok r2 end) = Ok r ↔
      UpdateResourceFn cfg ≠ None ∧ add_all addWatch r1 (range sW (Watch cfg)) = Ok r).
  { intros r1. rewrite result_bind_Ok. destruct (UpdateResourceFn cfg); naive_solver. }
  split.
  - intros (Hf & r1 & Ho & Hr). apply Hw in Hr as [Hu Hr].
    apply (add_all_spec own_ok _ addOwn addOwn_ok addOwn_err) in Ho as (Ho1 & Ho2 & Ho3 & ->).
    apply (add_all_spec (λ ref cb, watch_ok ref cb) _ addWatch addWatch_ok addWatch_err) in Hr as (Hr1 & Hr2 & Hr3 & ->).
    split; [|done]. split; [done|by apply (Forall_range sO)|by apply (Forall_range sW)| |done].
    by apply cfg_refs_NoDup.
  - intros [[Hf Ho Hr Hn Hu] ->]. split; [done|]. apply cfg_refs_NoDup in Hn as (Hn1 & Hn2 & Hn3 & Hn4).
    eexists. split.
    + apply (add_all_spec own_ok _ addOwn addOwn_ok addOwn_err). split_and!; [|done..].
      by apply (Forall_range sO (Owns cfg) (λ ref rk, own_ok ref rk = true)).
    + apply Hw. split; [done|]. apply (add_all_spec (λ ref cb, watch_ok ref cb) _ addWatch addWatch_ok addWatch_err).
      split_and!; [|done..]. by apply (Forall_range sW (Watch cfg) (λ ref cb, watch_ok ref cb = true)).
Qed.

Lemma entries_lookup s {V} (m : gmap ObjectReference V) (f : V → gvkKindCtx S) key :
  NoDup (gvk_of <$> (range s m).*1) → ∀ kc,
  (list_to_map ((λ kv, (gvk_of kv.1, f kv.2)) <$> range s m) : gmap _ _) !! key = Some kc ↔
  ∃ ref v, m !! ref = Some v ∧ key = gvk_of ref ∧ kc = f v.
Proof.
  intros Hnd kc. rewrite <-elem_of_list_to_map, list_elem_of_fmap.
  2:{ rewrite <-!list_fmap_compose in *. exact Hnd. }
  split; [intros ([ref v] & [= -> ->] & Hin)|intros (ref & v & Hl & -> & ->)].
  - apply range_elem in Hin. by eauto.
  - exists (ref, v). by rewrite range_elem.
Qed.

(** What the table of a valid configuration holds. *)
Lemma gvk_table_lookup cfg key kc :
  config_valid cfg →
  gvk_table cfg !! key = Some kc ↔
  (key = gvk_of (For cfg) ∧ kc = for_entry) ∨
  (∃ ref rk, Owns cfg !! ref = Some rk ∧ key = gvk_of ref ∧ kc = mkKindCtx ownGVKKind rk None) ∨
  (∃ ref cb, Watch cfg !! ref = Some cb ∧ key = gvk_of ref ∧ kc = mkKindCtx watchGVKKind noResourceKind cb).
Proof.
  intros [_ _ _ Hn _]. apply cfg_refs_NoDup in Hn as (Hn1 & Hn2 & Hn3 & Hn4).
  pose proof (entries_lookup sO (Owns cfg) (λ rk, mkKindCtx ownGVKKind rk None) key Hn1) as HO.
  pose proof (entries_lookup sW (Watch cfg) (λ cb, mkKindCtx watchGVKKind noResourceKind cb) key Hn2) as HW.
    rewrite <-HO, <-HW. unfold gvk_table. fold sO sW. fold (for_table cfg). fold (own_table cfg).
  rewrite lookup_union_Some_raw. unfold own_table at 1. rewrite lookup_union_Some_raw.
  unfold for_table. rewrite lookup_singleton_Some. split; [naive_solver|].
  assert (HnW : is_Some (own_table cfg !! key) →
      (list_to_map (watch_entry <$> range sW (Watch cfg)) : gmap _ (gvkKindCtx S)) !! key = None).
  { intros Hk. apply eq_None_not_Some. intros [kw Hl]. apply HW in Hl as (ref & cb & Hl & -> & _).
    specialize (Hn4 (ref, cb)). rewrite range_elem in Hn4. simpl in Hn4. rewrite Hn4 in Hk by done.
    by destruct Hk. }
  assert (HnO : key = gvk_of (For cfg) →
      (list_to_map (own_entry <$> range sO (Owns cfg)) : gmap _ (gvkKindCtx S)) !! key = None).
  { intros Hk. apply eq_None_not_Some. intros [ko Hl]. apply HO in Hl as (ref & rk & Hl & -> & _).
    specialize (Hn3 (ref, rk)). rewrite range_elem in Hn3. specialize (Hn3 Hl).
    unfold for_table in Hn3. apply lookup_singleton_None in Hn3. simpl in *. congruence. }
  unfold own_table, for_table in HnW.
  intros [[-> ->]|[Hk|Hk]]; [right|right|by left].
  - split; [|right; by rewrite HnO]. apply HnW. rewrite lookup_union_r by by apply HnO.
    by rewrite lookup_singleton_eq.
  - split; [|by left]. apply HnW. eexists. by apply lookup_union_Some_l.
Qed.
End config.

(** ** Properties *)
Section properties.
Context `{!FnSDK, !GoRange, !GoRangeLaws} {S : Type}.
Implicit Types (r : inv S) (kc : gvkKindCtx S) (cfg : Config S).

(** The configuration declares that the resources of GVK [key] are treated as [kc]. *)
Definition declared cfg (key : ObjectReference) kc : Prop :=
  (key = gvk_of (For cfg) ∧ kc = for_entry) ∨
  (∃ ref rk, Owns cfg !! ref = Some rk ∧ key = gvk_of ref ∧ kc = mkKindCtx ownGVKKind rk None) ∨
  (∃ ref cb, Watch cfg !! ref = Some cb ∧ key = gvk_of ref ∧ kc = mkKindCtx watchGVKKind noResourceKind cb).

Lemma wildcard_gvk ref : gvk_of ref = wildCardRef → IsWildCardRef ref = true.
Proof. intros [= Ha Hk]. unfold IsWildCardRef. by rewrite decide_True. Qed.

Lemma declared_wildcard cfg kc :
  config_valid cfg → declared cfg wildCardRef kc → kc = mkKindCtx ownGVKKind ChildInitial None.
Proof.
  intros [Hf Ho Hw _ _] [[Heq _]|[(ref & rk & Hl & Heq & ->)|(ref & cb & Hl & Heq & _)]];
    apply symmetry, wildcard_gvk in Heq.
  - unfold watch_ok in Hf. by rewrite Heq, andb_false_r in Hf.
  - specialize (Ho ref rk Hl). simpl in Ho. unfold own_ok in Ho. rewrite Heq in Ho. simpl in Ho.
    apply andb_true_iff in Ho as [_ ->%bool_decide_eq_true_1]. done.
  - specialize (Hw ref cb Hl). simpl in Hw. unfold watch_ok in Hw. by rewrite Heq, andb_false_r in Hw.
Qed.

(** [newInventory] succeeds exactly on the valid configurations, whatever order the
    two maps are ranged over in, and then the inventory is ready, its resource tree is
    empty and its GVK table holds what the configuration declares and nothing else. *)
Theorem newInventory_spec cfg r :
  newInventory cfg = Ok r ↔
  config_valid cfg ∧ inv_resources r = emptyResources ∧ inv_ready r = true ∧ inv_debug r = false ∧
  ∀ key kc, inv_gvkResources r !! key = Some kc ↔ declared cfg key kc.
Proof.
  rewrite newInventory_table. split.
  - intros [Hv ->]. simpl. split_and!; [done..|]. intros key kc. by apply gvk_table_lookup.
  - intros (Hv & Hr & Hb & Hd & Htab). split; [done|]. destruct r as [tab res rdy dbg]. simpl in *. subst.
    f_equal. apply map_eq. intros key. apply option_eq. intros kc.
    rewrite Htab. symmetry. by apply gvk_table_lookup.
Qed.

(** In an accepted configuration [isGVKMatch] returns what is declared for the GVK of
    the reference; for a GVK that is not declared it returns a context only if the
    configuration owns the wildcard, and that context is the one of an own resource that
    is never deleted ([ChildInitial]). *)
Theorem isGVKMatch_declared cfg r ref kc :
  newInventory cfg = Ok r →
  isGVKMatch r (Some ref) = Some kc ↔
  declared cfg (gvk_of ref) kc ∨
  ((∀ kc', ¬ declared cfg (gvk_of ref) kc') ∧ declared cfg wildCardRef kc ∧
   kc = mkKindCtx ownGVKKind ChildInitial None).
Proof.
  rewrite newInventory_table. intros [Hv ->]. unfold isGVKMatch. simpl. fold (gvk_of ref).
  pose proof (λ key kc, gvk_table_lookup cfg key kc Hv) as Htab.
  destruct (gvk_table cfg !! gvk_of ref) as [kc0|] eqn:Hl.
  - apply Htab in Hl as Hd. fold (declared cfg (gvk_of ref) kc0) in Hd. split.
    + intros [= <-]. by left.
    + intros [Hd'|(Hno & _)]; [|by destruct (Hno kc0)]. apply Htab in Hd'. congruence.
  - assert (Hno : ∀ kc', ¬ declared cfg (gvk_of ref) kc').
    { intros kc' Hd%Htab. congruence. }
    rewrite (Htab wildCardRef kc). fold (declared cfg wildCardRef kc). split; [|naive_solver].
    intros Hd. right. split_and!; [done..|]. by apply (declared_wildcard cfg).
Qed.

(** storing a condition or an object below a for resource always succeeds, and reading
    a level of the tree back with [get] (in any order of iteration) gives the old level
    with that one entry changed: the entries of other kinds and of other for resources
    are not touched. *)
Theorem inv_set_get r kc forRef ref x new failed :
  kc_gvkKind kc ≠ forGVKKind → (∀ shown, x ≠ XOther shown) →
  ∃ r', inv_set r kc [forRef; ref] x new failed = (r', None) ∧
  ∀ f k s s', f ≠ emptyRef → k ≠ forGVKKind →
    inv_get r' s k [f; emptyRef] =
    if decide (f = forRef ∧ k = kc_gvkKind kc)
    then <[ref := fst (set_ctx (default zeroResourceCtx (inv_get r s' k [f; emptyRef] !! ref)) kc x new failed)]>
           (inv_get r s' k [f; emptyRef])
    else inv_get r s' k [f; emptyRef].
Proof.
  intros Hk Hx.
  assert (∃ r', inv_set r kc [forRef; ref] x new failed = (r', None)) as [r' Hset].
  { unfold inv_set, getSdkRefs. rewrite decide_False by done. cbn [res_set].
    destruct x as [c|o|sh]; [by eexists| |by destruct (Hx sh)]. destruct new; by eexists. }
  exists r'. split; [done|]. apply inv_set_2 in Hset as [_ H2]; [|done]. intros f k s s' Hf Hkf.
  apply map_eq. intros ref'. rewrite inv_get_level2 by done. rewrite H2.
  destruct (decide (f = forRef ∧ k = kc_gvkKind kc)) as [[-> ->]|Hne].
  - rewrite lookup_insert, !inv_get_level2 by done. destruct (decide (ref = ref')) as [->|Hr].
    + by rewrite decide_True.
    + rewrite decide_False by naive_solver. done.
  - rewrite decide_False by naive_solver. by rewrite inv_get_level2.
Qed.
End properties.

(** ** Witnesses *)
Module InventoryModel.
(** Maps ranged over in one particular order. *)
#[export] Instance range_model : GoRange := {| range _ _ _ _ _ m := map_to_list m |}.
#[export] Instance range_model_laws : GoRangeLaws.
Proof. by split. Qed.
End InventoryModel.

Module InventoryWitnesses.
Import Model InventoryModel.

(** The configuration of the interface function, up to its callbacks. *)
Definition cfg : Config unit := mkConfig false (gvk "req.nephio.org/v1alpha1" "Interface")
  {[ gvk "k8s.cni.cncf.io/v1" "NetworkAttachmentDefinition" := ChildRemoteCondition;
     gvk "resource.nephio.org/v1alpha1" "VLANClaim" := ChildLocal;
     gvk "*" "*" := ChildInitial ]}
  {[ gvk "infra.nephio.org/v1alpha1" "WorkloadCluster" := Some (λ s _, Done (s, None)) ]}
  None (Some (λ s _ _, Done (s, Ok []))).

Definition accepted (x : result (inv unit)) : inv unit :=
  match x with Ok r => r | Err _ => mkInv ∅ emptyResources false false end.

Lemma accepted_ok x : is_ok x = true → x = Ok (accepted x).
Proof. by destruct x. Qed.

Definition pod : ObjectReference := gvkn "v1" "Pod" "p".

Lemma isGVKMatch_declared_witness :
  isGVKMatch (accepted (newInventory cfg)) (Some pod) = Some (mkKindCtx ownGVKKind ChildInitial None) ↔
  declared cfg (gvk_of pod) (mkKindCtx ownGVKKind ChildInitial None) ∨
  ((∀ kc', ¬ declared cfg (gvk_of pod) kc') ∧
   declared cfg wildCardRef (mkKindCtx ownGVKKind ChildInitial None) ∧
   mkKindCtx (S := unit) ownGVKKind ChildInitial None = mkKindCtx ownGVKKind ChildInitial None).
Proof. apply (isGVKMatch_declared cfg), accepted_ok. vm_compute. reflexivity. Defined.

Definition itf : ObjectReference := gvkn "req.nephio.org/v1alpha1" "Interface" "n3".
Definition nad1 : ObjectReference := gvkn "k8s.cni.cncf.io/v1" "NetworkAttachmentDefinition" "n3".
Definition c1 : Condition := mkCondition "t" ConditionTrue "r" "m".

Definition inv0 : inv unit := accepted (newInventory cfg).
Definition own0 : gvkKindCtx unit := mkKindCtx ownGVKKind ChildRemote None.

Lemma inv_set_get_witness :
  ∃ r', inv_set inv0 own0 [itf; nad1] (XCondition c1) false false = (r', None) ∧
  ∀ f k s s', f ≠ emptyRef → k ≠ forGVKKind →
    inv_get r' s k [f; emptyRef] =
    if decide (f = itf ∧ k = kc_gvkKind own0)
    then <[nad1 := fst (set_ctx (default zeroResourceCtx (inv_get inv0 s' k [f; emptyRef] !! nad1)) own0 (XCondition c1) false false)]>
           (inv_get inv0 s' k [f; emptyRef])
    else inv_get inv0 s' k [f; emptyRef].
Proof. apply (inv_set_get inv0 own0 itf nad1 (XCondition c1) false false); [discriminate|intros shown; discriminate]. Defined.

Lemma newInventory_spec_witness :
  newInventory cfg = Ok inv0 ∧ config_valid cfg ∧ inv_gvkResources inv0 !! gvk_of (For cfg) = Some for_entry.
Proof.
  assert (Hok : newInventory cfg = Ok inv0) by (apply accepted_ok; vm_compute; reflexivity).
  split; [exact Hok|]. destruct (newInventory_spec cfg inv0) as [Hs _].
  destruct (Hs Hok) as (Hv & _ & _ & _ & Hd). split; [exact Hv|]. apply Hd. left. split; reflexivity.
Defined.
End InventoryWitnesses.
