(* ===== verification/InventoryDiff.v ===== *)
(** * What has to change in a package ([inventory_diff.go])

    For every for resource of the inventory, [diff] compares the own resources and
    conditions that exist with the ones the function would produce now and lists what to
    create, update and delete.  The loops range over Go maps, so the lists come in the
    order of [GoRange].  Dereferencing a nil condition panics. *)
From S2P Require Import Prelude External SdkModel Ref Inventory.

(** [SpecializerDelete] of [sdk.go]. *)
Definition SpecializerDelete : string := "specializer.nephio.org/delete".

Section diff.
Context `{!FnSDK, !GoRange} {S : Type}.

(** [object]; the object is the zero value where the code leaves the field out. *)
Record object := mkObject { ob_ref : ObjectReference; ob_obj : KubeObject; ob_ownKind : ResourceKind }.

Record inventoryDiff := mkDiff {
  deleteForCondition : bool;
  updateForCondition : bool;
  deleteObjs : list object;
  updateObjs : list object;
  createObjs : list object;
  deleteConditions : list object;
  createConditions : list object;
  updateDeleteAnnotations : list object
}.
Definition emptyDiff : inventoryDiff := mkDiff false false [] [] [] [] [] [].

(** Assignments to one field. *)
Definition set_deleteForCondition (d : inventoryDiff) : inventoryDiff :=
  mkDiff true (updateForCondition d) (deleteObjs d) (updateObjs d) (createObjs d)
    (deleteConditions d) (createConditions d) (updateDeleteAnnotations d).
Definition set_updateForCondition (d : inventoryDiff) : inventoryDiff :=
  mkDiff (deleteForCondition d) true (deleteObjs d) (updateObjs d) (createObjs d)
    (deleteConditions d) (createConditions d) (updateDeleteAnnotations d).
Definition append_deleteObjs (o : object) (d : inventoryDiff) : inventoryDiff :=
  mkDiff (deleteForCondition d) (updateForCondition d) (deleteObjs d ++ [o]) (updateObjs d) (createObjs d)
    (deleteConditions d) (createConditions d) (updateDeleteAnnotations d).
Definition append_updateObjs (o : object) (d : inventoryDiff) : inventoryDiff :=
  mkDiff (deleteForCondition d) (updateForCondition d) (deleteObjs d) (updateObjs d ++ [o]) (createObjs d)
    (deleteConditions d) (createConditions d) (updateDeleteAnnotations d).
Definition append_createObjs (o : object) (d : inventoryDiff) : inventoryDiff :=
  mkDiff (deleteForCondition d) (updateForCondition d) (deleteObjs d) (updateObjs d) (createObjs d ++ [o])
    (deleteConditions d) (createConditions d) (updateDeleteAnnotations d).
Definition append_deleteConditions (o : object) (d : inventoryDiff) : inventoryDiff :=
  mkDiff (deleteForCondition d) (updateForCondition d) (deleteObjs d) (updateObjs d) (createObjs d)
    (deleteConditions d ++ [o]) (createConditions d) (updateDeleteAnnotations d).
Definition append_createConditions (o : object) (d : inventoryDiff) : inventoryDiff :=
  mkDiff (deleteForCondition d) (updateForCondition d) (deleteObjs d) (updateObjs d) (createObjs d)
    (deleteConditions d) (createConditions d ++ [o]) (updateDeleteAnnotations d).
Definition append_updateDeleteAnnotations (o : object) (d : inventoryDiff) : inventoryDiff :=
  mkDiff (deleteForCondition d) (updateForCondition d) (deleteObjs d) (updateObjs d) (createObjs d)
    (deleteConditions d) (createConditions d) (updateDeleteAnnotations d ++ [o]).

Definition getSpec (o : KubeObject) : result specMap :=
  match NestedSpec o with
  | Err err => Err ("cannot get spec from obj, err " +:+ err)
  | Ok None => Err "cannot get spec from obj, not found"
  | Ok (Some spec) => Ok spec
  end.

(** [forResCtx.existingCondition == nil || ... .Status != v1.ConditionFalse] *)
Definition for_not_false (fc : option Condition) : bool :=
  match fc with None => true | Some c => negb (bool_decide (Status c = ConditionFalse)) end.
Definition mark_for (fc : option Condition) (d : inventoryDiff) : inventoryDiff :=
  if for_not_false fc then set_updateForCondition d else d.

(** Body of the loop over the own resources when the for resource is gone. *)
Definition diff_orphan (d : inventoryDiff) (ownRef : ObjectReference) (resCtx : resourceCtx S) : inventoryDiff :=
  let d := set_deleteForCondition d in
  let d := match rc_existingCondition resCtx with
           | Some _ => append_deleteConditions (mkObject ownRef zeroKubeObject (rc_ownKind resCtx)) d
           | None => d
           end in
  match rc_existingResource resCtx with
  | Some o =>
      if decide (rc_ownKind resCtx ≠ ChildInitial)
      then append_deleteObjs (mkObject ownRef o (rc_ownKind resCtx)) d else d
  | None => d
  end.

(** Condition part of the body of the loop when the for resource exists. *)
Definition diff_condition (ready : bool) (fc : option Condition) (d : inventoryDiff)
    (ownRef : ObjectReference) (resCtx : resourceCtx S) : inventoryDiff :=
  match rc_newResource resCtx, rc_existingCondition resCtx with
  | None, None =>
      let d := mark_for fc d in
      if ready then append_createConditions (mkObject ownRef zeroKubeObject (rc_ownKind resCtx)) d else d
  | None, Some _ =>
      let d := mark_for fc d in
      if decide (rc_ownKind resCtx ≠ ChildInitial ∧ rc_ownKind resCtx ≠ ChildLocal)
      then append_deleteConditions (mkObject ownRef zeroKubeObject (rc_ownKind resCtx)) d else d
  | Some n, None => append_createConditions (mkObject ownRef n (rc_ownKind resCtx)) (mark_for fc d)
  | Some _, Some _ => d
  end.

(** The delete annotation of an object that exists again. *)
Definition diff_annotation (fc : option Condition) (d : inventoryDiff)
    (ownRef : ObjectReference) (resCtx : resourceCtx S) (e n : KubeObject) : comp inventoryDiff :=
  match GetAnnotations e !! SpecializerDelete with
  | None => Done d
  | Some _ =>
      match fc with
      | None => Panic nil_dereference
      | Some c =>
          let d := if decide (Status c ≠ ConditionFalse) then set_updateForCondition d else d in
          Done (append_updateDeleteAnnotations (mkObject ownRef n (rc_ownKind resCtx)) d)
      end
  end.

(** Resource part of the body. *)
Definition diff_resource (fc : option Condition) (d : inventoryDiff)
    (ownRef : ObjectReference) (resCtx : resourceCtx S) : comp inventoryDiff :=
  match rc_existingResource resCtx, rc_newResource resCtx with
  | None, Some n => Done (append_createObjs (mkObject ownRef n (rc_ownKind resCtx)) (mark_for fc d))
  | Some e, None =>
      let d := mark_for fc d in
      Done (if decide (rc_ownKind resCtx ≠ ChildInitial ∧ rc_ownKind resCtx ≠ ChildLocal)
            then append_deleteObjs (mkObject ownRef e (rc_ownKind resCtx)) d else d)
  | Some e, Some n =>
      if decide (rc_ownKind resCtx = ChildRemoteCondition) then Done d
      else match getSpec e, getSpec n with
           | Ok existingSpec, Ok newSpec =>
               let d := if decide (cmp_Diff existingSpec newSpec = "") then d
                        else append_updateObjs (mkObject ownRef n (rc_ownKind resCtx)) (mark_for fc d) in
               diff_annotation fc d ownRef resCtx e n
           | _, _ => Done d
           end
  | None, None => Done d
  end.

Definition diff_own (ready : bool) (fc : option Condition) (d : inventoryDiff)
    (kv : ObjectReference * resourceCtx S) : comp inventoryDiff :=
  diff_resource fc (diff_condition ready fc d kv.1 kv.2) kv.1 kv.2.

(** The diff of one for resource: [owns] is the result of [get] ranged over. *)
Definition diff_for (r : inv S) (forRef : ObjectReference) (forResCtx : resourceCtx S) : comp inventoryDiff :=
  match rc_existingResource forResCtx with
  | None =>
      Done (foldl (λ d kv, diff_orphan d kv.1 kv.2) emptyDiff
        (range (at_for "diff.orphans" forRef)
           (inv_get r (at_for "diff.orphans.get" forRef) ownGVKKind [forRef; emptyRef])))
  | Some _ =>
      foldC (diff_own (inv_ready r) (rc_existingCondition forResCtx)) emptyDiff
        (range (at_for "diff.owns" forRef)
           (inv_get r (at_for "diff.owns.get" forRef) ownGVKKind [forRef; emptyRef]))
  end.

Definition diff (r : inv S) : comp (gmap ObjectReference inventoryDiff) :=
  foldC (λ diffMap kv, d ← diff_for r kv.1 kv.2; Done (<[kv.1 := d]> diffMap)) ∅
    (range (at_ "diff") (inv_get r (at_ "diff.get") forGVKKind [emptyRef])).
End diff.

(** ** The diff, entry by entry *)
Section lemmas.
Context `{!FnSDK, !GoRange, !GoRangeLaws} {S : Type}.
Implicit Types (r : inv S) (d δ : inventoryDiff) (ctx fctx : resourceCtx S).

(** The for resources of an inventory, and the own resources of one of them. *)
Definition fors r : gmap ObjectReference (resourceCtx S) := inv_get r (at_ "") forGVKKind [emptyRef].
Definition children r (k : gvkKind) (forRef : ObjectReference) : gmap ObjectReference (resourceCtx S) :=
  inv_get r (at_ "") k [forRef; emptyRef].

(** [get] reads whole levels: its result does not depend on the order of iteration. *)
Lemma inv_get_fors r s : inv_get r s forGVKKind [emptyRef] = fors r.
Proof. apply map_eq. intros ref. unfold fors. rewrite !inv_get_level1; auto. Qed.

Lemma inv_get_children r s k forRef : inv_get r s k [forRef; emptyRef] = children r k forRef.
Proof.
  unfold children, inv_get, getSdkRefs. case_decide; [done|]. cbn [res_get].
  case_decide; [apply map_eq; intros ref; by rewrite !collect_range|].
  destruct (res_children (inv_resources r) !! _); [|done]. cbn [res_get sr_ref].
  rewrite !decide_True by done. apply map_eq; intros ref. cbn [sr_gvkKind]. by rewrite !collect_range.
Qed.

(** Joining what two parts of a loop have found. *)
Definition diff_app d1 d2 : inventoryDiff :=
  mkDiff (deleteForCondition d1 || deleteForCondition d2) (updateForCondition d1 || updateForCondition d2)
    (deleteObjs d1 ++ deleteObjs d2) (updateObjs d1 ++ updateObjs d2) (createObjs d1 ++ createObjs d2)
    (deleteConditions d1 ++ deleteConditions d2) (createConditions d1 ++ createConditions d2)
    (updateDeleteAnnotations d1 ++ updateDeleteAnnotations d2).

(** What one own resource contributes to the diff of its for resource. *)
Definition own_delta r fctx (ref : ObjectReference) ctx : comp inventoryDiff :=
  match rc_existingResource fctx with
  | None => Done (diff_orphan emptyDiff ref ctx)
  | Some _ => diff_own (inv_ready r) (rc_existingCondition fctx) emptyDiff (ref, ctx)
  end.

Lemma diff_orphan_app d ref ctx : diff_orphan d ref ctx = diff_app d (diff_orphan emptyDiff ref ctx).
Proof.
  unfold diff_orphan, diff_app. destruct d.
  destruct (rc_existingCondition ctx), (rc_existingResource ctx); try case_decide; cbn;
    by rewrite ?app_nil_r, ?orb_true_r, ?orb_false_r.
Qed.

Lemma diff_condition_app rdy fc d ref ctx :
  diff_condition rdy fc d ref ctx = diff_app d (diff_condition rdy fc emptyDiff ref ctx).
Proof.
  unfold diff_condition, diff_app, mark_for. destruct d.
  destruct (rc_newResource ctx), (rc_existingCondition ctx), (for_not_false fc), rdy; try case_decide; cbn;
    by rewrite ?app_nil_r, ?orb_true_r, ?orb_false_r.
Qed.

Lemma diff_resource_app fc d ref ctx :
  diff_resource fc d ref ctx =
  (δ ← diff_resource fc emptyDiff ref ctx; Done (diff_app d δ)).
Proof.
  unfold diff_resource, diff_annotation, mark_for. destruct d.
  destruct (rc_existingResource ctx) as [e|], (rc_newResource ctx) as [n|]; cbn.
  - case_decide; [unfold diff_app; cbn; by rewrite ?app_nil_r, ?orb_false_r|].
    destruct (getSpec e), (getSpec n), (GetAnnotations e !! SpecializerDelete), fc as [c|];
      try (destruct (for_not_false _) eqn:?); repeat case_decide; cbn; unfold diff_app; cbn;
      by rewrite ?app_nil_r, ?orb_true_r, ?orb_false_r.
  - destruct (for_not_false fc); case_decide; cbn; unfold diff_app; cbn;
      by rewrite ?app_nil_r, ?orb_true_r, ?orb_false_r.
  - destruct (for_not_false fc); cbn; unfold diff_app; cbn; by rewrite ?app_nil_r, ?orb_true_r, ?orb_false_r.
  - unfold diff_app; cbn; by rewrite ?app_nil_r, ?orb_false_r.
Qed.

Lemma diff_app_assoc d1 d2 d3 : diff_app (diff_app d1 d2) d3 = diff_app d1 (diff_app d2 d3).
Proof. unfold diff_app. cbn. by rewrite <-!(assoc_L (++)), <-!orb_assoc. Qed.

Lemma diff_own_app rdy fc d (kv : ObjectReference * resourceCtx S) :
  diff_own rdy fc d kv = (δ ← diff_own rdy fc emptyDiff kv; Done (diff_app d δ)).
Proof.
  unfold diff_own. rewrite diff_resource_app, (diff_resource_app _ (diff_condition _ _ emptyDiff _ _)).
  destruct (diff_resource fc emptyDiff kv.1 kv.2) as [δ|]; [|done]. cbn.
  by rewrite diff_condition_app, diff_app_assoc.
Qed.

(** The diff of a for resource joins what its own resources contribute. *)
Definition join_delta r fctx d (kv : ObjectReference * resourceCtx S) : comp inventoryDiff :=
  δ ← own_delta r fctx kv.1 kv.2; Done (diff_app d δ).

Lemma foldl_Done {A B} (f : A → B → A) a l : Done (foldl f a l) = foldC (λ a b, Done (f a b)) a l.
Proof. revert a. induction l as [|x l IH]; intros a; [done|]. apply IH. Qed.

Lemma foldC_ext {A B} (f g : A → B → comp A) a l : (∀ a b, f a b = g a b) → foldC f a l = foldC g a l.
Proof. intros Hfg. revert a. induction l as [|x l IH]; intros a; [done|]. simpl. rewrite Hfg. by destruct (g a x); simpl. Qed.

Lemma diff_for_join r forRef fctx :
  ∃ s, diff_for r forRef fctx = foldC (join_delta r fctx) emptyDiff (range s (children r ownGVKKind forRef)).
Proof.
  unfold diff_for, join_delta, own_delta. destruct (rc_existingResource fctx); eexists.
  - rewrite inv_get_children. apply foldC_ext. intros d [ref ctx]. apply diff_own_app.
  - rewrite inv_get_children, foldl_Done. apply foldC_ext. intros d [ref ctx]. simpl. by rewrite diff_orphan_app.
Qed.

(** A fact about a diff that holds of a join when it holds of a part. *)
Class Joins (π : inventoryDiff → Prop) : Prop := {
  joins_empty : ¬ π emptyDiff;
  joins_app d1 d2 : π (diff_app d1 d2) ↔ π d1 ∨ π d2
}.
#[export] Instance joins_deleteFor : Joins (λ d, deleteForCondition d = true).
Proof. split; [done|]. intros. apply orb_true_iff. Qed.
#[export] Instance joins_updateFor : Joins (λ d, updateForCondition d = true).
Proof. split; [done|]. intros. apply orb_true_iff. Qed.
#[export] Instance joins_deleteObjs o : Joins (λ d, o ∈ deleteObjs d).
Proof. split; [set_solver|]. intros. apply elem_of_app. Qed.
#[export] Instance joins_updateObjs o : Joins (λ d, o ∈ updateObjs d).
Proof. split; [set_solver|]. intros. apply elem_of_app. Qed.
#[export] Instance joins_createObjs o : Joins (λ d, o ∈ createObjs d).
Proof. split; [set_solver|]. intros. apply elem_of_app. Qed.
#[export] Instance joins_deleteConditions o : Joins (λ d, o ∈ deleteConditions d).
Proof. split; [set_solver|]. intros. apply elem_of_app. Qed.
#[export] Instance joins_createConditions o : Joins (λ d, o ∈ createConditions d).
Proof. split; [set_solver|]. intros. apply elem_of_app. Qed.
#[export] Instance joins_updateDeleteAnnotations o : Joins (λ d, o ∈ updateDeleteAnnotations d).
Proof. split; [set_solver|]. intros. apply elem_of_app. Qed.

Lemma foldC_joins (π : inventoryDiff → Prop) `{!Joins π} r fctx l d :
  foldC (join_delta r fctx) emptyDiff l = Done d →
  π d ↔ ∃ ref ctx δ, (ref, ctx) ∈ l ∧ own_delta r fctx ref ctx = Done δ ∧ π δ.
Proof.
  intros Hrun. apply (foldC_invariant (λ l d, π d ↔
    ∃ ref ctx δ, (ref, ctx) ∈ l ∧ own_delta r fctx ref ctx = Done δ ∧ π δ)) in Hrun; [done| |].
  - split; [by intros ?%joins_empty|set_solver].
  - intros dn [ref ctx] d1 d2 _ IH Hstep. unfold join_delta in Hstep.
    apply comp_bind_Done in Hstep as (δ & Hδ & [= <-]). rewrite joins_app, IH.
    setoid_rewrite elem_of_app. setoid_rewrite list_elem_of_singleton. simpl in Hδ. split.
    + intros [(ref1 & ctx1 & δ1 & ? & ? & ?)|?]; [by exists ref1, ctx1, δ1; auto|by exists ref, ctx, δ; auto].
    + intros (ref1 & ctx1 & δ1 & [?|[= -> ->]] & ? & ?); [left; by eauto 8|right; congruence].
Qed.

Lemma diff_for_joins (π : inventoryDiff → Prop) `{!Joins π} r forRef fctx d :
  diff_for r forRef fctx = Done d →
  π d ↔ ∃ ref ctx δ, children r ownGVKKind forRef !! ref = Some ctx ∧ own_delta r fctx ref ctx = Done δ ∧ π δ.
Proof.
  destruct (diff_for_join r forRef fctx) as [s ->]. intros Hrun.
  rewrite (foldC_joins π r fctx _ d Hrun). by setoid_rewrite range_elem.
Qed.

(** [diff] has an entry for every for resource and for nothing else. *)
Lemma diff_lookup r m forRef d :
  diff r = Done m →
  m !! forRef = Some d ↔ ∃ fctx, fors r !! forRef = Some fctx ∧ diff_for r forRef fctx = Done d.
Proof.
  unfold diff. rewrite inv_get_fors. set (l := range (at_ "diff") (fors r)). intros Hrun.
  assert (∀ fctx, fors r !! forRef = Some fctx ↔ (forRef, fctx) ∈ l) as Hl.
  { intros fctx. unfold l. by rewrite range_elem. }
  setoid_rewrite Hl. assert (Hnd : NoDup l.*1) by apply range_NoDup. clearbody l. clear Hl.
  revert Hnd. refine (foldC_invariant (λ l m, NoDup l.*1 → m !! forRef = Some d ↔
    ∃ fctx, (forRef, fctx) ∈ l ∧ diff_for r forRef fctx = Done d) _ _ _ _ Hrun _ _).
  - intros _. rewrite lookup_empty. set_solver.
  - intros dn [f c] m1 m2 _ IH Hstep Hnd. apply comp_bind_Done in Hstep as (d1 & Hd1 & [= <-]).
    rewrite fmap_app, NoDup_app in Hnd. destruct Hnd as (Hnd & Hdisj & _). simpl in *.
    setoid_rewrite elem_of_app. setoid_rewrite list_elem_of_singleton.
    rewrite lookup_insert. case_decide as Heq.
    + subst f. split.
      * intros [= ->]. exists c. split; [by right|done].
      * intros (c' & [Hin|[= ->]] & Hc'); [|congruence].
        destruct (Hdisj forRef); [|by apply list_elem_of_singleton].
        apply list_elem_of_fmap. by exists (forRef, c').
    + rewrite IH by done. split; intros (c' & Hc' & ?); exists c'; [naive_solver|].
      destruct Hc' as [?|[= -> ->]]; [done|done].
Qed.
End lemmas.

(** ** Properties *)
Section properties.
Context `{!FnSDK, !GoRange, !GoRangeLaws} {S : Type}.
Implicit Types (r : inv S) (d δ : inventoryDiff) (o : object) (ctx fctx : resourceCtx S).

(** [o] is the entry of the own resource [ref] with context [ctx]. *)
Definition entry_of (ref : ObjectReference) ctx o : Prop := ob_ref o = ref ∧ ob_ownKind o = rc_ownKind ctx.

Lemma entry_eq o ref x k : o = mkObject ref x k ↔ ob_ref o = ref ∧ ob_obj o = x ∧ ob_ownKind o = k.
Proof. destruct o. naive_solver. Qed.

Ltac delta_solve :=
  unfold own_delta, diff_orphan, diff_own, diff_condition, diff_resource, diff_annotation, mark_for;
  cbn; repeat (case_match; cbn); intros; simplify_eq/=;
  rewrite ?elem_of_nil, ?list_elem_of_singleton, ?entry_eq; naive_solver.

(** The object of an own resource is deleted. *)
Definition deletes fctx ctx : Prop :=
  match rc_existingResource fctx with
  | None => rc_ownKind ctx ≠ ChildInitial
  | Some _ => rc_newResource ctx = None ∧ rc_ownKind ctx ≠ ChildInitial ∧ rc_ownKind ctx ≠ ChildLocal
  end.

(** Both versions of an own resource of an existing for resource are there and have a
    spec: [P] holds of the two specs. *)
Definition both_specs fctx ctx (P : KubeObject → specMap → specMap → Prop) : Prop :=
  match rc_existingResource fctx, rc_existingResource ctx, rc_newResource ctx with
  | Some _, Some e, Some n =>
      rc_ownKind ctx ≠ ChildRemoteCondition ∧
      match getSpec e, getSpec n with Ok s1, Ok s2 => P e s1 s2 | _, _ => False end
  | _, _, _ => False
  end.

(** Its object is updated; it was marked for deletion and exists again. *)
Definition updates fctx ctx : Prop := both_specs fctx ctx (λ _ s1 s2, cmp_Diff s1 s2 ≠ "").
Definition revived fctx ctx : Prop :=
  both_specs fctx ctx (λ e _ _, GetAnnotations e !! SpecializerDelete ≠ None).

Lemma delta_deleteObjs r fctx ref ctx δ o :
  own_delta r fctx ref ctx = Done δ →
  o ∈ deleteObjs δ ↔ entry_of ref ctx o ∧ rc_existingResource ctx = Some (ob_obj o) ∧ deletes fctx ctx.
Proof.
  unfold entry_of, deletes. delta_solve.
Qed.

Lemma delta_createObjs r fctx ref ctx δ o :
  own_delta r fctx ref ctx = Done δ →
  o ∈ createObjs δ ↔ entry_of ref ctx o ∧ rc_existingResource fctx ≠ None ∧
    rc_existingResource ctx = None ∧ rc_newResource ctx = Some (ob_obj o).
Proof. unfold entry_of. delta_solve. Qed.

Lemma delta_updateObjs r fctx ref ctx δ o :
  own_delta r fctx ref ctx = Done δ →
  o ∈ updateObjs δ ↔ entry_of ref ctx o ∧ rc_newResource ctx = Some (ob_obj o) ∧ updates fctx ctx.
Proof. unfold entry_of, updates, both_specs. delta_solve. Qed.

Lemma delta_updateDeleteAnnotations r fctx ref ctx δ o :
  own_delta r fctx ref ctx = Done δ →
  o ∈ updateDeleteAnnotations δ ↔
  entry_of ref ctx o ∧ rc_newResource ctx = Some (ob_obj o) ∧ revived fctx ctx.
Proof. unfold entry_of, revived, both_specs. delta_solve. Qed.

(** The condition of an own resource is deleted; it is created. *)
Definition deletes_condition fctx ctx : Prop :=
  rc_existingCondition ctx ≠ None ∧
  match rc_existingResource fctx with
  | None => True
  | Some _ => rc_newResource ctx = None ∧ rc_ownKind ctx ≠ ChildInitial ∧ rc_ownKind ctx ≠ ChildLocal
  end.
Definition creates_condition r fctx ctx : Prop :=
  rc_existingResource fctx ≠ None ∧ rc_existingCondition ctx = None ∧
  (rc_newResource ctx = None → inv_ready r = true).

Lemma delta_deleteConditions r fctx ref ctx δ o :
  own_delta r fctx ref ctx = Done δ →
  o ∈ deleteConditions δ ↔ entry_of ref ctx o ∧ ob_obj o = zeroKubeObject ∧ deletes_condition fctx ctx.
Proof. unfold entry_of, deletes_condition. delta_solve. Qed.

Lemma delta_createConditions r fctx ref ctx δ o :
  own_delta r fctx ref ctx = Done δ →
  o ∈ createConditions δ ↔
  entry_of ref ctx o ∧ ob_obj o = default zeroKubeObject (rc_newResource ctx) ∧ creates_condition r fctx ctx.
Proof. unfold entry_of, creates_condition. delta_solve. Qed.

Lemma delta_deleteFor r fctx ref ctx δ :
  own_delta r fctx ref ctx = Done δ → deleteForCondition δ = true ↔ rc_existingResource fctx = None.
Proof. delta_solve. Qed.

Lemma delta_Done r fctx ref ctx :
  (∃ δ, own_delta r fctx ref ctx = Done δ) ↔ ¬ (revived fctx ctx ∧ rc_existingCondition fctx = None).
Proof.
  unfold revived, both_specs, own_delta, diff_own, diff_resource, diff_annotation.
  cbn. generalize (diff_condition (inv_ready r) (rc_existingCondition fctx) emptyDiff ref ctx). intros d.
  destruct (rc_existingResource fctx), (rc_existingResource ctx) as [e|], (rc_newResource ctx) as [n|];
    try (split; [naive_solver|by eauto]). case_decide; [split; [naive_solver|by eauto]|].
  destruct (getSpec e), (getSpec n); try (split; [naive_solver|by eauto]).
  destruct (GetAnnotations e !! SpecializerDelete); [|split; [naive_solver|by eauto]].
  destruct (rc_existingCondition fctx); split; [naive_solver|by eauto|by intros [? [=]]|naive_solver].
Qed.

Lemma delta_panic r fctx ref ctx w :
  own_delta r fctx ref ctx = Panic w →
  w = nil_dereference ∧ revived fctx ctx ∧ rc_existingCondition fctx = None.
Proof.
  unfold revived, both_specs, own_delta, diff_own, diff_resource, diff_annotation. cbn.
  repeat (case_match; cbn); naive_solver.
Qed.

Lemma diff_for_Done r forRef fctx :
  (∃ d, diff_for r forRef fctx = Done d) ↔
  ∀ ref ctx, children r ownGVKKind forRef !! ref = Some ctx →
    ¬ (revived fctx ctx ∧ rc_existingCondition fctx = None).
Proof.
  destruct (diff_for_join r forRef fctx) as [s ->].
  rewrite (foldC_Done_iff (λ kv, ¬ (revived fctx kv.2 ∧ rc_existingCondition fctx = None))).
  - split; [intros Hall ref ctx Hl; apply (Hall (ref, ctx)); by apply range_elem|].
    intros Hall [ref ctx] Hin. apply range_elem in Hin. by apply (Hall ref).
  - intros d [ref ctx]. rewrite <-(delta_Done r fctx ref ctx). unfold join_delta.
    setoid_rewrite comp_bind_Done. simpl. naive_solver.
Qed.

Lemma diff_entry r m forRef d (π : inventoryDiff → Prop) `{!Joins π} :
  diff r = Done m → m !! forRef = Some d →
  ∃ fctx, fors r !! forRef = Some fctx ∧ diff_for r forRef fctx = Done d ∧
  (∀ ref ctx, children r ownGVKKind forRef !! ref = Some ctx → ∃ δ, own_delta r fctx ref ctx = Done δ) ∧
  (π d ↔ ∃ ref ctx δ, children r ownGVKKind forRef !! ref = Some ctx ∧ own_delta r fctx ref ctx = Done δ ∧ π δ).
Proof.
  intros Hd Hm. apply (diff_lookup _ _ _ _ Hd) in Hm as (fctx & Hf & Hm). exists fctx.
  split_and!; [done|done| |by apply diff_for_joins]. intros ref ctx Hc.
  apply delta_Done. by apply (diff_for_Done r forRef fctx) with (ref := ref); [exists d|].
Qed.

(** Membership in a list of the diff, from the contribution of a single own resource. *)
Lemma diff_member (field : inventoryDiff → list object) (P : resourceCtx S → resourceCtx S → object → Prop)
    r m forRef fctx d o :
  (∀ o, Joins (λ d, o ∈ field d)) →
  (∀ ref ctx δ, own_delta r fctx ref ctx = Done δ → o ∈ field δ ↔ entry_of ref ctx o ∧ P fctx ctx o) →
  diff r = Done m → fors r !! forRef = Some fctx → m !! forRef = Some d →
  o ∈ field d ↔
  ∃ ctx, children r ownGVKKind forRef !! ob_ref o = Some ctx ∧ ob_ownKind o = rc_ownKind ctx ∧ P fctx ctx o.
Proof.
  intros Hj Hdelta Hd Hf Hm.
  destruct (diff_entry r m forRef d (λ d, o ∈ field d) Hd Hm) as (fctx' & Hf' & _ & Hdone & ->).
  simplify_eq. split.
  - intros (ref & ctx & δ & Hc & Hδ & Hin). apply (Hdelta _ _ _ Hδ) in Hin as ([<- ?] & ?). by exists ctx.
  - intros (ctx & Hc & Hk & HP). destruct (Hdone _ _ Hc) as [δ Hδ]. exists (ob_ref o), ctx, δ.
    split_and!; [done..|]. by apply (Hdelta _ _ _ Hδ).
Qed.

(** C5: the objects [diff] lists for deletion under a for resource are exactly the existing
    objects of its own resources that have to go: when the for resource is gone, all but
    the initial objects of the package; when it exists, those that are not generated any
    more and are neither initial nor local.  A [ChildInitial] object is never deleted. *)
Theorem diff_deleteObjs r m forRef fctx d o :
  diff r = Done m → fors r !! forRef = Some fctx → m !! forRef = Some d →
  o ∈ deleteObjs d ↔
  ∃ ctx, children r ownGVKKind forRef !! ob_ref o = Some ctx ∧ ob_ownKind o = rc_ownKind ctx ∧
    rc_existingResource ctx = Some (ob_obj o) ∧ deletes fctx ctx.
Proof.
  apply (diff_member deleteObjs (λ fctx ctx o, rc_existingResource ctx = Some (ob_obj o) ∧ deletes fctx ctx)).
  - apply _.
  - intros. by apply (delta_deleteObjs r).
Qed.

(** C6: under a for resource that exists, [diff] creates exactly the generated objects that
    do not exist yet, and updates exactly the objects whose spec differs from the generated
    one (with the generated object); nothing is created or updated for a for resource that
    is gone, and resources managed remotely ([ChildRemoteCondition]) are never updated. *)
Theorem diff_createObjs_updateObjs r m forRef fctx d o :
  diff r = Done m → fors r !! forRef = Some fctx → m !! forRef = Some d →
  (o ∈ createObjs d ↔
   ∃ ctx, children r ownGVKKind forRef !! ob_ref o = Some ctx ∧ ob_ownKind o = rc_ownKind ctx ∧
     rc_existingResource fctx ≠ None ∧ rc_existingResource ctx = None ∧ rc_newResource ctx = Some (ob_obj o)) ∧
  (o ∈ updateObjs d ↔
   ∃ ctx, children r ownGVKKind forRef !! ob_ref o = Some ctx ∧ ob_ownKind o = rc_ownKind ctx ∧
     rc_newResource ctx = Some (ob_obj o) ∧ updates fctx ctx).
Proof.
  intros Hd Hf Hm. split.
  - apply (diff_member createObjs (λ fctx ctx o, rc_existingResource fctx ≠ None ∧ rc_existingResource ctx = None ∧
      rc_newResource ctx = Some (ob_obj o)) r m); [apply _| |done..].
    intros. by apply (delta_createObjs r).
  - apply (diff_member updateObjs (λ fctx ctx o, rc_newResource ctx = Some (ob_obj o) ∧ updates fctx ctx) r m);
      [apply _| |done..].
    intros. by apply (delta_updateObjs r).
Qed.

(** C7: the conditions [diff] lists: a condition is deleted when the for resource is gone or
    when a child that is neither initial nor local is not generated any more; a condition
    that is missing is created while the for resource exists, and for a child that is not
    generated only when the whole inventory is ready. *)
Theorem diff_conditions r m forRef fctx d o :
  diff r = Done m → fors r !! forRef = Some fctx → m !! forRef = Some d →
  (o ∈ deleteConditions d ↔
   ∃ ctx, children r ownGVKKind forRef !! ob_ref o = Some ctx ∧ ob_ownKind o = rc_ownKind ctx ∧
     ob_obj o = zeroKubeObject ∧ deletes_condition fctx ctx) ∧
  (o ∈ createConditions d ↔
   ∃ ctx, children r ownGVKKind forRef !! ob_ref o = Some ctx ∧ ob_ownKind o = rc_ownKind ctx ∧
     ob_obj o = default zeroKubeObject (rc_newResource ctx) ∧ creates_condition r fctx ctx).
Proof.
  intros Hd Hf Hm. split.
  - apply (diff_member deleteConditions (λ fctx ctx o, ob_obj o = zeroKubeObject ∧ deletes_condition fctx ctx) r m);
      [apply _| |done..].
    intros. by apply (delta_deleteConditions r).
  - apply (diff_member createConditions (λ fctx ctx o, ob_obj o = default zeroKubeObject (rc_newResource ctx) ∧
      creates_condition r fctx ctx) r m); [apply _| |done..].
    intros. by apply (delta_createConditions r).
Qed.

Lemma diff_panic_entry r w :
  diff r = Panic w →
  w = nil_dereference ∧ ∃ forRef fctx ref ctx, fors r !! forRef = Some fctx ∧
    children r ownGVKKind forRef !! ref = Some ctx ∧ rc_existingCondition fctx = None ∧ revived fctx ctx.
Proof.
  unfold diff. rewrite inv_get_fors. intros ([forRef fctx] & m & Hin & Hp)%foldC_Panic.
  apply range_elem in Hin. simpl in Hp. destruct (diff_for r forRef fctx) as [d|w'] eqn:Hd; [done|].
  simpl in Hp. injection Hp as ->. destruct (diff_for_join r forRef fctx) as [s Hj]. rewrite Hj in Hd.
  apply foldC_Panic in Hd as ([ref ctx] & d & Hc & Hstep). apply range_elem in Hc. unfold join_delta in Hstep.
  simpl in Hstep. destruct (own_delta r fctx ref ctx) as [|w'] eqn:Ho; [done|].
  simpl in Hstep. injection Hstep as ->. apply delta_panic in Ho as (-> & Hrev & Hnone).
  split; [done|]. by exists forRef, fctx, ref, ctx.
Qed.

Lemma diff_Done_no_panic r m forRef fctx ref ctx :
  diff r = Done m → fors r !! forRef = Some fctx → children r ownGVKKind forRef !! ref = Some ctx →
  revived fctx ctx → rc_existingCondition fctx ≠ None.
Proof.
  intros Hd Hf Hc Hrev Hnone.
  assert (∃ d, diff_for r forRef fctx = Done d) as Hfor.
  { unfold diff in Hd. rewrite inv_get_fors in Hd.
    pose proof (foldC_Done_iff (λ kv, ∃ d, diff_for r kv.1 kv.2 = Done d)
      (λ (diffMap : gmap ObjectReference inventoryDiff) kv, d ← diff_for r kv.1 kv.2; Done (<[kv.1 := d]> diffMap))
      (range (at_ "diff") (fors r)) ∅) as [Hall _].
    { intros m0 kv. setoid_rewrite comp_bind_Done. naive_solver. }
    apply (Hall (ex_intro _ m Hd) (forRef, fctx)). by apply range_elem. }
  by apply (proj1 (diff_for_Done r forRef fctx) Hfor ref ctx Hc).
Qed.

(** C19: [diff] fails exactly when some for resource that has no condition has a child that
    exists, is generated again, is readable in both versions and still carries the delete
    annotation: the code then dereferences the nil condition of the for resource.  In every
    other case it returns. *)
Theorem diff_panics_iff r :
  diff r = Panic nil_dereference ↔
  ∃ forRef fctx ref ctx, fors r !! forRef = Some fctx ∧ children r ownGVKKind forRef !! ref = Some ctx ∧
    rc_existingCondition fctx = None ∧ revived fctx ctx.
Proof.
  split; [intros Hp; by apply diff_panic_entry in Hp as [_ ?]|].
  intros (forRef & fctx & ref & ctx & Hf & Hc & Hn & Hrev).
  destruct (diff r) as [m|w] eqn:Hd; [|by apply diff_panic_entry in Hd as [-> _]].
  exfalso. by apply (diff_Done_no_panic r m forRef fctx ref ctx).
Qed.

(** An own resource that is as the function wants it. *)
Definition settled fctx ctx : Prop :=
  rc_existingCondition ctx ≠ None ∧
  match rc_existingResource ctx, rc_newResource ctx with
  | Some e, Some n =>
      rc_ownKind ctx = ChildRemoteCondition ∨
      GetAnnotations e !! SpecializerDelete = None ∧ ∃ s, getSpec e = Ok s ∧ getSpec n = Ok s
  | _, _ => False
  end.

Lemma settled_delta `{!FnSDKLaws} r fctx ref ctx :
  rc_existingResource fctx ≠ None → settled fctx ctx → own_delta r fctx ref ctx = Done emptyDiff.
Proof.
  unfold settled, own_delta, diff_own, diff_condition, diff_resource, diff_annotation. cbn.
  destruct (rc_existingResource fctx); [|done]. intros _ [Hc Hs].
  destruct (rc_existingCondition ctx); [|done].
  destruct (rc_existingResource ctx) as [e|], (rc_newResource ctx) as [n|]; try done.
  destruct Hs as [->|(Ha & s & He & Hn)]; [done|]. case_decide; [done|].
  rewrite He, Hn, Ha, decide_True; [done|]. by apply cmp_Diff_spec.
Qed.

(** A package that is settled is left alone: if the for resource exists and every own
    resource has its condition and both versions with equal specs and no delete annotation
    (or is managed remotely), the diff of that for resource is empty. *)
Theorem diff_settled `{!FnSDKLaws} r m forRef fctx :
  diff r = Done m → fors r !! forRef = Some fctx → rc_existingResource fctx ≠ None →
  (∀ ref ctx, children r ownGVKKind forRef !! ref = Some ctx → settled fctx ctx) →
  m !! forRef = Some emptyDiff.
Proof.
  intros Hd Hf He Hs. apply (diff_lookup _ _ _ _ Hd). exists fctx. split; [done|].
  destruct (diff_for_join r forRef fctx) as [s ->].
  assert (Hl : ∀ kv, kv ∈ range s (children r ownGVKKind forRef) → settled fctx kv.2).
  { intros [ref ctx] Hin. apply range_elem in Hin. by apply (Hs ref). }
  induction (range s (children r ownGVKKind forRef)) as [|[ref ctx] l IH]; [done|].
  assert (Hj : join_delta r fctx emptyDiff (ref, ctx) = Done emptyDiff).
  { unfold join_delta. cbn [fst snd]. rewrite settled_delta; [done|done|]. apply (Hl (ref, ctx)). by left. }
  cbn [foldC]. rewrite Hj. apply IH. intros kv Hin. apply Hl. by right.
Qed.
End properties.

(** ** Witnesses *)
Module InventoryDiffWitnesses.
Import Model InventoryModel InventoryWitnesses.

Definition itf_obj : obj := mkObj "req.nephio.org/v1alpha1" "Interface" "n3" "" ∅ [] [] (Some "x") ∅.
Definition nad_obj (spec : string) (ann : gmap string string) : obj :=
  mkObj "k8s.cni.cncf.io/v1" "NetworkAttachmentDefinition" "n3" "" ann [] [] (Some spec) ∅.
Definition nad_old : obj := nad_obj "old" ∅.
Definition nad_new : obj := nad_obj "new" ∅.
Definition vlan_obj : obj := mkObj "resource.nephio.org/v1alpha1" "VLANClaim" "n3" "" ∅ [] [] (Some "v") ∅.
Definition vlan1 : ObjectReference := gvkn "resource.nephio.org/v1alpha1" "VLANClaim" "n3".
Definition vlan2 : ObjectReference := gvkn "resource.nephio.org/v1alpha1" "VLANClaim" "n4".

(** An interface with its condition, a NAD to update, a VLAN claim to delete and one to
    create. *)
Definition stores (l : list (gvkKindCtx unit * list ObjectReference * invObject * bool)) (r : inv unit) : inv unit :=
  foldl (λ r '(kc, refs, x, new), fst (inv_set r kc refs x new false)) r l.
Definition own (k : ResourceKind) : gvkKindCtx unit := mkKindCtx ownGVKKind k None.
Definition for0 : gvkKindCtx unit := for_entry.
Definition inv1 : inv unit := stores
  [(for0, [itf], XObject itf_obj, false); (for0, [itf], XCondition c1, false);
   (own ChildRemote, [itf; nad1], XObject nad_old, false); (own ChildRemote, [itf; nad1], XObject nad_new, true);
   (own ChildRemote, [itf; vlan1], XObject vlan_obj, false);
   (own ChildRemote, [itf; vlan2], XObject vlan_obj, true)] inv0.

Definition done_map (c : comp (gmap ObjectReference inventoryDiff)) : gmap ObjectReference inventoryDiff :=
  match c with Done m => m | Panic _ => ∅ end.
Definition is_done {A} (c : comp A) : bool := match c with Done _ => true | Panic _ => false end.
Lemma done_map_ok c : is_done c = true → c = Done (done_map c).
Proof. by destruct c. Qed.
Definition get_or {A} (a : A) (o : option A) : A := match o with Some x => x | None => a end.
Lemma get_or_ok {A} (a : A) o : is_nil o = false → o = Some (get_or a o).
Proof. by destruct o. Qed.

Definition m1 := done_map (diff inv1).
Definition d1 := get_or emptyDiff (m1 !! itf).
Definition fctx1 := get_or zeroResourceCtx (fors inv1 !! itf).
Definition del1 : object := mkObject vlan1 (vlan_obj : KubeObject) ChildRemote.

Lemma diff1 : diff inv1 = Done m1.
Proof. apply done_map_ok. vm_compute. reflexivity. Qed.
Lemma fors1 : fors inv1 !! itf = Some fctx1.
Proof. apply get_or_ok. vm_compute. reflexivity. Qed.
Lemma entry1 : m1 !! itf = Some d1.
Proof. apply get_or_ok. vm_compute. reflexivity. Qed.

Lemma diff_deleteObjs_witness :
  ob_ref <$> deleteObjs d1 = [vlan1] ∧
  (del1 ∈ deleteObjs d1 ↔
   ∃ ctx, children inv1 ownGVKKind itf !! ob_ref del1 = Some ctx ∧ ob_ownKind del1 = rc_ownKind ctx ∧
     rc_existingResource ctx = Some (ob_obj del1) ∧ deletes fctx1 ctx).
Proof.
  split; [vm_compute; reflexivity|].
  exact (diff_deleteObjs inv1 m1 itf fctx1 d1 del1 diff1 fors1 entry1).
Defined.

Definition upd1 : object := mkObject nad1 (nad_new : KubeObject) ChildRemote.

Lemma diff_createObjs_updateObjs_witness :
  ob_ref <$> createObjs d1 = [vlan2] ∧ ob_ref <$> updateObjs d1 = [nad1] ∧
  (upd1 ∈ updateObjs d1 ↔
   ∃ ctx, children inv1 ownGVKKind itf !! ob_ref upd1 = Some ctx ∧ ob_ownKind upd1 = rc_ownKind ctx ∧
     rc_newResource ctx = Some (ob_obj upd1) ∧ updates fctx1 ctx).
Proof.
  split; [vm_compute; reflexivity|]. split; [vm_compute; reflexivity|].
  exact (proj2 (diff_createObjs_updateObjs inv1 m1 itf fctx1 d1 upd1 diff1 fors1 entry1)).
Defined.

Lemma diff_conditions_witness :
  deleteConditions d1 = [] ∧ length (createConditions d1) = 3 ∧
  (del1 ∈ deleteConditions d1 ↔
   ∃ ctx, children inv1 ownGVKKind itf !! ob_ref del1 = Some ctx ∧ ob_ownKind del1 = rc_ownKind ctx ∧
     ob_obj del1 = zeroKubeObject ∧ deletes_condition fctx1 ctx).
Proof.
  split; [vm_compute; reflexivity|]. split; [vm_compute; reflexivity|].
  exact (proj1 (diff_conditions inv1 m1 itf fctx1 d1 del1 diff1 fors1 entry1)).
Defined.

(** A for resource without condition whose child was marked for deletion and is generated
    again. *)
Definition nad_del : obj := nad_obj "new" {[ SpecializerDelete := "true" ]}.
Definition inv2 : inv unit := stores
  [(for0, [itf], XObject itf_obj, false);
   (own ChildRemote, [itf; nad1], XObject nad_del, false); (own ChildRemote, [itf; nad1], XObject nad_new, true)] inv0.
Definition fctx2 := get_or zeroResourceCtx (fors inv2 !! itf).
Definition ctx2' := get_or zeroResourceCtx (children inv2 ownGVKKind itf !! nad1).

Lemma fors2 : fors inv2 !! itf = Some fctx2.
Proof. apply get_or_ok. vm_compute. reflexivity. Qed.
Lemma child2 : children inv2 ownGVKKind itf !! nad1 = Some ctx2'.
Proof. apply get_or_ok. vm_compute. reflexivity. Qed.

Lemma diff_panics_iff_witness : diff inv2 = Panic nil_dereference.
Proof.
  apply (diff_panics_iff inv2). exists itf, fctx2, nad1, ctx2'. split; [exact fors2|]. split; [exact child2|].
  split; [vm_compute; reflexivity|]. vm_compute. split; [discriminate|discriminate].
Defined.

(** A settled interface. *)
Definition inv3 : inv unit := stores
  [(for0, [itf], XObject itf_obj, false);
   (own ChildRemote, [itf; nad1], XCondition c1, false);
   (own ChildRemote, [itf; nad1], XObject nad_new, false); (own ChildRemote, [itf; nad1], XObject nad_new, true)] inv0.
Definition m3 := done_map (diff inv3).
Definition fctx3 := get_or zeroResourceCtx (fors inv3 !! itf).
Definition ctx3 := get_or zeroResourceCtx (children inv3 ownGVKKind itf !! nad1).

Lemma diff3 : diff inv3 = Done m3.
Proof. apply done_map_ok. vm_compute. reflexivity. Qed.
Lemma fors3 : fors inv3 !! itf = Some fctx3.
Proof. apply get_or_ok. vm_compute. reflexivity. Qed.
Lemma children3 ref ctx : children inv3 ownGVKKind itf !! ref = Some ctx → ctx = ctx3.
Proof.
  intros Hl. assert (ref = nad1) as ->.
  { apply elem_of_map_to_list in Hl. apply (list_elem_of_fmap_2 fst) in Hl.
    assert (Hs : (map_to_list (children inv3 ownGVKKind itf)).*1 = [nad1]) by (vm_compute; reflexivity).
    rewrite Hs in Hl. by apply list_elem_of_singleton in Hl. }
  unfold ctx3. by rewrite Hl.
Qed.

Lemma diff_settled_witness : m3 !! itf = Some emptyDiff.
Proof.
  apply (diff_settled inv3 m3 itf fctx3 diff3 fors3).
  - vm_compute. discriminate.
  - intros ref ctx Hl. rewrite (children3 ref ctx Hl). vm_compute. split; [discriminate|].
    right. split; [reflexivity|]. eexists. split; reflexivity.
Defined.
End InventoryDiffWitnesses.
