(* ===== verification/InventoryReady.v ===== *)
(** * Readiness of the for resources ([inventory_ready.go]) *)
From S2P Require Import Prelude External SdkModel Ref Kptfile Inventory InventoryDiff.

Section ready.
Context `{!FnSDK, !GoRange} {S : Type}.

Record readyCtx := mkReadyCtx {
  rdy_ready : bool;
  rdy_failed : bool;
  rdy_forObj : option KubeObject;
  rdy_forCondition : option Condition;
  rdy_owns : gmap ObjectReference KubeObject;
  rdy_watches : gmap ObjectReference KubeObject
}.

Definition setReady (b : bool) (r : inv S) : inv S :=
  mkInv (inv_gvkResources r) (inv_resources r) b (inv_debug r).
Definition isReady (r : inv S) : bool := inv_ready r.

(** [c == nil || c.Status == ConditionFalse] *)
Definition nil_or_false (c : option Condition) : bool :=
  match c with None => true | Some c => bool_decide (Status c = ConditionFalse) end.

Definition set_not_ready (x : readyCtx) : readyCtx :=
  mkReadyCtx false (rdy_failed x) (rdy_forObj x) (rdy_forCondition x) (rdy_owns x) (rdy_watches x).
Definition add_own (ref : ObjectReference) (o : KubeObject) (x : readyCtx) : readyCtx :=
  mkReadyCtx (rdy_ready x) (rdy_failed x) (rdy_forObj x) (rdy_forCondition x)
    (<[ref := o]> (rdy_owns x)) (rdy_watches x).
Definition add_watch (ref : ObjectReference) (o : KubeObject) (x : readyCtx) : readyCtx :=
  mkReadyCtx (rdy_ready x) (rdy_failed x) (rdy_forObj x) (rdy_forCondition x)
    (rdy_owns x) (<[ref := o]> (rdy_watches x)).

(** Body of the loop over the own resources. *)
Definition ready_own (x : readyCtx) (kv : ObjectReference * resourceCtx S) : readyCtx :=
  let x := if nil_or_false (rc_existingCondition kv.2) then set_not_ready x else x in
  match rc_existingResource kv.2 with Some o => add_own kv.1 o x | None => x end.

(** Body of the loop over the watches: a watch that is the owner of the for resource does
    not count. *)
Definition ready_watch (fc : option Condition) (x : readyCtx) (kv : ObjectReference * resourceCtx S) : readyCtx :=
  let x :=
    if nil_or_false (rc_existingCondition kv.2) then
      match fc with
      | Some c => if decide (GetConditionType kv.1 ≠ Reason c) then set_not_ready x else x
      | None => x
      end
    else x in
  match rc_existingResource kv.2 with Some o => add_watch kv.1 o x | None => x end.

Definition ready_for (r : inv S) (forRef : ObjectReference) (forResCtx : resourceCtx S) : readyCtx :=
  let x := mkReadyCtx true (rc_failed forResCtx) (rc_existingResource forResCtx)
             (rc_existingCondition forResCtx) ∅ ∅ in
  let x := foldl ready_own x
    (range (at_for "getReadyMap.owns" forRef)
       (inv_get r (at_for "getReadyMap.owns.get" forRef) ownGVKKind [forRef; emptyRef])) in
  foldl (ready_watch (rc_existingCondition forResCtx)) x
    (range (at_for "getReadyMap.watches" forRef)
       (inv_get r (at_for "getReadyMap.watches.get" forRef) watchGVKKind [forRef; emptyRef])).

Definition getReadyMap (r : inv S) : gmap ObjectReference readyCtx :=
  foldl (λ readyMap kv, <[kv.1 := ready_for r kv.1 kv.2]> readyMap) ∅
    (range (at_ "getReadyMap") (inv_get r (at_ "getReadyMap.get") forGVKKind [emptyRef])).
End ready.

Section lemmas.
Context `{!FnSDK, !GoRange, !GoRangeLaws} {S : Type}.
Implicit Types (r : inv S) (x : readyCtx) (ctx fctx : resourceCtx S).

(** An own resource, a watch, that does not hold its for resource up. *)
Definition own_counts_ready ctx : bool := negb (nil_or_false (rc_existingCondition ctx)).
Definition watch_counts_ready (fc : option Condition) (ref : ObjectReference) ctx : bool :=
  own_counts_ready ctx ||
  match fc with Some c => bool_decide (GetConditionType ref = Reason c) | None => true end.

(** The objects of a level of the tree. *)
Definition objects (m : gmap ObjectReference (resourceCtx S)) : gmap ObjectReference KubeObject :=
  omap rc_existingResource m.

(** One of the two loops: [ok] decides the flag, [put] stores the objects. *)
Section loop.
Context (ok : ObjectReference → resourceCtx S → bool)
        (step : readyCtx → ObjectReference * resourceCtx S → readyCtx)
        (objs : readyCtx → gmap ObjectReference KubeObject).
Hypothesis step_ready : ∀ x ref ctx, rdy_ready (step x (ref, ctx)) = rdy_ready x && ok ref ctx.
Hypothesis step_objs : ∀ x ref ctx,
  objs (step x (ref, ctx)) = match rc_existingResource ctx with Some o => <[ref := o]> (objs x) | None => objs x end.

Lemma loop_ready l x :
  rdy_ready (foldl step x l) = true ↔ rdy_ready x = true ∧ ∀ ref ctx, (ref, ctx) ∈ l → ok ref ctx = true.
Proof.
  clear step_objs objs. revert x. induction l as [|[ref ctx] l IH]; intros x; simpl; [set_solver|].
  rewrite IH, step_ready, andb_true_iff. setoid_rewrite elem_of_cons. naive_solver.
Qed.

Lemma loop_objs l x ref :
  objs x = ∅ → NoDup l.*1 →
  objs (foldl step x l) !! ref = (list_to_map l : gmap _ _) !! ref ≫= rc_existingResource.
Proof.
  clear step_ready ok. intros Hx. induction l as [|[ref' ctx] l IH] using rev_ind; intros Hnd.
  { simpl. by rewrite Hx, !lookup_empty. }
  rewrite foldl_app, list_to_map_app. simpl. rewrite step_objs.
  rewrite fmap_app, NoDup_app in Hnd. destruct Hnd as (Hnd & Hdisj & _). specialize (IH Hnd).
  assert (Hfresh : (list_to_map l : gmap ObjectReference (resourceCtx S)) !! ref' = None).
  { apply not_elem_of_list_to_map. intros Hin. apply (Hdisj ref'); set_solver. }
  destruct (decide (ref = ref')) as [->|Hne].
  - rewrite lookup_union_r, lookup_insert_eq by done. simpl. rewrite Hfresh in IH.
    destruct (rc_existingResource ctx); [by rewrite lookup_insert_eq|done].
  - transitivity (objs (foldl step x l) !! ref).
    { destruct (rc_existingResource ctx); [by rewrite lookup_insert_ne|done]. }
    rewrite IH. f_equal. rewrite lookup_union, lookup_insert_ne, lookup_empty by done.
    by destruct (list_to_map l !! ref).
Qed.
End loop.

Lemma range_map s {V} (m : gmap ObjectReference V) : (list_to_map (range s m) : gmap _ _) = m.
Proof.
  transitivity (list_to_map (map_to_list m) : gmap ObjectReference V); [|apply list_to_map_to_list].
  apply list_to_map_proper; [apply range_NoDup|apply range_perm].
Qed.

Lemma foldl_preserves {A B C} (g : A → C) (f : A → B → A) l a :
  (∀ a b, g (f a b) = g a) → g (foldl f a l) = g a.
Proof. intros Hg. revert a. induction l as [|b l IH]; intros a; simpl; [done|]. by rewrite IH. Qed.

Lemma ready_own_facts x ref ctx :
  rdy_ready (ready_own x (ref, ctx)) = rdy_ready x && own_counts_ready ctx ∧
  rdy_owns (ready_own x (ref, ctx)) =
    match rc_existingResource ctx with Some o => <[ref := o]> (rdy_owns x) | None => rdy_owns x end.
Proof.
  unfold ready_own, own_counts_ready. simpl. destruct (nil_or_false _), (rc_existingResource ctx); simpl;
    by rewrite ?andb_false_r, ?andb_true_r.
Qed.

Lemma ready_watch_facts fc x ref ctx :
  rdy_ready (ready_watch fc x (ref, ctx)) = rdy_ready x && watch_counts_ready fc ref ctx ∧
  rdy_watches (ready_watch fc x (ref, ctx)) =
    match rc_existingResource ctx with Some o => <[ref := o]> (rdy_watches x) | None => rdy_watches x end.
Proof.
  unfold ready_watch, watch_counts_ready, own_counts_ready. cbn [fst snd].
  destruct (nil_or_false (rc_existingCondition ctx)), fc as [c|], (rc_existingResource ctx); simpl;
    try (destruct (decide (GetConditionType ref ≠ Reason c)) as [Hn|Hn]; simpl;
         [rewrite bool_decide_false by done|rewrite bool_decide_true by (by apply dec_stable)]);
    by rewrite ?andb_false_r, ?andb_true_r.
Qed.

Lemma getReadyMap_lookup r forRef :
  getReadyMap r !! forRef = ready_for r forRef <$> fors r !! forRef.
Proof.
  unfold getReadyMap. rewrite inv_get_fors. rewrite <-(range_map (at_ "getReadyMap") (fors r)) at 2.
  pose proof (range_NoDup (at_ "getReadyMap") (fors r)) as Hnd. revert Hnd.
  induction (range (at_ "getReadyMap") (fors r)) as [|[f c] l IH] using rev_ind; intros Hnd.
  { simpl. by rewrite !lookup_empty. }
  rewrite fmap_app, NoDup_app in Hnd. destruct Hnd as (Hnd & Hdisj & _).
  rewrite foldl_app, list_to_map_app. simpl. rewrite lookup_insert. case_decide as Heq.
  - subst f. rewrite lookup_union_r, lookup_insert_eq; [done|].
    apply not_elem_of_list_to_map. intros Hin. apply (Hdisj forRef); set_solver.
  - rewrite IH by done. rewrite lookup_union, lookup_insert_ne, lookup_empty by done.
    by destruct (list_to_map l !! forRef).
Qed.

Definition ready_facts r (forRef : ObjectReference) fctx x : Prop :=
  rdy_failed x = rc_failed fctx ∧ rdy_forObj x = rc_existingResource fctx ∧
  rdy_forCondition x = rc_existingCondition fctx ∧
  rdy_owns x = objects (children r ownGVKKind forRef) ∧
  rdy_watches x = objects (children r watchGVKKind forRef) ∧
  (rdy_ready x = true ↔
   (∀ ref ctx, children r ownGVKKind forRef !! ref = Some ctx → own_counts_ready ctx = true) ∧
   (∀ ref ctx, children r watchGVKKind forRef !! ref = Some ctx →
      watch_counts_ready (rc_existingCondition fctx) ref ctx = true)).

Lemma ready_for_facts r forRef fctx : ready_facts r forRef fctx (ready_for r forRef fctx).
Proof.
  unfold ready_for. rewrite !inv_get_children.
  set (so := at_for "getReadyMap.owns" forRef). set (sw := at_for "getReadyMap.watches" forRef).
  set (fc := rc_existingCondition fctx). set (x0 := mkReadyCtx _ _ _ _ _ _).
  set (x1 := foldl ready_own x0 _).
  assert (Hpo : ∀ {C} (g : readyCtx → C), (∀ x kv, g (ready_own (S := S) x kv) = g x) → g x1 = g x0).
  { intros C g Hg. by apply foldl_preserves. }
  assert (Hpw : ∀ {C} (g : readyCtx → C) l, (∀ x kv, g (ready_watch (S := S) fc x kv) = g x) →
      g (foldl (ready_watch (S := S) fc) x1 l) = g x1).
  { intros C g l Hg. by apply foldl_preserves. }
  assert (Hw : ∀ {C} (g : readyCtx → C), (∀ x, g (set_not_ready x) = g x) →
      (∀ ref o x, g (add_watch ref o x) = g x) → ∀ x kv, g (ready_watch (S := S) fc x kv) = g x).
  { intros C g H1' H2' x kv. unfold ready_watch. repeat case_match; rewrite ?H2', ?H1'; done. }
  assert (Ho : ∀ {C} (g : readyCtx → C), (∀ x, g (set_not_ready x) = g x) →
      (∀ ref o x, g (add_own ref o x) = g x) → ∀ x kv, g (ready_own (S := S) x kv) = g x).
  { intros C g H1' H2' x kv. unfold ready_own. repeat case_match; rewrite ?H2', ?H1'; done. }
  unfold ready_facts. split_and!.
  - rewrite Hpw by (by apply Hw). by rewrite Hpo by (by apply Ho).
  - rewrite Hpw by (by apply Hw). by rewrite Hpo by (by apply Ho).
  - rewrite Hpw by (by apply Hw). by rewrite Hpo by (by apply Ho).
  - rewrite Hpw by (by apply Hw). apply map_eq. intros ref. unfold x1, objects. rewrite lookup_omap.
    rewrite (loop_objs ready_own rdy_owns); [by rewrite range_map|apply ready_own_facts|done|apply range_NoDup].
  - apply map_eq. intros ref. unfold objects. rewrite lookup_omap.
    rewrite (loop_objs (ready_watch fc) rdy_watches);
      [by rewrite range_map|apply ready_watch_facts|by rewrite Hpo by (by apply Ho)|apply range_NoDup].
  - rewrite (loop_ready (watch_counts_ready fc) (ready_watch fc)) by apply ready_watch_facts.
    unfold x1. rewrite (loop_ready (λ _, own_counts_ready) ready_own) by apply ready_own_facts.
    setoid_rewrite range_elem. simpl. naive_solver.
Qed.

Lemma ready_facts_unique r forRef fctx x y : ready_facts r forRef fctx x → ready_facts r forRef fctx y → x = y.
Proof.
  destruct x, y. unfold ready_facts. simpl. intros (-> & -> & -> & -> & -> & H1') (-> & -> & -> & -> & -> & H2').
  f_equal. apply eq_true_iff_eq. by rewrite H1', H2'.
Qed.

(** C20: [getReadyMap] has an entry for every for resource, with the object and condition of
    the for resource and the existing objects of its own resources and watches.  It is
    ready exactly when every own resource has a condition that is not False, and every
    watch has one, or is the owner named in the reason of the for condition, or the for
    resource has no condition.  This does not depend on the order of iteration. *)
Theorem getReadyMap_spec r forRef x :
  getReadyMap r !! forRef = Some x ↔
  ∃ fctx, fors r !! forRef = Some fctx ∧ ready_facts r forRef fctx x.
Proof.
  rewrite getReadyMap_lookup. split.
  - intros (fctx & Hf & ->)%fmap_Some. exists fctx. split; [done|]. apply ready_for_facts.
  - intros (fctx & Hf & Hfacts). rewrite Hf. simpl. f_equal.
    apply ready_facts_unique with r forRef fctx; [apply ready_for_facts|exact Hfacts].
Qed.
End lemmas.

(** ** Witness *)
Module InventoryReadyWitnesses.
Import Model InventoryModel InventoryWitnesses InventoryDiffWitnesses.

Definition x1 := get_or (mkReadyCtx false false None None ∅ ∅) (getReadyMap inv1 !! itf).

Lemma getReadyMap_spec_witness :
  getReadyMap inv1 !! itf = Some x1 ∧ rdy_ready x1 = false ∧
  ∃ fctx, fors inv1 !! itf = Some fctx ∧ ready_facts inv1 itf fctx x1.
Proof.
  assert (Hx : getReadyMap inv1 !! itf = Some x1) by (apply get_or_ok; vm_compute; reflexivity).
  split; [exact Hx|]. split; [vm_compute; reflexivity|]. exact (proj1 (getReadyMap_spec inv1 itf x1) Hx).
Defined.
End InventoryReadyWitnesses.
