(* ===== verification/Sdk.v ===== *)
(** * The condition SDK ([condition.go], [sdk.go], [sdk_*.go] of [condkptsdk])

    A run reads the package into the inventory, calls the global watches, lets the function
    generate the own resources of every for resource, applies the [diff] to the package
    (stage 1), and lets the function update the for resources that are ready (stage 2).

    The items of the resource list are pointers; one of them is the pointer the Kptfile
    wrapper updates, so [ptr] keeps that sharing: an update of the Kptfile is an update of
    the item.  The other objects are values.  Log output is not modelled. *)
From S2P Require Import Prelude External SdkModel Ref Kptfile Inventory InventoryDiff InventoryReady.

(** Annotations of [sdk.go]. *)
Definition SpecializerOwner : string := "specializer.nephio.org/owner".
Definition SpecializerDebug : string := "specializer.nephio.org/debug".
Definition SpecializerFor : string := "specializer.nephio.org/for".
Definition SpecializervlanClaimName : string := "specializer.nephio.org/vlanClaimName".
Definition SpecializerNamespace : string := "specializer.nephio.org/namespace".

(** [errors.Join] of two errors. *)
Definition errors_Join (e1 e2 : option error) : option error :=
  match e1, e2 with
  | None, e | e, None => e
  | Some e1, Some e2 => Some (e1 +:+ String "010"%char e2)
  end.

Section sdk.
Context `{!FnSDK, !GoRange} {S : Type}.

(** ** [condition.go] *)
Definition getSpecializationConditionType : string :=
  GetConditionType (gvkn "nephio.org" "Specializer" "specialize").
Definition initialize : Condition :=
  mkCondition getSpecializationConditionType ConditionFalse "Specialize" "initialized".
Definition failed (msg : string) : Condition :=
  mkCondition getSpecializationConditionType ConditionFalse "Failed" msg.
Definition notReady : Condition :=
  mkCondition getSpecializationConditionType ConditionFalse "Specialize" "not ready".
Definition ready : Condition :=
  mkCondition getSpecializationConditionType ConditionTrue "Ready" "".

(** ** State ([sdk.go]) *)
Inductive ptr := PKptfile | PObj (o : KubeObject).

Record sdk := mkSdk {
  s_cfg : Config S;
  s_inv : inv S;
  s_Items : list ptr;
  s_Results : Results;
  s_kptfile : KptFile;
  s_debug : bool;
  s_user : S
}.
Definition M : Type → Type := prog sdk.

Definition deref (r : sdk) (p : ptr) : KubeObject :=
  match p with PKptfile => Kptfile (s_kptfile r) | PObj o => o end.
Definition objs (r : sdk) : list KubeObject := deref r <$> s_Items r.

Definition with_inv (i : inv S) (r : sdk) : sdk :=
  mkSdk (s_cfg r) i (s_Items r) (s_Results r) (s_kptfile r) (s_debug r) (s_user r).
Definition with_items (l : list ptr) (r : sdk) : sdk :=
  mkSdk (s_cfg r) (s_inv r) l (s_Results r) (s_kptfile r) (s_debug r) (s_user r).
Definition with_results (l : Results) (r : sdk) : sdk :=
  mkSdk (s_cfg r) (s_inv r) (s_Items r) l (s_kptfile r) (s_debug r) (s_user r).
Definition with_kptfile (k : KptFile) (r : sdk) : sdk :=
  mkSdk (s_cfg r) (s_inv r) (s_Items r) (s_Results r) k (s_debug r) (s_user r).
Definition with_debug (r : sdk) : sdk :=
  mkSdk (s_cfg r) (s_inv r) (s_Items r) (s_Results r) (s_kptfile r) true (s_user r).
Definition with_user (u : S) (r : sdk) : sdk :=
  mkSdk (s_cfg r) (s_inv r) (s_Items r) (s_Results r) (s_kptfile r) (s_debug r) u.

(** Calls on the parts of the state. *)
Definition on_kptfile {A} (f : KptFile → comp (KptFile * A)) : M A := λ r,
  '(k, a) ← f (s_kptfile r); Done (with_kptfile k r, a).
Definition on_inv {A} (f : inv S → inv S * A) : M A := λ r,
  let '(i, a) := f (s_inv r) in Done (with_inv i r, a).
Definition ErrorE (err : error) : M () := modify (λ r, with_results (Results_ErrorE err (s_Results r)) r).
(** [if err != nil { r.rl.Results.ErrorE(err) }] *)
Definition report (err : option error) : M () :=
  match err with Some e => ErrorE e | None => mret () end.
Definition callback {A} (f : S → comp (S * A)) : M A := λ r,
  '(u, a) ← f (s_user r); Done (with_user u r, a).

(** [Items.Where(fn.IsGroupVersionKind(r.cfg.For.GroupVersionKind()))] *)
Definition for_objects (r : sdk) : list KubeObject :=
  List.filter (IsGroupVersionKind (APIVersion (For (s_cfg r))) (Kind (For (s_cfg r)))) (objs r).

Definition obj_ref (o : KubeObject) : ObjectReference := gvkn (GetAPIVersion o) (GetKind o) (GetName o).

Definition failForConditions (msg : string) : M () :=
  r ← get_st;
  for_each (λ forObj,
    err ← on_kptfile (λ k, SetConditionRefFailed k (obj_ref forObj) msg);
    report err) (for_objects r).

(** ** [sdk_updates.go] *)
Definition Upsert (o : KubeObject) : M (option error) := λ r,
  let '(l, err) := UpsertObjectToItems (deref r) (PObj o) (s_Items r) in Done (with_items l r, err).

Definition setObjectInResourceList (kind : gvkKind) (refs : list ObjectReference) (obj : object)
    : M (option error) :=
  if negb (IsRefsValid refs)
  then mret (Some ("cannot set resource in resourcelist as the object has no valid refs: " +:+ fmt_refs refs))
  else
    (* both branches of the code, for one and for two references *)
    err ← Upsert (ob_obj obj);
    match err with
    | Some e => ErrorE e ;; mret (Some e)
    | None =>
        err ← on_inv (λ i, inv_set i (mkKindCtx kind noResourceKind None) refs (XObject (ob_obj obj)) false false);
        match err with
        | Some e => ErrorE e ;; mret (Some e)
        | None => mret None
        end
    end.

Definition deleteChildObject (kind : gvkKind) (refs : list ObjectReference) (obj : object) (msg : string)
    : M (option error) :=
  match GetConditionByRef refs msg ConditionFalse None with
  | Err err => mret (Some err)
  | Ok c =>
      err1 ← on_kptfile (λ k, SetConditions k [c]);
      report err1 ;;
      let '(o, err2) := SetAnnotation (ob_obj obj) SpecializerDelete "true" in
      report err2 ;;
      err3 ← setObjectInResourceList ownGVKKind refs (mkObject (ob_ref obj) o (ob_ownKind obj));
      report err3 ;;
      mret (errors_Join (errors_Join (errors_Join None err1) err2) err3)
  end.

Definition upsertChildObject (kind : gvkKind) (refs : list ObjectReference) (obj : object)
    (ec : option Condition) (msg : string) (status : ConditionStatus) (alwaysUpdate : bool)
    : M (option error) :=
  match GetConditionByRef refs msg status ec with
  | Err err => mret (Some err)
  | Ok c =>
      let c := match ec with Some ec => mkCondition (Type_ ec) status (Reason ec) msg | None => c end in
      err1 ← on_kptfile (λ k, SetConditions k [c]);
      report err1 ;;
      if alwaysUpdate then
        err2 ← setObjectInResourceList kind refs obj;
        report err2 ;;
        mret (errors_Join (errors_Join None err1) err2)
      else if decide (ob_ownKind obj = ChildRemote ∨ ob_ownKind obj = ChildLocal) then
        err2 ← setObjectInResourceList ownGVKKind refs obj;
        report err2 ;;
        mret (errors_Join (errors_Join None err1) err2)
      else mret (errors_Join None err1)
  end.

Definition deleteCondition (kind : gvkKind) (refs : list ObjectReference) : M (option error) :=
  match GetConditionByRef refs "" ConditionFalse None with
  | Err err => mret (Some err)
  | Ok c =>
      err1 ← on_kptfile (λ k, DeleteCondition k (Type_ c));
      report err1 ;;
      err2 ← on_inv (λ i, inv_delete i (mkKindCtx kind noResourceKind None) refs);
      report err2 ;;
      mret (errors_Join (errors_Join None err1) err2)
  end.

Definition setCondition (kind : gvkKind) (refs : list ObjectReference) (msg : string)
    (status : ConditionStatus) (failed : bool) : M (option error) :=
  match GetConditionByRef refs msg status None with
  | Err err => mret (Some err)
  | Ok c =>
      err1 ← on_kptfile (λ k, SetConditions k [c]);
      report err1 ;;
      err2 ← on_inv (λ i, inv_set i (mkKindCtx kind noResourceKind None) refs (XCondition c) false failed);
      report err2 ;;
      mret (errors_Join (errors_Join None err1) err2)
  end.

(** The items are deleted from while they are ranged over ([delete_in_range]). *)
Definition deleteObjFromResourceList (obj : KubeObject) : M () := λ r,
  l ← delete_in_range (λ p, IsGVKNNEqual (deref r p) obj) (s_Items r);
  Done (with_items l r, ()).

(** ** [sdk_populate_inventory.go] *)

(** State of the first loop: the owner kind of the for resources and their names by owner. *)
Definition forOwner (i : inv S) (acc : option ObjectReference * gmap string string) (c : Condition)
    : option ObjectReference * gmap string string :=
  let objRef := GetGVKNFromConditionType (Type_ c) in
  match isGVKMatch i (Some objRef) with
  | Some kindCtx =>
      if decide (kc_gvkKind kindCtx = forGVKKind) then
        let ownerRef := GetGVKNFromConditionType (Reason c) in
        match ValidateGVKRef ownerRef with
        | None => (Some (gvk (APIVersion ownerRef) (Kind ownerRef)), <[Name ownerRef := Name objRef]> (snd acc))
        | Some _ => acc
        end
      else acc
  | None => acc
  end.

Definition same_gvk (a b : ObjectReference) : bool :=
  bool_decide (APIVersion a = APIVersion b ∧ Kind a = Kind b).

Definition populate (forOwnerRefNameMap : gmap string string) (forOwnerRef : option ObjectReference)
    (objRef ownerRef : ObjectReference) (x : invObject) : M (option error) :=
  r ← get_st;
  match isGVKMatch (s_inv r) (Some (GetGVKRefFromGVKNref objRef)) with
  | None => mret None
  | Some kc =>
      match kc_gvkKind kc with
      | forGVKKind => on_inv (λ i, inv_set i kc [objRef] x false false)
      | ownGVKKind =>
          match isGVKMatch (s_inv r) (Some ownerRef) with
          | Some ownerKindCtx =>
              if decide (kc_gvkKind ownerKindCtx = forGVKKind)
              then on_inv (λ i, inv_set i kc [ownerRef; objRef] x false false)
              else mret None
          | None => mret None
          end
      | watchGVKKind =>
          let global :=
            match ValidateGVKNRef ownerRef with
            | Some _ => on_inv (λ i, inv_set i kc [objRef] x false false)
            | None => mret None
            end in
          match forOwnerRef with
          | Some forOwner =>
              if same_gvk forOwner ownerRef || same_gvk forOwner objRef then
                let name := if same_gvk forOwner objRef
                            then default "" (forOwnerRefNameMap !! Name objRef)
                            else default "" (forOwnerRefNameMap !! Name ownerRef) in
                let forRef := gvkn (APIVersion (For (s_cfg r))) (Kind (For (s_cfg r))) name in
                on_inv (λ i, inv_set i kc [forRef; objRef] x false false)
              else global
          | None => global
          end
      | noGVKKind => mret None
      end
  end.

Definition populateInventory : M (option error) :=
  cs ← on_kptfile (λ k, Done (GetConditions k));
  r ← get_st;
  let '(forOwnerRef, names) := foldl (forOwner (s_inv r)) (None, ∅) cs in
  cs ← on_kptfile (λ k, Done (GetConditions k));
  err ← for_each_err (λ c, populate names forOwnerRef (GetGVKNFromConditionType (Type_ c))
           (GetGVKNFromConditionType (Reason c)) (XCondition c)) cs;
  match err with
  | Some e => mret (Some e)
  | None =>
      r ← get_st;
      for_each_err (λ o, populate names forOwnerRef (obj_ref o)
        (GetGVKNFromConditionType (GetAnnotation o SpecializerOwner)) (XObject o)) (objs r)
  end.

(** ** [sdk_watches.go] *)
Definition callGlobalWatches : M (option error) :=
  r ← get_st;
  for_each_err (λ kv : ObjectReference * resourceCtx S,
    match kc_callbackFn (rc_kindCtx kv.2) with
    | None => mret None
    | Some callbackFn =>
        err ← callback (λ u, callbackFn u (rc_existingResource kv.2));
        match err with
        | Some e => on_inv (λ i, (setReady false i, ())) ;; mret (Some e)
        | None => mret None
        end
    end)
    (range (at_ "callGlobalWatches")
       (inv_get (s_inv r) (at_ "callGlobalWatches.get") watchGVKKind [emptyRef])).

(** ** [sdk_stage1_populate_children.go] *)
Definition populateChild (forRef : ObjectReference) (newObj : KubeObject) : M () :=
  let fail msg := err ← on_kptfile (λ k, SetConditionRefFailed k forRef msg); report err in
  let objRef := obj_ref newObj in
  r ← get_st;
  match isGVKMatch (s_inv r) (Some objRef) with
  | None => fail ("stage1: cannot find new resource in gvkmap: objRef: " +:+ GetRefsString [forRef; objRef])
  | Some kc =>
      match SetAnnotation newObj SpecializerOwner (GetConditionType forRef) with
      | (_, Some err) =>
          fail ("stage1: cannot set new annotation objRef: " +:+ GetRefsString [forRef] +:+ ", err: " +:+ err)
      | (newObj, None) =>
          err ← on_inv (λ i, inv_set i kc [forRef; objRef] (XObject newObj) true false);
          match err with
          | Some err =>
              fail ("stage1: cannot set new resource to the inventory objRef: " +:+ GetRefsString [forRef] +:+
                    ", err: " +:+ err +:+ String "010"%char "")
          | None => mret ()
          end
      end
  end.

Definition populateChildren : M () :=
  r ← get_st;
  for_each (λ kv : ObjectReference * resourceCtx S,
    let forRef := kv.1 in
    match PopulateOwnResourcesFn (s_cfg r), rc_existingResource kv.2 with
    | Some fn, Some forObj =>
        res ← callback (λ u, fn u forObj);
        match res with
        | Err err =>
            err ← setCondition forGVKKind [forRef] ("stage1: cannot populate new resource err: " +:+ err)
                    ConditionFalse true;
            report err
        | Ok res => for_each (populateChild forRef) res
        end
    | _, _ => mret ()
    end)
    (range (at_ "populateChildren") (inv_get (s_inv r) (at_ "populateChildren.get") forGVKKind [emptyRef])).

(** ** [sdk_stage1_update_children.go] *)
Definition diffMapKeysInDeterministicOrder (diffMap : gmap ObjectReference inventoryDiff) : list ObjectReference :=
  sort_by ObjectReference_String (range (at_ "diffMapKeysInDeterministicOrder") diffMap).*1.
Definition sortObjects (l : list object) : list object :=
  sort_by (λ o, ObjectReference_String (ob_ref o)) l.

(** [if err := f(); err != nil { if err := errors.Join(e, err); err != nil { ... ErrorE(err) } }]:
    the joined error is a new variable, [e] is never assigned and stays nil, so the code
    that handles [e] at the end of the loop bodies is never reached. *)
Definition step_reporting (f : M (option error)) : M () :=
  err ← f; report (errors_Join None err).

Definition create_status (o : object) : ConditionStatus :=
  if decide (ob_ownKind o = ChildLocal) then ConditionTrue else ConditionFalse.
Definition create_message (o : object) : string :=
  match ob_ownKind o with
  | ChildLocal => "child local resource -> done"
  | ChildInitial => "create initial resource condition"
  | _ => "create condition"
  end.

(** Body of the loop when the inventory is not ready. *)
Definition cleanupChildren (forRef : ObjectReference) (d : inventoryDiff) : M () :=
  (if deleteForCondition d then step_reporting (deleteCondition forGVKKind [forRef]) else mret ()) ;;
  for_each (λ o, step_reporting (deleteChildObject ownGVKKind [forRef; ob_ref o] o "not ready")) (deleteObjs d).

(** Body of the loop when it is ready. *)
Definition applyDiff (forRef : ObjectReference) (d : inventoryDiff) : M () :=
  (if updateForCondition d
   then step_reporting (setCondition forGVKKind [forRef] "update for condition" ConditionFalse false)
   else mret ()) ;;
  for_each (λ o, step_reporting (setCondition ownGVKKind [forRef; ob_ref o] (create_message o) (create_status o) false))
    (sortObjects (createConditions d)) ;;
  for_each (λ o, step_reporting (deleteCondition ownGVKKind [forRef; ob_ref o])) (deleteConditions d) ;;
  for_each (λ o, step_reporting (upsertChildObject ownGVKKind [forRef; ob_ref o] o None "create initial resource"
                                   (create_status o) false))
    (sortObjects (createObjs d)) ;;
  for_each (λ o, step_reporting (upsertChildObject ownGVKKind [forRef; ob_ref o] o None "update resource"
                                   ConditionFalse false))
    (sortObjects (updateObjs d)) ;;
  for_each (λ o, step_reporting (deleteChildObject ownGVKKind [forRef; ob_ref o] o "delete resource")) (deleteObjs d) ;;
  for_each (λ o, step_reporting (upsertChildObject ownGVKKind [forRef; ob_ref o] o None "update resource"
                                   ConditionFalse false))
    (updateDeleteAnnotations d).

Definition updateChildren : M () :=
  r ← get_st;
  diffMap ← lift (diff (s_inv r));
  if negb (isReady (s_inv r)) then
    for_each (λ kv, cleanupChildren kv.1 kv.2) (range (at_ "updateChildren") diffMap)
  else
    for_each (λ forRef, match diffMap !! forRef with
                        | Some d => applyDiff forRef d
                        | None => λ _, Panic nil_dereference
                        end) (diffMapKeysInDeterministicOrder diffMap).

(** ** [sdk_stage2.go] *)

(** Setting the owner annotation back on the returned objects. *)
Fixpoint set_owners (reason : string) (l : list KubeObject) : list KubeObject * option error :=
  match l with
  | [] => ([], None)
  | o :: l =>
      match SetAnnotation o SpecializerOwner reason with
      | (o, Some err) => (o :: l, Some err)
      | (o, None) => let '(l, err) := set_owners reason l in (o :: l, err)
      end
  end.

Definition handleUpdateResource (update : UpdateResourceFn_t (S := S)) (forObj : option KubeObject)
    (forCondition : option Condition) (objs : list KubeObject) : M (list KubeObject * option error) :=
  res ← callback (λ u, update u forObj objs);
  match res with
  | Err err => mret ([], Some err)
  | Ok [] => mret ([], None)
  | Ok newObjs =>
      match forCondition with
      | Some c =>
          if decide (Reason c = "") then mret (newObjs, None)
          else
            let '(newObjs, err) := set_owners (Reason c) newObjs in
            report err ;; mret (newObjs, err)
      | None => mret (newObjs, None)
      end
  end.

(** Body of the loop over the returned objects. *)
Definition storeUpdated (forRef : ObjectReference) (forCondition : option Condition) (newObj : KubeObject) : M () :=
  let objRef := obj_ref newObj in
  let obj := mkObject emptyRef newObj noResourceKind in
  r ← get_st;
  match isGVKMatch (s_inv r) (Some (GetGVKRefFromGVKNref objRef)) with
  | None => ErrorE ("stage 2 fn returned an object that is not owned in the config: ref: " +:+ GetRefsString [objRef])
  | Some kc =>
      match kc_gvkKind kc with
      | forGVKKind =>
          upsertChildObject forGVKKind [forRef] obj forCondition "update done" ConditionTrue true ;; mret ()
      | ownGVKKind =>
          upsertChildObject ownGVKKind [forRef; objRef] obj forCondition "update done" ConditionTrue true ;; mret ()
      | _ => ErrorE ("stage 2 fn returned an unexpected watch kind ref: " +:+ GetRefsString [objRef])
      end
  end.

(** Body of the loop over the readiness map. *)
Definition updateResource (forRef : ObjectReference) (x : readyCtx) : M () :=
  if negb (rdy_ready x) || rdy_failed x then mret ()
  else
    r ← get_st;
    match UpdateResourceFn (s_cfg r) with
    | None => mret ()
    | Some update =>
        let objs := (range (at_for "updateResources.owns" forRef) (rdy_owns x)).*2 ++
                    (range (at_for "updateResources.watches" forRef) (rdy_watches x)).*2 in
        '(newObjs, err) ← handleUpdateResource update (rdy_forObj x) (rdy_forCondition x) objs;
        match err with
        | Some err =>
            err ← on_kptfile (λ k, SetConditionRefFailed k forRef err);
            report err
        | None => for_each (storeUpdated forRef (rdy_forCondition x)) newObjs
        end
    end.

Definition updateResources : M () :=
  r ← get_st;
  if negb (isReady (s_inv r)) then
    for_each (λ kv : ObjectReference * readyCtx,
      match rdy_forObj kv.2 with
      | Some forObj => if decide (Owns (s_cfg r) = ∅) then deleteObjFromResourceList forObj else mret ()
      | None => mret ()
      end) (range (at_ "updateResources.notReady") (getReadyMap (s_inv r)))
  else
    for_each (λ kv, updateResource kv.1 kv.2) (range (at_ "updateResources") (getReadyMap (s_inv r))).

(** ** [sdk.go] *)
Definition setDebug : M () :=
  r ← get_st;
  for_each (λ forObj,
    if decide (GetAnnotation forObj SpecializerDebug = "") then mret ()
    else modify with_debug ;; on_inv (λ i, (setdebug i, ()))) (for_objects r).

Definition ensureConditionsAndGates : M (option error) :=
  let specializeCTType := getSpecializationConditionType in
  err ← on_kptfile (λ k, SetReadinessGates k [specializeCTType]);
  match err with
  | Some e => mret (Some e)
  | None =>
      c ← on_kptfile (λ k, Done (GetCondition k specializeCTType));
      match c with
      | Some _ => mret None
      | None =>
          err ← on_kptfile (λ k, SetConditions k [initialize]);
          report err ;; mret None
      end
  end.

(** The last part of [Run]: the specialize condition of a root function. *)
Definition rootCondition : M () :=
  r ← get_st;
  if Root (s_cfg r) && isReady (s_inv r) then
    let ctPrefix := GetConditionType (gvk (APIVersion (For (s_cfg r))) (Kind (For (s_cfg r)))) in
    rdy ← on_kptfile (λ k, Done (IsReady k ctPrefix));
    err ← on_kptfile (λ k, SetConditions k [if rdy : bool then ready else notReady]);
    report err
  else mret ().

(** [Run] after the Kptfile has been found: the stages. *)
Definition stages : M () :=
  setDebug ;;
  err ← populateInventory;
  match err with
  | Some e => failForConditions ("stage1: cannot populate inventory, err: " +:+ e)
  | None =>
      r ← get_st;
      err ← callGlobalWatches;
      match err with
      | Some e =>
          if Root (s_cfg r)
          then err ← on_kptfile (λ k, SetConditions k [failed e]); report err
          else failForConditions e
      | None => mret ()
      end ;;
      r ← get_st;
      (if isReady (s_inv r) && negb (bool_decide (Owns (s_cfg r) = ∅)) then populateChildren else mret ()) ;;
      updateChildren ;;
      updateResources ;;
      rootCondition
  end.

(** The outcome of [Run] on a resource list: the items, the results and the returned values. *)
Record resourceList := mkRL { rl_Items : list KubeObject; rl_Results : Results }.

Definition Run (cfg : Config S) (i : inv S) (u : S) (rl : resourceList)
    : comp (resourceList * S * bool * option error) :=
  match rl_Items rl with
  | [] => Done (mkRL [] (Results_Infof "no resources present in the resourcelist" (rl_Results rl)), u, true, None)
  | _ =>
      match GetRootKptfile snd (zip (seq 0 (length (rl_Items rl))) (rl_Items rl)) with
      | None =>
          let msg := "mandatory Kptfile is missing from the package" in
          Done (mkRL (rl_Items rl)
                  (Results_Errorf (msg +:+ ", error: " +:+ msg +:+ String "010"%char "") (rl_Results rl)),
                u, false, Some (fmt_Errorf1 msg msg))
      | Some (idx, kfko) =>
          let items := <[idx := PKptfile]> (PObj <$> rl_Items rl) in
          let r := mkSdk cfg i items (rl_Results rl) (mkKptFile kfko) false u in
          '(r, err) ← (if Root cfg then ensureConditionsAndGates else mret None : M (option error)) r;
          match err with
          | Some err =>
              let msg := "cannot ensure specialize conditions and readiness gates" in
              Done (mkRL (objs r)
                      (Results_Errorf (msg +:+ ", error: " +:+ err +:+ String "010"%char "") (s_Results r)),
                    s_user r, false, Some (fmt_Errorf1 err msg))
          | None =>
              '(r, _) ← stages r;
              Done (mkRL (objs r) (s_Results r), s_user r, true, None)
          end
      end
  end.

(** [New] followed by [Run]. *)
Definition NewRun (cfg : Config S) (u : S) (rl : resourceList)
    : comp (resourceList * S * bool * option error) :=
  match newInventory cfg with
  | Err err => Done (rl, u, false, Some err)
  | Ok i => Run cfg i u rl
  end.
End sdk.
#[export] Hint Transparent M : prog.
