(* ===== verification/SdkLemmas.v ===== *)
(** * Lemmas on runs of the condition SDK

    Two invariants of the whole pipeline, proved operation by operation: [keeps] says what
    happens to the items of the resource list, [sound] is what keeps a run from panicking. *)
From S2P Require Import Prelude External SdkModel Ref Kptfile Inventory InventoryDiff InventoryReady Sdk.

Section lemmas.
Context `{!FnSDK, !FnSDKLaws, !GoRange, !GoRangeLaws} {S : Type}.
Implicit Types (r : sdk (S := S)) (o : KubeObject).

(** ** Items *)

(** The configuration is kept, and so is every item: an object of the same apiVersion, kind,
    name and namespace is still there. *)
Definition keeps r r' : Prop :=
  s_cfg r' = s_cfg r ∧ ∀ o, o ∈ objs r → ∃ o', o' ∈ objs r' ∧ same_header o o'.

#[export] Instance keeps_preorder : PreOrder keeps.
Proof.
  split.
  - intros r. split; [done|]. intros o Ho. by exists o.
  - intros r1 r2 r3 [Hc1 H1'] [Hc2 H2']. split; [congruence|]. intros o (o' & Ho' & Hh)%H1'.
    destruct (H2' o' Ho') as (o'' & ? & ?). exists o''. split; [done|]. by eapply same_header_trans.
Qed.

Lemma same_id_header o1 o2 : same_id o1 o2 = true ↔ same_header o1 o2.
Proof. unfold same_id, same_header. apply bool_decide_eq_true. Qed.

Lemma same_header_sym o1 o2 : same_header o1 o2 → same_header o2 o1.
Proof. unfold same_header. naive_solver. Qed.

Lemma Upsert_cases {A} (deref : A → KubeObject) (p : A) (l : list A) :
  ∃ l', UpsertObjectToItems deref p l = (l', None) ∧ p ∈ l' ∧
    (∀ q, q ∈ l → ∃ q', q' ∈ l' ∧ (q' = q ∨ q' = p ∧ same_header (deref q) (deref p))) ∧
    (∀ q, q ∈ l' → q = p ∨ q ∈ l).
Proof.
  destruct (decide (Forall (λ y, same_id (deref p) (deref y) = false) l)) as [Hall|Hex].
  - exists (l ++ [p]). rewrite Upsert_append by done. split_and!; [done|set_solver| |set_solver].
    intros q Hq. exists q. set_solver.
  - assert (∃ l1 x l2, l = l1 ++ x :: l2 ∧ same_id (deref p) (deref x) = true ∧
      Forall (λ y, same_id (deref p) (deref y) = false) l1) as (l1 & x & l2 & -> & Hx & Hl1).
    { induction l as [|y l IH]; [by destruct Hex|].
      destruct (same_id (deref p) (deref y)) eqn:Hy; [by exists [], y, l|].
      destruct IH as (l1 & x & l2 & -> & Hx & Hl1).
      { intros Hall. apply Hex. by constructor. }
      exists (y :: l1), x, l2. split_and!; [done..|by constructor]. }
    exists (l1 ++ p :: l2). rewrite Upsert_replace by done. split_and!; [done|set_solver| |set_solver].
    intros q [Hq|[->|Hq]%elem_of_cons]%elem_of_app.
    + exists q. set_solver.
    + exists p. split; [set_solver|]. right. split; [done|]. by apply same_header_sym, same_id_header.
    + exists q. set_solver.
Qed.

Lemma keeps_kptfile r k : same_header (Kptfile (s_kptfile r)) (Kptfile k) → keeps r (with_kptfile k r).
Proof.
  intros Hh. split; [done|]. intros o Ho. unfold objs in *. apply list_elem_of_fmap in Ho as (p & -> & Hp).
  exists (deref (with_kptfile k r) p). split; [by apply list_elem_of_fmap_2|]. by destruct p.
Qed.

Lemma on_kptfile_keeps {A} (f : KptFile → comp (KptFile * A)) :
  (∀ k k' a, f k = Done (k', a) → kpt_keeps k k') → evolves keeps (on_kptfile f).
Proof.
  intros Hf r r' a. unfold on_kptfile. intros ([k a'] & Hk & [= <- <-])%comp_bind_Done.
  apply keeps_kptfile. by apply Hf in Hk as [? _].
Qed.

(** Updates that leave the items, the Kptfile and the configuration alone. *)
Lemma keeps_same r r' :
  s_cfg r' = s_cfg r → s_Items r' = s_Items r → s_kptfile r' = s_kptfile r → keeps r r'.
Proof.
  intros Hc Hi Hk. split; [done|]. intros o Ho. exists o. split; [|done]. unfold objs, deref in *.
  by rewrite Hi, Hk.
Qed.

Lemma on_inv_keeps {A} (f : inv S → inv S * A) : evolves keeps (on_inv f).
Proof. intros r r' a. unfold on_inv. destruct (f (s_inv r)). intros [= <- _]. by apply keeps_same. Qed.

Lemma callback_keeps {A} (f : S → comp (S * A)) : evolves keeps (callback f).
Proof.
  intros r r' a. unfold callback. intros ([u b] & _ & [= <- _])%comp_bind_Done. by apply keeps_same.
Qed.

Lemma ErrorE_keeps e : evolves keeps (ErrorE e).
Proof. intros r r' a [= <- _]. by apply keeps_same. Qed.

Lemma with_debug_keeps : evolves keeps (modify with_debug).
Proof. intros r r' a [= <- _]. by apply keeps_same. Qed.

Lemma Upsert_keeps o : evolves keeps (Upsert o).
Proof.
  intros r r' a. unfold Upsert. destruct (Upsert_cases (deref r) (PObj o) (s_Items r)) as (l' & -> & _ & Hin & _).
  intros [= <- _]. split; [done|]. intros x Hx. unfold objs in *. apply list_elem_of_fmap in Hx as (q & -> & Hq).
  destruct (Hin q Hq) as (q' & Hq' & Hcase). exists (deref r q'). split.
  - simpl. apply list_elem_of_fmap. exists q'. by destruct q'.
  - destruct Hcase as [->|[-> Hh]]; [done|exact Hh].
Qed.

Lemma SetConditionRefFailed_step ref msg : evolves keeps (on_kptfile (λ k, SetConditionRefFailed k ref msg)).
Proof. apply on_kptfile_keeps. intros ???. apply SetConditionRefFailed_keeps. Qed.
Lemma SetConditions_step cs : evolves keeps (on_kptfile (λ k, SetConditions k cs)).
Proof. apply on_kptfile_keeps. intros ???. apply SetConditions_keeps. Qed.
Lemma SetReadinessGates_step cs : evolves keeps (on_kptfile (λ k, SetReadinessGates k cs)).
Proof. apply on_kptfile_keeps. intros ???. apply SetReadinessGates_keeps. Qed.
Lemma DeleteCondition_step ct : evolves keeps (on_kptfile (λ k, DeleteCondition k ct)).
Proof. apply on_kptfile_keeps. intros ???. apply DeleteCondition_keeps. Qed.
Lemma GetConditions_step : evolves keeps (on_kptfile (λ k, Done (GetConditions k))).
Proof. apply on_kptfile_keeps. intros k k' a Hg. apply Done_inj in Hg. by apply GetConditions_keeps in Hg as [? _]. Qed.
Lemma GetCondition_keeps k k' t c : GetCondition k t = (k', c) → kpt_keeps k k'.
Proof.
  unfold GetCondition. destruct (GetConditions k) eqn:Hg. apply GetConditions_keeps in Hg as [? _].
  by intros [= <- _].
Qed.
Lemma GetCondition_step t : evolves keeps (on_kptfile (λ k, Done (GetCondition k t))).
Proof. apply on_kptfile_keeps. intros k k' a Hg. apply Done_inj in Hg. by eapply GetCondition_keeps. Qed.
Lemma IsReady_keeps k k' p b : IsReady k p = (k', b) → kpt_keeps k k'.
Proof.
  unfold IsReady. destruct (GetConditions k) eqn:Hg. apply GetConditions_keeps in Hg as [? _].
  by intros [= <- _].
Qed.
Lemma IsReady_step p : evolves keeps (on_kptfile (λ k, Done (IsReady k p))).
Proof. apply on_kptfile_keeps. intros k k' a Hg. apply Done_inj in Hg. by eapply IsReady_keeps. Qed.
End lemmas.

#[export] Hint Resolve on_inv_keeps callback_keeps ErrorE_keeps with_debug_keeps Upsert_keeps
  SetConditionRefFailed_step SetConditions_step SetReadinessGates_step DeleteCondition_step
  GetConditions_step GetCondition_step IsReady_step : prog.

Section keeps_ops.
Context `{!FnSDK, !FnSDKLaws, !GoRange, !GoRangeLaws} {S : Type}.
Notation keeps := (keeps (S := S)).

Lemma report_keeps e : evolves keeps (report e).
Proof. unfold report. evolve. Qed.
#[local] Hint Resolve report_keeps : prog.

Lemma failForConditions_keeps msg : evolves keeps (failForConditions msg).
Proof. unfold failForConditions. evolve. Qed.

Lemma setObjectInResourceList_keeps kind refs ob : evolves keeps (setObjectInResourceList kind refs ob).
Proof. unfold setObjectInResourceList. evolve. Qed.
#[local] Hint Resolve setObjectInResourceList_keeps : prog.

Lemma deleteChildObject_keeps kind refs ob msg : evolves keeps (deleteChildObject kind refs ob msg).
Proof. unfold deleteChildObject. evolve. Qed.
Lemma upsertChildObject_keeps kind refs ob ec msg st b : evolves keeps (upsertChildObject kind refs ob ec msg st b).
Proof. unfold upsertChildObject. evolve. Qed.
Lemma deleteCondition_keeps kind refs : evolves keeps (deleteCondition kind refs).
Proof. unfold deleteCondition. evolve. Qed.
Lemma setCondition_keeps kind refs msg st b : evolves keeps (setCondition kind refs msg st b).
Proof. unfold setCondition. evolve. Qed.
#[local] Hint Resolve failForConditions_keeps deleteChildObject_keeps upsertChildObject_keeps
  deleteCondition_keeps setCondition_keeps : prog.

Lemma populate_keeps m f ref own x : evolves keeps (populate m f ref own x).
Proof. unfold populate. evolve. Qed.
#[local] Hint Resolve populate_keeps : prog.
Lemma populateInventory_keeps : evolves keeps populateInventory.
Proof. unfold populateInventory. evolve. Qed.
Lemma callGlobalWatches_keeps : evolves keeps callGlobalWatches.
Proof. unfold callGlobalWatches. evolve. Qed.
Lemma populateChild_keeps f o : evolves keeps (populateChild f o).
Proof. unfold populateChild. evolve. Qed.
#[local] Hint Resolve populateChild_keeps : prog.
Lemma populateChildren_keeps : evolves keeps populateChildren.
Proof. unfold populateChildren. evolve. Qed.

Lemma cleanupChildren_keeps f d : evolves keeps (cleanupChildren f d).
Proof. unfold cleanupChildren, step_reporting. evolve. Qed.
Lemma applyDiff_keeps f d : evolves keeps (applyDiff f d).
Proof. unfold applyDiff, step_reporting. evolve. Qed.
#[local] Hint Resolve cleanupChildren_keeps applyDiff_keeps : prog.
Lemma updateChildren_keeps : evolves keeps updateChildren.
Proof. unfold updateChildren. evolve. Qed.

Lemma handleUpdateResource_keeps u f c l : evolves keeps (handleUpdateResource u f c l).
Proof. unfold handleUpdateResource. evolve. Qed.
Lemma storeUpdated_keeps f c o : evolves keeps (storeUpdated f c o).
Proof. unfold storeUpdated. evolve. Qed.
#[local] Hint Resolve handleUpdateResource_keeps storeUpdated_keeps : prog.
Lemma updateResource_keeps f x : evolves keeps (updateResource f x).
Proof. unfold updateResource. evolve. Qed.

Lemma setDebug_keeps : evolves keeps setDebug.
Proof. unfold setDebug. evolve. Qed.
Lemma ensureConditionsAndGates_keeps : evolves keeps ensureConditionsAndGates.
Proof. unfold ensureConditionsAndGates. evolve. Qed.
Lemma rootCondition_keeps : evolves keeps rootCondition.
Proof. unfold rootCondition. evolve. Qed.
End keeps_ops.

(** ** Panics *)
Section sound.
Context `{!FnSDK, !FnSDKLaws, !GoRange, !GoRangeLaws} {S : Type}.
Implicit Types (r : sdk (S := S)) (o : KubeObject).

(** A callback that does not panic; the callbacks of a configuration and of an inventory. *)
Definition total_cb {A B} (f : S → A → comp (S * B)) : Prop := ∀ u a, ∃ u' b, f u a = Done (u', b).
Definition total_cfg (cfg : Config S) : Prop :=
  (∀ f, PopulateOwnResourcesFn cfg = Some f → total_cb f) ∧
  (∀ f, UpdateResourceFn cfg = Some f → ∀ u oo l, ∃ u' b, f u oo l = Done (u', b)) ∧
  (∀ ref f, Watch cfg !! ref = Some (Some f) → total_cb f).
Definition total_kc (kc : gvkKindCtx S) : Prop := ∀ f, kc_callbackFn kc = Some f → total_cb f.

(** The condition types of the Kptfile are distinct, the function owns something and its
    callbacks do not panic. *)
Definition sound r : Prop :=
  NoDup (types (conds (s_kptfile r))) ∧ Owns (s_cfg r) ≠ ∅ ∧ total_cfg (s_cfg r).

(** No object, in the package or in the inventory, is marked for deletion, and the callbacks
    in the inventory do not panic. *)
Definition unmarked o : Prop := GetAnnotations o !! SpecializerDelete = None.
Definition unmarked_ctx (ctx : resourceCtx S) : Prop :=
  (∀ e, rc_existingResource ctx = Some e → unmarked e) ∧ total_kc (rc_kindCtx ctx).
Definition fresh_inv (i : inv S) : Prop :=
  (∀ key kc, inv_gvkResources i !! key = Some kc → total_kc kc) ∧
  (∀ k ref ctx, ctx1 i k ref = Some ctx → unmarked_ctx ctx) ∧
  (∀ f k ref ctx, ctx2 i f k ref = Some ctx → unmarked_ctx ctx).
Definition fresh r : Prop := sound r ∧ (∀ o, o ∈ objs r → unmarked o) ∧ fresh_inv (s_inv r).

(** What may be stored while the inventory is to stay fresh. *)
Definition storable (x : invObject) (new : bool) : Prop :=
  match x with XObject o => new = true ∨ unmarked o | _ => True end.

Lemma set_ctx_unmarked c kc x new failed :
  unmarked_ctx c → total_kc kc → storable x new → unmarked_ctx (fst (set_ctx c kc x new failed)).
Proof.
  intros [Hc Ht] Hkc Hx. unfold unmarked_ctx, set_ctx. destruct x as [d|o|sh]; [done| |done].
  destruct new; [done|]. destruct Hx as [?|Hx]; [done|]. simpl. split; [by intros e [= <-]|done].
Qed.

Lemma default_unmarked oc : (∀ c, oc = Some c → unmarked_ctx c) → unmarked_ctx (default zeroResourceCtx oc).
Proof. destruct oc; [by auto|]. intros _. by split. Qed.

Lemma inv_set_ready (i : inv S) kc refs x new failed i' e :
  inv_set i kc refs x new failed = (i', e) → inv_ready i' = inv_ready i.
Proof. unfold inv_set. destruct (getSdkRefs _ _); [|by intros [= <- _]]. destruct (res_set _ _ _ _ _ _). by intros [= <- _]. Qed.

Lemma res_set_ok refs kc x new failed (rs : resources S) :
  (∀ sh, x ≠ XOther sh) → snd (res_set refs kc x new failed rs) = None.
Proof.
  intros Hother. revert rs. induction refs as [|ref refs IH]; intros rs; simpl.
  - unfold set_ctx. destruct x; [done|by destruct new|by destruct (Hother shown)].
  - specialize (IH (default emptyResources (res_children rs !! ref))).
    by destruct (res_set refs kc x new failed (default emptyResources (res_children rs !! ref))).
Qed.

Lemma inv_set_fresh (i : inv S) kc refs x new failed i' e :
  (∀ sh, x ≠ XOther sh) → fresh_inv i → total_kc kc → storable x new →
  inv_set i kc refs x new failed = (i', e) → fresh_inv i'.
Proof.
  intros Hother (Hf0 & Hf1 & Hf2) Hkc Hx Hset.
  assert (Hgvk : inv_gvkResources i' = inv_gvkResources i).
  { unfold inv_set in Hset. destruct (getSdkRefs _ _); [|by injection Hset as <-].
    destruct (res_set _ _ _ _ _ _). by injection Hset as <-. }
  assert (i' = i ∨ e = None ∧ ∃ sdkRefs, getSdkRefs (kc_gvkKind kc) refs = Ok sdkRefs) as [->|[-> [sdkRefs Hrefs]]].
  { unfold inv_set in Hset. destruct (getSdkRefs _ _) as [sdkRefs|err]; [|left; congruence]. right.
    pose proof (res_set_ok sdkRefs kc x new failed (inv_resources i) Hother) as Hok.
    destruct (res_set sdkRefs kc x new failed (inv_resources i)). simplify_eq/=. by eauto. }
  { done. }
  unfold getSdkRefs in Hrefs. destruct refs as [|ref [|ref2 [|]]]; [done| | |done].
  - case_decide as Hk; [done|]. apply inv_set_1 in Hset as [H1' H2'].
    2:{ destruct (kc_gvkKind kc); naive_solver. }
    split_and!; [by rewrite Hgvk| |].
    + intros k ref' ctx. rewrite H1'. case_decide; [|by apply Hf1]. intros [= <-].
      apply set_ctx_unmarked; [|done..]. apply default_unmarked. intros c. by apply Hf1.
    + intros f k ref' ctx. rewrite H2'. by apply Hf2.
  - case_decide as Hk; [done|]. apply inv_set_2 in Hset as [H1' H2']; [|done]. split_and!; [by rewrite Hgvk| |].
    + intros k ref' ctx. rewrite H1'. case_decide; [|by apply Hf1]. intros [= <-].
      apply default_unmarked. intros c. by apply Hf1.
    + intros f k ref' ctx. rewrite H2'. case_decide; [|by apply Hf2]. intros [= <-].
      apply set_ctx_unmarked; [|done..]. apply default_unmarked. intros c. by apply Hf2.
Qed.

Lemma children_ctx (i : inv S) k f ref ctx :
  children i k f !! ref = Some ctx → ctx2 i f k ref = Some ctx ∨ ctx1 i forGVKKind ref = Some ctx.
Proof.
  unfold children, inv_get, getSdkRefs. case_decide; [by rewrite lookup_empty|]. cbn [res_get].
  case_decide; [rewrite collect_range; by right|].
  unfold ctx2. cbn [sr_ref sr_gvkKind].
  destruct (res_children (inv_resources i) !! mkSdkRef forGVKKind f); [|by rewrite lookup_empty].
  cbn [res_get]. rewrite decide_True by done. rewrite collect_range. by left.
Qed.

Lemma fresh_diff (i : inv S) : fresh_inv i → ∃ m, diff i = Done m.
Proof.
  intros (_ & Hf1 & Hf2). destruct (diff i) as [m|w] eqn:Hd; [by eauto|]. exfalso.
  apply diff_panic_entry in Hd as (_ & forRef & fctx & ref & ctx & _ & Hc & _ & Hrev).
  assert (unmarked_ctx ctx) as [Hu _] by (apply children_ctx in Hc as [?|?]; eauto).
  unfold revived, both_specs in Hrev. repeat case_match; try done; destruct Hrev as [_ Hrev]; try done.
  by apply Hrev, Hu.
Qed.

(** Operations. *)
Lemma fresh_kptfile r k : fresh r → kpt_keeps (s_kptfile r) k → fresh (with_kptfile k r).
Proof.
  intros ((Hnd & Ho) & Hobjs & Hi) (_ & Ha & Hk). split_and!; [by split; [apply Hk|]| |apply Hi..].
  intros o Hin. unfold objs in *. apply list_elem_of_fmap in Hin as (p & -> & Hp). destruct p as [|o]; simpl.
  - unfold unmarked. rewrite Ha. apply Hobjs. apply list_elem_of_fmap. by exists PKptfile.
  - apply Hobjs. apply list_elem_of_fmap. by exists (PObj o).
Qed.

Lemma sound_kptfile r k : sound r → kpt_keeps (s_kptfile r) k → sound (with_kptfile k r).
Proof. intros [Hnd Ho] (_ & _ & Hk). by split; [apply Hk|]. Qed.

(** A Kptfile operation that returns when the condition types are distinct. *)
Definition kpt_total {A} (f : KptFile → comp (KptFile * A)) : Prop :=
  ∀ k, NoDup (types (conds k)) → ∃ k' a, f k = Done (k', a) ∧ kpt_keeps k k'.

Lemma on_kptfile_safe {A} (f : KptFile → comp (KptFile * A)) : kpt_total f → safe sound (on_kptfile f).
Proof.
  intros Hf r Hr. destruct (Hf (s_kptfile r)) as (k & a & Hk & Hkeep); [apply Hr|].
  exists (with_kptfile k r), a. unfold on_kptfile. rewrite Hk. split; [done|]. by apply sound_kptfile.
Qed.
Lemma on_kptfile_fresh {A} (f : KptFile → comp (KptFile * A)) : kpt_total f → safe fresh (on_kptfile f).
Proof.
  intros Hf r Hr. destruct (Hf (s_kptfile r)) as (k & a & Hk & Hkeep); [apply Hr|].
  exists (with_kptfile k r), a. unfold on_kptfile. rewrite Hk. split; [done|]. by apply fresh_kptfile.
Qed.

Lemma SetConditions_kt cs : kpt_total (λ k, SetConditions k cs).
Proof. intros k _. destruct (SetConditions_total k cs) as (k' & e & Hk). exists k', e. eauto using SetConditions_keeps. Qed.
Lemma SetReadinessGates_kt cs : kpt_total (λ k, SetReadinessGates k cs).
Proof.
  intros k _. assert (∃ k' e, SetReadinessGates k cs = Done (k', e)) as (k' & e & Hk).
  { unfold SetReadinessGates. destruct (GetReadinessGates k). apply set_field_total. }
  exists k', e. eauto using SetReadinessGates_keeps.
Qed.
Lemma SetConditionRefFailed_kt ref msg : kpt_total (λ k, SetConditionRefFailed k ref msg).
Proof.
  intros k _. destruct (SetConditionRefFailed_total k ref msg) as (k' & e & Hk).
  exists k', e. eauto using SetConditionRefFailed_keeps.
Qed.
Lemma DeleteCondition_kt ct : kpt_total (λ k, DeleteCondition k ct).
Proof.
  intros k Hnd. destruct (DeleteCondition_total k ct Hnd) as (k' & e & Hk).
  exists k', e. eauto using DeleteCondition_keeps.
Qed.
Lemma GetConditions_kt : kpt_total (λ k, Done (GetConditions k)).
Proof. intros k _. destruct (GetConditions k) as [k' cs] eqn:Hg. apply GetConditions_keeps in Hg as [? _]. by eauto. Qed.
Lemma GetCondition_kt t : kpt_total (λ k, Done (GetCondition k t)).
Proof. intros k _. destruct (GetCondition k t) as [k' c] eqn:Hg. apply GetCondition_keeps in Hg. by eauto. Qed.
Lemma IsReady_kt p : kpt_total (λ k, Done (IsReady k p)).
Proof. intros k _. destruct (IsReady k p) as [k' c] eqn:Hg. apply IsReady_keeps in Hg. by eauto. Qed.

Lemma on_inv_safe {A} (f : inv S → inv S * A) : safe sound (on_inv f).
Proof. intros r Hr. unfold on_inv. destruct (f (s_inv r)) as [i a]. by exists (with_inv i r), a. Qed.
Lemma callback_safe {A} (f : S → comp (S * A)) : (∀ u, ∃ u' a, f u = Done (u', a)) → safe sound (callback f).
Proof.
  intros Hf r Hr. unfold callback. destruct (Hf (s_user r)) as (u & a & ->). by exists (with_user u r), a.
Qed.
Lemma callback_fresh {A} (f : S → comp (S * A)) : (∀ u, ∃ u' a, f u = Done (u', a)) → safe fresh (callback f).
Proof.
  intros Hf r Hr. unfold callback. destruct (Hf (s_user r)) as (u & a & ->). by exists (with_user u r), a.
Qed.
Lemma ErrorE_safe e : safe sound (ErrorE e).
Proof. intros r Hr. by eexists _, _. Qed.
Lemma ErrorE_fresh e : safe fresh (ErrorE e).
Proof. intros r Hr. by eexists _, _. Qed.
Lemma with_debug_fresh : safe fresh (modify with_debug).
Proof. intros r Hr. by eexists _, _. Qed.
Lemma setdebug_fresh : safe fresh (on_inv (λ i, (setdebug i, ()))).
Proof. intros r Hr. by eexists _, _. Qed.
Lemma setReady_fresh b : safe fresh (on_inv (λ i, (setReady b i, ()))).
Proof. intros r Hr. by eexists _, _. Qed.
Lemma inv_set_step kc refs x new failed :
  (∀ sh, x ≠ XOther sh) → total_kc kc → storable x new →
  safe fresh (on_inv (λ i, inv_set i kc refs x new failed)).
Proof.
  intros Hother Hkc Hx r (Hs & Ho & Hi). unfold on_inv. destruct (inv_set (s_inv r) kc refs x new failed) as [i e] eqn:Hset.
  exists (with_inv i r), e. split; [done|]. split; [done|]. split; [done|]. by eapply inv_set_fresh.
Qed.
Lemma fresh_match r ref kc : fresh r → isGVKMatch (s_inv r) ref = Some kc → total_kc kc.
Proof.
  intros (_ & _ & Hgvk & _). unfold isGVKMatch. destruct ref as [ref|]; [|done].
  destruct (inv_gvkResources (s_inv r) !! gvk _ _) eqn:Hl; [intros [= <-]|intros Hw]; by eapply Hgvk.
Qed.
Lemma fresh_watch r s ref ctx f :
  fresh r → (ref, ctx) ∈ range s (inv_get (s_inv r) (at_ "callGlobalWatches.get") watchGVKKind [emptyRef]) →
  kc_callbackFn (rc_kindCtx ctx) = Some f → total_cb f.
Proof.
  intros (_ & _ & _ & Hf1 & _) Hin%range_elem Hcb. rewrite inv_get_level1 in Hin by by right.
  apply Hf1 in Hin as [_ Hk]. by apply Hk.
Qed.
Lemma Upsert_safe o : safe sound (Upsert o).
Proof. intros r Hr. unfold Upsert. destruct (UpsertObjectToItems _ _ _) as [l e]. by exists (with_items l r), e. Qed.
End sound.

#[export] Hint Resolve SetConditions_kt SetReadinessGates_kt SetConditionRefFailed_kt DeleteCondition_kt
  GetConditions_kt GetCondition_kt IsReady_kt : prog.
#[export] Hint Resolve on_kptfile_safe on_kptfile_fresh on_inv_safe callback_safe callback_fresh ErrorE_safe
  ErrorE_fresh with_debug_fresh setdebug_fresh setReady_fresh Upsert_safe : prog.

Section safe_ops.
Context `{!FnSDK, !FnSDKLaws, !GoRange, !GoRangeLaws} {S : Type}.
Notation sound := (sound (S := S)).
Notation fresh := (fresh (S := S)).

Lemma report_safe e : safe sound (report e).
Proof. unfold report. safely. Qed.
Lemma report_fresh e : safe fresh (report e).
Proof. unfold report. safely. Qed.
#[local] Hint Resolve report_safe report_fresh : prog.

Lemma failForConditions_fresh msg : safe fresh (failForConditions msg).
Proof. unfold failForConditions. safely. Qed.
Lemma setObjectInResourceList_safe kind refs ob : safe sound (setObjectInResourceList kind refs ob).
Proof. unfold setObjectInResourceList. safely. Qed.
#[local] Hint Resolve setObjectInResourceList_safe : prog.
Lemma deleteChildObject_safe kind refs ob msg : safe sound (deleteChildObject kind refs ob msg).
Proof. unfold deleteChildObject. safely. Qed.
Lemma upsertChildObject_safe kind refs ob ec msg st b : safe sound (upsertChildObject kind refs ob ec msg st b).
Proof. unfold upsertChildObject. safely. Qed.
Lemma deleteCondition_safe kind refs : safe sound (deleteCondition kind refs).
Proof. unfold deleteCondition. safely. Qed.
Lemma setCondition_safe kind refs msg st b : safe sound (setCondition kind refs msg st b).
Proof. unfold setCondition. safely. Qed.
Lemma setCondition_fresh kind refs msg st b : safe fresh (setCondition kind refs msg st b).
Proof. unfold setCondition. safely. by apply inv_set_step; [|intros f|]. Qed.
#[local] Hint Resolve failForConditions_fresh deleteChildObject_safe upsertChildObject_safe
  deleteCondition_safe setCondition_safe setCondition_fresh : prog.

Lemma populate_fresh m f ref own x :
  (∀ sh, x ≠ XOther sh) → storable x false → safe fresh (populate m f ref own x).
Proof. intros Hother Hx. unfold populate. safely; apply inv_set_step; eauto using fresh_match. Qed.

Lemma populateInventory_fresh : safe fresh populateInventory.
Proof.
  unfold populateInventory. safely; apply populate_fresh; try done. right.
  match goal with Hr : fresh ?r, Hin : _ ∈ objs ?r |- _ => by apply Hr, Hin end.
Qed.

Lemma callGlobalWatches_fresh : safe fresh callGlobalWatches.
Proof.
  unfold callGlobalWatches. safely. apply callback_fresh. intros u.
  match goal with Hin : ?kv ∈ _ |- _ => destruct kv as [ref ctx] end. by eapply fresh_watch.
Qed.
Lemma populateChild_fresh f o : safe fresh (populateChild f o).
Proof. unfold populateChild. safely. apply inv_set_step; [done|by eapply fresh_match|by left]. Qed.
#[local] Hint Resolve populateChild_fresh : prog.
Lemma populateChildren_fresh : safe fresh populateChildren.
Proof.
  unfold populateChildren. safely. apply callback_fresh. intros u.
  match goal with Hr : fresh _ |- _ => destruct Hr as [(_ & _ & Hp & _) _] end. by eapply Hp.
Qed.
Lemma setDebug_fresh : safe fresh setDebug.
Proof. unfold setDebug. safely. Qed.
Lemma ensureConditionsAndGates_fresh : safe fresh ensureConditionsAndGates.
Proof. unfold ensureConditionsAndGates. safely. Qed.

Lemma cleanupChildren_safe f d : safe sound (cleanupChildren f d).
Proof. unfold cleanupChildren, step_reporting. safely. Qed.
Lemma applyDiff_safe f d : safe sound (applyDiff f d).
Proof. unfold applyDiff, step_reporting. safely. Qed.
Lemma handleUpdateResource_safe u f c l :
  (∀ s, ∃ s' b, u s f l = Done (s', b)) → safe sound (handleUpdateResource u f c l).
Proof. intros Hu. unfold handleUpdateResource. safely. Qed.
Lemma storeUpdated_safe f c o : safe sound (storeUpdated f c o).
Proof. unfold storeUpdated. safely. Qed.
#[local] Hint Resolve cleanupChildren_safe applyDiff_safe handleUpdateResource_safe storeUpdated_safe : prog.
Lemma updateResource_safe f x : safe sound (updateResource f x).
Proof.
  unfold updateResource. safely. apply handleUpdateResource_safe. intros us.
  match goal with Hr : sound _ |- _ => destruct Hr as (_ & _ & _ & Hu & _) end. by eapply Hu.
Qed.
#[local] Hint Resolve updateResource_safe : prog.
Lemma updateResources_safe : safe sound updateResources.
Proof.
  unfold updateResources. safely. by match goal with Hr : sound _ |- _ => destruct Hr as (_ & ? & _) end.
Qed.
Lemma rootCondition_safe : safe sound rootCondition.
Proof. unfold rootCondition. safely. Qed.

Lemma diffMapKeys_elem (m : gmap ObjectReference inventoryDiff) f :
  f ∈ diffMapKeysInDeterministicOrder m ↔ is_Some (m !! f).
Proof.
  unfold diffMapKeysInDeterministicOrder. rewrite sort_by_perm, list_elem_of_fmap. split.
  - intros ([f' d] & -> & Hin%range_elem). by eexists.
  - intros [d Hd]. exists (f, d). by rewrite range_elem.
Qed.

(** The diff of a fresh inventory exists, so stage 1 goes through. *)
Lemma updateChildren_steps : steps fresh sound updateChildren.
Proof.
  apply steps_get_bind. intros r (Hs & _ & Hi). apply steps_lift_bind.
  destruct (fresh_diff (s_inv r) Hi) as [m Hd]. exists m. split; [done|].
  apply steps_mono with sound sound; [|by intros ? [? _]|done].
  destruct (isReady (s_inv r)); cbn [negb].
  - apply (safe_for_each sound). intros f [d Hf]%diffMapKeys_elem. rewrite Hf. apply applyDiff_safe.
  - apply (safe_for_each sound). intros [f d] _. apply cleanupChildren_safe.
Qed.

Lemma stages_steps : steps fresh sound stages.
Proof.
  unfold stages. apply steps_bind with fresh; [apply setDebug_fresh|intros _].
  apply steps_bind with fresh; [apply populateInventory_fresh|intros [e|]].
  { apply steps_mono with fresh fresh; [apply failForConditions_fresh|done|by intros ? [? _]]. }
  apply steps_get_bind. intros r Hr. apply steps_bind with fresh; [apply callGlobalWatches_fresh|intros err].
  apply steps_bind with fresh; [change (steps fresh fresh ?m) with (safe fresh m); safely|intros _].
  apply steps_get_bind. intros r' Hr'.
  apply steps_bind with fresh; [case_match; [apply populateChildren_fresh|apply safe_ret]|intros _].
  apply steps_bind with sound; [apply updateChildren_steps|intros _].
  apply steps_bind with sound; [apply updateResources_safe|intros _]. apply rootCondition_safe.
Qed.
End safe_ops.
