(* ===== verification/SdkTheorems.v ===== *)
(** * Properties of runs of the condition SDK *)
From S2P Require Import Prelude External SdkModel Ref Kptfile Inventory InventoryDiff InventoryReady Sdk SdkLemmas.

Section run.
Context `{!FnSDK, !FnSDKLaws, !GoRange, !GoRangeLaws} {S : Type}.
Implicit Types (cfg : Config S) (i : inv S) (u : S) (rl : resourceList) (r : sdk (S := S)).

(** The state [Run] starts its stages from. *)
Definition start cfg i u rl (idx : nat) (kfko : KubeObject) : sdk :=
  mkSdk cfg i (<[idx := PKptfile]> (PObj <$> rl_Items rl)) (rl_Results rl) (mkKptFile kfko) false u.

Lemma root_kptfile rl idx kfko :
  GetRootKptfile snd (zip (seq 0 (length (rl_Items rl))) (rl_Items rl)) = Some (idx, kfko) →
  rl_Items rl !! idx = Some kfko.
Proof.
  intros Hin%GetRootKptfile_elem. apply list_elem_of_lookup in Hin as [j Hj].
  apply lookup_zip_with_Some in Hj as (x & y & [= <- <-] & Hx & Hy).
  apply lookup_seq in Hx as [-> _]. done.
Qed.

Lemma start_objs cfg i u rl idx kfko :
  rl_Items rl !! idx = Some kfko → objs (start cfg i u rl idx kfko) = rl_Items rl.
Proof.
  intros Hk. unfold objs, start. simpl. rewrite list_fmap_insert, <-list_fmap_compose. simpl.
  rewrite (list_fmap_ext _ id) by done. rewrite list_fmap_id. by apply list_insert_id.
Qed.

Lemma updateResources_keeps r r' a :
  Owns (s_cfg r) ≠ ∅ → updateResources r = Done (r', a) → keeps r r'.
Proof.
  intros Ho. unfold updateResources. intros (r0 & r1 & [= <- <-] & Hrun)%prog_bind_Done.
  revert Hrun. destruct (isReady (s_inv r)); cbn [negb]; intros Hrun.
  - revert Hrun. apply evolves_for_each; [typeclasses eauto|]. intros kv. apply updateResource_keeps.
  - revert Hrun. apply evolves_for_each; [typeclasses eauto|]. intros kv.
    cbn beta. destruct (rdy_forObj kv.2); [rewrite decide_False by done|]; evolve.
Qed.

Lemma stages_keeps r r' a : Owns (s_cfg r) ≠ ∅ → stages r = Done (r', a) → keeps r r'.
Proof.
  intros Ho. unfold stages. intros (r1 & [] & H1' & Hrun)%prog_bind_Done.
  apply setDebug_keeps in H1'. apply prog_bind_Done in Hrun as (r2 & e & H2' & Hrun).
  apply populateInventory_keeps in H2'.
  assert (Hk2 : keeps r r2) by (by transitivity r1). clear H1' H2' r1.
  destruct e as [e|].
  { apply failForConditions_keeps in Hrun. by transitivity r2. }
  apply prog_bind_Done in Hrun as (r2' & r3 & [= <- <-] & Hrun).
  apply prog_bind_Done in Hrun as (r4 & e & H4' & Hrun). apply callGlobalWatches_keeps in H4'.
  apply prog_bind_Done in Hrun as (r5 & [] & H5' & Hrun).
  assert (Hk5 : keeps r4 r5).
  { revert H5'. destruct e as [e|]; [|by intros [= <-]].
    destruct (Root (s_cfg r2)); [|by intros ?%failForConditions_keeps].
    intros H5'. eapply evolves_bind; [typeclasses eauto|apply SetConditions_step|intros err; apply report_keeps|exact H5']. }
  apply prog_bind_Done in Hrun as (r5' & r6 & [= <- <-] & Hrun).
  apply prog_bind_Done in Hrun as (r7 & [] & H7' & Hrun).
  assert (Hk7 : keeps r5 r7).
  { revert H7'. destruct (isReady _ && _); [by intros ?%populateChildren_keeps|by intros [= <-]]. }
  apply prog_bind_Done in Hrun as (r8 & [] & H8' & Hrun). apply updateChildren_keeps in H8'.
  apply prog_bind_Done in Hrun as (r9 & [] & H9' & Hrun).
  assert (Hk8 : keeps r r8) by (transitivity r2; [done|]; transitivity r4; [done|]; transitivity r5; [done|]; by transitivity r7).
  apply updateResources_keeps in H9'; [|by rewrite (proj1 Hk8)].
  apply rootCondition_keeps in Hrun. transitivity r8; [done|]. by transitivity r9.
Qed.

(** C2: a run never drops a resource of a function that owns resources: whatever the
    callbacks do and in whatever order maps are iterated over, every item of the resource
    list is still there afterwards, with its apiVersion, kind, name and namespace (resources
    are deleted by annotation only). *)
Theorem Run_keeps_items cfg i u rl rl' u' ok err o :
  Owns cfg ≠ ∅ → Run cfg i u rl = Done (rl', u', ok, err) → o ∈ rl_Items rl →
  ∃ o', o' ∈ rl_Items rl' ∧ same_header o o'.
Proof.
  intros Ho Hrun Hin. unfold Run in Hrun. destruct (rl_Items rl) as [|o0 l] eqn:Hl; [set_solver|].
  rewrite <-Hl in *. clear Hl l o0.
  destruct (GetRootKptfile _ _) as [[idx kfko]|] eqn:Hk; [|simplify_eq; by exists o].
  apply root_kptfile in Hk. fold (start cfg i u rl idx kfko) in Hrun.
  pose proof (start_objs cfg i u rl idx kfko Hk) as Hobjs.
  set (r0 := start cfg i u rl idx kfko) in *. rewrite <-Hobjs in Hin.
  apply comp_bind_Done in Hrun as ([r1 e] & He & Hrun).
  assert (keeps r0 r1) as Hk1.
  { destruct (Root cfg); [by apply ensureConditionsAndGates_keeps in He|]. by injection He as <-. }
  destruct e as [e|].
  - simplify_eq. simpl. by apply Hk1.
  - apply comp_bind_Done in Hrun as ([r2 []] & Hst & Hrun). simplify_eq. simpl.
    assert (keeps r1 r2) as Hk2.
    { eapply stages_keeps; [|done]. by rewrite (proj1 Hk1). }
    assert (keeps r0 r2) as [_ Hk3] by (by transitivity r1). by apply Hk3.
Qed.

(** C1: a run returns: if the condition types of the Kptfile are distinct, no object of the
    package is marked for deletion, the function owns resources and its callbacks do not
    panic, then creating the SDK and running it does not panic, whatever objects, readiness
    and errors the callbacks return.  A callback that panics makes the run panic, and one that
    returns a nil object is outside the model. *)
Theorem NewRun_returns cfg u rl :
  Owns cfg ≠ ∅ → total_cfg cfg →
  (∀ o, o ∈ rl_Items rl → unmarked o) →
  (∀ o, o ∈ rl_Items rl → NoDup (types (conds (mkKptFile o)))) →
  ∃ rl' u' ok err, NewRun cfg u rl = Done (rl', u', ok, err).
Proof.
  intros Ho Htot Hun Hnd. unfold NewRun. destruct (newInventory cfg) as [i|e] eqn:Hi; [|by eauto 8].
  apply newInventory_table in Hi as [Hv ->]. set (i := mkInv _ _ _ _). unfold Run.
  destruct (rl_Items rl) as [|o0 l] eqn:Hl; [by eauto 8|]. rewrite <-Hl in *. clear Hl l o0.
  destruct (GetRootKptfile _ _) as [[idx kfko]|] eqn:Hk; [|by eauto 8].
  apply root_kptfile in Hk. fold (start cfg i u rl idx kfko).
  assert (fresh (start cfg i u rl idx kfko)) as Hfresh.
  { split_and!; [split; [apply Hnd; by eapply list_elem_of_lookup_2|done]| |].
    - intros o Hin. apply Hun. by rewrite start_objs in Hin.
    - split_and!; [|intros k ref ctx; unfold ctx1; simpl; by rewrite lookup_empty
                   |intros f k ref ctx; unfold ctx2; simpl; by rewrite lookup_empty].
      intros key kc Hkc. apply (gvk_table_lookup cfg key kc Hv) in Hkc.
      destruct Hkc as [[_ ->]|[(? & ? & _ & _ & ->)|(ref & cb & Hw & _ & ->)]]; [done|done|].
      intros f [= ->]. by eapply Htot. }
  assert (∃ r1 e, (if Root cfg then ensureConditionsAndGates else mret None : M (option error))
      (start cfg i u rl idx kfko) = Done (r1, e) ∧ fresh r1) as (r1 & e & He & Hr1).
  { destruct (Root cfg); [by apply ensureConditionsAndGates_fresh|by eexists _, _]. }
  rewrite He. simpl. destruct e as [e|]; [by eauto 8|].
  destruct (stages_steps r1 Hr1) as (r2 & [] & -> & _). simpl. by eauto 8.
Qed.

(** The error paths of [Run]: without resources it succeeds and reports it; without a
    Kptfile it fails, leaves the items as they are and returns the message with the
    formatting error of the stray argument. *)
Theorem Run_missing_input cfg i u rl :
  (rl_Items rl = [] →
   Run cfg i u rl = Done (mkRL [] (Results_Infof "no resources present in the resourcelist" (rl_Results rl)), u, true, None)) ∧
  (rl_Items rl ≠ [] → GetRootKptfile snd (zip (seq 0 (length (rl_Items rl))) (rl_Items rl)) = None →
   ∃ res, Run cfg i u rl = Done (mkRL (rl_Items rl) res, u, false,
     Some ("mandatory Kptfile is missing from the package%!(EXTRA string=" +:+
           "mandatory Kptfile is missing from the package)"))).
Proof.
  unfold Run. split; [by intros ->|]. intros Hne Hk. destruct (rl_Items rl) as [|o l] eqn:Hl; [done|].
  rewrite Hk. eexists. f_equal. f_equal. f_equal. rewrite fmt_Errorf1_extra by done. done.
Qed.
End run.

(** ** Order of the changes *)
Section order.
Context `{!FnSDK}.

(** The keys of a diff in deterministic order and a sorted list of objects do not depend on the
    order in which Go iterates over maps, as long as different references print differently. *)
Lemma deterministic_order (R1 R2 : GoRange) (m : gmap ObjectReference inventoryDiff) (l1 l2 : list object) :
  GoRangeLaws (H := R1) → GoRangeLaws (H := R2) →
  (∀ f g, is_Some (m !! f) → is_Some (m !! g) → ObjectReference_String f = ObjectReference_String g → f = g) →
  l1 ≡ₚ l2 →
  (∀ a b, a ∈ l1 → b ∈ l1 → ObjectReference_String (ob_ref a) = ObjectReference_String (ob_ref b) → a = b) →
  @diffMapKeysInDeterministicOrder _ R1 m = @diffMapKeysInDeterministicOrder _ R2 m ∧
  sortObjects l1 = sortObjects l2.
Proof.
  intros L1 L2 Hm Hp Hl. split.
  - unfold diffMapKeysInDeterministicOrder. apply sort_by_unique.
    + intros f g ([f' d] & -> & Hf%range_elem)%list_elem_of_fmap ([g' d'] & -> & Hg%range_elem)%list_elem_of_fmap.
      apply Hm; by eexists.
    + by rewrite (range_perm (H := R1)), (range_perm (H := R2)).
  - unfold sortObjects. by apply sort_by_unique.
Qed.
End order.

(** ** Stages *)
Section stages.
Context `{!FnSDK, !FnSDKLaws, !GoRange, !GoRangeLaws} {S : Type}.
Implicit Types (r : sdk (S := S)).

Lemma errors_Join_None e1 e2 : errors_Join e1 e2 = None ↔ e1 = None ∧ e2 = None.
Proof. destruct e1, e2; simpl; naive_solver. Qed.

Lemma on_kptfile_Done {A} (f : KptFile → comp (KptFile * A)) r r' a :
  on_kptfile f r = Done (r', a) ↔ ∃ k, f (s_kptfile r) = Done (k, a) ∧ r' = with_kptfile k r.
Proof.
  unfold on_kptfile. rewrite comp_bind_Done. split.
  - intros ([k b] & Hk & [= <- <-]). by eauto.
  - intros (k & Hk & ->). by exists (k, a).
Qed.

Lemma on_inv_Done {A} (f : inv S → inv S * A) r r' a :
  on_inv f r = Done (r', a) ↔ ∃ i, f (s_inv r) = (i, a) ∧ r' = with_inv i r.
Proof. unfold on_inv. destruct (f (s_inv r)). naive_solver. Qed.

Lemma report_None r r' : report (S := S) None r = Done (r', ()) → r' = r.
Proof. by intros [= <-]. Qed.

(** [setCondition] for an own resource records the condition in the Kptfile and in the
    inventory alike: when it reports no error, both hold the same condition of the type
    of the reference, whose reason names the for resource; the other conditions of the
    Kptfile and the other entries of the tree are as before. *)
Theorem setCondition_agrees r r' kind forRef ref msg st fl :
  kind ≠ forGVKKind → setCondition kind [forRef; ref] msg st fl r = Done (r', None) →
  let c := mkCondition (GetConditionType ref) st (GetConditionType forRef) msg in
  (∀ t, find_condition t (conds (s_kptfile r')) =
        if decide (t = Type_ c) then Some c else find_condition t (conds (s_kptfile r))) ∧
  (∃ ctx, ctx2 (s_inv r') forRef kind ref = Some ctx ∧ rc_existingCondition ctx = Some c ∧
     rc_failed ctx = fl ∧ rc_newResource ctx = (ctx2 (s_inv r) forRef kind ref ≫= rc_newResource) ∧
     rc_existingResource ctx = (ctx2 (s_inv r) forRef kind ref ≫= rc_existingResource)) ∧
  (∀ f k ref', ¬ (f = forRef ∧ k = kind ∧ ref' = ref) →
     ctx2 (s_inv r') f k ref' = ctx2 (s_inv r) f k ref') ∧
  s_Items r' = s_Items r.
Proof.
  intros Hk. unfold setCondition, GetConditionByRef. destruct (IsRefsValid [forRef; ref]); [|done].
  set (c := mkCondition _ _ _ _). intros (r1 & e1 & (k & Hset & ->)%on_kptfile_Done & Hrun)%prog_bind_Done.
  apply prog_bind_Done in Hrun as (r2 & [] & Hrep & Hrun).
  apply prog_bind_Done in Hrun as (r3 & e2 & (i & Hi & ->)%on_inv_Done & Hrun).
  apply prog_bind_Done in Hrun as (r4 & [] & Hrep2 & [= <- Hjoin]).
  apply errors_Join_None in Hjoin as [-> ->].
  apply report_None in Hrep as ->. apply report_None in Hrep2 as ->. simpl in *.
  apply SetConditions_conds in Hset as [Hconds _]. simpl in Hconds.
  apply inv_set_2 in Hi as [_ H2']; [|done]. split_and!.
  - intros t. by rewrite Hconds, find_upsert.
  - rewrite H2', decide_True by done. eexists. split_and!; [done|done|done| |]; simpl;
      by destruct (ctx2 (s_inv r) forRef kind ref).
  - intros f k' ref' Hne. by rewrite H2', decide_False.
  - done.
Qed.

Lemma setObjectInResourceList_ok r r' kind refs ob :
  setObjectInResourceList kind refs ob r = Done (r', None) →
  ∃ l i, UpsertObjectToItems (deref r) (PObj (ob_obj ob)) (s_Items r) = (l, None) ∧
    inv_set (s_inv r) (mkKindCtx kind noResourceKind None) refs (XObject (ob_obj ob)) false false = (i, None) ∧
    r' = with_inv i (with_items l r).
Proof.
  unfold setObjectInResourceList. destruct (IsRefsValid refs); [|done]. cbn [negb].
  intros (r1 & e1 & Hup & Hrun)%prog_bind_Done. unfold Upsert in Hup.
  destruct (UpsertObjectToItems _ _ _) as [l e] eqn:Hl. injection Hup as <- <-.
  destruct e as [e|]; [by apply prog_bind_Done in Hrun as (? & [] & _ & [=])|].
  apply prog_bind_Done in Hrun as (r2 & e2 & (i & Hi & ->)%on_inv_Done & Hrun).
  destruct e2 as [e2|]; [by apply prog_bind_Done in Hrun as (? & [] & _ & [=])|].
  injection Hrun as <-. by exists l, i.
Qed.

(** a child is deleted by marking it: when [deleteChildObject] reports no error, the
    resource list holds the object with the delete annotation, the inventory holds the same
    object, and the child's condition is False with the reason naming the for resource. *)
Theorem deleteChildObject_marks r r' kind forRef ref ob msg :
  deleteChildObject kind [forRef; ref] ob msg r = Done (r', None) →
  find_condition (GetConditionType ref) (conds (s_kptfile r')) =
    Some (mkCondition (GetConditionType ref) ConditionFalse (GetConditionType forRef) msg) ∧
  ∃ o ctx, o ∈ objs r' ∧ same_header (ob_obj ob) o ∧ NestedSpec o = NestedSpec (ob_obj ob) ∧
    GetAnnotations o !! SpecializerDelete = Some "true" ∧
    ctx2 (s_inv r') forRef ownGVKKind ref = Some ctx ∧ rc_existingResource ctx = Some o.
Proof.
  unfold deleteChildObject, GetConditionByRef. destruct (IsRefsValid [forRef; ref]); [|done].
  set (c := mkCondition _ _ _ _). intros (r1 & e1 & (k & Hset & ->)%on_kptfile_Done & Hrun)%prog_bind_Done.
  apply prog_bind_Done in Hrun as (r2 & [] & Hrep & Hrun).
  destruct (SetAnnotation (ob_obj ob) SpecializerDelete "true") as [o e2] eqn:Hann.
  apply prog_bind_Done in Hrun as (r3 & [] & Hrep2 & Hrun).
  apply prog_bind_Done in Hrun as (r4 & e3 & Hlist & Hrun).
  apply prog_bind_Done in Hrun as (r5 & [] & Hrep3 & [= <- Hjoin]).
  apply errors_Join_None in Hjoin as [[-> ->]%errors_Join_None ->].
  apply report_None in Hrep as ->. apply report_None in Hrep2 as ->. apply report_None in Hrep3 as ->.
  apply setObjectInResourceList_ok in Hlist as (l & i & Hl & Hi & ->). simpl in *.
  apply SetConditions_conds in Hset as [Hconds _]. simpl in Hconds.
  apply SetAnnotation_spec in Hann as (Hann & Hh & Hspec).
  apply inv_set_2 in Hi as [_ H2']; [|done]. split; [by rewrite Hconds, find_upsert, decide_True|].
  exists o. rewrite H2', decide_True by done. eexists. split_and!; [|done|done| |done|done].
  - destruct (Upsert_cases (deref (with_kptfile k r)) (PObj o) (s_Items r)) as (l' & Hl' & Hin & _).
    assert (l' = l) as -> by congruence. apply list_elem_of_fmap. by exists (PObj o).
  - rewrite Hann. by rewrite lookup_insert_eq.
Qed.

(** Stage 2 leaves everything alone, the state of the function included, when the
    inventory is ready but no for resource is: the update callback is only called for a
    for resource that is ready and has not failed. *)
Theorem updateResources_idle r :
  isReady (s_inv r) = true →
  (∀ f x, getReadyMap (s_inv r) !! f = Some x → rdy_ready x = false ∨ rdy_failed x = true) →
  updateResources r = Done (r, ()).
Proof.
  intros Hr Hidle. unfold updateResources, get_st. unfold mbind at 1, prog_bind at 1. rewrite Hr. cbn [negb].
  assert (Hl : ∀ kv, kv ∈ range (at_ "updateResources") (getReadyMap (s_inv r)) →
    rdy_ready kv.2 = false ∨ rdy_failed kv.2 = true).
  { intros [f x] Hin%range_elem. by eapply Hidle. }
  induction (range (at_ "updateResources") (getReadyMap (s_inv r))) as [|[f x] l IH]; [done|].
  assert (Hx : updateResource f x r = Done (r, ())).
  { unfold updateResource. destruct (Hl (f, x)) as [Hx|Hx]; [by left| |]; simpl in Hx; rewrite Hx;
      [|rewrite orb_true_r]; done. }
  cbn [for_each]. unfold mbind at 1, prog_bind at 1. cbn [fst snd]. rewrite Hx. apply IH.
  intros kv Hkv. apply Hl. by right.
Qed.

(** the last step of a root function whose inventory is ready sets the specialize
    condition: to ready if there is a condition of the for kind and none of them is False,
    to not ready otherwise; no other condition changes.  An error of the Kptfile update
    is reported in the results instead. *)
Theorem rootCondition_spec r r' :
  Root (s_cfg r) = true → isReady (s_inv r) = true → rootCondition r = Done (r', ()) →
  let pre := GetConditionType (gvk (APIVersion (For (s_cfg r))) (Kind (For (s_cfg r)))) in
  (∃ e, s_Results r' = Results_ErrorE e (s_Results r)) ∨
  (∃ b, (b = true ↔
         (∃ c, c ∈ conds (s_kptfile r) ∧ HasPrefix (Type_ c) pre = true) ∧
         (∀ c, c ∈ conds (s_kptfile r) → HasPrefix (Type_ c) pre = true → Status c ≠ ConditionFalse)) ∧
    s_Results r' = s_Results r ∧
    ∀ t, find_condition t (conds (s_kptfile r')) =
         if decide (t = getSpecializationConditionType) then Some (if b then ready else notReady)
         else find_condition t (conds (s_kptfile r))).
Proof.
  intros Hroot Hr Hrun pre. unfold rootCondition in Hrun.
  apply prog_bind_Done in Hrun as (r0 & r1 & [= <- <-] & Hrun). rewrite Hroot, Hr in Hrun. cbn [andb] in Hrun.
  apply prog_bind_Done in Hrun as (r1 & b & (k & Hb & ->)%on_kptfile_Done & Hrun).
  apply prog_bind_Done in Hrun as (r2 & e & (k2 & Hset & ->)%on_kptfile_Done & Hrun). simpl in *.
  destruct e as [e|]; [left; exists e; by injection Hrun as <-|]. right. injection Hrun as <-.
  apply Done_inj in Hb. fold pre in Hb. unfold IsReady in Hb.
  destruct (GetConditions (s_kptfile r)) as [k1 cs] eqn:Hg.
  apply GetConditions_keeps in Hg as (_ & -> & Hc). injection Hb as <- <-.
  exists (ready_loop pre false (conds (s_kptfile r))). split.
  { rewrite ready_loop_spec. split; intros [H1' H2']; (split; [|exact H2']); [by destruct H1' as [[=]|?]|by right]. }
  split; [done|].
  apply SetConditions_conds in Hset as [Hconds _]. simpl in Hconds. intros t.
  simpl. rewrite Hconds, find_upsert, Hc. by destruct (ready_loop _ _ _).
Qed.
End stages.

(** ** Witnesses *)
Module SdkWitnesses.
Import Model InventoryModel InventoryWitnesses InventoryDiffWitnesses.

(** A package with a Kptfile and an interface; the function generates a network attachment
    definition for it and hands the interface back when it is ready. *)
Definition kptf : obj := mkObj "kpt.dev/v1" "Kptfile" "pkg" "" ∅
  [mkCondition "req.nephio.org/v1alpha1.Interface.n3" ConditionFalse "workload.nephio.org/v1alpha1.NFDeployment.upf" "init"]
  [] None ∅.
Definition run_cfg (root : bool) : Config nat :=
  mkConfig root (gvk "req.nephio.org/v1alpha1" "Interface")
    {[ gvk "k8s.cni.cncf.io/v1" "NetworkAttachmentDefinition" := ChildRemote ]}
    {[ gvk "infra.nephio.org/v1alpha1" "WorkloadCluster" := Some (λ n _, Done (n, None)) ]}
    (Some (λ n o, Done (n + 1, Ok [(nad_new : KubeObject)])))
    (Some (λ n o _, Done (n + 1, Ok (option_list o)))).
Definition run_inv (root : bool) : inv nat :=
  match newInventory (run_cfg root) with Ok i => i | Err _ => mkInv ∅ emptyResources false false end.
Definition pkg_rl : resourceList := mkRL [(kptf : KubeObject); (itf_obj : KubeObject)] ([] : Results).

Lemma owns_cfg root : Owns (run_cfg root) ≠ ∅.
Proof.
  intros Heq. assert (Owns (run_cfg root) !! gvk "k8s.cni.cncf.io/v1" "NetworkAttachmentDefinition" = None) as Hl.
  { by rewrite Heq. }
  destruct root; vm_compute in Hl; discriminate.
Qed.

Lemma total_run_cfg root : total_cfg (run_cfg root).
Proof.
  split; [|split].
  - intros f [= <-] u o. by eexists _, _.
  - intros f [= <-] u o l. by eexists _, _.
  - intros ref f Hl. unfold run_cfg in Hl. cbn [Watch] in Hl. apply lookup_singleton_Some in Hl as [_ [= <-]]. intros u o. by eexists _, _.
Qed.

Lemma pkg_elem o : o ∈ rl_Items pkg_rl → o = kptf ∨ o = itf_obj.
Proof. intros [->|[->|Ho]%elem_of_cons]%elem_of_cons; [by left|by right|by apply elem_of_nil in Ho]. Qed.

Lemma NewRun_returns_witness :
  ∃ rl' u' ok err, NewRun (run_cfg true) 0 pkg_rl = Done (rl', u', ok, err).
Proof.
  apply (NewRun_returns (run_cfg true) 0 pkg_rl).
  - apply owns_cfg.
  - apply total_run_cfg.
  - intros o [->| ->]%pkg_elem; reflexivity.
  - intros o [->| ->]%pkg_elem; [apply NoDup_singleton|apply NoDup_nil_2].
Defined.

Definition outcome : Type := resourceList * nat * bool * option error.
Definition out_of (c : comp outcome) : outcome := match c with Done x => x | Panic _ => (mkRL [] ([] : Results), 0, false, None) end.
Definition out1 : outcome := out_of (Run (run_cfg true) (run_inv true) 0 pkg_rl).
Lemma out_ok c : is_done c = true → c = Done (out_of c).
Proof. by destruct c. Qed.

Lemma Run_keeps_items_witness :
  GetKind <$> rl_Items (fst (fst (fst out1))) = ["Kptfile"; "Interface"; "NetworkAttachmentDefinition"] ∧
  ∃ o', o' ∈ rl_Items (fst (fst (fst out1))) ∧ same_header (itf_obj : @KubeObject Model.sdk) o'.
Proof.
  split; [vm_compute; reflexivity|].
  apply (Run_keeps_items (run_cfg true) (run_inv true) 0 pkg_rl (fst (fst (fst out1))) (snd (fst (fst out1)))
    (snd (fst out1)) (snd out1) (itf_obj : @KubeObject Model.sdk)).
  - apply owns_cfg.
  - rewrite <-!surjective_pairing. apply out_ok. vm_compute. reflexivity.
  - right. left.
Defined.

Definition no_kpt : resourceList := mkRL [(itf_obj : KubeObject)] ([] : Results).

Lemma Run_missing_input_witness :
  ∃ res, Run (run_cfg false) (run_inv false) 0 no_kpt =
    Done (mkRL (rl_Items no_kpt) res, 0, false,
      Some ("mandatory Kptfile is missing from the package%!(EXTRA string=" +:+
            "mandatory Kptfile is missing from the package)")).
Proof.
  apply (proj2 (Run_missing_input (run_cfg false) (run_inv false) 0 no_kpt)).
  - discriminate.
  - reflexivity.
Defined.

(** Maps ranged over in the opposite order. *)
Definition range_back : GoRange := {| range _ _ _ _ _ m := reverse (map_to_list m) |}.
Lemma range_back_laws : GoRangeLaws (H := range_back).
Proof. split. intros. apply reverse_Permutation. Qed.

Definition two : gmap ObjectReference inventoryDiff := {[ itf := emptyDiff; nad1 := emptyDiff ]}.
Definition obs (l : list ObjectReference) : list object :=
  (λ f, mkObject f zeroKubeObject ChildLocal) <$> l.

Lemma two_keys f : is_Some (two !! f) → f = itf ∨ f = nad1.
Proof.
  intros [d Hd]. unfold two in Hd. apply lookup_insert_Some in Hd as [[<- _]|[_ Hd]]; [by left|].
  apply lookup_singleton_Some in Hd as [<- _]. by right.
Qed.
Lemma strings_differ f g :
  f = itf ∨ f = nad1 → g = itf ∨ g = nad1 → ObjectReference_String f = ObjectReference_String g → f = g.
Proof. intros [->| ->] [->| ->] Heq; try reflexivity; vm_compute in Heq; discriminate. Qed.

Lemma deterministic_order_witness :
  @diffMapKeysInDeterministicOrder _ range_model two = @diffMapKeysInDeterministicOrder _ range_back two ∧
  sortObjects (obs [itf; nad1]) = sortObjects (obs [nad1; itf]).
Proof.
  apply (deterministic_order range_model range_back two).
  - exact range_model_laws.
  - exact range_back_laws.
  - intros f g Hf Hg. apply strings_differ; by apply two_keys.
  - apply perm_swap.
  - intros a b (f & -> & Hf)%list_elem_of_fmap (g & -> & Hg)%list_elem_of_fmap Heq. simpl in Heq.
    f_equal. apply strings_differ; [set_solver|set_solver|exact Heq].
Defined.

Definition st0 (root : bool) : Sdk.sdk (S := nat) := start (run_cfg root) (run_inv root) 0 pkg_rl 0 kptf.
Definition state_of {A} (d : Sdk.sdk (S := nat)) (c : comp (Sdk.sdk (S := nat) * A)) : Sdk.sdk := match c with Done (r, _) => r | Panic _ => d end.
Definition result_of {A} (c : comp (Sdk.sdk (S := nat) * A)) : option A := match c with Done (_, a) => Some a | Panic _ => None end.
Lemma state_ok {A} d (c : comp (Sdk.sdk (S := nat) * A)) a : result_of c = Some a → c = Done (state_of d c, a).
Proof. destruct c as [[r b]|]; [|done]. by intros [= <-]. Qed.

Definition st1 : Sdk.sdk (S := nat) :=
  state_of (st0 true) (setCondition ownGVKKind [itf; nad1] "create condition" ConditionFalse false (st0 true)).

Lemma setCondition_agrees_witness :
  find_condition "k8s.cni.cncf.io/v1.NetworkAttachmentDefinition.n3" (conds (s_kptfile st1)) =
  Some (mkCondition "k8s.cni.cncf.io/v1.NetworkAttachmentDefinition.n3" ConditionFalse
          "req.nephio.org/v1alpha1.Interface.n3" "create condition").
Proof.
  refine (eq_trans (proj1 (setCondition_agrees (st0 true) st1 ownGVKKind itf nad1 "create condition" ConditionFalse false _ _) _) _).
  - discriminate.
  - apply state_ok. vm_compute. reflexivity.
  - vm_compute. reflexivity.
Defined.

Definition del_ob : object := mkObject nad1 (nad_new : KubeObject) ChildRemote.
Definition st2 : Sdk.sdk (S := nat) :=
  state_of (st0 true) (deleteChildObject ownGVKKind [itf; nad1] del_ob "not ready" (st0 true)).

Lemma deleteChildObject_marks_witness :
  ∃ o ctx, o ∈ objs st2 ∧ same_header (ob_obj del_ob) o ∧ NestedSpec o = NestedSpec (ob_obj del_ob) ∧
    GetAnnotations o !! SpecializerDelete = Some "true" ∧
    ctx2 (s_inv st2) itf ownGVKKind nad1 = Some ctx ∧ rc_existingResource ctx = Some o.
Proof.
  apply (deleteChildObject_marks (st0 true) st2 ownGVKKind itf nad1 del_ob "not ready").
  apply state_ok. vm_compute. reflexivity.
Defined.

Lemma updateResources_idle_witness : updateResources (st0 true) = Done (st0 true, ()).
Proof.
  apply (updateResources_idle (st0 true)); [vm_compute; reflexivity|].
  intros f x Hl. exfalso. apply elem_of_map_to_list in Hl. apply (list_elem_of_fmap_2 fst) in Hl.
  assert (Hsz : (map_to_list (getReadyMap (s_inv (st0 true)))).*1 = []) by (vm_compute; reflexivity).
  rewrite Hsz in Hl. by apply elem_of_nil in Hl.
Defined.

Definition st3 : Sdk.sdk (S := nat) := state_of (st0 true) (rootCondition (st0 true)).

Lemma rootCondition_spec_witness :
  find_condition "nephio.org.Specializer.specialize" (conds (s_kptfile st3)) =
    Some (mkCondition "nephio.org.Specializer.specialize" ConditionFalse "Specialize" "not ready") ∧
  ((∃ e, s_Results st3 = Results_ErrorE e (s_Results (st0 true))) ∨
   (∃ b, (b = true ↔
         (∃ c, c ∈ conds (s_kptfile (st0 true)) ∧ HasPrefix (Type_ c) "req.nephio.org/v1alpha1.Interface" = true) ∧
         (∀ c, c ∈ conds (s_kptfile (st0 true)) → HasPrefix (Type_ c) "req.nephio.org/v1alpha1.Interface" = true →
            Status c ≠ ConditionFalse)) ∧
    s_Results st3 = s_Results (st0 true) ∧
    ∀ t, find_condition t (conds (s_kptfile st3)) =
         if decide (t = getSpecializationConditionType) then Some (if b then ready else notReady)
         else find_condition t (conds (s_kptfile (st0 true))))).
Proof.
  split; [vm_compute; reflexivity|].
  apply (rootCondition_spec (st0 true) st3); [vm_compute; reflexivity|vm_compute; reflexivity|].
  apply state_ok. vm_compute. reflexivity.
Defined.
End SdkWitnesses.
