(* ===== verification/Nad.v ===== *)
(** * [krm-functions/lib/nad/v1]: network attachment definitions

    A NAD keeps its CNI configuration as JSON text in [spec.config]; the library decodes
    it into a [NadConfig], fills in defaults for the CNI type, changes it and encodes it
    again.  [encoding/json] is modelled on JSON values: the encoding with its [omitempty]
    tags and the decoding into structs (fields are matched regardless of ASCII case, null
    is ignored, unknown fields are skipped, integers are 64 bit).  The model lets
    the second of two arrays under one key replace the first; Go decodes it over the old elements,
    so texts with a repeated array key are outside it.  The text form of JSON
    values and the two string accessors of the fn SDK are parameters. *)
From S2P Require Import Prelude External KubeObjectLib SdkModel.

(** ** JSON values *)
Inductive json :=
  | JNull
  | JBool (b : bool)
  | JInt (z : Z)
  | JFloat (text : string)
  | JString (s : string)
  | JArray (l : list json)
  | JObject (l : list (string * json)).

(** ASCII strings, and the values whose text form is exact: their strings are ASCII. *)
Fixpoint is_ascii (s : string) : bool :=
  match s with "" => true | String a s => bool_decide (nat_of_ascii a < 128) && is_ascii s end.
Fixpoint json_ok (j : json) : bool :=
  match j with
  | JString s => is_ascii s
  | JArray l => forallb json_ok l
  | JObject l => forallb (λ kv, is_ascii (fst kv) && json_ok (snd kv)) l
  | JFloat _ => false
  | _ => true
  end.

Class NadSDK `{FnSDK} := {
  NestedString : KubeObject → list string → result (option string);
  SetNestedString : KubeObject → string → list string → KubeObject * option error;
  json_parse : string → result json;
  json_print : json → string
}.
Class NadSDKLaws `{NadSDK} : Prop := {
  SetNestedString_spec o s path o' :
    SetNestedString o s path = (o', None) → NestedString o' path = Ok (Some s) ∧ same_header o o';
  parse_print j : json_ok j = true → json_parse (json_print j) = Ok j;
  parse_empty : json_parse "{}" = Ok (JObject []);
  print_not_empty j : json_print j ≠ ""
}.

(** ** Data *)
Definition CniVersion_const : string := "0.3.1".
Definition ModeBridge : string := "bridge".
Definition ModeL2 : string := "l2".
Definition StaticNadType : string := "static".
Definition TuningType : string := "tuning".
Definition ConfigType : list string := ["spec"; "config"].

Record Capabilities := mkCapabilities { Ips : bool; Mac : bool }.
Record Address := mkAddress { a_Address : string; a_Gateway : string }.
Record Route := mkRoute { rt_Destination : string; rt_Gateway : string }.
Record Ipam := mkIpam { ipam_Type : string; Addresses : list Address; Routes : list Route }.
Record VlanTrunk := mkVlanTrunk { MinID : Z; MaxID : Z; trunk_ID : Z }.
Record PluginCniType := mkPlugin {
  pl_Type : string;
  pl_Capabilities : Capabilities;
  pl_Master : string;
  pl_Mode : string;
  pl_Ipam : Ipam;
  pl_VlanId : Z;
  pl_LinkInContainer : bool;
  pl_Bridge : string;
  pl_Vlan : Z;
  pl_VlanTrunk : list VlanTrunk;
  pl_Name : string
}.
Record NadConfig := mkNadConfig { CniVersion : string; Vlan : Z; Plugins : list PluginCniType }.

Definition zeroCapabilities := mkCapabilities false false.
Definition zeroIpam := mkIpam "" [] [].
Definition zeroPlugin : PluginCniType :=
  mkPlugin "" zeroCapabilities "" "" zeroIpam 0 false "" 0 [] "".
Definition zeroNadConfig : NadConfig := mkNadConfig "" 0 [].

Inductive CniSpecType :=
  OtherType | VlanClaimOnly | IpVlanType | SriovType | MacVlanType | VlanType | BridgeType.

(** ** [json.Marshal] of a [NadConfig] *)
Definition enc_str (n s : string) : list (string * json) := if decide (s = "") then [] else [(n, JString s)].
Definition enc_int (n : string) (z : Z) : list (string * json) := if decide (z = 0%Z) then [] else [(n, JInt z)].
Definition enc_bool (n : string) (b : bool) : list (string * json) := if b then [(n, JBool true)] else [].
Definition enc_list {A} (n : string) (f : A → json) (l : list A) : list (string * json) :=
  match l with [] => [] | _ => [(n, JArray (f <$> l))] end.

Definition enc_Capabilities (c : Capabilities) : json := JObject (enc_bool "ips" (Ips c) ++ enc_bool "mac" (Mac c)).
Definition enc_Address (a : Address) : json :=
  JObject (enc_str "address" (a_Address a) ++ enc_str "gateway" (a_Gateway a)).
Definition enc_Route (r : Route) : json :=
  JObject (enc_str "dst" (rt_Destination r) ++ enc_str "gw" (rt_Gateway r)).
Definition enc_Ipam (i : Ipam) : json :=
  JObject (enc_str "type" (ipam_Type i) ++ enc_list "addresses" enc_Address (Addresses i) ++
           enc_list "routes" enc_Route (Routes i)).
Definition enc_VlanTrunk (t : VlanTrunk) : json :=
  JObject (enc_int "minID" (MinID t) ++ enc_int "maxID" (MaxID t) ++ enc_int "id" (trunk_ID t)).
Definition enc_Plugin (p : PluginCniType) : json :=
  JObject (enc_str "type" (pl_Type p) ++ [("capabilities", enc_Capabilities (pl_Capabilities p))] ++
    enc_str "master" (pl_Master p) ++ enc_str "mode" (pl_Mode p) ++ [("ipam", enc_Ipam (pl_Ipam p))] ++
    enc_int "vlanId" (pl_VlanId p) ++ enc_bool "linkInContainer" (pl_LinkInContainer p) ++
    enc_str "bridge" (pl_Bridge p) ++ enc_int "vlan" (pl_Vlan p) ++
    enc_list "vlanTrunk" enc_VlanTrunk (pl_VlanTrunk p) ++ enc_str "name" (pl_Name p)).
Definition enc_NadConfig (c : NadConfig) : json :=
  JObject (enc_str "cniVersion" (CniVersion c) ++ enc_int "vlan" (Vlan c) ++
           enc_list "plugins" enc_Plugin (Plugins c)).

(** ** [json.Unmarshal] into a [NadConfig] *)
Definition lower_char (a : ascii) : ascii :=
  let n := nat_of_ascii a in if decide (65 ≤ n ∧ n ≤ 90) then ascii_of_nat (n + 32) else a.
Fixpoint lower (s : string) : string :=
  match s with "" => "" | String a s => String (lower_char a) (lower s) end.
Definition is_key (key name : string) : bool := bool_decide (lower key = lower name).

Definition dec_err {A} (what : string) : result A := Err ("json: cannot unmarshal value into Go value of type " +:+ what).
Definition dec_str (old : string) (j : json) : result string :=
  match j with JString s => Ok s | JNull => Ok old | _ => dec_err "string" end.
Definition in_int64 (z : Z) : bool := bool_decide (- 2 ^ 63 ≤ z < 2 ^ 63)%Z.
Definition dec_int (old : Z) (j : json) : result Z :=
  match j with JInt z => if in_int64 z then Ok z else dec_err "int" | JNull => Ok old | _ => dec_err "int" end.
Definition dec_bool (old : bool) (j : json) : result bool :=
  match j with JBool b => Ok b | JNull => Ok old | _ => dec_err "bool" end.
Fixpoint dec_each {A} (f : json → result A) (l : list json) : result (list A) :=
  match l with
  | [] => Ok []
  | j :: l => x ← f j; xs ← dec_each f l; Ok (x :: xs)
  end.
Definition dec_list {A} (f : json → result A) (j : json) : result (list A) :=
  match j with JArray l => dec_each f l | JNull => Ok [] | _ => dec_err "slice" end.
Fixpoint dec_fields {T} (set : string → T → json → result T) (acc : T) (l : list (string * json)) : result T :=
  match l with
  | [] => Ok acc
  | (k, v) :: l => acc ← set k acc v; dec_fields set acc l
  end.
Definition dec_struct {T} (set : string → T → json → result T) (old : T) (j : json) : result T :=
  match j with JObject l => dec_fields set old l | JNull => Ok old | _ => dec_err "struct" end.

Definition set_Capabilities (k : string) (c : Capabilities) (v : json) : result Capabilities :=
  if is_key k "ips" then b ← dec_bool (Ips c) v; Ok (mkCapabilities b (Mac c))
  else if is_key k "mac" then b ← dec_bool (Mac c) v; Ok (mkCapabilities (Ips c) b)
  else Ok c.
Definition set_Address (k : string) (a : Address) (v : json) : result Address :=
  if is_key k "address" then s ← dec_str (a_Address a) v; Ok (mkAddress s (a_Gateway a))
  else if is_key k "gateway" then s ← dec_str (a_Gateway a) v; Ok (mkAddress (a_Address a) s)
  else Ok a.
Definition set_Route (k : string) (r : Route) (v : json) : result Route :=
  if is_key k "dst" then s ← dec_str (rt_Destination r) v; Ok (mkRoute s (rt_Gateway r))
  else if is_key k "gw" then s ← dec_str (rt_Gateway r) v; Ok (mkRoute (rt_Destination r) s)
  else Ok r.
Definition set_Ipam (k : string) (i : Ipam) (v : json) : result Ipam :=
  if is_key k "type" then s ← dec_str (ipam_Type i) v; Ok (mkIpam s (Addresses i) (Routes i))
  else if is_key k "addresses" then
    l ← dec_list (dec_struct set_Address (mkAddress "" "")) v; Ok (mkIpam (ipam_Type i) l (Routes i))
  else if is_key k "routes" then
    l ← dec_list (dec_struct set_Route (mkRoute "" "")) v; Ok (mkIpam (ipam_Type i) (Addresses i) l)
  else Ok i.
Definition set_VlanTrunk (k : string) (t : VlanTrunk) (v : json) : result VlanTrunk :=
  if is_key k "minID" then z ← dec_int (MinID t) v; Ok (mkVlanTrunk z (MaxID t) (trunk_ID t))
  else if is_key k "maxID" then z ← dec_int (MaxID t) v; Ok (mkVlanTrunk (MinID t) z (trunk_ID t))
  else if is_key k "id" then z ← dec_int (trunk_ID t) v; Ok (mkVlanTrunk (MinID t) (MaxID t) z)
  else Ok t.

(** Assignments to one field of a plugin. *)
Definition put_Type s p := mkPlugin s (pl_Capabilities p) (pl_Master p) (pl_Mode p) (pl_Ipam p) (pl_VlanId p)
  (pl_LinkInContainer p) (pl_Bridge p) (pl_Vlan p) (pl_VlanTrunk p) (pl_Name p).
Definition put_Capabilities c p := mkPlugin (pl_Type p) c (pl_Master p) (pl_Mode p) (pl_Ipam p) (pl_VlanId p)
  (pl_LinkInContainer p) (pl_Bridge p) (pl_Vlan p) (pl_VlanTrunk p) (pl_Name p).
Definition put_Master s p := mkPlugin (pl_Type p) (pl_Capabilities p) s (pl_Mode p) (pl_Ipam p) (pl_VlanId p)
  (pl_LinkInContainer p) (pl_Bridge p) (pl_Vlan p) (pl_VlanTrunk p) (pl_Name p).
Definition put_Mode s p := mkPlugin (pl_Type p) (pl_Capabilities p) (pl_Master p) s (pl_Ipam p) (pl_VlanId p)
  (pl_LinkInContainer p) (pl_Bridge p) (pl_Vlan p) (pl_VlanTrunk p) (pl_Name p).
Definition put_Ipam i p := mkPlugin (pl_Type p) (pl_Capabilities p) (pl_Master p) (pl_Mode p) i (pl_VlanId p)
  (pl_LinkInContainer p) (pl_Bridge p) (pl_Vlan p) (pl_VlanTrunk p) (pl_Name p).
Definition put_VlanId z p := mkPlugin (pl_Type p) (pl_Capabilities p) (pl_Master p) (pl_Mode p) (pl_Ipam p) z
  (pl_LinkInContainer p) (pl_Bridge p) (pl_Vlan p) (pl_VlanTrunk p) (pl_Name p).
Definition put_LinkInContainer b p := mkPlugin (pl_Type p) (pl_Capabilities p) (pl_Master p) (pl_Mode p) (pl_Ipam p)
  (pl_VlanId p) b (pl_Bridge p) (pl_Vlan p) (pl_VlanTrunk p) (pl_Name p).
Definition put_Bridge s p := mkPlugin (pl_Type p) (pl_Capabilities p) (pl_Master p) (pl_Mode p) (pl_Ipam p)
  (pl_VlanId p) (pl_LinkInContainer p) s (pl_Vlan p) (pl_VlanTrunk p) (pl_Name p).
Definition put_Vlan z p := mkPlugin (pl_Type p) (pl_Capabilities p) (pl_Master p) (pl_Mode p) (pl_Ipam p)
  (pl_VlanId p) (pl_LinkInContainer p) (pl_Bridge p) z (pl_VlanTrunk p) (pl_Name p).
Definition put_VlanTrunk l p := mkPlugin (pl_Type p) (pl_Capabilities p) (pl_Master p) (pl_Mode p) (pl_Ipam p)
  (pl_VlanId p) (pl_LinkInContainer p) (pl_Bridge p) (pl_Vlan p) l (pl_Name p).
Definition put_Name s p := mkPlugin (pl_Type p) (pl_Capabilities p) (pl_Master p) (pl_Mode p) (pl_Ipam p)
  (pl_VlanId p) (pl_LinkInContainer p) (pl_Bridge p) (pl_Vlan p) (pl_VlanTrunk p) s.

Definition set_Plugin (k : string) (p : PluginCniType) (v : json) : result PluginCniType :=
  if is_key k "type" then s ← dec_str (pl_Type p) v; Ok (put_Type s p)
  else if is_key k "capabilities" then
    c ← dec_struct set_Capabilities (pl_Capabilities p) v; Ok (put_Capabilities c p)
  else if is_key k "master" then s ← dec_str (pl_Master p) v; Ok (put_Master s p)
  else if is_key k "mode" then s ← dec_str (pl_Mode p) v; Ok (put_Mode s p)
  else if is_key k "ipam" then i ← dec_struct set_Ipam (pl_Ipam p) v; Ok (put_Ipam i p)
  else if is_key k "vlanId" then z ← dec_int (pl_VlanId p) v; Ok (put_VlanId z p)
  else if is_key k "linkInContainer" then b ← dec_bool (pl_LinkInContainer p) v; Ok (put_LinkInContainer b p)
  else if is_key k "bridge" then s ← dec_str (pl_Bridge p) v; Ok (put_Bridge s p)
  else if is_key k "vlan" then z ← dec_int (pl_Vlan p) v; Ok (put_Vlan z p)
  else if is_key k "vlanTrunk" then
    l ← dec_list (dec_struct set_VlanTrunk (mkVlanTrunk 0 0 0)) v; Ok (put_VlanTrunk l p)
  else if is_key k "name" then s ← dec_str (pl_Name p) v; Ok (put_Name s p)
  else Ok p.
Definition set_NadConfig (k : string) (c : NadConfig) (v : json) : result NadConfig :=
  if is_key k "cniVersion" then s ← dec_str (CniVersion c) v; Ok (mkNadConfig s (Vlan c) (Plugins c))
  else if is_key k "vlan" then z ← dec_int (Vlan c) v; Ok (mkNadConfig (CniVersion c) z (Plugins c))
  else if is_key k "plugins" then
    l ← dec_list (dec_struct set_Plugin zeroPlugin) v; Ok (mkNadConfig (CniVersion c) (Vlan c) l)
  else Ok c.
Definition dec_NadConfig (j : json) : result NadConfig := dec_struct set_NadConfig zeroNadConfig j.

(** ** The library *)
Definition isTuning (p : PluginCniType) : bool := bool_decide (pl_Type p = TuningType).
(** The loops of the setters: every plugin but the tuning one is changed. *)
Definition on_plugins (f : PluginCniType → PluginCniType) (c : NadConfig) : NadConfig :=
  mkNadConfig (CniVersion c) (Vlan c) ((λ p, if isTuning p then p else f p) <$> Plugins c).

Definition staticIpam : Ipam := mkIpam StaticNadType [] [].
Definition bridgePlugin : PluginCniType :=
  mkPlugin "" (mkCapabilities true false) "" ModeBridge staticIpam 0 false "" 0 [] "".
(** The plugins a configuration without plugins gets. *)
Definition defaultPlugins (t : CniSpecType) : list PluginCniType :=
  match t with
  | VlanClaimOnly => []
  | IpVlanType => [mkPlugin "" (mkCapabilities true false) "" ModeL2 staticIpam 0 false "" 0 [] ""]
  | MacVlanType =>
      [bridgePlugin; mkPlugin TuningType (mkCapabilities false true) "" "" zeroIpam 0 false "" 0 [] ""]
  | SriovType => [bridgePlugin]
  | VlanType | BridgeType => [mkPlugin "" zeroCapabilities "" "" staticIpam 0 false "" 0 [] ""]
  | OtherType => [bridgePlugin]
  end.
Definition complete (t : CniSpecType) (c : NadConfig) : NadConfig :=
  mkNadConfig CniVersion_const (Vlan c)
    (match Plugins c with [] => defaultPlugins t | l => l end).

Section nad.
Context `{!FnSDK, !NadSDK}.
(** The Go type [nadv1.NetworkAttachmentDefinition]. *)
Context {NAD : Type} `{!GoType NAD}.

Record NadStruct := mkNad { nad_K : KubeObjectExt; nad_CniSpecType : CniSpecType }.

Definition wrap (k : comp (result KubeObjectExt)) : comp (result NadStruct) :=
  p ← k; Done (match p with Ok p => Ok (mkNad p OtherType) | Err err => Err err end).
Definition NewFromKubeObject (b : option KubeObject) : comp (result NadStruct) :=
  wrap (KubeObjectLib.NewFromKubeObject (T := NAD) b).
Definition NewFromYAML (b : bytes) : comp (result NadStruct) := wrap (NewFromYaml (T := NAD) b).
Definition NewFromGoStruct (b : option NAD) : comp (result NadStruct) := wrap (KubeObjectLib.NewFromGoStruct b).

Definition getStringValue (r : NadStruct) (fields : list string) : string :=
  match NestedString (koe_KubeObject (nad_K r)) fields with Ok (Some s) => s | _ => "" end.
Definition GetConfigSpec (r : NadStruct) : string := getStringValue r ConfigType.

Definition getNadConfig (r : NadStruct) : result NadConfig :=
  let configSpec := if decide (GetConfigSpec r = "") then "{}" else GetConfigSpec r in
  match j ← json_parse configSpec; dec_NadConfig j with
  | Err err => Err ("invalid NAD Config, " +:+ err)
  | Ok c => Ok (complete (nad_CniSpecType r) c)
  end.

Definition SetNestedString_nad (r : NadStruct) (s : string) : NadStruct * option error :=
  let '(o, err) := SetNestedString (koe_KubeObject (nad_K r)) s ConfigType in
  (mkNad (mkKubeObjectExt o) (nad_CniSpecType r), err).
Definition setNadConfig (r : NadStruct) (config : NadConfig) : NadStruct * option error :=
  SetNestedString_nad r (json_print (enc_NadConfig config)).

(** Reads: the first plugin that is not the tuning one. *)
Definition first_plugin (c : NadConfig) : option PluginCniType :=
  List.find (λ p, negb (isTuning p)) (Plugins c).
Definition GetCNIType (r : NadStruct) : result string :=
  c ← getNadConfig r; Ok (from_option pl_Type "" (first_plugin c)).
Definition GetVlan (r : NadStruct) : result Z := c ← getNadConfig r; Ok (Vlan c).
Definition GetNadMaster (r : NadStruct) : result string :=
  c ← getNadConfig r; Ok (from_option pl_Master "" (first_plugin c)).
Definition GetIpamAddress (r : NadStruct) : result (list Address) :=
  c ← getNadConfig r; Ok (from_option (λ p, Addresses (pl_Ipam p)) [] (first_plugin c)).

(** The argument is a pointer to the spec, here its configuration text. *)
Definition SetConfigSpec (r : NadStruct) (spec : option string) : comp (NadStruct * option error) :=
  match spec with
  | None => Panic nil_dereference
  | Some config => Done (SetNestedString_nad r config)
  end.

(** Read, change and write back. *)
Definition update (f : NadConfig → NadConfig) (r : NadStruct) : NadStruct * option error :=
  match getNadConfig r with
  | Err err => (r, Some err)
  | Ok c => setNadConfig r (f c)
  end.

Definition with_CniSpecType (t : CniSpecType) (r : NadStruct) : NadStruct := mkNad (nad_K r) t.
Definition cniSpecType (cniType : string) (old : CniSpecType) : CniSpecType :=
  if decide (cniType = "ipvlan") then IpVlanType
  else if decide (cniType = "macvlan") then MacVlanType
  else if decide (cniType = "sriov") then SriovType
  else if decide (cniType = "vlan") then VlanType
  else if decide (cniType = "bridge") then BridgeType
  else old.

Definition SetCNIType (r : NadStruct) (cniType : string) : NadStruct * option error :=
  if decide (cniType = "") then (r, Some "unknown cniType")
  else update (on_plugins (put_Type cniType)) (with_CniSpecType (cniSpecType cniType (nad_CniSpecType r)) r).
Definition SetVlan (r : NadStruct) (vlanType : Z) : NadStruct * option error :=
  if decide (vlanType = 0%Z) then (r, Some "unknown vlanType")
  else update (λ c, mkNadConfig (CniVersion c) vlanType (Plugins c)) r.
Definition SetVlanID (r : NadStruct) (vlanID : Z) : NadStruct * option error :=
  if decide (vlanID = 0%Z) then (r, Some "unknown vlanID") else update (on_plugins (put_VlanId vlanID)) r.
Definition SetBridgeVlan (r : NadStruct) (vlanID : Z) : NadStruct * option error :=
  if decide (vlanID = 0%Z) then (r, Some "unknown vlanID") else update (on_plugins (put_Vlan vlanID)) r.
Definition SetBridgeTrunk (r : NadStruct) (vlanID : Z) : NadStruct * option error :=
  if decide (vlanID = 0%Z) then (r, Some "unknown vlanID")
  else update (on_plugins (put_VlanTrunk [mkVlanTrunk 0 0 vlanID])) r.
Definition bridgeName (vlanID : Z) : string := "cni" +:+ pretty vlanID.
Definition SetBridgeName (r : NadStruct) (vlanID : Z) : NadStruct * option error :=
  if decide (vlanID = 0%Z) then (r, Some "unknown vlanID")
  else update (on_plugins (λ p, put_Name (bridgeName vlanID) (put_Bridge (bridgeName vlanID) p))) r.
Definition SetNadMaster (r : NadStruct) (nadMaster : string) : NadStruct * option error :=
  if decide (nadMaster = "") then (r, Some "unknown nad master interface")
  else update (on_plugins (put_Master nadMaster)) r.
(** A nil slice is [None]. *)
Definition SetIpamAddress (r : NadStruct) (addresses : option (list Address)) : NadStruct * option error :=
  match addresses with
  | None => (r, Some "unknown IPAM addresses")
  | Some l => update (on_plugins (λ p, put_Ipam (mkIpam (ipam_Type (pl_Ipam p)) l (Routes (pl_Ipam p))) p)) r
  end.
Definition SetIpamRoutes (r : NadStruct) (routes : option (list Route)) : NadStruct * option error :=
  match routes with
  | None => (r, None)
  | Some l => update (on_plugins (λ p, put_Ipam (mkIpam (ipam_Type (pl_Ipam p)) (Addresses (pl_Ipam p)) l) p)) r
  end.
Definition NadConfig_String (n : NadConfig) : result string := Ok (json_print (enc_NadConfig n)).
End nad.

(** ** Encoding and decoding *)
Lemma dec_each_enc {A} (f : A → json) (g : json → result A) xs :
  Forall (λ x, g (f x) = Ok x) xs → dec_each g (f <$> xs) = Ok xs.
Proof. induction 1 as [|x xs Hx _ IH]; [done|]. rewrite fmap_cons. simpl. by rewrite Hx, IH. Qed.

Section dec_enc.
Context {T : Type} (set : string → T → json → result T).

Lemma dec_enc_str (put : string → T → T) n s acc l :
  set n acc (JString s) = Ok (put s acc) → put "" acc = acc →
  dec_fields set acc (enc_str n s ++ l) = dec_fields set (put s acc) l.
Proof. intros Hs H0. unfold enc_str. case_decide; [subst; simpl; by rewrite H0|]. simpl. by rewrite Hs. Qed.
Lemma dec_enc_int (put : Z → T → T) old n z acc l :
  (∀ v, set n acc v = (z ← dec_int old v; Ok (put z acc))) → in_int64 z = true → put 0%Z acc = acc →
  dec_fields set acc (enc_int n z ++ l) = dec_fields set (put z acc) l.
Proof.
  intros Hs Hz H0. unfold enc_int. case_decide; [subst; simpl; by rewrite H0|].
  cbn [app dec_fields]. rewrite Hs. unfold dec_int. by rewrite Hz.
Qed.
Lemma dec_enc_bool (put : bool → T → T) n b acc l :
  set n acc (JBool true) = Ok (put true acc) → put false acc = acc →
  dec_fields set acc (enc_bool n b ++ l) = dec_fields set (put b acc) l.
Proof. intros Hs H0. destruct b; simpl; [by rewrite Hs|by rewrite H0]. Qed.
Lemma dec_enc_list {A} (put : list A → T → T) (f : A → json) (g : json → result A) n xs acc l :
  (∀ js, set n acc (JArray js) = (xs ← dec_each g js; Ok (put xs acc))) →
  (∀ x, x ∈ xs → g (f x) = Ok x) → put [] acc = acc →
  dec_fields set acc (enc_list n f xs ++ l) = dec_fields set (put xs acc) l.
Proof.
  intros Hs Hg H0. destruct xs as [|x xs]; [simpl; by rewrite H0|]. change (enc_list n f (x :: xs)) with [(n, JArray (f <$> x :: xs))].
  cbn [app dec_fields]. rewrite Hs, dec_each_enc; [done|]. by apply Forall_forall.
Qed.
Lemma dec_enc_field {A} (put : A → T → T) (a : A) n v acc l :
  set n acc v = Ok (put a acc) → dec_fields set acc ((n, v) :: l) = dec_fields set (put a acc) l.
Proof. intros Hs. simpl. by rewrite Hs. Qed.
End dec_enc.

(** The integers of a configuration fit 64 bits. *)
Definition trunk_bounded (t : VlanTrunk) : bool := in_int64 (MinID t) && in_int64 (MaxID t) && in_int64 (trunk_ID t).
Definition plugin_bounded (p : PluginCniType) : bool :=
  in_int64 (pl_VlanId p) && in_int64 (pl_Vlan p) && forallb trunk_bounded (pl_VlanTrunk p).
Definition bounded (c : NadConfig) : bool := in_int64 (Vlan c) && forallb plugin_bounded (Plugins c).

Lemma dec_Capabilities c : dec_struct set_Capabilities zeroCapabilities (enc_Capabilities c) = Ok c.
Proof. by destruct c as [[] []]. Qed.
Lemma dec_Address a : dec_struct set_Address (mkAddress "" "") (enc_Address a) = Ok a.
Proof.
  destruct a as [ad gw]. unfold enc_Address. simpl dec_struct. cbn [a_Address a_Gateway].
  rewrite (dec_enc_str _ (λ s a, mkAddress s (a_Gateway a))) by done.
  rewrite <-(app_nil_r (enc_str "gateway" gw)).
  by rewrite (dec_enc_str _ (λ s a, mkAddress (a_Address a) s)).
Qed.
Lemma dec_Route r : dec_struct set_Route (mkRoute "" "") (enc_Route r) = Ok r.
Proof.
  destruct r as [ds gw]. unfold enc_Route. simpl dec_struct. cbn [rt_Destination rt_Gateway].
  rewrite (dec_enc_str _ (λ s a, mkRoute s (rt_Gateway a))) by done.
  rewrite <-(app_nil_r (enc_str "gw" gw)).
  by rewrite (dec_enc_str _ (λ s a, mkRoute (rt_Destination a) s)).
Qed.
Lemma dec_Ipam i : dec_struct set_Ipam zeroIpam (enc_Ipam i) = Ok i.
Proof.
  destruct i as [ty ads rts]. unfold enc_Ipam. simpl dec_struct. cbn [ipam_Type Addresses Routes].
  rewrite (dec_enc_str _ (λ s i, mkIpam s (Addresses i) (Routes i))) by done.
  rewrite (dec_enc_list _ (λ l i, mkIpam (ipam_Type i) l (Routes i)) _ (dec_struct set_Address (mkAddress "" "")));
    [|done|intros; apply dec_Address|done].
  rewrite <-(app_nil_r (enc_list "routes" enc_Route rts)).
  rewrite (dec_enc_list _ (λ l i, mkIpam (ipam_Type i) (Addresses i) l) _ (dec_struct set_Route (mkRoute "" "")));
    [done|done|intros; apply dec_Route|done].
Qed.
Lemma dec_VlanTrunk t :
  trunk_bounded t = true → dec_struct set_VlanTrunk (mkVlanTrunk 0 0 0) (enc_VlanTrunk t) = Ok t.
Proof.
  destruct t as [a b c]. unfold trunk_bounded. rewrite !andb_true_iff. cbn [MinID MaxID trunk_ID].
  intros [[Ha Hb] Hc]. unfold enc_VlanTrunk. simpl dec_struct. cbn [MinID MaxID trunk_ID].
  rewrite (dec_enc_int _ (λ z t, mkVlanTrunk z (MaxID t) (trunk_ID t)) 0); [|done|exact Ha|done].
  rewrite (dec_enc_int _ (λ z t, mkVlanTrunk (MinID t) z (trunk_ID t)) 0); [|done|exact Hb|done].
  rewrite <-(app_nil_r (enc_int "id" c)).
  rewrite (dec_enc_int _ (λ z t, mkVlanTrunk (MinID t) (MaxID t) z) 0); [done|done|exact Hc|done].
Qed.
Ltac plugin_fields :=
  cbv beta iota delta [put_Type put_Capabilities put_Master put_Mode put_Ipam put_VlanId put_LinkInContainer put_Bridge put_Vlan
       put_VlanTrunk put_Name pl_Type pl_Capabilities pl_Master pl_Mode pl_Ipam pl_VlanId pl_LinkInContainer
       pl_Bridge pl_Vlan pl_VlanTrunk pl_Name].

(** Decides which field a key names. *)
Ltac keys :=
  intros; unfold set_Plugin;
  repeat match goal with
  | |- context [is_key ?a ?b] =>
      let x := eval vm_compute in (is_key a b) in
      replace (is_key a b) with x by (vm_compute; reflexivity); cbv iota
  end; reflexivity.

Lemma dec_Plugin p : plugin_bounded p = true → dec_struct set_Plugin zeroPlugin (enc_Plugin p) = Ok p.
Proof.
  destruct p as [ty cap ma mo ip vi li br vl tr na]. unfold plugin_bounded. rewrite !andb_true_iff.
  plugin_fields. intros [[Hvi Hvl] Htr]. unfold enc_Plugin, zeroPlugin. simpl dec_struct. plugin_fields.
  rewrite (dec_enc_str _ put_Type); [|keys|done]. plugin_fields.
  rewrite (dec_enc_field _ put_Capabilities cap).
  2:{ change (set_Plugin "capabilities" ?a ?v) with (c ← dec_struct set_Capabilities (pl_Capabilities a) v; Ok (put_Capabilities c a)).
      plugin_fields. by rewrite dec_Capabilities. }
  plugin_fields. rewrite (dec_enc_str _ put_Master); [|keys|done]. plugin_fields.
  rewrite (dec_enc_str _ put_Mode); [|keys|done]. plugin_fields.
  rewrite (dec_enc_field _ put_Ipam ip).
  2:{ change (set_Plugin "ipam" ?a ?v) with (i ← dec_struct set_Ipam (pl_Ipam a) v; Ok (put_Ipam i a)).
      plugin_fields. by rewrite dec_Ipam. }
  plugin_fields. rewrite (dec_enc_int _ put_VlanId 0); [|keys|exact Hvi|done].
  plugin_fields. rewrite (dec_enc_bool _ put_LinkInContainer); [|keys|done].
  plugin_fields. rewrite (dec_enc_str _ put_Bridge); [|keys|done].
  plugin_fields. rewrite (dec_enc_int _ put_Vlan 0); [|keys|exact Hvl|done]. plugin_fields.
  rewrite (dec_enc_list _ put_VlanTrunk _ (dec_struct set_VlanTrunk (mkVlanTrunk 0 0 0))); [|keys| |done].
  2:{ intros t Ht. apply dec_VlanTrunk. rewrite forallb_forall in Htr. apply Htr. by apply list_elem_of_In. }
  plugin_fields. rewrite <-(app_nil_r (enc_str "name" na)). rewrite (dec_enc_str _ put_Name); [done|keys|done].
Qed.

Lemma dec_enc_NadConfig c : bounded c = true → dec_NadConfig (enc_NadConfig c) = Ok c.
Proof.
  destruct c as [ver vl pls]. unfold bounded. rewrite !andb_true_iff. cbn [Vlan Plugins]. intros [Hvl Hpl].
  unfold dec_NadConfig, enc_NadConfig. simpl dec_struct. cbn [CniVersion Vlan Plugins].
  rewrite (dec_enc_str _ (λ s c, mkNadConfig s (Vlan c) (Plugins c))) by done.
  rewrite (dec_enc_int _ (λ z c, mkNadConfig (CniVersion c) z (Plugins c)) 0); [|done|exact Hvl|done].
  rewrite <-(app_nil_r (enc_list "plugins" enc_Plugin pls)).
  rewrite (dec_enc_list _ (λ l c, mkNadConfig (CniVersion c) (Vlan c) l) _ (dec_struct set_Plugin zeroPlugin));
    [done|done| |done].
  intros p Hp. apply dec_Plugin. rewrite forallb_forall in Hpl.
  apply Hpl. by apply list_elem_of_In.
Qed.

(** ** What decoding guarantees *)
Lemma dec_fields_inv {T} (I : T → Prop) (set : string → T → json → result T) acc l x :
  (∀ k a v a', I a → set k a v = Ok a' → I a') → I acc → dec_fields set acc l = Ok x → I x.
Proof.
  intros Hset. revert acc. induction l as [|[k v] l IH]; intros acc Ha; simpl; [by intros [= <-]|].
  intros (a & Hs & Hr)%result_bind_Ok. eapply IH; [|done]. by eapply Hset.
Qed.

Lemma dec_struct_inv {T} (I : T → Prop) (set : string → T → json → result T) acc j x :
  (∀ k a v a', I a → set k a v = Ok a' → I a') → I acc → dec_struct set acc j = Ok x → I x.
Proof.
  intros Hset Ha. destruct j; simpl; try done; [by intros [= <-]|]. by apply dec_fields_inv.
Qed.

Lemma dec_list_inv {A} (P : A → bool) (f : json → result A) j l :
  (∀ j x, f j = Ok x → P x = true) → dec_list f j = Ok l → forallb P l = true.
Proof.
  intros Hf. destruct j as [| | | | |js|]; simpl; try done; [by intros [= <-]|].
  revert l. induction js as [|j js IH]; intros l; simpl; [by intros [= <-]|].
  intros (x & Hx & (xs & Hxs & [= <-])%result_bind_Ok)%result_bind_Ok. simpl.
  by rewrite (Hf j x Hx), (IH xs Hxs).
Qed.

Lemma dec_int_bounded old j z : in_int64 old = true → dec_int old j = Ok z → in_int64 z = true.
Proof. intros Ho. destruct j; simpl; try done; [by intros [= <-]|]. destruct (in_int64 z0) eqn:Hz; [|done]. by intros [= <-]. Qed.

Ltac dec_cases :=
  repeat match goal with
  | |- (if ?b then _ else _) = Ok _ → _ => destruct b
  | |- (_ ≫= _) = Ok _ → _ =>
      let x := fresh "x" in let Hx := fresh "Hx" in intros (x & Hx & [= <-])%result_bind_Ok
  | |- Ok _ = Ok _ → _ => intros [= <-]
  end.

Lemma set_VlanTrunk_bounded k t v t' :
  trunk_bounded t = true → set_VlanTrunk k t v = Ok t' → trunk_bounded t' = true.
Proof.
  unfold trunk_bounded, set_VlanTrunk. rewrite !andb_true_iff. intros [[Ha Hb] Hc].
  dec_cases; simpl; rewrite ?andb_true_iff; eauto using dec_int_bounded.
Qed.

Lemma set_Plugin_bounded k p v p' :
  plugin_bounded p = true → set_Plugin k p v = Ok p' → plugin_bounded p' = true.
Proof.
  unfold plugin_bounded, set_Plugin. rewrite !andb_true_iff. intros [[Ha Hb] Hc].
  dec_cases; simpl; rewrite ?andb_true_iff; eauto using dec_int_bounded.
  split; [done|]. eapply dec_list_inv; [|done]. intros j t. apply (dec_struct_inv (λ t, trunk_bounded t = true)); [|done].
  intros. by eapply set_VlanTrunk_bounded.
Qed.

Lemma set_NadConfig_bounded k c v c' : bounded c = true → set_NadConfig k c v = Ok c' → bounded c' = true.
Proof.
  unfold bounded, set_NadConfig. rewrite !andb_true_iff. intros [Ha Hb].
  dec_cases; simpl; rewrite ?andb_true_iff; eauto using dec_int_bounded.
  split; [done|]. eapply dec_list_inv; [|done]. intros j p. apply (dec_struct_inv (λ p, plugin_bounded p = true)); [|done].
  intros. by eapply set_Plugin_bounded.
Qed.

Lemma dec_NadConfig_bounded j c : dec_NadConfig j = Ok c → bounded c = true.
Proof.
  apply (dec_struct_inv (λ c, bounded c = true)); [|done]. intros. by eapply set_NadConfig_bounded.
Qed.

Lemma complete_bounded t c : bounded c = true → bounded (complete t c) = true.
Proof.
  unfold bounded, complete. rewrite !andb_true_iff. intros [Hv Hp]. simpl. split; [done|].
  destruct (Plugins c); [by destruct t|done].
Qed.

(** ** ASCII configurations *)
Lemma is_ascii_app s1 s2 : is_ascii (s1 +:+ s2) = is_ascii s1 && is_ascii s2.
Proof. induction s1 as [|a s1 IH]; [done|]. rewrite string_app_cons. cbn [is_ascii]. by rewrite IH, andb_assoc. Qed.

Definition fields_ok (l : list (string * json)) : bool := forallb (λ kv, is_ascii (fst kv) && json_ok (snd kv)) l.
Definition address_ascii (a : Address) : bool := is_ascii (a_Address a) && is_ascii (a_Gateway a).
Definition route_ascii (r : Route) : bool := is_ascii (rt_Destination r) && is_ascii (rt_Gateway r).
Definition ipam_ascii (i : Ipam) : bool :=
  is_ascii (ipam_Type i) && forallb address_ascii (Addresses i) && forallb route_ascii (Routes i).
Definition plugin_ascii (p : PluginCniType) : bool :=
  is_ascii (pl_Type p) && is_ascii (pl_Master p) && is_ascii (pl_Mode p) && ipam_ascii (pl_Ipam p) &&
  is_ascii (pl_Bridge p) && is_ascii (pl_Name p).
Definition config_ascii (c : NadConfig) : bool := is_ascii (CniVersion c) && forallb plugin_ascii (Plugins c).

Lemma fields_ok_app l1 l2 : fields_ok l1 = true → fields_ok l2 = true → fields_ok (l1 ++ l2) = true.
Proof. unfold fields_ok. rewrite forallb_app, andb_true_iff. done. Qed.
Lemma fields_ok_str n s : is_ascii n = true → is_ascii s = true → fields_ok (enc_str n s) = true.
Proof. intros Hn Hs. unfold enc_str. case_decide; [done|]. simpl. by rewrite Hn, Hs. Qed.
Lemma fields_ok_int n z : is_ascii n = true → fields_ok (enc_int n z) = true.
Proof. intros Hn. unfold enc_int. case_decide; [done|]. simpl. by rewrite Hn. Qed.
Lemma fields_ok_bool n b : is_ascii n = true → fields_ok (enc_bool n b) = true.
Proof. intros Hn. destruct b; [|done]. simpl. by rewrite Hn. Qed.
Lemma fields_ok_list {A} (ok : A → bool) n (f : A → json) l :
  is_ascii n = true → (∀ x, ok x = true → json_ok (f x) = true) → forallb ok l = true → fields_ok (enc_list n f l) = true.
Proof.
  intros Hn Hf Hl. destruct l as [|x l]; [done|].
  change (enc_list n f (x :: l)) with [(n, JArray (f <$> x :: l))]. unfold fields_ok.
  cbn [forallb fst snd json_ok]. rewrite Hn, andb_true_r, andb_true_l.
  change (forallb json_ok (f <$> x :: l) = true). apply forallb_forall.
  intros j (y & -> & Hy)%list_elem_of_In%list_elem_of_fmap. rewrite forallb_forall in Hl. by apply Hf, Hl, list_elem_of_In.
Qed.
Lemma fields_ok_one n v : is_ascii n = true → json_ok v = true → fields_ok [(n, v)] = true.
Proof. intros Hn Hv. unfold fields_ok. cbn [forallb fst snd]. by rewrite Hn, Hv. Qed.

Create HintDb ascii discriminated.
#[export] Hint Resolve fields_ok_app fields_ok_str fields_ok_int fields_ok_bool fields_ok_one : ascii.
Ltac ascii_fields :=
  match goal with |- json_ok (JObject ?l) = true => change (fields_ok l = true) end;
  repeat apply fields_ok_app; auto with ascii.

Lemma json_ok_Address a : address_ascii a = true → json_ok (enc_Address a) = true.
Proof. unfold address_ascii. rewrite andb_true_iff. intros [Ha Hg]. unfold enc_Address. ascii_fields. Qed.
Lemma json_ok_Route r : route_ascii r = true → json_ok (enc_Route r) = true.
Proof. unfold route_ascii. rewrite andb_true_iff. intros [Ha Hg]. unfold enc_Route. ascii_fields. Qed.
Lemma json_ok_Ipam i : ipam_ascii i = true → json_ok (enc_Ipam i) = true.
Proof.
  unfold ipam_ascii. rewrite !andb_true_iff. intros [[Ht Ha] Hr]. unfold enc_Ipam. ascii_fields.
  - eapply fields_ok_list; [done|apply json_ok_Address|done].
  - eapply fields_ok_list; [done|apply json_ok_Route|done].
Qed.
Lemma json_ok_Plugin p : plugin_ascii p = true → json_ok (enc_Plugin p) = true.
Proof.
  unfold plugin_ascii. rewrite !andb_true_iff. intros [[[[[Ht Hma] Hmo] Hi] Hb] Hn]. unfold enc_Plugin. ascii_fields.
  - apply fields_ok_one; [done|]. unfold enc_Capabilities. ascii_fields.
  - apply fields_ok_one; [done|by apply json_ok_Ipam].
  - apply (fields_ok_list (λ _, true)); [done| |by apply forallb_forall].
    intros t _. unfold enc_VlanTrunk. ascii_fields.
Qed.
Lemma json_ok_NadConfig c : config_ascii c = true → json_ok (enc_NadConfig c) = true.
Proof.
  unfold config_ascii. rewrite andb_true_iff. intros [Hv Hp]. unfold enc_NadConfig. ascii_fields.
  eapply fields_ok_list; [done|apply json_ok_Plugin|done].
Qed.

Lemma on_plugins_ascii f c :
  (∀ p, plugin_ascii p = true → plugin_ascii (f p) = true) → config_ascii c = true → config_ascii (on_plugins f c) = true.
Proof.
  intros Hf. unfold config_ascii. rewrite !andb_true_iff, !forallb_forall. intros [Hv Hp]. split; [done|].
  intros p (q & -> & Hq%list_elem_of_In)%list_elem_of_In%list_elem_of_fmap. destruct (isTuning q); auto.
Qed.

(** Decimal numbers are ASCII. *)
Lemma pretty_N_go_ascii x s : is_ascii s = true → is_ascii (pretty_N_go x s) = true.
Proof.
  revert s. induction (N.lt_wf_0 x) as [x _ IH]. intros s Hs. destruct (decide (0 < x)%N) as [Hx|Hx].
  - rewrite pretty_N_go_step by done. apply IH; [by apply N.div_lt|]. cbn [is_ascii]. rewrite Hs, andb_true_r.
    apply bool_decide_eq_true. unfold pretty_N_char. repeat case_match; vm_compute; lia.
  - replace x with 0%N by lia. by rewrite pretty_N_go_0.
Qed.
Lemma pretty_ascii (z : Z) : is_ascii (pretty z) = true.
Proof.
  assert (HN : ∀ n : N, is_ascii (pretty n) = true).
  { intros n. unfold pretty, pretty_N. case_decide; [done|]. by apply pretty_N_go_ascii. }
  destruct z as [|p|p]; [done|apply HN|]. change (pretty (Z.neg p)) with (String "-" (pretty (N.pos p))).
  cbn [is_ascii]. by rewrite HN.
Qed.

(** ** Refinement: a NAD is a configuration with field updates *)

(** The updates of the library, and what they do to the configuration. *)
Inductive nad_update :=
  | UCNIType (s : string) | UVlan (z : Z) | UVlanID (z : Z) | UBridgeVlan (z : Z) | UBridgeTrunk (z : Z)
  | UBridgeName (z : Z) | UMaster (s : string) | UIpamAddress (l : list Address) | UIpamRoutes (l : list Route).

Definition spec_update (u : nad_update) (c : NadConfig) : NadConfig :=
  match u with
  | UCNIType s => on_plugins (put_Type s) c
  | UVlan z => mkNadConfig (CniVersion c) z (Plugins c)
  | UVlanID z => on_plugins (put_VlanId z) c
  | UBridgeVlan z => on_plugins (put_Vlan z) c
  | UBridgeTrunk z => on_plugins (put_VlanTrunk [mkVlanTrunk 0 0 z]) c
  | UBridgeName z => on_plugins (λ p, put_Name (bridgeName z) (put_Bridge (bridgeName z) p)) c
  | UMaster s => on_plugins (put_Master s) c
  | UIpamAddress l => on_plugins (λ p, put_Ipam (mkIpam (ipam_Type (pl_Ipam p)) l (Routes (pl_Ipam p))) p) c
  | UIpamRoutes l => on_plugins (λ p, put_Ipam (mkIpam (ipam_Type (pl_Ipam p)) (Addresses (pl_Ipam p)) l) p) c
  end.
Definition spec_type (u : nad_update) (t : CniSpecType) : CniSpecType :=
  match u with UCNIType s => cniSpecType s t | _ => t end.
(** The integer argument is a Go [int]. *)
Definition update_bounded (u : nad_update) : bool :=
  match u with UVlan z | UVlanID z | UBridgeVlan z | UBridgeTrunk z => in_int64 z | _ => true end.

Lemma on_plugins_bounded f c :
  (∀ p, plugin_bounded p = true → plugin_bounded (f p) = true) →
  bounded c = true → bounded (on_plugins f c) = true.
Proof.
  intros Hf. unfold bounded. rewrite !andb_true_iff, !forallb_forall. intros [Hv Hp]. split; [done|].
  intros p Hin. apply list_elem_of_In, list_elem_of_fmap in Hin as (q & -> & Hq%list_elem_of_In).
  destruct (isTuning q); auto.
Qed.

Lemma spec_update_bounded u c : update_bounded u = true → bounded c = true → bounded (spec_update u c) = true.
Proof.
  intros Hu. destruct u; simpl in *; try (apply on_plugins_bounded; intros p; unfold plugin_bounded; simpl;
    rewrite !andb_true_iff; naive_solver).
  unfold bounded. rewrite !andb_true_iff. naive_solver.
Qed.

Lemma complete_spec_update u t c : spec_update u (complete t c) = complete t (spec_update u (complete t c)).
Proof.
  assert (Hon : ∀ f, on_plugins f (complete t c) = complete t (on_plugins f (complete t c))).
  { intros f. unfold on_plugins, complete. simpl. destruct (Plugins c) as [|p l]; [|done]. by destruct t. }
  destruct u; simpl; try apply Hon. unfold complete. simpl. destruct (Plugins c) as [|p l]; [|done]. by destruct t.
Qed.

Section refinement.
Context `{!FnSDK, !NadSDK, !NadSDKLaws}.

Definition run_update (u : nad_update) (r : NadStruct) : NadStruct * option error :=
  match u with
  | UCNIType s => SetCNIType r s
  | UVlan z => SetVlan r z
  | UVlanID z => SetVlanID r z
  | UBridgeVlan z => SetBridgeVlan r z
  | UBridgeTrunk z => SetBridgeTrunk r z
  | UBridgeName z => SetBridgeName r z
  | UMaster s => SetNadMaster r s
  | UIpamAddress l => SetIpamAddress r (Some l)
  | UIpamRoutes l => SetIpamRoutes r (Some l)
  end.

Lemma run_update_ok u r r' :
  run_update u r = (r', None) →
  update (spec_update u) (with_CniSpecType (spec_type u (nad_CniSpecType r)) r) = (r', None).
Proof.
  assert (Hsame : with_CniSpecType (nad_CniSpecType r) r = r) by by destruct r.
  destruct u; simpl; try rewrite Hsame; try done.
  all: unfold SetCNIType, SetVlan, SetVlanID, SetBridgeVlan, SetBridgeTrunk, SetBridgeName, SetNadMaster;
    case_decide; done.
Qed.

Lemma setNadConfig_read r c r' :
  json_ok (enc_NadConfig c) = true → bounded c = true → setNadConfig r c = (r', None) →
  ∀ t, getNadConfig (with_CniSpecType t r') = Ok (complete t c).
Proof.
  intros Hok Hb. unfold setNadConfig, SetNestedString_nad.
  destruct (SetNestedString _ _ _) as [o e] eqn:Hset. intros [= <- ->] t.
  apply SetNestedString_spec in Hset as [Hread _].
  unfold getNadConfig, GetConfigSpec, getStringValue. cbn [nad_K koe_KubeObject nad_CniSpecType with_CniSpecType]. rewrite Hread.
  rewrite decide_False by apply print_not_empty. rewrite parse_print by done.
  unfold mbind, result_bind. by rewrite dec_enc_NadConfig.
Qed.

(** A successful setter keeps the type, apiVersion, kind, name, ... of the object. *)
Lemma run_update_header u r r' :
  run_update u r = (r', None) →
  same_header (koe_KubeObject (nad_K r)) (koe_KubeObject (nad_K r')) ∧
  nad_CniSpecType r' = spec_type u (nad_CniSpecType r).
Proof.
  intros Hrun%run_update_ok. unfold update in Hrun. destruct (getNadConfig _) as [c|e]; [|done].
  unfold setNadConfig, SetNestedString_nad in Hrun. destruct (SetNestedString _ _ _) as [o e] eqn:Hset.
  injection Hrun as <- ->. by apply SetNestedString_spec in Hset as [_ Hh].
Qed.

Lemma run_update_read u r r' :
  update_bounded u = true → run_update u r = (r', None) →
  ∃ c, getNadConfig (with_CniSpecType (spec_type u (nad_CniSpecType r)) r) = Ok c ∧
    (json_ok (enc_NadConfig (spec_update u c)) = true →
     getNadConfig r' = Ok (spec_update u c) ∧
     ∀ t, getNadConfig (with_CniSpecType t r') = Ok (complete t (spec_update u c))).
Proof.
  intros Hu Hrun. pose proof (run_update_header u r r' Hrun) as [_ Ht]. apply run_update_ok in Hrun.
  unfold update in Hrun. set (r1 := with_CniSpecType (spec_type u (nad_CniSpecType r)) r) in *.
  destruct (getNadConfig r1) as [c|e] eqn:Hc; [|done]. exists c. split; [done|].
  assert (∃ c0, c = complete (nad_CniSpecType r1) c0 ∧ bounded c0 = true) as (c0 & -> & Hb).
  { unfold getNadConfig in Hc. destruct (json_parse _) as [j|e]; [|done].
    unfold mbind, result_bind in Hc. destruct (dec_NadConfig j) as [c0|e] eqn:Hj; [|done].
    injection Hc as <-. exists c0. split; [done|]. by eapply dec_NadConfig_bounded. }
  intros Hok. assert (Hall : ∀ t, getNadConfig (with_CniSpecType t r') =
    Ok (complete t (spec_update u (complete (nad_CniSpecType r1) c0)))).
  { eapply setNadConfig_read; [done|by apply spec_update_bounded, complete_bounded|done]. }
  split; [|exact Hall]. rewrite complete_spec_update, <-(Hall (nad_CniSpecType r1)). destruct r'. simpl in Ht. by subst.
Qed.

(** C22: the text of a NAD configuration parses back: [String] never fails and its JSON text
    decodes to the configuration it was made from, for ASCII strings and integers of 64 bits,
    omitted empty fields included. *)
Theorem NadConfig_roundtrip c :
  json_ok (enc_NadConfig c) = true → bounded c = true →
  ∃ text, NadConfig_String c = Ok text ∧ (j ← json_parse text; dec_NadConfig j) = Ok c.
Proof.
  intros Hok Hb. eexists. split; [done|]. rewrite parse_print by done. by apply dec_enc_NadConfig.
Qed.

(** C9: every setter of a NAD implements its update of the configuration: when it succeeds,
    reading the configuration back gives the configuration read before (with the defaults
    of the CNI type) with exactly that field changed in every plugin but the tuning one. *)
Theorem nad_update_refines u r r' :
  update_bounded u = true → run_update u r = (r', None) →
  ∃ c, getNadConfig (with_CniSpecType (spec_type u (nad_CniSpecType r)) r) = Ok c ∧
    nad_CniSpecType r' = spec_type u (nad_CniSpecType r) ∧
    (json_ok (enc_NadConfig (spec_update u c)) = true → getNadConfig r' = Ok (spec_update u c)).
Proof.
  intros Hu Hrun. pose proof (run_update_header u r r' Hrun) as [_ Ht].
  destruct (run_update_read u r r' Hu Hrun) as (c & Hc & Hread). exists c. split; [done|]. split; [done|]. by intros [? _]%Hread.
Qed.
End refinement.

(** ** Witnesses *)
Module NadWitnesses.
Import Model.

(** A text form of JSON values: the number of the value, spelled bit by bit. *)
Definition leaf : Type := bool + Z + string.
Fixpoint to_tree (j : json) : gen_tree leaf :=
  match j with
  | JNull => GenNode 0 []
  | JBool b => GenLeaf (inl (inl b))
  | JInt z => GenLeaf (inl (inr z))
  | JFloat s => GenNode 1 [GenLeaf (inr s)]
  | JString s => GenLeaf (inr s)
  | JArray l => GenNode 2 (map to_tree l)
  | JObject l => GenNode 3 (map (λ kv, GenNode 4 [GenLeaf (inr (fst kv)); to_tree (snd kv)]) l)
  end.
Fixpoint of_tree (t : gen_tree leaf) : json :=
  match t with
  | GenLeaf (inl (inl b)) => JBool b
  | GenLeaf (inl (inr z)) => JInt z
  | GenLeaf (inr s) => JString s
  | GenNode 1 [GenLeaf (inr s)] => JFloat s
  | GenNode 2 l => JArray (map of_tree l)
  | GenNode 3 l =>
      JObject (map (λ t, match t with GenNode _ [GenLeaf (inr k); v] => (k, of_tree v) | _ => ("", JNull) end) l)
  | _ => JNull
  end.

Fixpoint of_to_tree (j : json) : of_tree (to_tree j) = j.
Proof.
  destruct j as [|b|z|t|s|l|l]; try reflexivity.
  - simpl. f_equal. induction l as [|j l IH]; [reflexivity|]. simpl. by rewrite of_to_tree, IH.
  - simpl. f_equal. induction l as [|[k j] l IH]; [reflexivity|]. simpl. by rewrite of_to_tree, IH.
Defined.

#[export] Instance json_eq_dec : EqDecision json.
Proof. refine (inj_eq_dec to_tree). intros j1 j2 Heq. by rewrite <-(of_to_tree j1), Heq, of_to_tree. Defined.
#[export] Instance json_countable : Countable json := inj_countable' to_tree of_tree of_to_tree.

Fixpoint pos_text (p : positive) : string :=
  match p with xH => "." | xO p => String "0" (pos_text p) | xI p => String "1" (pos_text p) end.
Fixpoint text_pos (s : string) : option positive :=
  match s with
  | "." => Some xH
  | String "0" s => xO <$> text_pos s
  | String "1" s => xI <$> text_pos s
  | _ => None
  end.
Lemma text_pos_text p : text_pos (pos_text p) = Some p.
Proof. induction p as [p IH|p IH|]; simpl; [by rewrite IH| |done]. by rewrite IH. Qed.

Definition print (j : json) : string := pos_text (encode j).
Definition parse (s : string) : result json :=
  if decide (s = "{}") then Ok (JObject [])
  else match text_pos s ≫= decode with Some j => Ok j | None => Err "invalid character" end.

#[export] Instance nad_sdk : NadSDK := {
  NestedString o path := Ok (o_extra o !! join path);
  SetNestedString o s path := (put_extra o (join path) s, None);
  json_parse := parse;
  json_print := print
}.
#[export] Instance nad_sdk_laws : NadSDKLaws.
Proof.
  constructor.
  - intros o s path o' [= <-]. cbn. by rewrite lookup_insert_eq.
  - intros j _. cbn. unfold parse, print. rewrite decide_False; [by rewrite text_pos_text; simpl; rewrite decode_encode|].
    by destruct (encode j).
  - done.
  - intros j. cbn. unfold print. by destruct (encode j).
Qed.

Definition nad0 : NadStruct :=
  mkNad (mkKubeObjectExt (mkObj "k8s.cni.cncf.io/v1" "NetworkAttachmentDefinition" "n3" "" ∅ [] [] None ∅ : KubeObject)) OtherType.
Definition nad_mac : NadStruct := fst (run_update (UCNIType "macvlan") nad0).
Definition nad_eth : NadStruct := fst (run_update (UMaster "eth1") nad_mac).

Definition macvlan (master : string) : NadConfig := mkNadConfig "0.3.1" 0
  [mkPlugin "macvlan" (mkCapabilities true false) master "bridge" (mkIpam "static" [] []) 0 false "" 0 [] "";
   mkPlugin "tuning" (mkCapabilities false true) "" "" zeroIpam 0 false "" 0 [] ""].

Lemma NadConfig_roundtrip_witness :
  ∃ text, NadConfig_String (macvlan "eth1") = Ok text ∧ (j ← json_parse text; dec_NadConfig j) = Ok (macvlan "eth1").
Proof. apply (NadConfig_roundtrip (macvlan "eth1")); vm_compute; reflexivity. Defined.

Lemma nad_update_refines_witness :
  getNadConfig nad_mac = Ok (macvlan "") ∧ getNadConfig nad_eth = Ok (macvlan "eth1") ∧
  ∃ c, getNadConfig (with_CniSpecType (spec_type (UMaster "eth1") (nad_CniSpecType nad_mac)) nad_mac) = Ok c ∧
    nad_CniSpecType nad_eth = spec_type (UMaster "eth1") (nad_CniSpecType nad_mac) ∧
    (json_ok (enc_NadConfig (spec_update (UMaster "eth1") c)) = true →
     getNadConfig nad_eth = Ok (spec_update (UMaster "eth1") c)).
Proof.
  split; [vm_compute; reflexivity|]. split; [vm_compute; reflexivity|].
  apply (nad_update_refines (UMaster "eth1") nad_mac nad_eth); [reflexivity|]. vm_compute. reflexivity.
Defined.
End NadWitnesses.
