(* ===== verification/FnApi.v ===== *)
(** * What the KRM functions share

    The Go types of the Nephio and IPAM APIs ([github.com/nephio-project/api],
    [github.com/nokia/k8s-ipam]) are not part of the repository: [NephioAPI] has the types,
    the fields and the functions the KRM functions use of them, [NephioAPILaws] what is
    relied on.  The helpers [getAnnotations] and [getForName], which the functions each
    have a copy of, and the call of the SDK are here too. *)
From S2P Require Import Prelude External KubeObjectLib SdkModel Ref Kptfile Inventory InventoryDiff InventoryReady Sdk.

(** [metav1.ObjectMeta], the fields in use. *)
Record ObjectMeta := mkMeta { om_Name : string; om_Namespace : string; om_Annotations : gmap string string }.

(** [ipamv1alpha1.IPClaimSpec], the fields in use; [ip_MatchLabels] are the labels of the
    selector of its claim labels. *)
Record IPClaimSpec := mkIPClaimSpec {
  ip_Kind : string;
  ip_NetworkInstance : ObjectReference;
  ip_PrefixLength : option Z;
  ip_CreatePrefix : option bool;
  ip_MatchLabels : gmap string string
}.

(** [PoolStatus]: the name and the claim status. *)
Class NephioAPI `{FnSDK} := {
  (** infra/v1alpha1 *)
  infra_apiVersion : string;
  WorkloadClusterKind : string;
  NetworkKind : string;
  WorkloadCluster : Type;
  wc_GoType :: GoType WorkloadCluster;
  wc_ClusterName : WorkloadCluster → string;
  wc_CNIs : WorkloadCluster → list string;
  wc_MasterInterface : WorkloadCluster → option string;
  wc_Validate : WorkloadCluster → option error;
  Network : Type;
  net_GoType :: GoType Network;
  (** name and prefixes of the routing tables *)
  net_RoutingTables : Network → list (string * list string);
  (** nf_requirements/v1alpha1 *)
  req_apiVersion : string;
  InterfaceKind : string;
  DataNetworkKind : string;
  Interface : Type;
  itf_GoType :: GoType Interface;
  itf_Annotations : Interface → gmap string string;
  itf_NetworkInstance : Interface → option ObjectReference;
  itf_CNIType : Interface → string;
  itf_AttachmentType : Interface → string;
  itf_IpFamilyPolicy : Interface → string;
  AttachmentTypeVLAN : string;
  IpFamilyPolicyDualStack : string;
  IpFamilyPolicyIPv6Only : string;
  IpFamilyPolicyIPv4Only : string;
  IPFamilyIPv4 : string;
  IPFamilyIPv6 : string;
  DataNetwork : Type;
  dn_GoType :: GoType DataNetwork;
  dn_Name : DataNetwork → string;
  dn_Annotations : DataNetwork → gmap string string;
  dn_NetworkInstance : DataNetwork → ObjectReference;
  (** name, IP family and prefix length of the pools *)
  dn_Pools : DataNetwork → list (string * string * Z);
  (** k8s-ipam: claims *)
  ipam_apiVersion : string;
  IPClaimKind : string;
  IPClaim : Type;
  ipc_GoType :: GoType IPClaim;
  ipc_Name : IPClaim → string;
  ipc_Annotations : IPClaim → gmap string string;
  ipc_Kind : IPClaim → string;
  ipc_NetworkInstance : IPClaim → ObjectReference;
  IPClaimStatus : Type;
  ipc_Status : IPClaim → IPClaimStatus;
  st_Prefix : IPClaimStatus → option string;
  st_Gateway : IPClaimStatus → option string;
  PrefixKindNetwork : string;
  PrefixKindLoopback : string;
  PrefixKindPool : string;
  BuildIPClaim : ObjectMeta → IPClaimSpec → any;
  vlan_apiVersion : string;
  VLANClaimKind : string;
  VLANClaim : Type;
  vlc_GoType :: GoType VLANClaim;
  vlc_Annotations : VLANClaim → gmap string string;
  vlc_with_Name : string → VLANClaim → VLANClaim;
  VLANClaimStatus : Type;
  vlc_Status : VLANClaim → VLANClaimStatus;
  (** the claim with the VLAN index of the given name *)
  BuildVLANClaim : ObjectMeta → string → any;
  NephioNetworkNameKey : string;
  NephioClusterNameKey : string;
  NephioAddressFamilyKey : string;
  NephioAPIAction : string;
  LocalConfigAnnotation : string;
  (** [itfce.Status.UpsertIPClaim], [itfce.Status.VLANClaimStatus = ...],
      [dnn.Status.Pools = ...] *)
  itf_UpsertIPClaim : IPClaimStatus → Interface → Interface;
  itf_set_VLANClaimStatus : VLANClaimStatus → Interface → Interface;
  dn_set_Pools : list (string * IPClaimStatus) → DataNetwork → DataNetwork;
  (** network-attachment-definition-client *)
  nad_apiVersion : string;
  NADKind : string;
  NAD : Type;
  nad_GoType :: GoType NAD;
  (** a NAD with its type meta, this object meta and an empty spec *)
  nad_new : ObjectMeta → NAD;
  (** [iputil.New(prefix)] as the address family of the prefix; the family names *)
  ip_family : string → result string;
  AddressFamilyIpv4 : string;
  AddressFamilyIpv6 : string;
  (** [o.NestedInt("status", "vlanID")]: the integer it returns, 0 when there is none *)
  NestedInt_vlanID : KubeObject → Z
}.

Class NephioAPILaws `{NephioAPI} : Prop := {
  IPClaim_object meta spec o :
    NewFromTypedObject (BuildIPClaim meta spec) = Ok o →
    obj_ref o = gvkn ipam_apiVersion IPClaimKind (om_Name meta) ∧ GetAnnotations o = om_Annotations meta;
  VLANClaim_object meta idx o :
    NewFromTypedObject (BuildVLANClaim meta idx) = Ok o →
    obj_ref o = gvkn vlan_apiVersion VLANClaimKind (om_Name meta) ∧ GetAnnotations o = om_Annotations meta;
  NAD_object meta o :
    NewFromTypedObject (go_any (nad_new meta)) = Ok o →
    obj_ref o = gvkn nad_apiVersion NADKind (om_Name meta) ∧ GetAnnotations o = om_Annotations meta;
  (** all of them are structs with a [Status] *)
  structs : go_is_struct (T := Interface) = true ∧ go_is_struct (T := DataNetwork) = true ∧
    go_is_struct (T := IPClaim) = true ∧ go_is_struct (T := VLANClaim) = true ∧ go_is_struct (T := NAD) = true;
  (** group versions and kinds: no empty string, no wildcard, and all GVKs differ *)
  gvks : let l := [gvk infra_apiVersion WorkloadClusterKind; gvk infra_apiVersion NetworkKind;
                   gvk req_apiVersion InterfaceKind; gvk req_apiVersion DataNetworkKind;
                   gvk ipam_apiVersion IPClaimKind; gvk vlan_apiVersion VLANClaimKind;
                   gvk nad_apiVersion NADKind] in
    NoDup l ∧ Forall (λ g, APIVersion g ≠ "" ∧ Kind g ≠ "" ∧ IsWildCardRef g = false) l
}.

Section shared.
Context `{!FnSDK, !NephioAPI, !GoRange}.

(** [getAnnotations] of the interface and dnn functions: the local-config annotation and the
    root resource of the specialization. *)
Definition getAnnotations (annotations : gmap string string) : gmap string string :=
  let a := match annotations !! LocalConfigAnnotation with
           | Some v => {[ LocalConfigAnnotation := v ]}
           | None => ∅
           end in
  match annotations !! SpecializerFor with
  | Some owner => <[SpecializerFor := owner]> a
  | None => <[SpecializerFor := default "" (annotations !! SpecializerOwner)]> a
  end.

(** [getForName]: the last dot-separated part of the root resource. *)
Definition getForName (annotations : gmap string string) : string :=
  let forFullName := match annotations !! SpecializerFor with
                     | Some owner => owner
                     | None => default "" (annotations !! SpecializerOwner)
                     end in
  List.last (split_on dot forFullName) "".

(** [kubeobject.NewFromKubeObject] followed by [GetGoStruct]. *)
Definition open {T} `{!GoType T} (o : option KubeObject) : comp (result (KubeObjectExt * T)) :=
  koe ←? KubeObjectLib.NewFromKubeObject (T := T) o;
  '(x, err) ← GetGoStruct (T := T) koe;
  Done (of_error (koe, x) err).

Lemma open_spec {T} `{!GoType T} o :
  go_is_struct (T := T) = true →
  open (T := T) (Some o) = Done (of_error (mkKubeObjectExt o, fst (go_As o)) (snd (go_As o))).
Proof.
  intros Hs. unfold open, KubeObjectLib.NewFromKubeObject, GetGoStruct, validateTypeOrPanic. rewrite Hs. simpl.
  by destruct (go_As o).
Qed.

(** [objs.Where(fn.IsGroupVersionKind(gvk))] *)
Definition Where (apiVersion kind : string) (objs : list KubeObject) : list KubeObject :=
  List.filter (IsGroupVersionKind apiVersion kind) objs.

(** [WorkloadClusterCallbackFn], which the functions share: at most one cluster, decoded
    and validated. *)
Definition WorkloadClusterCallback (wc : option WorkloadCluster) (o : option KubeObject)
    : option WorkloadCluster * option error :=
  match wc with
  | Some _ => (wc, Some "multiple WorkloadCluster objects found in the kpt package")
  | None =>
      match KubeObjectToStruct (T := WorkloadCluster) o with
      | (wc, Some err) => (wc, Some err)
      | (wc, None) => (wc, wc ≫= wc_Validate)
      end
  end.

(** [IsCNITypePresent] *)
Definition IsCNITypePresent (wc : WorkloadCluster) (cniType : string) : bool :=
  existsb (λ cni, bool_decide (cni = cniType)) (wc_CNIs wc).

(** [condkptsdk.New] followed by [Run], with the error of [New] in the results. *)
Definition runFn {S} (cfg : Config S) (u : S) (rl : resourceList)
    : comp (resourceList * S * bool * option error) :=
  match newInventory cfg with
  | Err err => Done (mkRL (rl_Items rl) (Results_ErrorE err (rl_Results rl)), u, false, Some err)
  | Ok i => Run cfg i u rl
  end.
End shared.

(** ** A concrete API: every Go type is the object itself, fields are its extra strings *)
Module ApiModel.
Import Model.

Definition ex (k : string) (o : obj) : string := default "" (o_extra o !! k).
Definition obj_type (a k : string) : GoType obj := {|
  go_name := k; go_is_struct := true; go_As o := (o, None); go_any o := VObject o;
  go_field o f := Some (VString (ex f o)); go_scheme_gvk := Some (a, k) |}.
Definition put_name (n : string) (o : obj) : obj :=
  mkObj (o_api o) (o_kind o) n (o_ns o) (o_ann o) (o_conds o) (o_gates o) (o_spec o) (o_extra o).
Definition made (a k : string) (m : ObjectMeta) (spec : string) : value :=
  VObject (mkObj a k (om_Name m) (om_Namespace m) (om_Annotations m) [] [] (Some spec) ∅).
Definition show_pools (l : list (string * (option string * option string))) : string :=
  fmt_words ((λ p, fst p +:+ "=" +:+ default "" (fst (snd p))) <$> l).

#[export] Instance api : NephioAPI := {|
  infra_apiVersion := "infra.nephio.org/v1alpha1"; WorkloadClusterKind := "WorkloadCluster"; NetworkKind := "Network";
  WorkloadCluster := obj; wc_GoType := obj_type "infra.nephio.org/v1alpha1" "WorkloadCluster";
  wc_ClusterName := ex "clusterName"; wc_CNIs o := split_on ","%char (ex "cnis" o);
  wc_MasterInterface o := o_extra o !! "masterInterface";
  wc_Validate o := if decide (ex "clusterName" o = "") then Some "clusterName is required" else None;
  Network := obj; net_GoType := obj_type "infra.nephio.org/v1alpha1" "Network";
  net_RoutingTables o := [(ex "table" o, split_on ","%char (ex "prefixes" o))];
  req_apiVersion := "req.nephio.org/v1alpha1"; InterfaceKind := "Interface"; DataNetworkKind := "DataNetwork";
  Interface := obj; itf_GoType := obj_type "req.nephio.org/v1alpha1" "Interface";
  itf_Annotations := o_ann;
  itf_NetworkInstance o := (λ n, gvkn "" "" n) <$> o_extra o !! "networkInstance";
  itf_CNIType := ex "cniType"; itf_AttachmentType := ex "attachmentType"; itf_IpFamilyPolicy := ex "ipFamilyPolicy";
  AttachmentTypeVLAN := "vlan"; IpFamilyPolicyDualStack := "dualstack"; IpFamilyPolicyIPv6Only := "ipv6only";
  IpFamilyPolicyIPv4Only := "ipv4only"; IPFamilyIPv4 := "ipv4"; IPFamilyIPv6 := "ipv6";
  DataNetwork := obj; dn_GoType := obj_type "req.nephio.org/v1alpha1" "DataNetwork";
  dn_Name := o_name; dn_Annotations := o_ann; dn_NetworkInstance o := gvkn "" "" (ex "networkInstance" o);
  dn_Pools o := (λ n, (n, "ipv4", 24%Z)) <$> split_on ","%char (ex "pools" o);
  ipam_apiVersion := "ipam.resource.nephio.org/v1alpha1"; IPClaimKind := "IPClaim";
  IPClaim := obj; ipc_GoType := obj_type "ipam.resource.nephio.org/v1alpha1" "IPClaim";
  ipc_Name := o_name; ipc_Annotations := o_ann; ipc_Kind o := default "" (o_spec o);
  ipc_NetworkInstance o := gvkn "" "" (ex "networkInstance" o);
  IPClaimStatus := (option string * option string);
  ipc_Status o := (o_extra o !! "prefix", o_extra o !! "gateway");
  st_Prefix := fst; st_Gateway := snd;
  PrefixKindNetwork := "network"; PrefixKindLoopback := "loopback"; PrefixKindPool := "pool";
  BuildIPClaim m spec := made "ipam.resource.nephio.org/v1alpha1" "IPClaim" m (ip_Kind spec);
  vlan_apiVersion := "vlan.resource.nephio.org/v1alpha1"; VLANClaimKind := "VLANClaim";
  VLANClaim := obj; vlc_GoType := obj_type "vlan.resource.nephio.org/v1alpha1" "VLANClaim";
  vlc_Annotations := o_ann; vlc_with_Name := put_name;
  VLANClaimStatus := string; vlc_Status := ex "vlanID";
  BuildVLANClaim m idx := made "vlan.resource.nephio.org/v1alpha1" "VLANClaim" m idx;
  NephioNetworkNameKey := "nephio.org/network-name"; NephioClusterNameKey := "nephio.org/cluster-name";
  NephioAddressFamilyKey := "nephio.org/address-family"; NephioAPIAction := "nephio.org/api-action";
  LocalConfigAnnotation := "config.kubernetes.io/local-config";
  itf_UpsertIPClaim st o := put_extra o "Status" (ex "Status" o +:+ default "" (fst st));
  itf_set_VLANClaimStatus st o := put_extra o "Status" (ex "Status" o +:+ st);
  dn_set_Pools l o := put_extra o "Status" (show_pools l);
  nad_apiVersion := "k8s.cni.cncf.io/v1"; NADKind := "NetworkAttachmentDefinition";
  NAD := obj; nad_GoType := obj_type "k8s.cni.cncf.io/v1" "NetworkAttachmentDefinition";
  nad_new m := mkObj "k8s.cni.cncf.io/v1" "NetworkAttachmentDefinition" (om_Name m) (om_Namespace m)
                 (om_Annotations m) [] [] (Some "") ∅;
  ip_family s := if decide (s = "") then Err "not a prefix"
                 else if has_char ":"%char s then Ok "ipv6" else Ok "ipv4";
  AddressFamilyIpv4 := "ipv4"; AddressFamilyIpv6 := "ipv6";
  NestedInt_vlanID o := if decide (ex "vlanID" o = "") then 0%Z else Z.of_nat (String.length (ex "vlanID" o))
|}.

#[export] Instance api_laws : NephioAPILaws.
Proof.
  constructor.
  - intros m spec o [= <-]. done.
  - intros m idx o [= <-]. done.
  - intros m o [= <-]. done.
  - done.
  - cbv zeta. split.
    + apply (bool_decide_eq_true_1 _). vm_compute. reflexivity.
    + repeat constructor; try discriminate; vm_compute; reflexivity.
Qed.
(** A callback that returned one object, and that object. *)
Definition one {S O} (p : comp (S * result (list O))) : bool := match p with Done (_, Ok [_]) => true | _ => false end.
Lemma one_ok {S O} (p : comp (S * result (list O))) s0 o0 :
  one p = true →
  p = Done (match p with Done (s, _) => s | _ => s0 end, Ok [match p with Done (_, Ok [o]) => o | _ => o0 end]).
Proof. by destruct p as [[s [[|o [|]]|]]|]. Qed.
End ApiModel.
