(* ===== verification/InterfaceFn.v ===== *)
(** * [krm-functions/interface-fn]: the claims an interface needs

    For every [Interface] the function generates IP claims, a VLAN claim and a network
    attachment definition, and aggregates the status of the claims when they are there.
    Its state is the workload cluster of the package, set by the global watch. *)
From S2P Require Import Prelude External KubeObjectLib SdkModel Ref Kptfile Inventory InventoryDiff InventoryReady Sdk SdkLemmas FnApi.

Definition defaultPODNetwork : string := "default".

Section interface.
Context `{!FnSDK, !NephioAPI, !GoRange}.

Definition itfceFn : Type := option WorkloadCluster.

Definition WorkloadClusterCallbackFn : WatchCallbackFn (S := itfceFn) :=
  λ f o, Done (WorkloadClusterCallback f o).

Definition getVLANClaim (wc : WorkloadCluster) (meta : ObjectMeta) : result KubeObject :=
  NewFromTypedObject (BuildVLANClaim meta (wc_ClusterName wc)).

Definition getIPClaim (wc : WorkloadCluster) (meta : ObjectMeta) (ni : ObjectReference) (kind af purpose : string)
    : result KubeObject :=
  let matchLabels := <[NephioAddressFamilyKey := af]> {[ NephioClusterNameKey := wc_ClusterName wc ]} in
  let matchLabels := if decide (purpose = "") then matchLabels else <[NephioNetworkNameKey := purpose]> matchLabels in
  NewFromTypedObject (BuildIPClaim meta (mkIPClaimSpec kind ni None None matchLabels)).

Definition getNAD (meta : ObjectMeta) : result KubeObject := NewFromTypedObject (go_any (nad_new meta)).

Definition getAnnotationsWithvlanClaimName (wc : WorkloadCluster) (itfce : Interface) (ni : ObjectReference)
    : gmap string string :=
  <[SpecializervlanClaimName := Name ni +:+ "-" +:+ wc_ClusterName wc +:+ "-bd"]> (getAnnotations (itf_Annotations itfce)).

Definition getAddressFamilies (pol : string) : list string :=
  if decide (pol = IpFamilyPolicyDualStack) then [IPFamilyIPv4; IPFamilyIPv6]
  else if decide (pol = IpFamilyPolicyIPv6Only) then [IPFamilyIPv6]
  else if decide (pol = IpFamilyPolicyIPv4Only) then [IPFamilyIPv4]
  else [IPFamilyIPv4].

(** The name of a child of the interface object, and of an IP claim. *)
Definition childName (o : KubeObject) : string := getForName (GetAnnotations o) +:+ "-" +:+ GetName o.
Definition claimName (o : KubeObject) (af : string) : string := childName o +:+ "-" +:+ af.

(** The loop over the address families. *)
Fixpoint ipClaims (wc : WorkloadCluster) (o : KubeObject) (ni : ObjectReference) (kind purpose : string)
    (afs : list string) : result (list KubeObject) :=
  match afs with
  | [] => Ok []
  | af :: afs =>
      obj ← getIPClaim wc (mkMeta (claimName o af) "" (getAnnotations (GetAnnotations o))) ni kind af purpose;
      objs ← ipClaims wc o ni kind purpose afs;
      Ok (obj :: objs)
  end.

(** The children of an interface with its Go struct and network instance. *)
Definition children_of (wc : WorkloadCluster) (o : KubeObject) (itfce : Interface) (ni : ObjectReference)
    : result (list KubeObject) :=
  let afs := getAddressFamilies (itf_IpFamilyPolicy itfce) in
  let purpose := GetAnnotation o NephioNetworkNameKey in
  if decide (itf_CNIType itfce = "") then ipClaims wc o ni PrefixKindLoopback purpose afs
  else if negb (IsCNITypePresent wc (itf_CNIType itfce)) then
    Err ("cniType not supported in workload cluster; workload cluster CNI(s): [" +:+ fmt_words (wc_CNIs wc) +:+
         "], interface cniType requested: " +:+ itf_CNIType itfce)
  else
    claims ← ipClaims wc o ni PrefixKindNetwork purpose afs;
    vlans ← (if decide (itf_AttachmentType itfce = AttachmentTypeVLAN)
             then obj ← getVLANClaim wc (mkMeta (childName o) "" (getAnnotationsWithvlanClaimName wc itfce ni)); Ok [obj]
             else Ok []);
    nad ← getNAD (mkMeta (childName o) "" (getAnnotations (GetAnnotations o)));
    Ok (claims ++ vlans ++ [nad]).

Definition desiredOwnedResourceList : PopulateOwnResourcesFn_t (S := itfceFn) := λ f o,
  res ←
    match f with
    | None => Done (Err "workload cluster is missing from the kpt package")
    | Some wc =>
        '(_, itfce) ←? open (T := Interface) (Some o);
        match itf_NetworkInstance itfce with
        | None => Panic nil_dereference
        | Some ni =>
            if decide (Name ni = defaultPODNetwork) then Done (Ok [])
            else Done (children_of wc o itfce ni)
        end
    end;
  Done (f, res).

(** The loops of [updateItfceResource]. *)
Fixpoint addIPClaims (itfce : Interface) (ipclaims : list KubeObject) : comp (result Interface) :=
  match ipclaims with
  | [] => Done (Ok itfce)
  | o :: l =>
      '(_, claim) ←? open (T := IPClaim) (Some o);
      addIPClaims (itf_UpsertIPClaim (ipc_Status claim) itfce) l
  end.
Fixpoint addVLANClaims (itfce : Interface) (vlanclaims : list KubeObject) : comp (result Interface) :=
  match vlanclaims with
  | [] => Done (Ok itfce)
  | o :: l =>
      '(_, claim) ←? open (T := VLANClaim) (Some o);
      addVLANClaims (itf_set_VLANClaimStatus (vlc_Status claim) itfce) l
  end.

Definition updateItfceResource : UpdateResourceFn_t (S := itfceFn) := λ f forObj objs,
  res ←
    match forObj with
    | None => Done (Err "expected a for object but got nil")
    | Some forObj =>
        '(itfceKOE, itfce) ←? open (T := Interface) (Some forObj);
        itfce ←? addIPClaims itfce (sort_by GetName (Where ipam_apiVersion IPClaimKind objs));
        itfce ←? addVLANClaims itfce (Where vlan_apiVersion VLANClaimKind objs);
        '(itfceKOE, err) ← SetStatus itfceKOE itfce;
        Done (of_error [koe_KubeObject itfceKOE] err)
    end;
  Done (f, res).

Definition config : Config itfceFn := mkConfig false
  (gvk req_apiVersion InterfaceKind)
  {[ gvk nad_apiVersion NADKind := ChildRemoteCondition;
     gvk ipam_apiVersion IPClaimKind := ChildRemote;
     gvk vlan_apiVersion VLANClaimKind := ChildRemote ]}
  {[ gvk infra_apiVersion WorkloadClusterKind := Some WorkloadClusterCallbackFn ]}
  (Some desiredOwnedResourceList)
  (Some updateItfceResource).

Definition Run (rl : resourceList) : comp (resourceList * itfceFn * bool * option error) := runFn config None rl.
End interface.

(** ** Properties *)
Section properties.
Context `{!FnSDK, !NephioAPI, !NephioAPILaws, !GoRange, !GoRangeLaws}.

Lemma ipClaims_refs wc o ni kind purpose afs l :
  ipClaims wc o ni kind purpose afs = Ok l →
  obj_ref <$> l = (λ af, gvkn ipam_apiVersion IPClaimKind (claimName o af)) <$> afs.
Proof.
  revert l. induction afs as [|af afs IH]; intros l; simpl; [by intros [= <-]|].
  intros (x & Hx & (xs & Hxs & [= <-])%result_bind_Ok)%result_bind_Ok.
  apply IPClaim_object in Hx as [Hx _]. rewrite fmap_cons. by rewrite Hx, (IH xs Hxs).
Qed.

(** The references of the children of an interface. *)
Definition child_refs (o : KubeObject) (itfce : Interface) : list ObjectReference :=
  ((λ af, gvkn ipam_apiVersion IPClaimKind (claimName o af)) <$> getAddressFamilies (itf_IpFamilyPolicy itfce)) ++
  (if decide (itf_CNIType itfce = "") then []
   else (if decide (itf_AttachmentType itfce = AttachmentTypeVLAN)
         then [gvkn vlan_apiVersion VLANClaimKind (childName o)] else []) ++
        [gvkn nad_apiVersion NADKind (childName o)]).

Lemma children_of_refs wc o itfce ni l : children_of wc o itfce ni = Ok l → obj_ref <$> l = child_refs o itfce.
Proof.
  unfold children_of, child_refs. case_decide.
  { intros Hl%ipClaims_refs. by rewrite Hl, app_nil_r. }
  destruct (negb _); [done|].
  intros (claims & Hc%ipClaims_refs & (vlans & Hv & (nad & Hn & [= <-])%result_bind_Ok)%result_bind_Ok)%result_bind_Ok.
  rewrite !fmap_app, Hc. f_equal. apply NAD_object in Hn as [Hn _]. simpl. rewrite Hn. f_equal.
  case_decide; [|by injection Hv as <-]. apply result_bind_Ok in Hv as (v & Hv & [= <-]).
  apply VLANClaim_object in Hv as [Hv _]. simpl. by rewrite Hv.
Qed.

Lemma config_refs :
  cfg_refs config ≡ₚ [gvk req_apiVersion InterfaceKind; gvk nad_apiVersion NADKind; gvk ipam_apiVersion IPClaimKind;
    gvk vlan_apiVersion VLANClaimKind; gvk infra_apiVersion WorkloadClusterKind].
Proof.
  destruct gvks as [Hnd _]. rewrite !NoDup_cons, !not_elem_of_cons in Hnd.
  unfold cfg_refs, config. cbn [For Owns Watch].
  rewrite map_to_list_singleton, !map_to_list_insert.
  - by rewrite map_to_list_singleton.
  - apply lookup_singleton_None. naive_solver.
  - apply lookup_insert_None. split; [apply lookup_singleton_None|]; naive_solver.
Qed.

Lemma gvk_ok a k :
  APIVersion (gvk a k) ≠ "" ∧ Kind (gvk a k) ≠ "" ∧ IsWildCardRef (gvk a k) = false →
  is_nil (ValidateGVKRef (gvk a k)) = true ∧ IsWildCardRef (gvk a k) = false.
Proof. intros (Ha & Hk & Hw). split; [|done]. apply is_nil_true. by apply ValidateGVKRef_None. Qed.

Lemma config_valid_itfce : config_valid config.
Proof.
  pose proof gvks as [Hnd Hall]. rewrite !Forall_cons in Hall.
  destruct Hall as (Hwc%gvk_ok & _ & Hitf%gvk_ok & _ & Hip%gvk_ok & Hvl%gvk_ok & Hnad%gvk_ok & _).
  split; unfold config; cbn [For Owns Watch UpdateResourceFn].
  - unfold watch_ok. by destruct Hitf as [-> ->].
  - apply map_Forall_insert_2; [|apply map_Forall_insert_2; [|apply map_Forall_singleton]]; unfold own_ok;
      [by destruct Hnad as [-> ->]|by destruct Hip as [-> ->]|by destruct Hvl as [-> ->]].
  - apply map_Forall_singleton. unfold watch_ok. by destruct Hwc as [-> ->].
  - rewrite config_refs. change (NoDup (gvk_of <$> ?l)) with (NoDup l).
    rewrite !NoDup_cons, !not_elem_of_cons in Hnd. rewrite !NoDup_cons, !not_elem_of_cons.
    split_and!; try apply not_elem_of_nil; try apply NoDup_nil_2; naive_solver.
  - done.
Qed.

Lemma child_refs_owned o itfce ref : ref ∈ child_refs o itfce → is_Some (Owns config !! gvk_of ref).
Proof.
  intros Hin. assert (gvk_of ref = gvk ipam_apiVersion IPClaimKind ∨ gvk_of ref = gvk vlan_apiVersion VLANClaimKind ∨
    gvk_of ref = gvk nad_apiVersion NADKind) as Hcase.
  { unfold child_refs in Hin. apply elem_of_app in Hin as [(af & -> & _)%list_elem_of_fmap|Hin]; [by left|].
    case_decide; [by apply elem_of_nil in Hin|].
    apply elem_of_app in Hin as [Hin|Hin]; [|apply list_elem_of_singleton in Hin as ->; by right; right].
    case_decide; [|by apply elem_of_nil in Hin]. apply list_elem_of_singleton in Hin as ->. by right; left. }
  unfold config. cbn [Owns]. rewrite !lookup_insert_is_Some'. destruct Hcase as [->|[->| ->]]; auto.
  right; right. by rewrite lookup_singleton_eq.
Qed.

(** what the interface function generates for an interface: nothing on the default pod
    network; otherwise one IP claim per address family of its policy, in order, and with a
    CNI type a VLAN claim (when attached by VLAN) and a NAD, named after the root resource
    and the interface.  Every generated object is of a kind the function's configuration
    declares as its own, so the SDK can store it. *)
Theorem interface_children wc o f' l :
  desiredOwnedResourceList (Some wc) o = Done (f', Ok l) →
  f' = Some wc ∧
  (∃ ni, itf_NetworkInstance (fst (go_As o)) = Some ni ∧
    obj_ref <$> l = (if decide (Name ni = defaultPODNetwork) then [] else child_refs o (fst (go_As o)))) ∧
  ∃ i, newInventory config = Ok i ∧
    ∀ x, x ∈ l → ∃ rk, isGVKMatch i (Some (obj_ref x)) = Some (mkKindCtx ownGVKKind rk None).
Proof.
  unfold desiredOwnedResourceList. intros (res & Hres & [= <- ->])%comp_bind_Done. split; [done|].
  destruct structs as (Hs & _). unfold open in Hres.
  unfold KubeObjectLib.NewFromKubeObject, GetGoStruct, validateTypeOrPanic in Hres. rewrite Hs in Hres. simpl in Hres.
  destruct (go_As o) as [itfce err]. simpl in Hres. destruct err as [err|]; [done|]. simpl in Hres. cbn [fst].
  destruct (itf_NetworkInstance itfce) as [ni|]; [|done].
  assert (Hrefs : obj_ref <$> l = (if decide (Name ni = defaultPODNetwork) then [] else child_refs o itfce)).
  { case_decide; [by injection Hres as <-|]. injection Hres as Hl. by apply children_of_refs in Hl. }
  split; [by eauto|].
  set (i := mkInv (gvk_table config) emptyResources true false). exists i.
  assert (Hi : newInventory config = Ok i) by (apply newInventory_table; split; [apply config_valid_itfce|done]).
  split; [done|]. intros x Hx. apply (list_elem_of_fmap_2 obj_ref) in Hx. rewrite Hrefs in Hx.
  assert (Hown : is_Some (Owns config !! gvk_of (obj_ref x))).
  { case_decide; [by apply elem_of_nil in Hx|]. by eapply child_refs_owned. }
  destruct Hown as [rk Hrk]. exists rk. unfold isGVKMatch, i. cbn [inv_gvkResources].
  fold (gvk_of (obj_ref x)).
  rewrite (proj2 (gvk_table_lookup config (gvk_of (obj_ref x)) (mkKindCtx ownGVKKind rk None) config_valid_itfce)); [done|].
  right. left. by exists (gvk_of (obj_ref x)), rk.
Qed.
End properties.

(** ** Witness *)
Module InterfaceWitnesses.
Import Model InventoryModel ApiModel.

Definition cluster : obj := mkObj "infra.nephio.org/v1alpha1" "WorkloadCluster" "edge" "" ∅ [] [] None
  {[ "clusterName" := "edge01"; "cnis" := "macvlan,ipvlan" ]}.
Definition n3 : obj := mkObj "req.nephio.org/v1alpha1" "Interface" "n3" ""
  {[ SpecializerOwner := "workload.nephio.org/v1alpha1.NFDeployment.upf" ]} [] [] None
  {[ "networkInstance" := "vpc-ran"; "cniType" := "macvlan"; "attachmentType" := "vlan"; "ipFamilyPolicy" := "dualstack" ]}.

Definition generated : list KubeObject :=
  match desiredOwnedResourceList (Some (cluster : @WorkloadCluster Model.sdk api)) (n3 : @KubeObject Model.sdk) with
  | Done (_, Ok l) => l | _ => [] end.

Lemma interface_children_witness :
  obj_ref <$> generated =
    [gvkn "ipam.resource.nephio.org/v1alpha1" "IPClaim" "upf-n3-ipv4";
     gvkn "ipam.resource.nephio.org/v1alpha1" "IPClaim" "upf-n3-ipv6";
     gvkn "vlan.resource.nephio.org/v1alpha1" "VLANClaim" "upf-n3";
     gvkn "k8s.cni.cncf.io/v1" "NetworkAttachmentDefinition" "upf-n3"] ∧
  ∃ i, newInventory config = Ok i ∧
    ∀ x, x ∈ generated → ∃ rk, isGVKMatch i (Some (obj_ref x)) = Some (mkKindCtx ownGVKKind rk None).
Proof.
  split; [vm_compute; reflexivity|].
  destruct (interface_children (cluster : @WorkloadCluster Model.sdk api) (n3 : @KubeObject Model.sdk) (Some (cluster : @WorkloadCluster Model.sdk api)) generated)
    as (_ & _ & Hi); [vm_compute; reflexivity|exact Hi].
Defined.
End InterfaceWitnesses.
