(* ===== verification/NadFn.v ===== *)
(** * [krm-functions/nad-fn]: the network attachment definition of an interface

    The function waits for the claims of an interface and writes the NAD: the CNI type and
    the master interface of the workload cluster, the addresses the IP claims got and the
    routes of the networks they are in.  Its state is the workload cluster and the networks
    of the package, set by the watches, and the name and namespace of the root resource. *)
From S2P Require Import Prelude External KubeObjectLib SdkModel Ref Kptfile Inventory InventoryDiff InventoryReady Sdk SdkLemmas Nad FnApi.

Definition defaultPODNetwork : string := "default".

Definition containsAddress (s : list Address) (e : string) : bool :=
  existsb (λ a, bool_decide (a_Address a = e)) s.
Definition containsDestination (s : list Route) (e : string) : bool :=
  existsb (λ a, bool_decide (rt_Destination a = e)) s.

(** A slice that was only appended to: nil when it is empty. *)
Definition slice {A} (l : list A) : option (list A) := match l with [] => None | _ => Some l end.

Definition ok_or {A} (p : A * option error) : result A := of_error (fst p) (snd p).

Section nad_fn.
Context `{!FnSDK, !NadSDK, !NephioAPI, !GoRange}.

Record nadFn := mkNadFn {
  workloadCluster : option WorkloadCluster;
  forName : string;
  forNamespace : string;
  networkObjs : list Network
}.

Definition WorkloadClusterCallbackFn : WatchCallbackFn (S := nadFn) := λ f o,
  let '(wc, err) := WorkloadClusterCallback (workloadCluster f) o in
  Done (mkNadFn wc (forName f) (forNamespace f) (networkObjs f), err).

Definition NetworkCallbackFn : WatchCallbackFn (S := nadFn) := λ f o,
  match KubeObjectToStruct (T := Network) o with
  | (_, Some err) => Done (f, Some err)
  | (None, None) => Panic nil_dereference
  | (Some net, None) => Done (mkNadFn (workloadCluster f) (forName f) (forNamespace f) (networkObjs f ++ [net]), None)
  end.

(** The first loop over the interfaces: the last one names the root resource. *)
Definition set_for (f : nadFn) (o : KubeObject) : nadFn :=
  mkNadFn (workloadCluster f) (getForName (GetAnnotations o)) (GetAnnotation o SpecializerNamespace) (networkObjs f).

(** The VLAN of the last VLAN claim, 0 without one. *)
Definition vlanID_of (vlanClaimObjs : list KubeObject) : Z :=
  fold_left (λ _ o, NestedInt_vlanID o) vlanClaimObjs 0%Z.

Definition masterInterface (master cniType : string) (vlanID : Z) : string :=
  if decide (cniType ≠ "vlan" ∧ vlanID ≠ 0%Z) then master +:+ "." +:+ pretty vlanID else master.

(** The second loop over the interfaces. *)
Fixpoint set_interfaces (wc : WorkloadCluster) (vlanID : Z) (itfces : list KubeObject) (nad : NadStruct)
    : comp (result NadStruct) :=
  match itfces with
  | [] => Done (Ok nad)
  | o :: itfces =>
      '(_, itfce) ←? open (T := Interface) (Some o);
      let cniType := itf_CNIType itfce in
      if negb (IsCNITypePresent wc cniType) then
        Done (Err ("cniType not supported in workload cluster; workload cluster CNI(s): [" +:+ fmt_words (wc_CNIs wc) +:+
                   "], interface cniType requested: " +:+ cniType))
      else
        nad ←? Done (ok_or (SetCNIType nad cniType));
        match wc_MasterInterface wc with
        | None => Panic nil_dereference
        | Some master =>
            nad ←? Done (ok_or (if decide (cniType = "bridge") then SetBridgeName nad vlanID
                                else SetNadMaster nad (masterInterface master cniType vlanID)));
            set_interfaces wc vlanID itfces nad
        end
  end.

(** The loops over the claims, the networks, their routing tables and prefixes. *)
Definition addAddress (s : list Address) (address gateway : string) : list Address :=
  if containsAddress s address then s else s ++ [mkAddress address gateway].

Fixpoint addPrefixes (address gateway : string) (prefixes : list string) (s : list Route) : result (list Route) :=
  match prefixes with
  | [] => Ok s
  | prefix :: prefixes =>
      pi ← ip_family prefix;
      pia ← ip_family address;
      addPrefixes address gateway prefixes
        (if decide (pi = pia) then
           if containsDestination s prefix then s else s ++ [mkRoute prefix gateway]
         else s)
  end.

Fixpoint addTables (ni address gateway : string) (rts : list (string * list string)) (s : list Route)
    : result (list Route) :=
  match rts with
  | [] => Ok s
  | (name, prefixes) :: rts =>
      s ← (if decide (name = ni) then addPrefixes address gateway prefixes s else Ok s);
      addTables ni address gateway rts s
  end.

Fixpoint addNetworks (ni address gateway : string) (nets : list Network) (s : list Route) : result (list Route) :=
  match nets with
  | [] => Ok s
  | net :: nets => s ← addTables ni address gateway (net_RoutingTables net) s; addNetworks ni address gateway nets s
  end.

Fixpoint addClaims (nets : list Network) (ipClaims : list KubeObject) (addresses : list Address) (routes : list Route)
    : comp (result (list Address * list Route)) :=
  match ipClaims with
  | [] => Done (Ok (addresses, routes))
  | o :: ipClaims =>
      '(_, claim) ←? open (T := IPClaim) (Some o);
      let address := default "" (st_Prefix (ipc_Status claim)) in
      let gateway := default "" (st_Gateway (ipc_Status claim)) in
      routes ←? Done (if decide (address ≠ "" ∧ gateway ≠ "")
                      then addNetworks (Name (ipc_NetworkInstance claim)) address gateway nets routes
                      else Ok routes);
      addClaims nets ipClaims (addAddress addresses address gateway) routes
  end.

(** The rest of the update once the NAD is there. *)
Definition fillNad (f : nadFn) (wc : WorkloadCluster) (itfces ipClaims : list KubeObject) (vlanID : Z) (nad : NadStruct)
    : comp (result NadStruct) :=
  nad ←? set_interfaces wc vlanID itfces nad;
  '(addresses, routes) ←? addClaims (networkObjs f) ipClaims [] [];
  nad ←? Done (ok_or (SetIpamAddress nad (slice (sort_by a_Address addresses))));
  Done (ok_or (SetIpamRoutes nad (slice (sort_by rt_Destination routes)))).

Definition generate (f : nadFn) (wc : WorkloadCluster) (itfces ipClaims vlanClaims : list KubeObject) (o : KubeObject)
    : comp (result (list KubeObject)) :=
  '(_, itfce) ←? open (T := Interface) (Some o);
  match itf_NetworkInstance itfce with
  | None => Panic nil_dereference
  | Some ni =>
      if decide (Name ni = defaultPODNetwork) then Done (Ok [])
      else if decide (ipClaims = [] ∧ vlanClaims = []) then
        Done (Err ("expected one of " +:+ IPClaimKind +:+ " or " +:+ VLANClaimKind +:+ " objects to generate the nad"))
      else
        nad ←? NewFromGoStruct (Some (nad_new (mkMeta (forName f +:+ "-" +:+ GetName o) (forNamespace f) ∅)));
        nad ←? (if decide (ipClaims = []) then Done (Ok (with_CniSpecType VlanClaimOnly nad))
                else fillNad f wc itfces ipClaims (vlanID_of vlanClaims) nad);
        Done (Ok [koe_KubeObject (nad_K nad)])
  end.

Definition updateResourceFn : UpdateResourceFn_t (S := nadFn) := λ f _ objs,
  match workloadCluster f with
  | None => Done (f, Err "workload cluster is missing from the kpt package")
  | Some wc =>
      let itfces := Where req_apiVersion InterfaceKind objs in
      match itfces with
      | [] => Done (f, Err ("expected " +:+ InterfaceKind +:+ " object to generate the nad"))
      | o :: _ =>
          let f := fold_left set_for itfces f in
          if decide (forName f = "" ∨ forNamespace f = "") then
            Done (f, Err ("expecting a for name and for namespace, got forName: " +:+ forName f +:+
                          ", forNamespace: " +:+ forNamespace f))
          else
            res ← generate f wc itfces (Where ipam_apiVersion IPClaimKind objs) (Where vlan_apiVersion VLANClaimKind objs) o;
            Done (f, res)
      end
  end.

Definition config : Config nadFn := mkConfig false
  (gvk nad_apiVersion NADKind)
  ∅
  {[ gvk infra_apiVersion WorkloadClusterKind := Some WorkloadClusterCallbackFn;
     gvk infra_apiVersion NetworkKind := Some NetworkCallbackFn;
     gvk ipam_apiVersion IPClaimKind := None;
     gvk vlan_apiVersion VLANClaimKind := None;
     gvk req_apiVersion InterfaceKind := None ]}
  None
  (Some updateResourceFn).

Definition Run (rl : resourceList) : comp (resourceList * nadFn * bool * option error) :=
  runFn config (mkNadFn None "" "" []) rl.
End nad_fn.

(** ** Collecting entries with distinct keys *)
Section collect.
Context {A : Type} (key : A → string).

(** [s'] is [s] with an entry for every [P], at most one per key. *)
Record collects (P : A → Prop) (s s' : list A) : Prop := {
  collects_NoDup : NoDup (key <$> s) → NoDup (key <$> s');
  collects_old x : x ∈ s → x ∈ s';
  collects_new x : x ∈ s' → x ∈ s ∨ P x;
  collects_all x : P x → key x ∈ key <$> s'
}.

Lemma collects_none P s : (∀ x, ¬ P x) → collects P s s.
Proof. intros HP. split; auto. intros x Hx. by destruct (HP x). Qed.

Lemma collects_ext P Q s s' : (∀ x, P x ↔ Q x) → collects P s s' → collects Q s s'.
Proof. intros HPQ [H1 H2 H3 H4]. split; [done|done|naive_solver|naive_solver]. Qed.

Lemma collects_trans P Q s1 s2 s3 :
  collects P s1 s2 → collects Q s2 s3 → collects (λ x, P x ∨ Q x) s1 s3.
Proof.
  intros [H1 H2 H3 H4] [K1 K2 K3 K4]. split; [auto|auto|naive_solver|].
  intros x [Hx|Hx]; [|by apply K4]. apply H4, list_elem_of_fmap in Hx as (y & -> & Hy).
  apply list_elem_of_fmap. eauto.
Qed.

Lemma collects_add x s :
  collects (λ y, y = x) s (if existsb (λ a, bool_decide (key a = key x)) s then s else s ++ [x]).
Proof.
  destruct (existsb _ s) eqn:He.
  - split; auto. intros y ->. apply existsb_exists in He as (a & Ha%list_elem_of_In & Hk%bool_decide_eq_true).
    rewrite <-Hk. by apply list_elem_of_fmap_2.
  - split.
    + intros Hnd. rewrite fmap_app. apply NoDup_app. split; [done|]. split; [|apply NoDup_singleton].
      intros k (a & -> & Ha)%list_elem_of_fmap Hk%list_elem_of_singleton.
      assert (existsb (λ a, bool_decide (key a = key x)) s = true) as Ht by
        (apply existsb_exists; exists a; split; [by apply list_elem_of_In|by apply bool_decide_eq_true]).
      congruence.
    + set_solver.
    + set_solver.
    + intros y ->. rewrite fmap_app. set_solver.
Qed.
End collect.

(** ** Properties *)
Section collect_properties.
Context `{!FnSDK, !NadSDK, !NephioAPI, !NephioAPILaws, !GoRange}.

(** Both are prefixes of one address family. *)
Definition same_family (a b : string) : Prop := ∃ fam, ip_family a = Ok fam ∧ ip_family b = Ok fam.

(** The route to [prefixes] the claim of an address adds. *)
Definition route_to (address gateway : string) (prefixes : list string) (r : Route) : Prop :=
  rt_Gateway r = gateway ∧ rt_Destination r ∈ prefixes ∧ same_family (rt_Destination r) address.

Lemma addPrefixes_collects address gateway prefixes s s' :
  addPrefixes address gateway prefixes s = Ok s' →
  collects rt_Destination (route_to address gateway prefixes) s s'.
Proof.
  revert s. induction prefixes as [|p ps IH]; intros s; simpl.
  { intros [= <-]. apply collects_none. intros r (_ & Hr & _). by apply elem_of_nil in Hr. }
  intros (pi & Hpi & (pia & Hpia & Hrec)%result_bind_Ok)%result_bind_Ok. apply IH in Hrec.
  case_decide as Hfam.
  - subst pia. eapply collects_ext; [|eapply collects_trans; [apply (collects_add rt_Destination (mkRoute p gateway) s)|exact Hrec]].
    intros [d g]. unfold route_to, same_family. simpl. rewrite elem_of_cons. split; [|naive_solver].
    intros [[= -> ->]|(? & ? & ?)]; naive_solver.
  - eapply collects_ext; [|exact Hrec]. intros [d g]. unfold route_to, same_family. simpl. rewrite elem_of_cons.
    split; [naive_solver|]. intros (-> & [->|Hd] & fam & Hf1 & Hf2); [|naive_solver]. congruence.
Qed.

(** The route over one of the tables of the network instance. *)
Definition route_over (ni address gateway : string) (rts : list (string * list string)) (r : Route) : Prop :=
  ∃ prefixes, (ni, prefixes) ∈ rts ∧ route_to address gateway prefixes r.

Lemma addTables_collects ni address gateway rts s s' :
  addTables ni address gateway rts s = Ok s' →
  collects rt_Destination (route_over ni address gateway rts) s s'.
Proof.
  revert s. induction rts as [|[name ps] rts IH]; intros s; simpl.
  { intros [= <-]. apply collects_none. intros r (ps & Hr & _). by apply elem_of_nil in Hr. }
  intros (s1 & Hs1 & Hrec)%result_bind_Ok. apply IH in Hrec. case_decide as Hn.
  - subst name. apply addPrefixes_collects in Hs1.
    eapply collects_ext; [|by eapply collects_trans]. intros r. unfold route_over. setoid_rewrite elem_of_cons.
    split; [naive_solver|]. intros (ps' & [[= ->]|Hin] & Hr); naive_solver.
  - injection Hs1 as <-. eapply collects_ext; [|exact Hrec]. intros r. unfold route_over.
    setoid_rewrite elem_of_cons. naive_solver.
Qed.

Lemma addNetworks_collects ni address gateway nets s s' :
  addNetworks ni address gateway nets s = Ok s' →
  collects rt_Destination (λ r, ∃ net, net ∈ nets ∧ route_over ni address gateway (net_RoutingTables net) r) s s'.
Proof.
  revert s. induction nets as [|net nets IH]; intros s; simpl.
  { intros [= <-]. apply collects_none. intros r (net & Hr & _). by apply elem_of_nil in Hr. }
  intros (s1 & Hs1%addTables_collects & Hrec%IH)%result_bind_Ok.
  eapply collects_ext; [|by eapply collects_trans]. intros r. cbv beta. setoid_rewrite elem_of_cons. naive_solver.
Qed.

(** The claims as Go values, the address of a claim and the routes it adds. *)
Definition claim_of (o : KubeObject) : IPClaim := fst (go_As o).
Definition claim_address (c : IPClaim) : Address :=
  mkAddress (default "" (st_Prefix (ipc_Status c))) (default "" (st_Gateway (ipc_Status c))).
Definition claim_route (nets : list Network) (c : IPClaim) (r : Route) : Prop :=
  a_Address (claim_address c) ≠ "" ∧ a_Gateway (claim_address c) ≠ "" ∧
  ∃ net, net ∈ nets ∧ route_over (Name (ipc_NetworkInstance c)) (a_Address (claim_address c))
                        (a_Gateway (claim_address c)) (net_RoutingTables net) r.

Lemma addClaims_collects nets objs s rs s' rs' :
  addClaims nets objs s rs = Done (Ok (s', rs')) →
  collects a_Address (λ a, ∃ o, o ∈ objs ∧ a = claim_address (claim_of o)) s s' ∧
  collects rt_Destination (λ r, ∃ o, o ∈ objs ∧ claim_route nets (claim_of o) r) rs rs'.
Proof.
  revert s rs. destruct structs as (_ & _ & Hs & _). induction objs as [|o objs IH]; intros s rs.
  { simpl. intros [= <- <-]. split; apply collects_none; intros r (o & Ho & _); by apply elem_of_nil in Ho. }
  cbn [addClaims]. rewrite open_spec by done. unfold claim_of at 1 2. destruct (go_As o) as [c [e|]] eqn:Hc; [done|].
  cbn [try_bind of_error fst snd]. 
  destruct (if decide _ then _ else _) as [rs1|e] eqn:Hr; [|done]. cbn [try_bind]. intros [Ha Hrs]%IH. split.
  - eapply collects_ext; [|eapply collects_trans; [|exact Ha]].
    2:{ apply (collects_add a_Address (claim_address c) s). }
    intros a. cbv beta. setoid_rewrite elem_of_cons. rewrite <-(f_equal fst Hc : _ = c). naive_solver.
  - assert (Hone : collects rt_Destination (claim_route nets c) rs rs1).
    { case_decide as Hne.
      - apply addNetworks_collects in Hr. eapply collects_ext; [|exact Hr]. intros r. unfold claim_route. simpl. naive_solver.
      - injection Hr as <-. apply collects_none. intros r (Hr1 & Hr2 & _). apply Hne. done. }
    eapply collects_ext; [|eapply collects_trans; [exact Hone|exact Hrs]].
    intros r. cbv beta. setoid_rewrite elem_of_cons. rewrite <-(f_equal fst Hc : _ = c). naive_solver.
Qed.

(** the addresses and routes of a NAD: one address per distinct prefix of the claims,
    with the gateway of a claim that has it; one route per destination of a routing table
    of a claim's network instance that is of the family of the claim's address, over the
    claim's gateway; and none of a claim without address or gateway. *)
Theorem nad_addresses_routes nets objs addresses routes :
  addClaims nets objs [] [] = Done (Ok (addresses, routes)) →
  NoDup (a_Address <$> addresses) ∧ NoDup (rt_Destination <$> routes) ∧
  (∀ a, a ∈ addresses → ∃ o, o ∈ objs ∧ a = claim_address (claim_of o)) ∧
  (∀ o, o ∈ objs → a_Address (claim_address (claim_of o)) ∈ a_Address <$> addresses) ∧
  (∀ r, r ∈ routes → ∃ o, o ∈ objs ∧ claim_route nets (claim_of o) r) ∧
  (∀ o r, o ∈ objs → claim_route nets (claim_of o) r → rt_Destination r ∈ rt_Destination <$> routes).
Proof.
  intros [[A1 _ A3 A4] [R1 _ R3 R4]]%addClaims_collects. split_and!.
  - apply A1, NoDup_nil_2.
  - apply R1, NoDup_nil_2.
  - intros a Ha. apply A3 in Ha as [Ha|Ha]; [by apply elem_of_nil in Ha|done].
  - intros o Ho. apply A4. eauto.
  - intros r Hr. apply R3 in Hr as [Hr|Hr]; [by apply elem_of_nil in Hr|done].
  - intros o r Ho Hr. apply R4. eauto.
Qed.
End collect_properties.

(** The NAD type's empty spec has no configuration text. *)
Class NadAPILaws `{!FnSDK, !NadSDK, !NephioAPI} : Prop :=
  NAD_empty meta o s :
    NewFromTypedObject (go_any (nad_new meta)) = Ok o → NestedString o ConfigType = Ok (Some s) → s = "".

(** The configuration of a NAD with one interface, given what it is made of. *)
Definition expected_plugin (cniType master : string) (vlanID : Z) (addresses : list Address) (routes : list Route)
    (p : PluginCniType) : PluginCniType :=
  let p := put_Type cniType p in
  let p := if decide (cniType = "bridge") then put_Name (bridgeName vlanID) (put_Bridge (bridgeName vlanID) p)
           else put_Master (masterInterface master cniType vlanID) p in
  put_Ipam (mkIpam (ipam_Type (pl_Ipam p)) addresses routes) p.
Definition expected_config (cniType master : string) (vlanID : Z) (addresses : list Address) (routes : list Route)
    : NadConfig :=
  mkNadConfig "0.3.1" 0
    ((λ p, if isTuning p then p else expected_plugin cniType master vlanID addresses routes p) <$>
     defaultPlugins (cniSpecType cniType OtherType)).

Section generated.
Context `{!FnSDK, !NadSDK, !NadSDKLaws, !NephioAPI, !NephioAPILaws, !NadAPILaws, !GoRange}.

(** The configuration read, whatever the CNI type assumed. *)
Definition reads (r : NadStruct) (c : NadConfig) : Prop := ∀ t, getNadConfig (with_CniSpecType t r) = Ok c.
Definition settled (c : NadConfig) : Prop := Plugins c ≠ [] ∧ CniVersion c = CniVersion_const.

Lemma complete_settled t c : settled c → complete t c = c.
Proof. destruct c as [v vl [|p l]]; intros [Hp Hv]; simpl in *; [done|]. unfold complete. simpl. by subst. Qed.
Lemma settled_update u c : settled c → settled (spec_update u c).
Proof. destruct c as [v vl [|p l]]; intros [Hp Hv]; simpl in *; [done|]. by destruct u. Qed.

Lemma reads_update u r c r' :
  update_bounded u = true → getNadConfig (with_CniSpecType (spec_type u (nad_CniSpecType r)) r) = Ok c → settled c →
  config_ascii (spec_update u c) = true → run_update u r = (r', None) → reads r' (spec_update u c).
Proof.
  intros Hu Hc Hs Ha Hrun t. destruct (run_update_read u r r' Hu Hrun) as (c' & Hc' & Hread).
  rewrite Hc in Hc'. injection Hc' as <-. destruct Hread as [_ Hall]; [by apply json_ok_NadConfig|].
  rewrite Hall, complete_settled; [done|]. by apply settled_update.
Qed.

Lemma new_nad_config meta r t :
  NewFromGoStruct (Some (nad_new meta)) = Done (Ok r) →
  getNadConfig (with_CniSpecType t r) = Ok (complete t zeroNadConfig) ∧ nad_CniSpecType r = OtherType ∧
  obj_ref (koe_KubeObject (nad_K r)) = gvkn nad_apiVersion NADKind (om_Name meta).
Proof.
  destruct structs as (_ & _ & _ & _ & Hs).
  unfold NewFromGoStruct, KubeObjectLib.NewFromGoStruct, KubeObjectLib.NewFromKubeObject, validateTypeOrPanic.
  rewrite Hs. cbn. destruct (NewFromTypedObject _) as [o|e] eqn:Ho; [|done]. cbn. intros [= <-]. split_and!; [|done|].
  - assert (Hempty : GetConfigSpec (with_CniSpecType t (mkNad (mkKubeObjectExt o) OtherType)) = "").
    { unfold GetConfigSpec, getStringValue. cbn. destruct (NestedString o ConfigType) as [[s|]|] eqn:Hn; try done.
      by eapply NAD_empty. }
    unfold getNadConfig. rewrite Hempty, decide_True by done. by rewrite parse_empty.
  - apply NAD_object in Ho as [Ho _]. exact Ho.
Qed.

Lemma ok_or_Ok {A} (p : A * option error) x : ok_or p = Ok x → p = (x, None).
Proof. destruct p as [y [e|]]; [done|]. by intros [= <-]. Qed.

(** The update that names the interface the NAD is attached to. *)
Definition attach (cniType master : string) (vlanID : Z) : nad_update :=
  if decide (cniType = "bridge") then UBridgeName vlanID else UMaster (masterInterface master cniType vlanID).

Lemma set_interfaces_one wc vlanID o nad r :
  set_interfaces wc vlanID [o] nad = Done (Ok r) →
  ∃ master nad1, wc_MasterInterface wc = Some master ∧
    run_update (UCNIType (itf_CNIType (fst (go_As o)))) nad = (nad1, None) ∧
    run_update (attach (itf_CNIType (fst (go_As o))) master vlanID) nad1 = (r, None).
Proof.
  destruct structs as (Hs & _). cbn [set_interfaces]. rewrite open_spec by done.
  destruct (go_As o) as [itfce [e|]]; [done|]. cbn [try_bind of_error fst snd].
  destruct (negb _); [done|]. cbv zeta. destruct (ok_or (SetCNIType _ _)) as [nad1|e] eqn:Hr1; [|done]. cbn [try_bind].
  destruct (wc_MasterInterface wc) as [master|]; [|done].
  destruct (ok_or (if decide _ then _ else _)) as [nad2|e] eqn:Hr2; [|done]. cbn [try_bind]. intros [= <-].
  exists master, nad1. split; [done|]. apply ok_or_Ok in Hr1, Hr2. split; [exact Hr1|].
  unfold attach. by case_decide.
Qed.
Lemma cniSpecType_plugins cniType : settled (complete (cniSpecType cniType OtherType) zeroNadConfig).
Proof. unfold cniSpecType. repeat case_decide; done. Qed.

(** The updates in the order of the function give the expected configuration. *)
Definition config_before (cniType master : string) (vlanID : Z) : NadConfig :=
  spec_update (attach cniType master vlanID)
    (spec_update (UCNIType cniType) (complete (cniSpecType cniType OtherType) zeroNadConfig)).

Lemma expected_config_updates cniType master vlanID addresses routes :
  cniType ≠ TuningType →
  spec_update (UIpamRoutes routes) (spec_update (UIpamAddress addresses) (config_before cniType master vlanID)) =
    expected_config cniType master vlanID addresses routes ∧
  spec_update (UIpamAddress addresses) (config_before cniType master vlanID) =
    expected_config cniType master vlanID addresses [].
Proof.
  intros Hc. unfold config_before, expected_config, attach, expected_plugin.
  assert (Hd : bool_decide (cniType = "tuning") = false) by by apply bool_decide_eq_false_2.
  destruct (decide (cniType = "bridge")); destruct (cniSpecType cniType OtherType);
    cbn; unfold on_plugins, complete, isTuning, TuningType; cbn; change (bool_decide ("" = "tuning")) with false;
    try change (bool_decide ("tuning" = "tuning")) with true; cbn; repeat (rewrite Hd; cbn); done.
Qed.

Lemma config_before_ascii cniType master vlanID :
  is_ascii cniType = true → is_ascii master = true →
  config_ascii (spec_update (UCNIType cniType) (complete (cniSpecType cniType OtherType) zeroNadConfig)) = true ∧
  config_ascii (config_before cniType master vlanID) = true.
Proof.
  intros Hc Hm. apply and_wlog_r.
  - apply on_plugins_ascii; [|by destruct (cniSpecType cniType OtherType)].
    intros p. unfold plugin_ascii. simpl. rewrite !andb_true_iff. naive_solver.
  - intros Ht. unfold config_before, attach. case_decide; apply on_plugins_ascii; try exact Ht; intros p; unfold plugin_ascii;
      simpl; rewrite !andb_true_iff.
    + assert (is_ascii (bridgeName vlanID) = true) by (unfold bridgeName; by rewrite is_ascii_app, pretty_ascii). naive_solver.
    + assert (is_ascii (masterInterface master cniType vlanID) = true).
      { unfold masterInterface. case_decide; [|done]. by rewrite !is_ascii_app, Hm, pretty_ascii. }
      naive_solver.
Qed.

Lemma ipam_ascii_updates addresses routes c :
  forallb address_ascii addresses = true → forallb route_ascii routes = true → config_ascii c = true →
  config_ascii (spec_update (UIpamAddress addresses) c) = true ∧
  config_ascii (spec_update (UIpamRoutes routes) (spec_update (UIpamAddress addresses) c)) = true.
Proof.
  intros Ha Hr Hc. apply and_wlog_r.
  - apply on_plugins_ascii; [|done]. intros p. unfold plugin_ascii, ipam_ascii. simpl. rewrite !andb_true_iff. naive_solver.
  - intros Hc'. apply on_plugins_ascii; [|done]. intros p. unfold plugin_ascii, ipam_ascii. simpl. rewrite !andb_true_iff. naive_solver.
Qed.
Lemma run_update_obj_ref u r r' :
  run_update u r = (r', None) → obj_ref (koe_KubeObject (nad_K r')) = obj_ref (koe_KubeObject (nad_K r)).
Proof. intros [(Ha & Hk & Hn & _) _]%run_update_header. unfold obj_ref. by rewrite Ha, Hk, Hn. Qed.

(** The two last updates: the addresses, and the routes if there are any. *)
Lemma ipam_reads nad c addresses routes r1 r2 :
  reads nad c → settled c → config_ascii c = true →
  forallb address_ascii addresses = true → forallb route_ascii routes = true →
  SetIpamAddress nad (slice addresses) = (r1, None) → SetIpamRoutes r1 (slice routes) = (r2, None) →
  obj_ref (koe_KubeObject (nad_K r2)) = obj_ref (koe_KubeObject (nad_K nad)) ∧
  reads r2 (match routes with
            | [] => spec_update (UIpamAddress addresses) c
            | _ => spec_update (UIpamRoutes routes) (spec_update (UIpamAddress addresses) c)
            end).
Proof.
  intros Hr Hs Hc Ha Hro Hset1 Hset2. destruct (ipam_ascii_updates addresses routes c Ha Hro Hc) as [Hc1 Hc2].
  assert (run_update (UIpamAddress addresses) nad = (r1, None)) as Hu1 by by destruct addresses.
  assert (Hr1 : reads r1 (spec_update (UIpamAddress addresses) c)) by (apply (reads_update (UIpamAddress addresses) nad); [done|apply Hr|done|done|done]).
  destruct routes as [|ro routes].
  - injection Hset2 as <-. split; [by eapply run_update_obj_ref|done].
  - split.
    + rewrite (run_update_obj_ref (UIpamRoutes (ro :: routes)) r1 r2 Hset2). by eapply run_update_obj_ref.
    + apply (reads_update (UIpamRoutes (ro :: routes)) r1); [done|apply Hr1|by apply settled_update|done|done].
Qed.

Lemma fillNad_config f wc o claims vlanID meta nad r :
  let cniType := itf_CNIType (fst (go_As o)) in
  NewFromGoStruct (Some (nad_new meta)) = Done (Ok nad) → cniType ≠ TuningType → is_ascii cniType = true →
  fillNad f wc [o] claims vlanID nad = Done (Ok r) →
  ∃ master addresses routes, wc_MasterInterface wc = Some master ∧
    addClaims (networkObjs f) claims [] [] = Done (Ok (addresses, routes)) ∧
    (is_ascii master = true → forallb address_ascii addresses = true → forallb route_ascii routes = true →
     obj_ref (koe_KubeObject (nad_K r)) = gvkn nad_apiVersion NADKind (om_Name meta) ∧
     reads r (expected_config cniType master vlanID (sort_by a_Address addresses) (sort_by rt_Destination routes))).
Proof.
  intros cniType Hnew Htun Hasc. unfold fillNad.
  destruct (set_interfaces _ _ _ _) as [[nad2|e]|] eqn:Hset; [|done|done]. cbn [try_bind].
  apply set_interfaces_one in Hset as (master & nad1 & Hm & Hu1 & Hu2).
  destruct (addClaims _ _ _ _) as [[[addresses routes]|e]|] eqn:Hcl; [|done|done]. cbn [try_bind].
  destruct (ok_or (SetIpamAddress _ _)) as [r1|e] eqn:Hr1; [|done]. cbn [try_bind]. apply ok_or_Ok in Hr1.
  intros [= Hr2%ok_or_Ok]. exists master, addresses, routes. split; [done|]. split; [done|]. intros Hma Ha Hr.
  fold cniType in Hu1, Hu2. set (c0 := complete (cniSpecType cniType OtherType) zeroNadConfig).
  destruct (new_nad_config meta nad (cniSpecType cniType OtherType) Hnew) as (Hc0 & Ht & Href).
  assert (Hs0 : settled c0) by apply cniSpecType_plugins.
  destruct (config_before_ascii cniType master vlanID Hasc Hma) as [Hc1 Hc2].
  assert (Hn1 : reads nad1 (spec_update (UCNIType cniType) c0)).
  { apply (reads_update (UCNIType cniType) nad c0 nad1); try done. simpl. by rewrite Ht. }
  assert (Hn2 : reads nad2 (config_before cniType master vlanID)).
  { eapply reads_update; [|apply Hn1|by apply settled_update|done|done]. unfold attach. by case_decide. }
  assert (Hsa : forallb address_ascii (sort_by a_Address addresses) = true).
  { apply forallb_forall. intros a Hin%list_elem_of_In. rewrite sort_by_perm in Hin.
    rewrite forallb_forall in Ha. by apply Ha, list_elem_of_In. }
  assert (Hsr : forallb route_ascii (sort_by rt_Destination routes) = true).
  { apply forallb_forall. intros a Hin%list_elem_of_In. rewrite sort_by_perm in Hin.
    rewrite forallb_forall in Hr. by apply Hr, list_elem_of_In. }
  destruct (ipam_reads _ _ _ _ _ _ Hn2 (settled_update _ _ (settled_update _ _ Hs0)) Hc2 Hsa Hsr Hr1 Hr2) as [Hor Hre].
  split; [by rewrite Hor, (run_update_obj_ref _ _ _ Hu2), (run_update_obj_ref _ _ _ Hu1)|].
  destruct (expected_config_updates cniType master vlanID (sort_by a_Address addresses) (sort_by rt_Destination routes) Htun)
    as [Hc3 Hc4]. destruct (sort_by rt_Destination routes); [by rewrite <-Hc4|by rewrite <-Hc3].
Qed.

End generated.

(** ** Witnesses *)
Module NadFnWitnesses.
Import Model InventoryModel ApiModel NadWitnesses.

#[export] Instance nad_api_laws : NadAPILaws.
Proof. intros meta o s [= <-] [=]. Qed.

Definition thing (api kind name : string) (ann extra : gmap string string) : obj :=
  mkObj api kind name "" ann [] [] None extra.
Definition cluster : obj := thing "infra.nephio.org/v1alpha1" "WorkloadCluster" "edge" ∅
  {[ "clusterName" := "edge01"; "cnis" := "macvlan,ipvlan"; "masterInterface" := "eth1" ]}.
Definition n3 : obj := thing "req.nephio.org/v1alpha1" "Interface" "n3"
  {[ SpecializerOwner := "workload.nephio.org/v1alpha1.NFDeployment.upf"; SpecializerNamespace := "free5gc" ]}
  {[ "networkInstance" := "vpc-ran"; "cniType" := "macvlan" ]}.
Definition claim (name prefix gateway : string) : obj := thing "ipam.resource.nephio.org/v1alpha1" "IPClaim" name ∅
  {[ "prefix" := prefix; "gateway" := gateway; "networkInstance" := "vpc-ran" ]}.
Definition claims : list obj := [claim "b" "10.0.0.9/24" "10.0.0.1"; claim "a" "10.0.0.3/24" "10.0.0.1"; claim "c" "10.0.0.9/24" "10.0.0.2"].
Definition vlan : obj := thing "vlan.resource.nephio.org/v1alpha1" "VLANClaim" "n3" ∅ {[ "vlanID" := "1111" ]}.
Definition net : obj := thing "infra.nephio.org/v1alpha1" "Network" "vpc-ran" ∅
  {[ "table" := "vpc-ran"; "prefixes" := "10.2.0.0/16,10.1.0.0/16,1000::/64" ]}.

Definition fn0 : @nadFn Model.sdk api := mkNadFn (Some (cluster : @WorkloadCluster Model.sdk api)) "" "" [(net : @Network Model.sdk api)].
Definition objs : list (@KubeObject Model.sdk) := n3 :: vlan :: claims.

Definition collected : list Address * list Route :=
  match addClaims (networkObjs fn0) (claims : list (@KubeObject Model.sdk)) [] [] with Done (Ok p) => p | _ => ([], []) end.

Lemma nad_addresses_routes_witness :
  collected = ([mkAddress "10.0.0.9/24" "10.0.0.1"; mkAddress "10.0.0.3/24" "10.0.0.1"],
               [mkRoute "10.2.0.0/16" "10.0.0.1"; mkRoute "10.1.0.0/16" "10.0.0.1"]) ∧
  NoDup (a_Address <$> fst collected) ∧ NoDup (rt_Destination <$> snd collected).
Proof.
  split; [vm_compute; reflexivity|].
  destruct (nad_addresses_routes (networkObjs fn0) (claims : list (@KubeObject Model.sdk)) (fst collected) (snd collected))
    as (H1 & H2 & _); [vm_compute; reflexivity|]. exact (conj H1 H2).
Defined.

Definition generated : @KubeObject Model.sdk :=
  match updateResourceFn fn0 None objs with Done (_, Ok [o]) => o | _ => n3 end.
Definition fn1 : @nadFn Model.sdk api :=
  match updateResourceFn fn0 None objs with Done (f, _) => f | _ => fn0 end.

End NadFnWitnesses.
