(* ===== verification/DnnFn.v ===== *)
(** * [krm-functions/dnn-fn]: the address pools of a data network

    For every pool of a [DataNetwork] the function generates an IP claim, and it collects
    the status of the claims into the status of the data network.  Its state is the
    workload cluster of the package and the warnings it adds to the results. *)
From S2P Require Import Prelude External KubeObjectLib SdkModel KubeObjectTheorems Ref Kptfile Inventory InventoryDiff InventoryReady Sdk SdkLemmas FnApi.

Section dnn_fn.
Context `{!FnSDK, !NephioAPI, !GoRange}.

(** [warnings]: what the function adds to the results with [Warningf], in order. *)
Record dnnFn := mkDnnFn { workloadCluster : option WorkloadCluster; warnings : list string }.

Definition WorkloadClusterCallbackFn : WatchCallbackFn (S := dnnFn) := λ f o,
  let '(wc, err) := WorkloadClusterCallback (workloadCluster f) o in Done (mkDnnFn wc (warnings f), err).

Definition Warningf (msg : string) (f : dnnFn) : dnnFn := mkDnnFn (workloadCluster f) (warnings f ++ [msg]).

(** The names of the claims of a data network: this prefix and the name of the pool. *)
Definition claimPrefix (annotations : gmap string string) (dnnName : string) : string :=
  getForName annotations +:+ "-" +:+ dnnName +:+ "-".

Definition pool_claim (wc : WorkloadCluster) (o : KubeObject) (dnn : DataNetwork) (pool : string * string * Z)
    : result KubeObject :=
  let '(poolName, poolFamily, prefixLength) := pool in
  let af := if decide (poolFamily = IPFamilyIPv6) then AddressFamilyIpv6 else AddressFamilyIpv4 in
  NewFromTypedObject (BuildIPClaim
    (mkMeta (claimPrefix (GetAnnotations o) (dn_Name dnn) +:+ poolName) "" (getAnnotations (dn_Annotations dnn)))
    (mkIPClaimSpec PrefixKindPool (dn_NetworkInstance dnn) (Some prefixLength) (Some true)
       (<[NephioAddressFamilyKey := af]> {[ NephioClusterNameKey := wc_ClusterName wc ]}))).

(** The loop over the pools. *)
Fixpoint pool_claims (wc : WorkloadCluster) (o : KubeObject) (dnn : DataNetwork) (pools : list (string * string * Z))
    : result (list KubeObject) :=
  match pools with
  | [] => Ok []
  | pool :: pools => c ← pool_claim wc o dnn pool; cs ← pool_claims wc o dnn pools; Ok (c :: cs)
  end.

Definition desiredOwnedResourceList : PopulateOwnResourcesFn_t (S := dnnFn) := λ f o,
  match workloadCluster f with
  | None => Done (f, Err "workload cluster is missing from the kpt package")
  | Some wc =>
      match KubeObjectToStruct (T := DataNetwork) (Some o) with
      | (_, Some err) => Done (f, Err err)
      | (None, None) => Panic nil_dereference
      | (Some dnn, None) => Done (f, pool_claims wc o dnn (dn_Pools dnn))
      end
  end.

(** The loop over the claims: the pools of the status, and the warnings. *)
Fixpoint pool_statuses (dnn : DataNetwork) (claims : list IPClaim) (f : dnnFn)
    : dnnFn * list (string * IPClaimStatus) :=
  match claims with
  | [] => (f, [])
  | c :: claims =>
      if decide (ipc_Kind c = PrefixKindPool) then
        match CutPrefix (ipc_Name c) (claimPrefix (dn_Annotations dnn) (dn_Name dnn)) with
        | Some poolName =>
            let '(f, pools) := pool_statuses dnn claims f in (f, (poolName, ipc_Status c) :: pools)
        | None =>
            pool_statuses dnn claims
              (Warningf ("found an IPClaim owned by DNN " +:+ quote (dn_Name dnn) +:+
                         " with a suspicious name: " +:+ ipc_Name c) f)
        end
      else pool_statuses dnn claims f
  end.

Definition updateDnnResource : UpdateResourceFn_t (S := dnnFn) := λ f dnnObj_ owned,
  r ← open (T := DataNetwork) dnnObj_;
  match r with
  | Err err => Done (f, Err err)
  | Ok (dnnObj, dnn) =>
      r ← FilterByType (T := IPClaim) owned;
      match r with
      | Err err => Done (f, Err err)
      | Ok (ipclaims, _) =>
          let '(f, pools) := pool_statuses dnn ipclaims f in
          '(dnnObj, err) ← SetStatus dnnObj (dn_set_Pools pools dnn);
          Done (f, of_error [koe_KubeObject dnnObj] err)
      end
  end.

Definition config : Config dnnFn := mkConfig false
  (gvk req_apiVersion DataNetworkKind)
  {[ gvk ipam_apiVersion IPClaimKind := ChildRemote ]}
  {[ gvk infra_apiVersion WorkloadClusterKind := Some WorkloadClusterCallbackFn ]}
  (Some desiredOwnedResourceList)
  (Some updateDnnResource).

Definition Run (rl : resourceList) : comp (resourceList * dnnFn * bool * option error) :=
  runFn config (mkDnnFn None []) rl.
End dnn_fn.

(** Decoding of the two kinds of objects, and the registered kind of IP claims. *)
Class DnnAPILaws `{!FnSDK, !NephioAPI} : Prop := {
  IPClaim_scheme : go_scheme_gvk (T := IPClaim) = Some (ipam_apiVersion, IPClaimKind);
  DataNetwork_Annotations o : dn_Annotations (fst (go_As o)) = GetAnnotations o;
  IPClaim_Name o : ipc_Name (fst (go_As o)) = GetName o;
  IPClaim_Kind meta spec o :
    NewFromTypedObject (BuildIPClaim meta spec) = Ok o → ipc_Kind (fst (go_As o)) = ip_Kind spec
}.

(** ** Properties *)
Section properties.
Context `{!FnSDK, !FnSDKLaws, !NephioAPI, !NephioAPILaws, !DnnAPILaws, !GoRange}.

(** [x] is the claim [c] after the IPAM backend set its status. *)
Definition answered (c x : KubeObject) : Prop :=
  obj_ref x = obj_ref c ∧ snd (go_As (T := IPClaim) x) = None ∧
  ipc_Kind (fst (go_As x)) = ipc_Kind (fst (go_As c)).

(** The status of the pools: the name of each pool with the status of its claim. *)
Definition pool_status (pool : string * string * Z) (x : KubeObject) : string * IPClaimStatus :=
  (pool.1.1, ipc_Status (fst (go_As x))).

Lemma pool_claims_refs wc o dnn pools l :
  pool_claims wc o dnn pools = Ok l →
  Forall2 (λ pool c, obj_ref c = gvkn ipam_apiVersion IPClaimKind (claimPrefix (GetAnnotations o) (dn_Name dnn) +:+ pool.1.1) ∧
                     ipc_Kind (fst (go_As c)) = PrefixKindPool) pools l.
Proof.
  revert l. induction pools as [|[[name fam] len] pools IH]; intros l; simpl; [intros [= <-]; constructor|].
  intros (c & Hc & (cs & Hcs & [= <-])%result_bind_Ok)%result_bind_Ok. constructor; [|by apply IH].
  pose proof (IPClaim_object _ _ _ Hc) as [Href _]. split; [exact Href|]. by rewrite (IPClaim_Kind _ _ _ Hc).
Qed.

(** Claims of the pools, with any status, give back the pools and no warning. *)
Lemma pool_statuses_roundtrip dnn f pools owned :
  Forall2 (λ pool x, GetName x = claimPrefix (dn_Annotations dnn) (dn_Name dnn) +:+ pool.1.1 ∧
                     ipc_Kind (fst (go_As x)) = PrefixKindPool) pools owned →
  pool_statuses dnn ((λ x, fst (go_As x)) <$> owned) f = (f, zip_with pool_status pools owned).
Proof.
  induction 1 as [|pool x pools owned [Hn Hk] _ IH]; [done|].
  cbn [fmap list_fmap pool_statuses]. rewrite decide_True by done. rewrite IPClaim_Name, Hn, CutPrefix_app.
  by rewrite IH.
Qed.

Lemma FilterByType_claims owned :
  Forall (λ x, obj_ref x = gvkn ipam_apiVersion IPClaimKind (GetName x) ∧ snd (go_As (T := IPClaim) x) = None) owned →
  FilterByType (T := IPClaim) owned = Done (Ok ((λ x, fst (go_As x)) <$> owned, [])).
Proof.
  intros Hall. rewrite (FilterByType_ok (ipam_apiVersion, IPClaimKind)).
  - assert (Hk : Forall (λ o, of_kind (ipam_apiVersion, IPClaimKind) o = true) owned).
    { eapply Forall_impl; [exact Hall|]. intros x [[= Ha Hk] _]. unfold of_kind. simpl. rewrite <-Ha, <-Hk.
      apply IsGroupVersionKind_refl. }
    assert (filter (λ o, of_kind (ipam_apiVersion, IPClaimKind) o = true) owned = owned ∧
            filter (λ o, of_kind (ipam_apiVersion, IPClaimKind) o = false) owned = []) as [-> ->]; [|done].
    induction Hk as [|x l Hx _ IH]; [done|]. inversion Hall; subst. destruct IH as [IH1 IH2]; [done|].
    by rewrite filter_cons_True, IH1, filter_cons_False, IH2 by (by rewrite ?Hx).
  - apply IPClaim_scheme.
  - eapply Forall_impl; [exact Hall|]. by intros x [_ ?].
Qed.
(** C23: the pools of a data network come back in its status: whatever status the IPAM
    backend gives to the claims the function generated, the update sets the status of the
    data network to the pools of its spec, in order, each with the status of its own claim,
    and it warns about none of them. *)
Theorem dnn_pool_roundtrip f wc o dnn f' l owned :
  workloadCluster f = Some wc → go_As o = (dnn, None) →
  desiredOwnedResourceList f o = Done (f', Ok l) → Forall2 answered l owned →
  f' = f ∧
  updateDnnResource f (Some o) owned =
    ('(dnnObj, err) ← SetStatus (mkKubeObjectExt o) (dn_set_Pools (zip_with pool_status (dn_Pools dnn) owned) dnn);
     Done (f, of_error [koe_KubeObject dnnObj] err)).
Proof.
  intros Hwc Has Hdes Hans. unfold desiredOwnedResourceList in Hdes. rewrite Hwc in Hdes. simpl in Hdes.
  rewrite Has in Hdes. injection Hdes as <- Hl%pool_claims_refs. split; [done|].
  assert (Hdn : dn_Annotations dnn = GetAnnotations o) by (rewrite <-DataNetwork_Annotations; by rewrite Has).
  assert (Howned : Forall2 (λ pool x, obj_ref x = gvkn ipam_apiVersion IPClaimKind
      (claimPrefix (dn_Annotations dnn) (dn_Name dnn) +:+ pool.1.1) ∧
      snd (go_As (T := IPClaim) x) = None ∧ ipc_Kind (fst (go_As x)) = PrefixKindPool) (dn_Pools dnn) owned).
  { rewrite Hdn. clear Has Hdn. revert owned Hans. induction Hl as [|pool c pools l [Href Hk] _ IH]; intros owned Hans;
      inversion Hans as [|? x ? owned' (Hr & Hd & Hkx)]; subst; constructor; [|by apply IH]. split_and!; congruence. }
  destruct structs as (_ & Hs & _). unfold updateDnnResource. rewrite open_spec, Has by done. cbn [mbind comp_bind of_error fst snd].
  rewrite FilterByType_claims.
  - cbn [mbind comp_bind]. rewrite (pool_statuses_roundtrip dnn f (dn_Pools dnn)); [done|].
    eapply Forall2_impl; [exact Howned|]. intros pool x (Hr & _ & Hk). split; [by injection Hr|done].
  - eapply Forall2_Forall_r; [exact Howned|]. apply Forall_forall. intros pool _ x (Hr & Hd & _). split; [|done].
    unfold obj_ref in *. injection Hr as Hra Hrk Hrn. by rewrite Hra, Hrn.
Qed.
End properties.

(** ** Witness *)
Module DnnWitnesses.
Import Model InventoryModel ApiModel.

#[export] Instance dnn_api_laws : DnnAPILaws.
Proof. constructor; try done. by intros meta spec o [= <-]. Qed.

Definition cluster : obj := mkObj "infra.nephio.org/v1alpha1" "WorkloadCluster" "edge" "" ∅ [] [] None
  {[ "clusterName" := "edge01" ]}.
Definition internet : obj := mkObj "req.nephio.org/v1alpha1" "DataNetwork" "internet" ""
  {[ SpecializerOwner := "workload.nephio.org/v1alpha1.NFDeployment.upf" ]} [] [] None
  {[ "networkInstance" := "vpc-internet"; "pools" := "pool1,pool2" ]}.
Definition fn0 : @dnnFn Model.sdk api := mkDnnFn (Some (cluster : @WorkloadCluster Model.sdk api)) [].
Definition claims : list (@KubeObject Model.sdk) :=
  match desiredOwnedResourceList fn0 (internet : @KubeObject Model.sdk) with Done (_, Ok l) => l | _ => [] end.
Definition answer (o : obj) : obj := put_extra o "prefix" ("10.0.0.0/24 for " +:+ o_name o).

Definition status_of (p : comp (@dnnFn Model.sdk api * result (list (@KubeObject Model.sdk)))) : string :=
  match p with Done (_, Ok [o]) => ex "status." o | _ => "" end.

Lemma dnn_pool_roundtrip_witness :
  (o_name <$> claims : list string) = ["upf-internet-pool1"; "upf-internet-pool2"] ∧
  status_of (updateDnnResource fn0 (Some (internet : @KubeObject Model.sdk)) (answer <$> claims : list (@KubeObject Model.sdk))) =
    "pool1=10.0.0.0/24 for upf-internet-pool1 pool2=10.0.0.0/24 for upf-internet-pool2".
Proof.
  split; [vm_compute; reflexivity|].
  destruct (dnn_pool_roundtrip fn0 (cluster : @WorkloadCluster Model.sdk api) (internet : @KubeObject Model.sdk) internet fn0 claims
    (answer <$> claims : list (@KubeObject Model.sdk))) as [_ Hup]; [reflexivity|reflexivity|reflexivity| |].
  { repeat constructor. }
  rewrite Hup. vm_compute. reflexivity.
Defined.
End DnnWitnesses.
