(* ===== verification/ClaimFn.v ===== *)
(** * [krm-functions/ipam-fn] and [krm-functions/vlan-fn]: claims at a backend

    The two functions hand the IP and VLAN claims of a package to the IPAM and VLAN backends
    and write the answers into the status of the claims.  The backends are reached through
    a client proxy of [github.com/nokia/k8s-ipam], a parameter here: its two calls act on
    the state of the backend, which is the state of the function. *)
From S2P Require Import Prelude External KubeObjectLib SdkModel Ref Kptfile Inventory InventoryDiff InventoryReady Sdk SdkLemmas FnApi InterfaceFn.

(** [clientproxy.Proxy], the calls in use: a claim that exists, and a new one.  The answer
    is a pointer. *)
Class Proxy (T B : Type) := {
  GetClaim : B → T → B * result (option T);
  Claim : B → T → B * result (option T)
}.

Section claim_fns.
Context `{!FnSDK, !NephioAPI, !GoRange}.

(** The answer of the backend goes into the status of the object. *)
Definition answer {T} `{!GoType T} (claimKOE : KubeObjectExt) (resp : result (option T)) : comp (result (list KubeObject)) :=
  match resp with
  | Err err => Done (Err err)
  | Ok None => Panic nil_dereference
  | Ok (Some resp) =>
      '(claimKOE, err) ← SetStatus claimKOE resp;
      Done (of_error [koe_KubeObject claimKOE] err)
  end.

Section ipam.
Context {B : Type} `{!Proxy IPClaim B}.

(** Which call is made. *)
Definition ip_ask (b : B) (claim : IPClaim) : B * result (option IPClaim) :=
  match ipc_Annotations claim !! NephioAPIAction with
  | Some _ => GetClaim b claim
  | None => Claim b claim
  end.

Definition updateIPClaimResource (b : B) (forObj : option KubeObject) (objs : list KubeObject)
    : comp (B * result (list KubeObject)) :=
  match forObj with
  | None => Done (b, Err "expected a for object but got nil")
  | Some forObj =>
      r ← open (T := IPClaim) (Some forObj);
      match r with
      | Err err => Done (b, Err err)
      | Ok (claimKOE, claim) =>
          let (b, resp) := ip_ask b claim in
          res ← answer claimKOE resp;
          Done (b, res)
      end
  end.

Definition ipam_config : Config B :=
  mkConfig false (gvk ipam_apiVersion IPClaimKind) ∅ ∅ None (Some updateIPClaimResource).
Definition ipam_Run (b : B) (rl : resourceList) : comp (resourceList * B * bool * option error) := runFn ipam_config b rl.
End ipam.

Section vlan.
Context {B : Type} `{!Proxy VLANClaim B}.

(** Which call is made: a new claim is made under the name the annotations give. *)
Definition vlan_ask (b : B) (claim : VLANClaim) : B * result (option VLANClaim) :=
  match vlc_Annotations claim !! NephioAPIAction with
  | Some _ => GetClaim b claim
  | None => Claim b (vlc_with_Name (default "" (vlc_Annotations claim !! SpecializervlanClaimName)) claim)
  end.

Definition updateVLANClaimResource (b : B) (forObj : option KubeObject) (objs : list KubeObject)
    : comp (B * result (list KubeObject)) :=
  match forObj with
  | None => Done (b, Err "expected a for object but got nil")
  | Some forObj =>
      r ← open (T := VLANClaim) (Some forObj);
      match r with
      | Err err => Done (b, Err err)
      | Ok (claimKOE, claim) =>
          let (b, resp) := vlan_ask b claim in
          res ← answer claimKOE resp;
          Done (b, res)
      end
  end.

Definition vlan_config : Config B :=
  mkConfig false (gvk vlan_apiVersion VLANClaimKind) ∅ ∅ None (Some updateVLANClaimResource).
Definition vlan_Run (b : B) (rl : resourceList) : comp (resourceList * B * bool * option error) := runFn vlan_config b rl.
End vlan.
End claim_fns.

(** Decoding of VLAN claims, and the key of the API action, which is not one of the
    annotations the interface function sets. *)
Class ClaimAPILaws `{!FnSDK, !NephioAPI} : Prop := {
  VLANClaim_Annotations o : vlc_Annotations (fst (go_As o)) = GetAnnotations o;
  api_action_key : NephioAPIAction ∉ [LocalConfigAnnotation; SpecializerFor; SpecializervlanClaimName]
}.

(** ** Properties *)
Section properties.
Context `{!FnSDK, !NephioAPI, !NephioAPILaws, !ClaimAPILaws, !GoRange}.

Lemma getAnnotations_keys ann k :
  k ≠ LocalConfigAnnotation → k ≠ SpecializerFor → getAnnotations ann !! k = None.
Proof.
  intros Hl Hf. unfold getAnnotations. destruct (ann !! SpecializerFor); rewrite lookup_insert_ne by done;
    destruct (ann !! LocalConfigAnnotation); try done; by rewrite lookup_singleton_ne.
Qed.

Lemma vlan_gvk : gvk vlan_apiVersion VLANClaimKind ≠ gvk ipam_apiVersion IPClaimKind ∧
  gvk nad_apiVersion NADKind ≠ gvk vlan_apiVersion VLANClaimKind.
Proof.
  pose proof gvks as [Hnd _]. rewrite !NoDup_cons, !not_elem_of_cons in Hnd.
  destruct Hnd as (_ & _ & _ & _ & (Hiv & _) & (Hvn & _) & _). auto.
Qed.

(** The VLAN claim among the children of an interface. *)
Lemma children_of_vlan wc o itfce ni l v name :
  children_of wc o itfce ni = Ok l → v ∈ l → obj_ref v = gvkn vlan_apiVersion VLANClaimKind name →
  GetAnnotations v = getAnnotationsWithvlanClaimName wc itfce ni.
Proof.
  destruct vlan_gvk as [Hvi Hvn].
  assert (Hip : ∀ kind purpose afs claims, ipClaims wc o ni kind purpose afs = Ok claims → v ∉ claims ∨ 
      obj_ref v ≠ gvkn vlan_apiVersion VLANClaimKind name).
  { intros kind purpose afs claims Hc. destruct (decide (obj_ref v = gvkn vlan_apiVersion VLANClaimKind name)) as [Hv|]; [|by right].
    left. intros Hin%(list_elem_of_fmap_2 obj_ref). rewrite (ipClaims_refs _ _ _ _ _ _ _ Hc) in Hin.
    apply list_elem_of_fmap in Hin as (af & Heq & _). rewrite Hv in Heq. by apply (f_equal gvk_of) in Heq. }
  unfold children_of. intros Hl Hin Href. case_decide; [by destruct (Hip _ _ _ _ Hl)|].
  destruct (negb _); [done|].
  apply result_bind_Ok in Hl as (claims & Hc & (vlans & Hv & (nad & Hn & [= <-])%result_bind_Ok)%result_bind_Ok).
  apply elem_of_app in Hin as [Hin|[Hin|Hin%list_elem_of_singleton]%elem_of_app].
  - by destruct (Hip _ _ _ _ Hc).
  - case_decide; [|injection Hv as <-; by apply elem_of_nil in Hin].
    apply result_bind_Ok in Hv as (v' & Hv' & [= <-]). apply list_elem_of_singleton in Hin as ->.
    by apply VLANClaim_object in Hv' as [_ ?].
  - subst nad. apply NAD_object in Hn as [Hr _]. rewrite Hr in Href. by apply (f_equal gvk_of) in Href.
Qed.

(** interfaces on the same network of a cluster share a VLAN: for the VLAN claim the
    interface function generates, whatever the interface and the name of the object, the
    VLAN function claims under one and the same name, made of the network instance and the
    cluster, and writes the backend's answer into the object. *)
Theorem vlan_claim_shared {B} `{!Proxy VLANClaim B} (b : B) wc o itfce ni l v name claim objs :
  children_of wc o itfce ni = Ok l → v ∈ l → obj_ref v = gvkn vlan_apiVersion VLANClaimKind name →
  go_As v = (claim, None) →
  updateVLANClaimResource b (Some v) objs =
    (let (b', resp) := Claim b (vlc_with_Name (Name ni +:+ "-" +:+ wc_ClusterName wc +:+ "-bd") claim) in
     res ← answer (mkKubeObjectExt v) resp;
     Done (b', res)).
Proof.
  intros Hl Hin Href Has. pose proof (children_of_vlan _ _ _ _ _ _ _ Hl Hin Href) as Hann.
  destruct structs as (_ & _ & _ & Hs & _). pose proof api_action_key as Hkey. rewrite !not_elem_of_cons in Hkey.
  unfold updateVLANClaimResource. rewrite open_spec, Has by done. cbn [mbind comp_bind of_error fst snd].
  assert (Hc : vlc_Annotations claim = getAnnotationsWithvlanClaimName wc itfce ni)
    by (rewrite <-Hann, <-VLANClaim_Annotations; by rewrite Has).
  unfold vlan_ask. rewrite Hc. unfold getAnnotationsWithvlanClaimName.
  rewrite lookup_insert_ne, getAnnotations_keys, lookup_insert_eq by (destruct Hkey as (? & ? & ? & _); done). done.
Qed.
End properties.

(** ** Witness *)
Module ClaimWitnesses.
Import Model InventoryModel ApiModel InterfaceWitnesses.

#[export] Instance claim_api_laws : ClaimAPILaws.
Proof. constructor; [done|]. apply (bool_decide_eq_true_1 _). vm_compute. reflexivity. Qed.

(** A backend that remembers the names claimed. *)
#[export] Instance proxy : Proxy (@VLANClaim Model.sdk api) (list string) := {
  GetClaim b c := (b, Ok (Some c));
  Claim b c := (b ++ [o_name c], Ok (Some (put_extra c "Status" "vlan 2")))
}.

Definition vlan_of (l : list obj) : obj := nth 2 l n3.
Definition backend_of (p : comp (list string * result (list (@KubeObject Model.sdk)))) : list string :=
  match p with Done (b, _) => b | Panic _ => [] end.
Definition vlan_ni : ObjectReference := gvkn "" "" "vpc-ran".
Definition vlan_claimed : list string :=
  backend_of (updateVLANClaimResource [] (Some (vlan_of generated : @KubeObject Model.sdk)) []).

Lemma vlan_claim_shared_witness :
  obj_ref (vlan_of generated : @KubeObject Model.sdk) = gvkn "vlan.resource.nephio.org/v1alpha1" "VLANClaim" "upf-n3" ∧
  vlan_claimed = ["vpc-ran-edge01-bd"].
Proof.
  split; [vm_compute; reflexivity|]. unfold vlan_claimed.
  rewrite (vlan_claim_shared (B := list string) [] (cluster : @WorkloadCluster Model.sdk api) (n3 : @KubeObject Model.sdk)
    (n3 : @Interface Model.sdk api) vlan_ni generated (vlan_of generated : @KubeObject Model.sdk) "upf-n3"
    (vlan_of generated : @VLANClaim Model.sdk api) []); [vm_compute; reflexivity|vm_compute; reflexivity| |vm_compute; reflexivity|reflexivity].
  vm_compute. apply list_elem_of_further, list_elem_of_further, list_elem_of_here.
Defined.
End ClaimWitnesses.
