(* ===== verification/UeransimFn.v ===== *)
(** * [krm-functions/ueransim-deploy-fn]: the deployment of a simulated gNB

    The root function of a UERANSIM package: once the interfaces and IP claims are ready, it
    annotates the pod template of the deployment with the networks and writes the gNB
    configuration into a config map.  The two templates are fixed; they are modelled by
    what [text/template] renders for them. *)
From S2P Require Import Prelude GoStrings External KubeObjectLib SdkModel Ref Kptfile Inventory InventoryDiff InventoryReady Sdk FnApi.

Definition NetworksAnnotation : string := "k8s.v1.cni.cncf.io/networks".
Definition apps_apiVersion : string := "apps/v1".
Definition DeploymentKind : string := "Deployment".
Definition core_apiVersion : string := "v1".
Definition ConfigMapKind : string := "ConfigMap".
Definition ServiceKind : string := "Service".

(** ** [template-nad.go] *)
Record nadTemplateValues := mkNadValues { nv_Name : string; nv_Interface : string; nv_IPs : string; nv_Gateways : string }.
Definition nl : string := String newline "".
Definition isNotLast (index len : nat) : bool := negb (Nat.eqb (index + 1) len).
Definition nad_fields (v : nadTemplateValues) : string :=
  nl +:+ "  " +:+ in_quotes "name" +:+ ": " +:+ in_quotes (nv_Name v) +:+ "," +:+
  nl +:+ "  " +:+ in_quotes "interface" +:+ ": " +:+ in_quotes (nv_Interface v) +:+ "," +:+
  nl +:+ "  " +:+ in_quotes "ips" +:+ ": [" +:+ in_quotes (nv_IPs v) +:+ "]," +:+
  nl +:+ "  " +:+ in_quotes "gateways" +:+ ": [" +:+ in_quotes (nv_Gateways v) +:+ "]".
Fixpoint nad_range (index len : nat) (values : list nadTemplateValues) : string :=
  match values with
  | [] => ""
  | v :: values =>
      nad_fields v +:+ (if isNotLast index len then nl +:+ " }," +:+ nl +:+ " {" else "") +:+ nad_range (S index) len values
  end.
Definition renderNadTemplate (values : list nadTemplateValues) : string :=
  "[" +:+ nl +:+ " {" +:+ nad_range 0 (length values) values +:+ nl +:+ " }" +:+ nl +:+ "]" +:+ nl.

(** ** [template-cm.go] *)
Record configurationTemplateValues := mkConfValues { cv_N2 : string; cv_N3 : string; cv_AMF : list string }.
Definition amf_entry (amf : string) : string := nl +:+ "  - address: " +:+ amf +:+ nl +:+ "    port: 38412".
Definition conf_lines (n2 n3 : string) : list string :=
  [ "mcc: '208'          # Mobile Country Code value";
    "mnc: '93'           # Mobile Network Code value (2 or 3 digits)";
    "nci: '0x000000010'  # NR Cell Identity (36-bit)";
    "idLength: 32        # NR gNB ID length in bits [22...32]";
    "tac: 1              # Tracking Area Code";
    "# List of supported S-NSSAIs by this gNB";
    "slices:";
    "  - sst: 0x1";
    "    sd: 0x010203";
    "# Indicates whether or not SCTP stream number errors should be ignored.";
    "ignoreStreamIds: true";
    "";
    "linkIp: 0.0.0.0   # gNB's local IP address for Radio Link Simulation (Usually same with local IP)";
    "# gNB's local IP address for N2 Interface (Usually same with local IP)";
    "ngapIp: " +:+ n2;
    "gtpIp: " +:+ n3 +:+ "    # gNB's local IP address for N3 Interface (Usually same with local IP)";
    "";
    "# List of AMF address information";
    "amfConfigs:" ].
Definition renderConfigurationTemplate (values : configurationTemplateValues) : string :=
  String.concat nl (conf_lines (cv_N2 values) (cv_N3 values)) +:+ String.concat "" (amf_entry <$> cv_AMF values) +:+ nl.

(** ** [function.go] *)

(** A [corev1.ConfigMap] that is built. *)
Record BuiltConfigMap := mkBuiltConfigMap {
  bc_Name : string; bc_Namespace : string; bc_Labels : gmap string string; bc_Data : gmap string string
}.
Class UeransimAPI `{NephioAPI} := {
  Deployment : Type;
  dpl_GoType :: GoType Deployment;
  dpl_Name : Deployment → string;
  dpl_Namespace : Deployment → string;
  (** nil annotations are [None] *)
  dpl_Annotations : Deployment → option (gmap string string);
  dpl_set_Annotations : gmap string string → Deployment → Deployment;
  (** the volumes: the name of the config map of those that are one *)
  dpl_Volumes : Deployment → list (option string);
  (** a config map with its type meta *)
  any_ConfigMap : BuiltConfigMap → any;
  ue_itf_Name : Interface → string;
  ue_itf_IPClaimStatus : Interface → list IPClaimStatus;
  (** [iputil.New(prefix)] with [pi.Addr().String()] *)
  ip_addr : string → result string
}.

Section ueransim.
Context `{!FnSDK, !NephioAPI, !UeransimAPI, !GoRange}.

Record deployFn := mkDeployFn { df_workloadCluster : option WorkloadCluster }.

Definition WorkloadClusterCallbackFn : WatchCallbackFn (S := deployFn) := λ f o,
  let '(wc, err) := WorkloadClusterCallback (df_workloadCluster f) o in
  Done (mkDeployFn wc, err).
Definition desiredOwnedResourceList : PopulateOwnResourcesFn_t (S := deployFn) := λ f o,
  Done (f, match df_workloadCluster f with
           | None => Err "workload cluster is missing from the kpt package"
           | Some _ => Ok []
           end).

Fixpoint getAmfAddresses (ipClaimObjs : list KubeObject) : comp (result (list string)) :=
  match ipClaimObjs with
  | [] => Done (Ok [])
  | o :: ipClaimObjs =>
      '(_, ipClaim) ←? open (T := IPClaim) (Some o);
      match st_Prefix (ipc_Status ipClaim) with
      | Some prefix =>
          a ←? Done (ip_addr prefix);
          l ←? getAmfAddresses ipClaimObjs;
          Done (Ok (a :: l))
      | None => getAmfAddresses ipClaimObjs
      end
  end.

Definition getIPAddress (itfce : Interface) : result string :=
  match ue_itf_IPClaimStatus itfce with
  | [] => Err ("no ip status provided in interface: " +:+ ue_itf_Name itfce)
  | st :: _ =>
      match st_Prefix st with
      | None => Err ("no ip address provided in interface: " +:+ ue_itf_Name itfce)
      | Some prefix => ip_addr prefix
      end
  end.

(** The loop over the interfaces. *)
Fixpoint collectAddresses (itfceObjs : list KubeObject) (v : configurationTemplateValues) : comp (result configurationTemplateValues) :=
  match itfceObjs with
  | [] => Done (Ok v)
  | o :: itfceObjs =>
      '(_, itfce) ←? open (T := Interface) (Some o);
      if decide (ue_itf_Name itfce = "n2") then
        a ←? Done (getIPAddress itfce);
        collectAddresses itfceObjs (mkConfValues a (cv_N3 v) (cv_AMF v))
      else if decide (ue_itf_Name itfce = "n3") then
        a ←? Done (getIPAddress itfce);
        collectAddresses itfceObjs (mkConfValues (cv_N2 v) a (cv_AMF v))
      else collectAddresses itfceObjs v
  end.
Definition getConfiguration (itfceObjs : list KubeObject) (amfs : list string) : comp (result string) :=
  v ←? collectAddresses itfceObjs (mkConfValues "" "" amfs);
  Done (if decide (cv_N2 v = "" ∨ cv_N3 v = "") then
          Err ("cannot render config, expecting n2, got " +:+ cv_N2 v +:+ " and n3, got " +:+ cv_N3 v)
        else Ok (renderConfigurationTemplate v)).

Definition createNetworkAttachmentDefinitionName (prefix suffix : string) : string := prefix +:+ "-" +:+ suffix.
(** The values of one interface. *)
Definition nadValues (prefix : string) (itfce : Interface) : list nadTemplateValues :=
  omap (λ st, match st_Gateway st, st_Prefix st with
              | Some gw, Some p =>
                  Some (mkNadValues (createNetworkAttachmentDefinitionName prefix (ue_itf_Name itfce)) (ue_itf_Name itfce) p gw)
              | _, _ => None
              end) (ue_itf_IPClaimStatus itfce).
Fixpoint collectNads (prefix : string) (itfceObjs : list KubeObject) : comp (result (list nadTemplateValues)) :=
  match itfceObjs with
  | [] => Done (Ok [])
  | o :: itfceObjs =>
      '(_, itfce) ←? open (T := Interface) (Some o);
      l ←? collectNads prefix itfceObjs;
      Done (Ok (nadValues prefix itfce ++ l))
  end.
Definition getNetworkAttachmentDefinitionObjects (prefix : string) (itfceObjs : list KubeObject) : comp (result string) :=
  v ←? collectNads prefix itfceObjs;
  Done (Ok (renderNadTemplate v)).

Definition getSelectorLabels : gmap string string := {[ "app" := "ueransim"; "component" := "gnb" ]}.
Definition getLabels : gmap string string :=
  foldl (λ l kv, <[kv.1 := kv.2]> l) {[ "app.kubernetes.io/version" := "v3.2.6" ]} (range (at_ "getSelectorLabels") getSelectorLabels).
Definition buildConfigMapKubeObject (name namespace : string) (labels : gmap string string) (key value : string) : result KubeObject :=
  NewFromTypedObject (any_ConfigMap (mkBuiltConfigMap name namespace labels {[ key := value ]})).

(** The loop over the volumes, which reads the name from the first one. *)
Fixpoint configMaps (first : option (option string)) (namespace configuration : string) (volumes : list (option string))
    : comp (result (list KubeObject)) :=
  match volumes with
  | [] => Done (Ok [])
  | None :: volumes => configMaps first namespace configuration volumes
  | Some _ :: volumes =>
      match first with
      | Some (Some name) =>
          cmKo ←? Done (buildConfigMapKubeObject name namespace getLabels "gnb-config.yaml" configuration);
          l ←? configMaps first namespace configuration volumes;
          Done (Ok (cmKo :: l))
      | Some None => Panic nil_dereference
      | None => Panic "index out of range"
      end
  end.

Definition annotated (nadString : string) (deploy : Deployment) : Deployment :=
  dpl_set_Annotations (<[NetworksAnnotation := nadString]> (default ∅ (dpl_Annotations deploy))) deploy.

Definition ue_update (deployObj : KubeObject) (objs : list KubeObject) : comp (result (list KubeObject)) :=
  amfs ←? getAmfAddresses (Where ipam_apiVersion IPClaimKind objs);
  match Where req_apiVersion InterfaceKind objs with
  | [] => Done (Ok [deployObj])
  | (_ :: _) as itfceObjs =>
      '(_, deploy) ←? open (T := Deployment) (Some deployObj);
      nadString ←? getNetworkAttachmentDefinitionObjects (dpl_Name deploy) itfceObjs;
      let deploy := annotated nadString deploy in
      do_ ←? Done (NewFromTypedObject (go_any deploy));
      configuration ←? getConfiguration itfceObjs amfs;
      cms ←? configMaps (dpl_Volumes deploy !! 0) (dpl_Namespace deploy) configuration (dpl_Volumes deploy);
      Done (Ok (do_ :: cms))
  end.
Definition updateResource : UpdateResourceFn_t (S := deployFn) := λ f deployObj objs,
  match deployObj with
  | None => Done (f, Err "expected a for object but got nil")
  | Some o => r ← ue_update o objs; Done (f, r)
  end.

Definition config : Config deployFn := mkConfig true
  (gvk apps_apiVersion DeploymentKind)
  {[ gvk req_apiVersion InterfaceKind := ChildInitial; gvk ipam_apiVersion IPClaimKind := ChildInitial;
     gvk core_apiVersion ConfigMapKind := ChildLocal; gvk core_apiVersion ServiceKind := ChildLocal ]}
  {[ gvk infra_apiVersion WorkloadClusterKind := Some WorkloadClusterCallbackFn ]}
  (Some desiredOwnedResourceList)
  (Some updateResource).
Definition Run (rl : resourceList) : comp (resourceList * deployFn * bool * option error) := runFn config (mkDeployFn None) rl.
End ueransim.

(** ** The networks annotation *)
Definition nad_object (v : nadTemplateValues) : string := " {" +:+ nad_fields v +:+ nl +:+ " }".

Lemma nad_range_objects index v values :
  " {" +:+ nad_range index (index + length (v :: values)) (v :: values) +:+ nl +:+ " }" =
  String.concat ("," +:+ nl) (nad_object <$> v :: values).
Proof.
  revert index v. induction values as [|v' values IH]; intros index v.
  - cbn [nad_range length fmap list_fmap String.concat]. unfold isNotLast. rewrite Nat.eqb_refl. cbn [negb].
    unfold nad_object. by rewrite !string_app_nil_r.
  - assert (Hlast : isNotLast index (index + length (v :: v' :: values)) = true).
    { unfold isNotLast. apply negb_true_iff, Nat.eqb_neq. cbn [length]. lia. }
    cbn [nad_range]. rewrite Hlast. specialize (IH (S index) v').
    replace (S index + length (v' :: values)) with (index + length (v :: v' :: values)) in IH by (cbn [length]; lia).
    cbn [nad_range] in IH. cbn [fmap list_fmap String.concat] in IH |- *. rewrite <- IH. unfold nad_object.
    by rewrite <- !string_app_assoc.
Qed.

(** The networks annotation is a JSON array of one object per network, separated by commas: the template with its test for the last index renders what joining the objects gives.  Without a network it is an array of one empty object. *)
Theorem ueransim_networks_text values :
  renderNadTemplate values =
  "[" +:+ nl +:+ (match values with [] => " {" +:+ nl +:+ " }" | _ => String.concat ("," +:+ nl) (nad_object <$> values) end) +:+ nl +:+ "]" +:+ nl.
Proof.
  unfold renderNadTemplate. destruct values as [|v values]; [done|].
  rewrite <- (nad_range_objects 0 v values). by rewrite <- !string_app_assoc.
Qed.

(** ** What is generated *)
Class UeransimAPILaws `{UeransimAPI} : Prop := {
  ue_structs : go_is_struct (T := Deployment) = true;
  ue_ConfigMap c o : NewFromTypedObject (any_ConfigMap c) = Ok o → obj_ref o = gvkn core_apiVersion ConfigMapKind (bc_Name c);
  ue_annotations a d : dpl_Volumes (dpl_set_Annotations a d) = dpl_Volumes d ∧ dpl_Namespace (dpl_set_Annotations a d) = dpl_Namespace d
}.

Section properties.
Context `{!FnSDK, !NephioAPI, !NephioAPILaws, !UeransimAPI, !UeransimAPILaws, !GoRange}.

(** [o] decodes to [x]. *)
Definition decodes {T} `{!GoType T} (o : KubeObject) (x : T) : Prop := go_As o = (x, None).
Lemma open_Ok {T} `{!GoType T} o koe (x : T) :
  go_is_struct (T := T) = true → open (T := T) (Some o) = Done (Ok (koe, x)) → decodes o x.
Proof. intros Hs. rewrite (open_spec o Hs). unfold decodes, of_error. destruct (go_As o) as [y [e|]]; [done|]. by intros [= _ <-]. Qed.

(** The address of an IP claim, when it has one. *)
Definition claim_address (o : KubeObject) (a : option string) : Prop :=
  ∃ c : IPClaim, decodes o c ∧
    match st_Prefix (ipc_Status c) with None => a = None | Some p => ∃ x, ip_addr p = Ok x ∧ a = Some x end.
Lemma getAmfAddresses_Ok claims amfs :
  getAmfAddresses claims = Done (Ok amfs) → ∃ l, Forall2 claim_address claims l ∧ amfs = omap id l.
Proof.
  destruct structs as (_ & _ & Hs & _). revert amfs. induction claims as [|o claims IH]; intros amfs; cbn [getAmfAddresses].
  - intros [= <-]. exists []. by split.
  - intros ([koe c] & Ho%(open_Ok _ _ _ Hs) & Hr)%try_bind_Ok. destruct (st_Prefix (ipc_Status c)) as [p|] eqn:Hp.
    + apply try_bind_Ok in Hr as (a & [= Ha] & Hr). apply try_bind_Ok in Hr as (l & (l' & Hl & ->)%IH & [= <-]).
      exists (Some a :: l'). split; [|done]. constructor; [|done]. exists c. split; [done|]. rewrite Hp. by exists a.
    + apply IH in Hr as (l & Hl & ->). exists (None :: l). split; [|done]. constructor; [|done]. exists c. split; [done|]. by rewrite Hp.
Qed.

(** The networks of the interfaces. *)
Definition interface_nads (prefix : string) (o : KubeObject) (l : list nadTemplateValues) : Prop :=
  ∃ itf : Interface, decodes o itf ∧ l = nadValues prefix itf.
Lemma collectNads_Ok prefix itfs v :
  collectNads prefix itfs = Done (Ok v) → ∃ ls, Forall2 (interface_nads prefix) itfs ls ∧ v = concat ls.
Proof.
  destruct structs as (Hs & _). revert v. induction itfs as [|o itfs IH]; intros v; cbn [collectNads].
  - intros [= <-]. exists []. by split.
  - intros ([koe c] & Ho%(open_Ok _ _ _ Hs) & Hr)%try_bind_Ok. apply try_bind_Ok in Hr as (l & (ls & Hls & ->)%IH & [= <-]).
    exists (nadValues prefix c :: ls). split; [|done]. constructor; [by exists c|done].
Qed.

(** An address of one of the interfaces of a name. *)
Definition interface_address (itfs : list KubeObject) (name a : string) : Prop :=
  ∃ o (itf : Interface), o ∈ itfs ∧ decodes o itf ∧ ue_itf_Name itf = name ∧ getIPAddress itf = Ok a.
Lemma collectAddresses_Ok itfs v v' :
  collectAddresses itfs v = Done (Ok v') →
  cv_AMF v' = cv_AMF v ∧ (cv_N2 v' = cv_N2 v ∨ interface_address itfs "n2" (cv_N2 v')) ∧
  (cv_N3 v' = cv_N3 v ∨ interface_address itfs "n3" (cv_N3 v')).
Proof.
  destruct structs as (Hs & _).
  assert (Hmono : ∀ o itfs n a, interface_address itfs n a → interface_address (o :: itfs) n a).
  { intros o l n a (x & itf & ? & ?). exists x, itf. split; [by right|done]. }
  revert v. induction itfs as [|o itfs IH]; intros v; cbn [collectAddresses]; [intros [= <-]; by auto|].
  intros ([koe itf] & Ho%(open_Ok _ _ _ Hs) & Hr)%try_bind_Ok.
  assert (Hhead : ∀ n a, ue_itf_Name itf = n → getIPAddress itf = Ok a → interface_address (o :: itfs) n a).
  { intros n a ? ?. exists o, itf. split; [by left|done]. }
  case_decide as Hn2; [|case_decide as Hn3].
  - apply try_bind_Ok in Hr as (a & [= Ha] & (Hq1 & Hq2 & Hq3)%IH). cbn in *. split_and!; [done| |naive_solver].
    right. destruct Hq2 as [->|?]; eauto.
  - apply try_bind_Ok in Hr as (a & [= Ha] & (Hq1 & Hq2 & Hq3)%IH). cbn in *. split_and!; [done|naive_solver|].
    right. destruct Hq3 as [->|?]; eauto.
  - apply IH in Hr as (? & ? & ?). naive_solver.
Qed.

(** The config maps: one for each volume that is one, all with the name of the first. *)
Definition is_cm (v : option string) : bool := bool_decide (is_Some v).
Lemma configMaps_Ok first ns conf volumes cms :
  configMaps first ns conf volumes = Done (Ok cms) →
  length cms = length (List.filter is_cm volumes) ∧
  ∀ o, o ∈ cms → ∃ name, first = Some (Some name) ∧ buildConfigMapKubeObject name ns getLabels "gnb-config.yaml" conf = Ok o.
Proof.
  revert cms. induction volumes as [|[v|] volumes IH]; intros cms; cbn [configMaps List.filter is_cm].
  - intros [= <-]. split; [done|]. by intros o ?%elem_of_nil.
  - destruct first as [[name|]|]; [|done..]. intros (cm & [= Hcm] & Hr)%try_bind_Ok.
    apply try_bind_Ok in Hr as (l & [Hlen Hall]%IH & [= <-]). unfold is_cm. rewrite bool_decide_true by done. cbn. split; [by f_equal|].
    intros o [->|Ho]%elem_of_cons; [by exists name|by apply Hall].
  - intros [Hlen Hall]%IH. done.
Qed.

(** C32: What the function generates once the interfaces are there: the deployment, annotated with the networks of all interfaces, and for each config-map volume a config map with the gNB configuration, which has an address of an n2 and of an n3 interface, both not empty, and the addresses of the IP claims that have one, in order, as AMFs. *)
Theorem ueransim_generates deployObj objs res :
  Where req_apiVersion InterfaceKind objs ≠ [] → ue_update deployObj objs = Done (Ok res) →
  ∃ (deploy : Deployment) nads amfs n2 n3 do_ cms,
    let itfs := Where req_apiVersion InterfaceKind objs in
    decodes deployObj deploy ∧ Forall2 (interface_nads (dpl_Name deploy)) itfs nads ∧
    Forall2 claim_address (Where ipam_apiVersion IPClaimKind objs) amfs ∧
    interface_address itfs "n2" n2 ∧ interface_address itfs "n3" n3 ∧ n2 ≠ "" ∧ n3 ≠ "" ∧
    res = do_ :: cms ∧
    NewFromTypedObject (go_any (annotated (renderNadTemplate (concat nads)) deploy)) = Ok do_ ∧
    length cms = length (List.filter is_cm (dpl_Volumes deploy)) ∧
    (∀ o, o ∈ cms → ∃ name, dpl_Volumes deploy !! 0 = Some (Some name) ∧
       buildConfigMapKubeObject name (dpl_Namespace deploy) getLabels "gnb-config.yaml"
         (renderConfigurationTemplate (mkConfValues n2 n3 (omap id amfs))) = Ok o).
Proof.
  intros Hne. unfold ue_update. intros (amfs & (l & Hl & ->)%getAmfAddresses_Ok & Hr)%try_bind_Ok.
  destruct (Where req_apiVersion InterfaceKind objs) as [|i0 rest]; [done|]. remember (i0 :: rest) as itfs. clear Heqitfs.
  apply try_bind_Ok in Hr as ([koe deploy] & Hd%(open_Ok _ _ _ ue_structs) & Hr).
  apply try_bind_Ok in Hr as (nad & Hnad & Hr). apply try_bind_Ok in Hnad as (v & (nads & Hnads & ->)%collectNads_Ok & [= <-]).
  apply try_bind_Ok in Hr as (do_ & [= Hdo] & Hr). apply try_bind_Ok in Hr as (conf & Hconf & Hr).
  apply try_bind_Ok in Hr as (cms & [Hlen Hcms]%configMaps_Ok & [= <-]).
  apply try_bind_Ok in Hconf as ([n2 n3 a] & (Ha & Hq2 & Hq3)%collectAddresses_Ok & [= Hc]). cbn in *. subst a.
  case_decide as Hempty; [done|]. injection Hc as <-. assert (Hn2 : n2 ≠ "" ∧ n3 ≠ "") by (split; intros ->; apply Hempty; auto). destruct Hn2 as [Hn2 Hn3].
  destruct Hq2 as [?|Hq2]; [done|]. destruct Hq3 as [?|Hq3]; [done|].
  destruct (ue_annotations (<[NetworksAnnotation := renderNadTemplate (concat nads)]> (default ∅ (dpl_Annotations deploy))) deploy) as [Hv Hns].
  unfold annotated in Hlen, Hcms. rewrite Hv, ?Hns in *.
  exists deploy, nads, l, n2, n3, do_, cms. by split_and!.
Qed.

(** Every config map is named after the first volume of the deployment: when that volume is not a config map and another one is, the function panics; otherwise the config maps of all volumes get one and the same name. *)
Theorem ueransim_volumes ns conf v volumes :
  is_Some v ∨ Exists is_Some volumes →
  match v with
  | None => configMaps (Some v) ns conf (v :: volumes) = Panic nil_dereference
  | Some name => ∀ cms, configMaps (Some v) ns conf (v :: volumes) = Done (Ok cms) →
      length cms = length (List.filter is_cm (v :: volumes)) ∧ ∀ o, o ∈ cms → obj_ref o = gvkn core_apiVersion ConfigMapKind name
  end.
Proof.
  destruct v as [name|].
  - intros _ cms [Hlen Hall]%configMaps_Ok. split; [done|]. intros o (n & [= <-] & Ho)%Hall. by apply ue_ConfigMap in Ho.
  - intros [[? ?]|Hex]; [done|]. cbn [configMaps]. induction Hex as [x l [y ->]|x l Hex IH]; [done|]. destruct x; [done|]. exact IH.
Qed.
End properties.

Module UeransimWitnesses.
Import Model InventoryModel ApiModel.
#[export] Instance ue_api : UeransimAPI := {|
  Deployment := obj; dpl_GoType := obj_type apps_apiVersion DeploymentKind; dpl_Name := o_name; dpl_Namespace := o_ns;
  dpl_Annotations o := Some {[ NetworksAnnotation := ex "networks" o ]};
  dpl_set_Annotations a o := put_extra o "networks" (default "" (a !! NetworksAnnotation));
  dpl_Volumes o := (λ n, if decide (n = "") then None else Some n) <$> split_on ","%char (default "" (o_spec o));
  any_ConfigMap c := VObject (mkObj core_apiVersion ConfigMapKind (bc_Name c) (bc_Namespace c) (bc_Labels c) [] []
                                (bc_Data c !! "gnb-config.yaml") ∅);
  ue_itf_Name := (o_name : @Interface sdk api → string);
  ue_itf_IPClaimStatus := (λ o, [(o_extra o !! "prefix", o_extra o !! "gateway")]) : @Interface sdk api → list (@IPClaimStatus sdk api);
  ip_addr p := match split_on slash p with a :: _ :: _ => Ok a | _ => Err "not a prefix" end |}.
#[export] Instance ue_api_laws : UeransimAPILaws.
Proof. constructor; [done|by intros c o [= <-]|done]. Qed.

Definition itf (n ip : string) : obj := mkObj "req.nephio.org/v1alpha1" "Interface" n "ran" ∅ [] [] (Some "")
  {[ "prefix" := ip +:+ "/24"; "gateway" := "10.0.0.1" ]}.
Definition claim (ip : string) : obj := mkObj "ipam.resource.nephio.org/v1alpha1" "IPClaim" "amf" "ran" ∅ [] [] (Some "") {[ "prefix" := ip +:+ "/32" ]}.
Definition deploy (volumes : string) : obj := mkObj "apps/v1" "Deployment" "gnb" "ran" ∅ [] [] (Some volumes) ∅.
Definition objs : list (@KubeObject sdk) := [itf "n2" "10.2.0.3"; itf "n3" "10.3.0.3"; claim "172.2.0.254"].
Definition generated : list obj := match ue_update (deploy "gnb-cm" : @KubeObject sdk) objs with Done (Ok l) => l | _ => [] end.
Lemma generated_ok : ue_update (deploy "gnb-cm" : @KubeObject sdk) objs = Done (Ok generated).
Proof. vm_compute. reflexivity. Qed.

Lemma ueransim_generates_witness :
  (o_name <$> generated) = ["gnb"; "gnb-cm"] ∧
  (o_spec <$> generated) = [Some "gnb-cm"; Some (renderConfigurationTemplate (mkConfValues "10.2.0.3" "10.3.0.3" ["172.2.0.254"]))] ∧
  ∃ n2, n2 ≠ "" ∧ interface_address (Where req_apiVersion InterfaceKind objs) "n2" n2.
Proof.
  split; [vm_compute; reflexivity|]. split; [vm_compute; reflexivity|].
  destruct (ueransim_generates (deploy "gnb-cm" : @KubeObject sdk) objs (generated : list (@KubeObject sdk)))
    as (d & nads & amfs & n2 & n3 & o & cms & _ & _ & _ & Hn2 & _ & Hne & _); [discriminate|exact generated_ok|].
  by exists n2.
Defined.

(** Two config-map volumes, and a first volume that is none. *)
Definition two : list obj := match configMaps (Some (Some "a")) "ran" "text" [Some "a"; Some "b"] with Done (Ok l) => l | _ => [] end.
Lemma two_ok : configMaps (Some (Some "a")) "ran" "text" [Some "a"; Some "b"] = Done (Ok (two : list (@KubeObject sdk))).
Proof. vm_compute. reflexivity. Qed.
Lemma ueransim_volumes_witness :
  (o_name <$> two) = ["a"; "a"] ∧ (∀ o, o ∈ (two : list (@KubeObject sdk)) → obj_ref o = gvkn core_apiVersion ConfigMapKind "a") ∧
  configMaps (Some None) "ran" "text" [None; Some "b"] = Panic nil_dereference.
Proof.
  split; [vm_compute; reflexivity|]. split.
  - apply (ueransim_volumes "ran" "text" (Some "a") [Some "b"]); [left; by exists "a"|exact two_ok].
  - apply (ueransim_volumes "ran" "text" None [Some "b"]). right. left. by exists "b".
Defined.
End UeransimWitnesses.
