(* ===== verification/GenFn.v ===== *)
(** * [krm-functions/gen-configmap-fn] and [krm-functions/gen-kustomize-res]

    Two functions that generate one resource: a config map from literals and Go templates,
    and the kustomization that lists the files of the package.  The SDK's object and, for
    the first, the template engine are parameters. *)
From S2P Require Import Prelude External KubeObjectLib SdkModel Ref Kptfile Inventory InventoryDiff InventoryReady Sdk FnApi.

(** ** [gen_configmap.go] *)
Record GenConfigMapEntry := mkEntry { ge_Type : string; ge_Key : string; ge_Value : string }.

Class GenAPI `{FnSDK} := {
  (** [metav1.ObjectMeta] *)
  GenMeta : Type;
  gm_Name : GenMeta → string;
  (** [text/template] *)
  Template : Type;
  template_Parse : string → string → result Template;
  template_Execute : Template → gmap string string → result string;
  (** the object *)
  NewEmptyKubeObject : KubeObject;
  SetAPIVersion : KubeObject → string → KubeObject * option error;
  SetKind : KubeObject → string → KubeObject * option error;
  SetName : KubeObject → string → KubeObject * option error;
  RemoveNestedField : KubeObject → list string → KubeObject * option error;
  any_Meta : GenMeta → any;
  any_StringMap : gmap string string → any;
  kio_PathAnnotation : string
}.

Section gen_configmap.
Context `{!FnSDK, !GenAPI}.
Record GenConfigMap := mkGenConfigMap {
  ConfigMapMetadata : GenMeta;
  Params : gmap string string;
  gc_Data : list GenConfigMapEntry
}.
(** [rl.FunctionConfig], read into the struct. *)
Context (FunctionConfig : KubeObject) (FunctionConfig_As : result GenConfigMap).

(** The text of an entry. *)
Definition render (params : gmap string string) (entry : GenConfigMapEntry) : result string :=
  if decide (ge_Type entry = "gotmpl") then
    t ← template_Parse (ge_Key entry) (ge_Value entry);
    template_Execute t params
  else Ok (ge_Value entry).
Definition generate (entry : GenConfigMapEntry) (params data : gmap string string) : result (gmap string string) :=
  s ← render params entry;
  Ok (<[ge_Key entry := s]> data).

Fixpoint validate_from (i : nat) (l : list GenConfigMapEntry) : option error :=
  match l with
  | [] => None
  | entry :: l =>
      if decide (ge_Key entry = "") then Some ("data entry " +:+ pretty i +:+ ", key must not be empty")
      else validate_from (S i) l
  end.
Definition Validate (fc : GenConfigMap) : option error := validate_from 0 (gc_Data fc).

(** The loop over the entries. *)
Fixpoint generate_from (i : nat) (params : gmap string string) (l : list GenConfigMapEntry) (data : gmap string string)
    : result (gmap string string) :=
  match l with
  | [] => Ok data
  | entry :: l =>
      match generate entry params data with
      | Err e => Err ("data entry " +:+ pretty i +:+ " generate error: " +:+ e)
      | Ok data => generate_from (S i) params l data
      end
  end.

(** A call that changes the object, or the error to return. *)
Definition set_or {A} (p : A * option error) : result A := of_error p.1 p.2.
Definition metadata (fc : GenConfigMap) (name : string) : result KubeObject :=
  cmko ← set_or (SetAPIVersion NewEmptyKubeObject "v1");
  cmko ← set_or (SetKind cmko "ConfigMap");
  cmko ← set_or (SetNestedField cmko (any_Meta (ConfigMapMetadata fc)) ["metadata"]);
  cmko ← set_or (RemoveNestedField cmko ["metadata"; "creationTimestamp"]);
  cmko ← set_or (SetName cmko name);
  set_or (SetAnnotation cmko kio_PathAnnotation ("_gen_configmap_" +:+ name +:+ ".yaml")).

(** The config map that is generated. *)
Definition configMap : result KubeObject :=
  fc ← FunctionConfig_As;
  let name := if decide (gm_Name (ConfigMapMetadata fc) = "") then GetName FunctionConfig else gm_Name (ConfigMapMetadata fc) in
  match Validate fc with
  | Some e => Err e
  | None =>
      cmko ← metadata fc name;
      data ← generate_from 0 (Params fc) (gc_Data fc) ∅;
      if decide (data = ∅) then Ok cmko else set_or (SetNestedField cmko (any_StringMap data) ["data"])
  end.
(** The items after the run, and what it returns. *)
Definition Process (items : list KubeObject) : list KubeObject * bool * option error :=
  match configMap with
  | Err e => (items, false, Some e)
  | Ok cmko =>
      match UpsertObjectToItems (λ x, x) cmko items with
      | (items, Some e) => (items, false, Some e)
      | (items, None) => (items, true, None)
      end
  end.
End gen_configmap.

(** ** [gen-kustomize-res/main.go] *)
Definition KustomizeGroup : string := "kustomize.config.k8s.io".
Definition KustomizeKind : string := "Kustomization".
Definition KustomizeName : string := "kustomization".

Class KustomizeAPI `{FnSDK} := {
  IsGroupKind : string → string → KubeObject → bool;
  IsLocalConfig : KubeObject → bool;
  obj_PathAnnotation : KubeObject → string;
  (** [NestedStringSlice("resources")], empty when there is none or it is no list *)
  nested_resources : KubeObject → list string;
  SetNestedStringSlice : KubeObject → list string → KubeObject * option error;
  kust_PathAnnotation : string;
  (** the bytes of a text; the log of a result *)
  to_bytes : string → bytes;
  LogResult : error → Results → Results
}.

(** The set of the names seen so far and the result, both in one pass. *)
Definition merge_item (st : gset string * list string) (item : string) : gset string * list string :=
  if decide (item ∈ st.1) then st else ({[item]} ∪ st.1, st.2 ++ [item]).
Definition mergeAndRemoveDuplicates (slices : list (list string)) : list string :=
  (foldl (foldl merge_item) (∅, []) slices).2.

Section gen_kustomize.
Context `{!FnSDK, !KustomizeAPI}.

Definition is_kustomization (o : KubeObject) : bool := IsGroupKind KustomizeGroup KustomizeKind o.
(** The item with its index. *)
Fixpoint getExistingKustomization (i : nat) (items : list KubeObject) : option (nat * KubeObject) :=
  match items with
  | [] => None
  | o :: items => if is_kustomization o then Some (i, o) else getExistingKustomization (S i) items
  end.
Definition getNonLocalConfig (items : list KubeObject) : list string :=
  obj_PathAnnotation <$> List.filter (λ o, negb (IsLocalConfig o) && negb (is_kustomization o)) items.

Definition kustTemplate : string := String.concat (String "010"%char "")
  [""; "apiVersion: kustomize.config.k8s.io/v1beta1"; "kind: Kustomization"; "metadata:"; "  name: upsert-kustomize-res"; "resources: []"].
(** nil when the text does not parse. *)
Definition getNewKustObject : option KubeObject :=
  match ParseKubeObject (to_bytes kustTemplate) with Ok o => Some o | Err _ => None end.

Definition log_and_fail (items : list KubeObject) (e : error) (rl : resourceList) : resourceList * bool * option error :=
  (mkRL items (LogResult e (rl_Results rl)), false, None).
Definition kust_upsert (items : list KubeObject) (target : KubeObject) (rl : resourceList) : resourceList * bool * option error :=
  match UpsertObjectToItems (λ x, x) target items with
  | (items, Some e) => log_and_fail items e rl
  | (items, None) => (mkRL items (rl_Results rl), true, None)
  end.
(** The list for a kustomization that exists. *)
Definition merged_resources (items : list KubeObject) (existing : KubeObject) : list string :=
  match nested_resources existing with
  | [] => getNonLocalConfig items
  | l => mergeAndRemoveDuplicates [l; getNonLocalConfig items]
  end.

(** [targetKustObj := *existingKustObj] shares the content with the item, so setting the
    list changes the item too. *)
Definition kustomize_Run (rl : resourceList) : comp (resourceList * bool * option error) :=
  let items := rl_Items rl in
  match getExistingKustomization 0 items with
  | Some (i, existing) =>
      match SetNestedStringSlice existing (merged_resources items existing) with
      | (target, Some e) => Done (log_and_fail (<[i := target]> items) e rl)
      | (target, None) => Done (kust_upsert (<[i := target]> items) target rl)
      end
  | None =>
      match getNewKustObject with
      | None => Panic nil_dereference
      | Some newKustObj =>
          match SetAnnotation newKustObj kust_PathAnnotation (KustomizeName +:+ ".yaml") with
          | (_, Some e) => Done (log_and_fail items e rl)
          | (newKustObj, None) =>
              match SetNestedStringSlice newKustObj (getNonLocalConfig items) with
              | (_, Some e) => Done (log_and_fail items e rl)
              | (target, None) => Done (kust_upsert items target rl)
              end
          end
      end
  end.
End gen_kustomize.

(** ** The generated config map *)

(** The data of a config map, and what the setters do. *)
Class GenAPILaws `{GenAPI} := {
  obj_Data : KubeObject → gmap string string;
  empty_Data : obj_Data NewEmptyKubeObject = ∅;
  SetAPIVersion_spec o v o' : SetAPIVersion o v = (o', None) → GetAPIVersion o' = v ∧ obj_Data o' = obj_Data o;
  SetKind_spec o v o' : SetKind o v = (o', None) → GetKind o' = v ∧ GetAPIVersion o' = GetAPIVersion o ∧ obj_Data o' = obj_Data o;
  SetMeta_spec o m o' : SetNestedField o (any_Meta m) ["metadata"] = (o', None) →
    GetAPIVersion o' = GetAPIVersion o ∧ GetKind o' = GetKind o ∧ obj_Data o' = obj_Data o;
  RemoveMeta_spec o f o' : RemoveNestedField o ["metadata"; f] = (o', None) →
    GetAPIVersion o' = GetAPIVersion o ∧ GetKind o' = GetKind o ∧ obj_Data o' = obj_Data o;
  SetName_spec o n o' : SetName o n = (o', None) →
    GetName o' = n ∧ GetAPIVersion o' = GetAPIVersion o ∧ GetKind o' = GetKind o ∧ obj_Data o' = obj_Data o;
  SetAnnotation_data o k v o' : SetAnnotation o k v = (o', None) → obj_Data o' = obj_Data o;
  SetData_spec o d o' : SetNestedField o (any_StringMap d) ["data"] = (o', None) →
    obj_Data o' = d ∧ same_header o o' ∧ GetAnnotations o' = GetAnnotations o
}.

Section gen_properties.
Context `{!FnSDK, !FnSDKLaws, !GenAPI, !GenAPILaws} (FunctionConfig : KubeObject).

(** The last entry of a key. *)
Definition last_entry (k : string) (l : list GenConfigMapEntry) : option GenConfigMapEntry :=
  List.find (λ e, bool_decide (ge_Key e = k)) (List.rev l).
Lemma find_app {A} (f : A → bool) l1 l2 : List.find f (l1 ++ l2) = match List.find f l1 with Some x => Some x | None => List.find f l2 end.
Proof. induction l1 as [|x l1 IH]; [done|]. cbn. by destruct (f x). Qed.
Lemma last_entry_cons k e l :
  last_entry k (e :: l) = match last_entry k l with Some x => Some x | None => if decide (ge_Key e = k) then Some e else None end.
Proof. unfold last_entry. cbn [List.rev]. rewrite find_app. destruct (List.find _ (List.rev l)); [done|]. cbn [List.find].
  destruct (decide (ge_Key e = k)); [by rewrite bool_decide_true|by rewrite bool_decide_false]. Qed.

Lemma generate_from_spec i params l data data' k :
  generate_from i params l data = Ok data' →
  match last_entry k l with
  | Some e => ∃ s, render params e = Ok s ∧ data' !! k = Some s
  | None => data' !! k = data !! k
  end.
Proof.
  revert i data. induction l as [|e l IH]; intros i data; cbn [generate_from]; [by intros [= <-]|].
  destruct (generate e params data) as [data1|] eqn:Hg; [|done]. intros Hr%IH.
  apply result_bind_Ok in Hg as (s & Hs & [= <-]). rewrite last_entry_cons. destruct (last_entry k l); [done|].
  case_decide as Hk; [subst k; exists s; by rewrite Hr, lookup_insert_eq|]. by rewrite Hr, lookup_insert_ne.
Qed.

Lemma set_or_Ok {A} (p : A * option error) x : set_or p = Ok x → p = (x, None).
Proof. destruct p as [y [e|]]; [done|]. by intros [= <-]. Qed.
Lemma metadata_spec fc name o :
  metadata fc name = Ok o →
  GetAPIVersion o = "v1" ∧ GetKind o = "ConfigMap" ∧ GetName o = name ∧ obj_Data o = ∅ ∧
  GetAnnotations o !! kio_PathAnnotation = Some ("_gen_configmap_" +:+ name +:+ ".yaml").
Proof.
  unfold metadata.
  intros (o1 & (Ha1 & Hd1)%set_or_Ok%SetAPIVersion_spec & Hr)%result_bind_Ok.
  apply result_bind_Ok in Hr as (o2 & (Hk2 & Ha2 & Hd2)%set_or_Ok%SetKind_spec & Hr).
  apply result_bind_Ok in Hr as (o3 & (Ha3 & Hk3 & Hd3)%set_or_Ok%SetMeta_spec & Hr).
  apply result_bind_Ok in Hr as (o4 & (Ha4 & Hk4 & Hd4)%set_or_Ok%RemoveMeta_spec & Hr).
  apply result_bind_Ok in Hr as (o5 & (Hn5 & Ha5 & Hk5 & Hd5)%set_or_Ok%SetName_spec & Hr%set_or_Ok).
  pose proof (SetAnnotation_data _ _ _ _ Hr) as Hd6. apply SetAnnotation_spec in Hr as (Hann & (H6a & H6k & H6n & _) & _).
  rewrite Hann, lookup_insert_eq. pose proof empty_Data. split_and!; congruence.
Qed.

(** C33: The config map that is generated: version, kind, the name of its metadata or else the one of the function configuration, the path of its file, and for every key the text of the last entry of that key, a literal as it is and a template as it is rendered with the parameters. *)
Theorem gen_configmap_generated (fc : GenConfigMap) (o : KubeObject) :
  configMap FunctionConfig (Ok fc) = Ok o →
  GetAPIVersion o = "v1" ∧ GetKind o = "ConfigMap" ∧
  (GetName o = gm_Name (ConfigMapMetadata fc) ∨ gm_Name (ConfigMapMetadata fc) = "" ∧ GetName o = GetName FunctionConfig) ∧
  GetAnnotations o !! kio_PathAnnotation = Some ("_gen_configmap_" +:+ GetName o +:+ ".yaml") ∧
  ∀ k, match last_entry k (gc_Data fc) with
       | Some e => ge_Key e = k ∧ k ≠ "" ∧ ∃ s, render (Params fc) e = Ok s ∧ obj_Data o !! k = Some s
       | None => obj_Data o !! k = None
       end.
Proof.
  unfold configMap. cbn [mbind result_bind]. set (name := if decide (gm_Name _ = "") then _ else _).
  destruct (Validate fc) eqn:Hv; [done|]. intros (cm & Hm%metadata_spec & (data & Hdata & Hset)%result_bind_Ok)%result_bind_Ok.
  destruct Hm as (Ha & Hk & Hn & Hd & Hp).
  assert (obj_Data o = data ∧ same_header cm o ∧ GetAnnotations o = GetAnnotations cm) as (Ho & (Hha & Hhk & Hhn & _) & Hann).
  { case_decide as Hempty; [|by apply SetData_spec, set_or_Ok]. injection Hset as <-. by rewrite Hd, Hempty. }
  split_and!; [congruence..| |by rewrite Hann, <- Hhn, Hn|].
  - rewrite <- Hhn, Hn. subst name. destruct (decide (gm_Name (ConfigMapMetadata fc) = "")); [by right|by left].
  - intros k. pose proof (generate_from_spec _ _ _ _ _ k Hdata) as Hspec. rewrite Ho.
    destruct (last_entry k (gc_Data fc)) as [e|] eqn:He; [|by rewrite Hspec].
    unfold last_entry in He. apply List.find_some in He as [Hin He]. apply bool_decide_eq_true in He. apply List.in_rev in Hin.
    split_and!; [done| |done]. subst k. clear -Hv Hin. unfold Validate in Hv. revert Hv. generalize 0.
    induction (gc_Data fc) as [|e' l IH]; [done|]. intros i. cbn. case_decide; [done|]. intros Hv. destruct Hin as [->|Hin]; [done|by eapply IH].
Qed.
End gen_properties.

(** ** The list of files *)

(** The reference: the first occurrence of every name, in order. *)
Fixpoint nub (l : list string) : list string :=
  match l with
  | [] => []
  | x :: l => x :: filter (λ y, y ≠ x) (nub l)
  end.
Lemma elem_of_nub x l : x ∈ nub l ↔ x ∈ l.
Proof. induction l as [|y l IH]; [done|]. cbn. rewrite !elem_of_cons, list_elem_of_filter, IH. destruct (decide (x = y)); naive_solver. Qed.
Lemma NoDup_nub l : NoDup (nub l).
Proof. induction l as [|y l IH]; cbn; constructor; [rewrite list_elem_of_filter; naive_solver|by apply NoDup_filter]. Qed.
Lemma nub_NoDup l : NoDup l → nub l = l.
Proof.
  induction 1 as [|x l Hx Hl IH]; [done|]. cbn. rewrite IH. f_equal. apply filter_all, Forall_forall. intros y Hy ->. done.
Qed.

Lemma filter_comm {A} (P Q : A → Prop) `{!∀ x, Decision (P x), !∀ x, Decision (Q x)} (l : list A) :
  filter P (filter Q l) = filter Q (filter P l).
Proof. rewrite !list_filter_filter. apply filter_ext_elem. intros x _. tauto. Qed.
Lemma nub_app l1 l2 : nub (l1 ++ l2) = nub l1 ++ filter (λ y, y ∉ l1) (nub l2).
Proof.
  induction l1 as [|x l1 IH]; cbn; [symmetry; apply filter_all, Forall_forall; by intros y _ ?%elem_of_nil|].
  rewrite IH, filter_app, list_filter_filter. do 2 f_equal. apply filter_ext_elem. intros y _. rewrite elem_of_cons. tauto.
Qed.

Lemma merge_items S l items :
  (∀ x, x ∈ S ↔ x ∈ l) → 
  ∃ S', foldl merge_item (S, l) items = (S', l ++ filter (λ y, y ∉ l) (nub items)) ∧
    ∀ x, x ∈ S' ↔ x ∈ l ++ filter (λ y, y ∉ l) (nub items).
Proof.
  revert S l. induction items as [|i items IH]; intros S l HS; cbn [foldl nub]; [exists S; by rewrite filter_nil, app_nil_r|].
  unfold merge_item at 2. cbn [fst snd]. case_decide as Hi; rewrite HS in Hi.
  - rewrite filter_cons_False by auto. rewrite list_filter_filter.
    replace (filter (λ y, y ∉ l ∧ y ≠ i) (nub items)) with (filter (λ y, y ∉ l) (nub items)); [by apply IH|].
    apply filter_ext_elem. intros y _. split; [|tauto]. intros Hy. split; [done|]. by intros ->.
  - rewrite filter_cons_True, list_filter_filter by done.
    destruct (IH ({[i]} ∪ S) (l ++ [i])) as (S' & HS' & Hx); [set_solver|]. exists S'.
    replace (filter (λ y, y ∉ l ++ [i]) (nub items)) with (filter (λ y, y ∉ l ∧ y ≠ i) (nub items)) in HS', Hx.
    { rewrite <- app_assoc in HS', Hx. done. }
    apply filter_ext_elem. intros y _. rewrite elem_of_app, list_elem_of_singleton. tauto.
Qed.

(** The merge is the reference on the slices one after the other. *)
Lemma merge_nub slices : mergeAndRemoveDuplicates slices = nub (concat slices).
Proof.
  unfold mergeAndRemoveDuplicates.
  assert (∀ S l, (∀ x, x ∈ S ↔ x ∈ l) → NoDup l →
    (foldl (foldl merge_item) (S, l) slices).2 = l ++ filter (λ y, y ∉ l) (nub (concat slices))) as Hgen.
  { induction slices as [|s slices IH]; intros S l HS Hl; cbn; [by rewrite app_nil_r|].
    destruct (merge_items S l s HS) as (S' & -> & Hx). rewrite IH; [|done|].
    - rewrite nub_app, filter_app, <- app_assoc. do 2 f_equal. rewrite list_filter_filter. apply filter_ext_elem. intros y _.
      rewrite elem_of_app, list_elem_of_filter, elem_of_nub. destruct (decide (y ∈ l)), (decide (y ∈ s)); tauto.
    - apply NoDup_app. split_and!; [done| |apply NoDup_filter, NoDup_nub]. intros x Hx1 [Hx2 _]%list_elem_of_filter. done. }
  rewrite Hgen; [|set_solver|constructor]. cbn. apply filter_all, Forall_forall. by intros y _ ?%elem_of_nil.
Qed.

(** What the object operations do: the list is set, nothing else that is read here; the
    template is a kustomization. *)
Class KustomizeLaws `{KustomizeAPI} : Prop := {
  SetNestedStringSlice_spec o l o' : SetNestedStringSlice o l = (o', None) →
    nested_resources o' = l ∧ same_header o o' ∧ IsLocalConfig o' = IsLocalConfig o ∧ obj_PathAnnotation o' = obj_PathAnnotation o;
  IsGroupKind_header g k o o' : GetAPIVersion o = GetAPIVersion o' → GetKind o = GetKind o' → IsGroupKind g k o = IsGroupKind g k o';
  template_is_kustomization o : ParseKubeObject (to_bytes kustTemplate) = Ok o → is_kustomization o = true
}.

Section kustomize_properties.
Context `{!FnSDK, !FnSDKLaws, !KustomizeAPI, !KustomizeLaws}.

Lemma getExisting_spec j items i o :
  getExistingKustomization j items = Some (i, o) →
  ∃ l1 l2, items = l1 ++ o :: l2 ∧ i = j + length l1 ∧ is_kustomization o = true ∧ Forall (λ x, is_kustomization x = false) l1.
Proof.
  revert j. induction items as [|x items IH]; intros j; cbn; [done|]. destruct (is_kustomization x) eqn:Hx.
  - intros [= <- <-]. exists [], items. split_and!; [done|cbn; lia|done|constructor].
  - intros (l1 & l2 & -> & -> & Ho & Hl)%IH. exists (x :: l1), l2. split_and!; [done|cbn; lia|done|by constructor].
Qed.
Lemma getExisting_None j items : getExistingKustomization j items = None → Forall (λ x, is_kustomization x = false) items.
Proof. revert j. induction items as [|x items IH]; intros j; cbn; [constructor|]. destruct (is_kustomization x) eqn:Hx; [done|]. intros ?%IH. by constructor. Qed.

Lemma kustomization_id o x : is_kustomization o = true → is_kustomization x = false → same_id o x = false.
Proof.
  intros Ho Hx. unfold same_id. apply bool_decide_eq_false. intros (Ha & Hk & _).
  unfold is_kustomization in *. rewrite (IsGroupKind_header _ _ o x Ha Hk) in Ho. congruence.
Qed.
Lemma header_kustomization o o' : same_header o o' → is_kustomization o' = is_kustomization o.
Proof. intros (Ha & Hk & _). unfold is_kustomization. by apply IsGroupKind_header. Qed.

(** C34: A successful run changes one item or appends one, a kustomization, and leaves all the others.  An existing kustomization with a list keeps its entries in order without repetitions, followed by the files of the resources that are not local configuration and not in it yet; otherwise the list has one entry for each such resource, in the order of the items, so a file that holds two resources is in it twice. *)
Theorem kustomize_lists (rl rl' : resourceList) :
  kustomize_Run rl = Done (rl', true, None) →
  ∃ l1 l2 old k, rl_Items rl = l1 ++ old ++ l2 ∧ rl_Items rl' = l1 ++ k :: l2 ∧ is_kustomization k = true ∧
    Forall (λ x, is_kustomization x = false) l1 ∧
    match old with
    | [] => l2 = [] ∧ nested_resources k = getNonLocalConfig (rl_Items rl)
    | o :: old => old = [] ∧ is_kustomization o = true ∧
        nested_resources k = match nested_resources o with
                             | [] => getNonLocalConfig (rl_Items rl)
                             | l => nub (l ++ getNonLocalConfig (rl_Items rl))
                             end
    end.
Proof.
  destruct rl as [items results]. unfold kustomize_Run. cbn [rl_Items]. destruct (getExistingKustomization 0 items) as [[i o]|] eqn:He.
  - apply getExisting_spec in He as (l1 & l2 & -> & -> & Ho & Hl1).
    destruct (SetNestedStringSlice o _) as [k [e|]] eqn:Hs; [done|]. unfold kust_upsert.
    rewrite Nat.add_0_l, insert_app_r_alt, Nat.sub_diag by lia. cbn [insert list_insert].
    apply SetNestedStringSlice_spec in Hs as (Hres & Hh & _). pose proof (header_kustomization _ _ Hh) as Hk. rewrite Ho in Hk.
    rewrite Upsert_replace; [|by apply bool_decide_eq_true|eapply Forall_impl; [exact Hl1|]; intros x Hx; by apply kustomization_id].
    intros [= <-]. exists l1, l2, [o], k. split_and!; [done..|]. rewrite Hres. unfold merged_resources.
    destruct (nested_resources o) as [|r rs]; [done|]. rewrite merge_nub. cbn [concat]. by rewrite app_nil_r.
  - apply getExisting_None in He. unfold getNewKustObject. destruct (ParseKubeObject _) as [n|] eqn:Hp; [|done].
    destruct (SetAnnotation n _ _) as [n1 [e|]] eqn:Ha; [done|]. destruct (SetNestedStringSlice n1 _) as [k [e|]] eqn:Hs; [done|].
    unfold kust_upsert. apply SetNestedStringSlice_spec in Hs as (Hres & Hh & _). apply SetAnnotation_spec in Ha as (_ & Hh1 & _).
    assert (Hk : is_kustomization k = true).
    { rewrite (header_kustomization _ _ Hh), (header_kustomization _ _ Hh1). by apply template_is_kustomization. }
    rewrite Upsert_append by (eapply Forall_impl; [exact He|]; intros x Hx; by apply kustomization_id).
    intros [= <-]. exists items, [], [], k. by rewrite app_nil_r.
Qed.
End kustomize_properties.

(** ** Examples *)
Module GenWitnesses.
Import Model.

(** String maps as field values: the bits of their encoding. *)
Fixpoint bits (p : positive) : string :=
  match p with xH => "" | xO p => String "0"%char (bits p) | xI p => String "1"%char (bits p) end.
Fixpoint of_bits (s : string) : positive :=
  match s with EmptyString => xH | String a s => if decide (a = "0"%char) then xO (of_bits s) else xI (of_bits s) end.
Lemma of_bits_bits p : of_bits (bits p) = p.
Proof. induction p as [p IH|p IH|]; cbn; [by rewrite IH|by rewrite IH|done]. Qed.
Definition put_head (a k n : string) (o : obj) : obj := mkObj a k n (o_ns o) (o_ann o) (o_conds o) (o_gates o) (o_spec o) (o_extra o).
(** A template is text that ends with the value of its parameter [x]. *)
#[export] Instance gen_api : @GenAPI sdk := {|
  GenMeta := string; gm_Name m := m;
  Template := string; template_Parse _ t := if decide (t = "") then Err "no template" else Ok t;
  template_Execute t p := Ok (t +:+ default "<no value>" (p !! "x"));
  NewEmptyKubeObject := zeroKubeObject;
  SetAPIVersion o a := (put_head a (o_kind o) (o_name o) o, None); SetKind o k := (put_head (o_api o) k (o_name o) o, None);
  SetName o n := (put_head (o_api o) (o_kind o) n o, None); RemoveNestedField o _ := (o, None);
  any_Meta m := VString m; any_StringMap m := VString (bits (encode m)); kio_PathAnnotation := "path" |}.
Definition obj_data (o : obj) : gmap string string :=
  match o_extra o !! "data." with Some s => default ∅ (decode (of_bits s)) | None => ∅ end.
#[export] Instance gen_laws : GenAPILaws.
Proof.
  refine (@Build_GenAPILaws sdk gen_api obj_data _ _ _ _ _ _ _ _);
    [done|by intros o v o' [= <-]|by intros o v o' [= <-]| |by intros o v o' [= <-]|by intros o n o' [= <-]|by intros o k v o' [= <-]|].
  - intros o m o' [= <-]. unfold obj_data. cbn. by rewrite lookup_insert_ne.
  - intros o d o' [= <-]. unfold obj_data. cbn. by rewrite lookup_insert_eq, of_bits_bits, decode_encode.
Defined.

Definition fnConfig : obj := mkObj "fn.kpt.dev/v1alpha1" "GenConfigMap" "settings" "" ∅ [] [] None ∅.
Definition fc : @GenConfigMap sdk gen_api :=
  mkGenConfigMap ("" : @GenMeta sdk gen_api) {[ "x" := "7" ]} [mkEntry "" "a" "1"; mkEntry "gotmpl" "b" "port="; mkEntry "literal" "a" "2"].
Definition cm : @KubeObject sdk := match configMap (fnConfig : @KubeObject sdk) (Ok fc) with Ok o => o | Err _ => fnConfig end.
Lemma cm_ok : configMap (fnConfig : @KubeObject sdk) (Ok fc) = Ok cm.
Proof. vm_compute. reflexivity. Qed.
Lemma gen_configmap_generated_witness :
  GetName cm = "settings" ∧ obj_Data cm !! "a" = Some "2" ∧ obj_Data cm !! "b" = Some "port=7" ∧ obj_Data cm !! "c" = None.
Proof.
  destruct (gen_configmap_generated (fnConfig : @KubeObject sdk) fc cm cm_ok) as (_ & _ & Hn & _ & Hd).
  split_and!.
  - destruct Hn as [Hn|[_ Hn]]; [vm_compute in Hn; discriminate|exact Hn].
  - destruct (Hd "a") as (_ & _ & s & [= <-] & Hs). exact Hs.
  - destruct (Hd "b") as (_ & _ & s & [= <-] & Hs). exact Hs.
  - exact (Hd "c").
Defined.

(** The list of a kustomization is kept with the readiness gates. *)
Definition kust (l : list string) : obj := mkObj "kustomize.config.k8s.io/v1beta1" "Kustomization" "upsert-kustomize-res" "" ∅ []
  (mkReadinessGate <$> l) None ∅.
#[export] Instance kust_api : @KustomizeAPI sdk := {|
  IsGroupKind g k o := bool_decide (o_kind o = k) && HasPrefix (o_api o) (g +:+ "/");
  IsLocalConfig o := bool_decide (o_ann o !! "config.kubernetes.io/local-config" = Some "true");
  obj_PathAnnotation o := default "" (o_ann o !! "path");
  nested_resources o := ConditionType <$> o_gates o;
  SetNestedStringSlice o l := (put_gates o (mkReadinessGate <$> l), None);
  kust_PathAnnotation := "path"; to_bytes _ := to_node (kust []); LogResult e l := l ++ [e] |}.
#[export] Instance kust_laws : KustomizeLaws.
Proof.
  constructor.
  - intros o l o' [= <-]. cbn. split_and!; [|done..]. rewrite <- list_fmap_compose. by apply list_fmap_id.
  - intros g k o o' Ha Hk. cbn in *. by rewrite Ha, Hk.
  - intros o Ho. change (ParseKubeObject (to_bytes kustTemplate)) with (ParseKubeObject (SubObject_String (kust []))) in Ho.
    vm_compute in Ho. injection Ho as <-. vm_compute. reflexivity.
Qed.
Definition res (name path : string) : obj := mkObj "v1" "ConfigMap" name "" {[ "path" := path ]} [] [] None ∅.
Definition package (l : list obj) : @resourceList sdk := mkRL (l : list (@KubeObject sdk)) ([] : list string).
Definition run (l : list obj) : @resourceList sdk := match kustomize_Run (package l) with Done (rl, _, _) => rl | Panic _ => package [] end.

(** Two resources of one file, without a kustomization and with one. *)
Lemma kustomize_lists_witness :
  let new := [res "a" "a.yaml"; res "b" "a.yaml"] in
  let old := kust ["z.yaml"; "a.yaml"; "z.yaml"] :: new in
  (nested_resources <$> rl_Items (run new)) = [[]; []; ["a.yaml"; "a.yaml"]] ∧
  (nested_resources <$> rl_Items (run old)) = [["z.yaml"; "a.yaml"]; []; []] ∧
  ∃ l1 l2 k, rl_Items (run old) = l1 ++ k :: l2 ∧ is_kustomization k = true.
Proof.
  cbv zeta. split; [vm_compute; reflexivity|]. split; [vm_compute; reflexivity|].
  destruct (kustomize_lists (package (kust ["z.yaml"; "a.yaml"; "z.yaml"] :: [res "a" "a.yaml"; res "b" "a.yaml"]))
    (run (kust ["z.yaml"; "a.yaml"; "z.yaml"] :: [res "a" "a.yaml"; res "b" "a.yaml"]))) as (l1 & l2 & o & k & _ & Hk & Hkk & _).
  - vm_compute. reflexivity.
  - by exists l1, l2, k.
Defined.
End GenWitnesses.
