(* ===== verification/Programs.v ===== *)
(** * Programs: the Argo CD plugins

    [gitops-tools/kpt-argocd-cmp]: [kpt-render] prints the resources of a package that are to
    be deployed, [kpt-repo] an Argo CD application for every package of a repository.  Both
    walk over the files below the current directory; what [filepath.Walk] visits, in its
    order, is their input, with clean relative paths. *)
From S2P Require Import Prelude GoStrings External SdkModel Inventory GenFn.

Class ArgoSDK `{FnSDK} := {
  ParseKubeObjects : bytes → result (list KubeObject);
  (** [[]byte(s)] *)
  text_bytes : string → bytes;
  ko_GetString : KubeObject → string → string;
  ko_SetName : KubeObject → string → KubeObject * option error;
  (** a string handed over as [any], and the string at a path *)
  any_string : string → any;
  string_at : KubeObject → list string → option string
}.

(** A visit of [filepath.Walk]: the error handed over, and what reading the file gives. *)
Record visit `{FnSDK} := mkVisit { v_path : string; v_err : option error; v_isDir : bool; v_bytes : result bytes }.

(** The paths of an application that are filled in. *)
Definition repo_path : list string := ["spec"; "source"; "repoURL"].
Definition source_path : list string := ["spec"; "source"; "path"].
Definition destination_path : list string := ["spec"; "destination"; "name"].
Definition project_path : list string := ["spec"; "project"].
Definition argo_paths : list (list string) := [repo_path; source_path; destination_path; project_path].

Definition HasSuffix (s suf : string) : bool := match CutSuffix s suf with Some _ => true | None => false end.
(** [filepath.Dir] of a clean relative path. *)
Definition filepath_Dir (path : string) : string :=
  match cut_last slash path with Some (dir, _) => dir | None => "." end.

(** Setting a string sets it and none of the others; setting the name sets no field. *)
Class ArgoLaws `{ArgoSDK} : Prop := {
  SetNestedField_string o v path o' :
    path ∈ argo_paths → SetNestedField o (any_string v) path = (o', None) →
    string_at o' path = Some v ∧ ∀ path', path' ∈ argo_paths → path' ≠ path → string_at o' path' = string_at o path';
  SetName_spec o n o' : ko_SetName o n = (o', None) → GetName o' = n ∧ ∀ path, path ∈ argo_paths → string_at o' path = string_at o path
}.

Section argo.
Context `{!FnSDK, !KustomizeAPI, !ArgoSDK}.

(** [filepath.Walk] with a callback that prints: it stops at the first error. *)
Fixpoint Walk (f : visit → list bytes * option error) (l : list visit) : list bytes * option error :=
  match l with
  | [] => ([], None)
  | v :: l =>
      match f v with
      | (out, Some e) => (out, Some e)
      | (out, None) => let r := Walk f l in (out ++ r.1, r.2)
      end
  end.

(** ** [kpt-render/main.go] *)
Definition deployable (ko : KubeObject) : bool :=
  let isKustomization := IsGroupKind "kustomize.config.k8s.io" "Kustomization" ko in
  let isLocalConfig := bool_decide (GetAnnotation ko "config.kubernetes.io/local-config" = "true") in
  negb isKustomization && negb isLocalConfig.

(** The texts printed, each followed by a separator line. *)
Definition render_visit (v : visit) : list bytes * option error :=
  match v_err v with
  | Some e => ([], Some e)
  | None =>
      if v_isDir v then ([], None)
      else match v_bytes v with
           | Err e => ([], Some e)
           | Ok b =>
               match ParseKubeObjects b with
               | Err _ => ([], None)
               | Ok kos => (SubObject_String <$> List.filter deployable kos, None)
               end
           end
  end.
(** What is printed, and the exit status. *)
Definition kpt_render (l : list visit) : list bytes * Z :=
  let r := Walk render_visit l in (r.1, 0%Z).

(** ** [kpt-repo/main.go] *)
Variable Getenv : string → string.

Definition app_template : string := String.concat (String newline "")
  [""; "apiVersion: argoproj.io/v1alpha1"; "kind: Application"; "metadata:"; "  name: app"; "  namespace: argocd"; "spec:";
   "  destination:"; "    namespace: default"; "    name: __NAME__"; "  project: __PROJECT__"; "  source:"; "    path: __PATH__";
   "    plugin:"; "      name: kpt-render"; "      env:"; "    repoURL: __REPO_URL__"; "    targetRevision: main";
   "  syncPolicy:"; "    automated:"; "      prune: true"; "      selfHeal: true"].

(** [err = ko.SetNestedField(value, path...)], on to the next one without an error. *)
Definition set_string (value : string) (path : list string) (ko : KubeObject) : result KubeObject :=
  match SetNestedField ko (any_string value) path with
  | (ko, None) => Ok ko
  | (_, Some e) => Err e
  end.
Definition set_name (name : string) (ko : KubeObject) : result KubeObject :=
  match ko_SetName ko name with
  | (ko, None) => Ok ko
  | (_, Some e) => Err e
  end.

Definition app_object (destinationName projectName dirPath name repo_url : string) : result KubeObject :=
  ko ← ParseKubeObject (text_bytes app_template);
  ko ← (if decide (repo_url = "") then set_string (Getenv "ARGOCD_APP_SOURCE_REPO_URL") repo_path ko
        else set_string repo_url repo_path ko);
  ko ← set_string dirPath source_path ko;
  ko ← set_string destinationName destination_path ko;
  ko ← set_string projectName project_path ko;
  set_name name ko.

Definition outputArgoApplication (kptFile : KubeObject) (path : string) : list bytes * option error :=
  let destinationName := Getenv "ARGOCD_ENV_DESTINATION_NAME" in
  let projectName := Getenv "ARGOCD_APP_PROJECT_NAME" in
  if decide (destinationName = "" ∨ projectName = "") then ([], None)
  else
    let dirPath := Getenv "ARGOCD_APP_SOURCE_PATH" +:+ "/" +:+ filepath_Dir path in
    let name := Getenv "ARGOCD_APP_NAME" +:+ "-" +:+ GetName kptFile in
    match app_object destinationName projectName dirPath name (ko_GetString kptFile "repo") with
    | Err e => ([], Some e)
    | Ok ko => ([SubObject_String ko], None)
    end.

Definition repo_visit (v : visit) : list bytes * option error :=
  match v_err v with
  | Some e => ([], Some e)
  | None =>
      if HasSuffix (v_path v) "Kptfile" then
        match v_bytes v with
        | Err e => ([], Some e)
        | Ok b =>
            match ParseKubeObject b with
            | Err e => ([], Some e)
            | Ok ko => outputArgoApplication ko (v_path v)
            end
        end
      else ([], None)
  end.
Definition kpt_repo (l : list visit) : list bytes * Z :=
  let r := Walk repo_visit l in (r.1, match r.2 with Some _ => 1 | None => 0 end%Z).

(** ** What is printed *)

(** The walk up to its first error, and the rest. *)
Lemma Walk_spec f l :
  (∃ l1 v l2 e, l = l1 ++ v :: l2 ∧ Forall (λ u, (f u).2 = None) l1 ∧ (f v).2 = Some e ∧
     Walk f l = (concat ((λ u, (f u).1) <$> l1) ++ (f v).1, Some e)) ∨
  Forall (λ u, (f u).2 = None) l ∧ Walk f l = (concat ((λ u, (f u).1) <$> l), None).
Proof.
  induction l as [|v l IH]; [by right|]. cbn [Walk]. destruct (f v) as [out [e|]] eqn:Hv.
  - left. exists [], v, l, e. rewrite Hv. by split_and!; [|constructor|..].
  - destruct IH as [(l1 & u & l2 & e & -> & Hl1 & Hu & ->)|[Hl ->]].
    + left. exists (v :: l1), u, l2, e. cbn. rewrite Hv. cbn. rewrite app_assoc. split_and!; [done| |done|done].
      constructor; [by rewrite Hv|done].
    + right. cbn. rewrite Hv. split; [|done]. constructor; [by rewrite Hv|done].
Qed.

(** The files a walk reads without an error, and the resources in them. *)
Definition readable (v : visit) : Prop := v_err v = None ∧ (v_isDir v = false → ∃ b, v_bytes v = Ok b).
Definition resources_of (v : visit) : list KubeObject :=
  match v_isDir v, v_bytes v with
  | false, Ok b => match ParseKubeObjects b with Ok kos => kos | Err _ => [] end
  | _, _ => []
  end.

Lemma render_readable v : (render_visit v).2 = None ↔ readable v.
Proof.
  unfold render_visit, readable. destruct (v_err v); [split; [done|by intros []]|].
  destruct (v_isDir v); [split; [by split|done]|]. destruct (v_bytes v) as [b|e]; cbn.
  - split; [intros _; split; [done|by exists b]|]. by destruct (ParseKubeObjects b).
  - split; [done|]. intros [_ Hb]. destruct (Hb eq_refl) as [b [=]].
Qed.
Lemma render_out v : readable v → (render_visit v).1 = SubObject_String <$> List.filter deployable (resources_of v).
Proof.
  intros [He Hb]. unfold render_visit, resources_of. rewrite He. destruct (v_isDir v); [done|].
  destruct (Hb eq_refl) as [b ->]. by destruct (ParseKubeObjects b).
Qed.
Lemma render_error v e : (render_visit v).2 = Some e → (render_visit v).1 = [].
Proof.
  unfold render_visit. destruct (v_err v); [done|]. destruct (v_isDir v); [done|].
  destruct (v_bytes v) as [b|]; [|done]. by destruct (ParseKubeObjects b).
Qed.

(** What is to be deployed. *)
Definition to_deploy (ko : KubeObject) : Prop :=
  IsGroupKind KustomizeGroup KustomizeKind ko = false ∧ GetAnnotation ko "config.kubernetes.io/local-config" ≠ "true".
Lemma deployable_spec ko : deployable ko = true ↔ to_deploy ko.
Proof.
  unfold deployable, to_deploy, KustomizeGroup, KustomizeKind.
  rewrite andb_true_iff, !negb_true_iff, bool_decide_eq_false. done.
Qed.
#[export] Instance to_deploy_dec ko : Decision (to_deploy ko).
Proof. unfold to_deploy. apply _. Defined.
Lemma deployable_filter (l : list KubeObject) : List.filter deployable l = filter to_deploy l.
Proof.
  induction l as [|o l IH]; [done|]. rewrite filter_cons. cbn. rewrite IH. pose proof (deployable_spec o) as Hd.
  destruct (deployable o); case_decide as Hx; try done; [destruct Hx; by apply Hd|apply Hd in Hx; done].
Qed.

(** kpt-render prints the resources that are neither local configuration nor kustomizations of the files it can read, in the order of the walk and completely when every file can be read; at the first file or directory that cannot be read it stops, so that everything after it is missing, and still exits with status 0. *)
Theorem kpt_render_prints (l : list visit) :
  (Forall readable l →
   kpt_render l = (SubObject_String <$> filter to_deploy (l ≫= resources_of), 0%Z)) ∧
  (∀ l1 v l2, l = l1 ++ v :: l2 → Forall readable l1 → ¬ readable v →
   kpt_render l = (SubObject_String <$> filter to_deploy (l1 ≫= resources_of), 0%Z)).
Proof.
  assert (Hout : ∀ l, Forall readable l →
    concat ((λ u, (render_visit u).1) <$> l) = SubObject_String <$> filter to_deploy (l ≫= resources_of)).
  { induction 1 as [|v l' Hv _ IH]; [done|]. cbn. rewrite IH, (render_out v Hv), deployable_filter, filter_app, fmap_app. done. }
  unfold kpt_render. split.
  - intros Hl. destruct (Walk_spec render_visit l) as [(l1 & v & l2 & e & -> & _ & Hv & _)|[_ ->]]; [|cbn; by rewrite Hout].
    apply Forall_app in Hl as [_ Hl]. apply Forall_cons in Hl as [Hv' _]. apply render_readable in Hv'. congruence.
  - intros l1 v l2 -> Hl1 Hv. cbn. f_equal. rewrite <- Hout by done. revert Hl1. induction l1 as [|u l1 IH]; cbn [Walk app].
    + intros _. destruct (render_visit v) as [out [e|]] eqn:He.
      * apply (f_equal snd) in He as He2. apply render_error in He2. rewrite He in He2. cbn in *. by subst.
      * destruct Hv. apply render_readable. by rewrite He.
    + intros [Hu Hl1]%Forall_cons. apply render_readable in Hu. destruct (render_visit u) as [out eu] eqn:He. cbn in Hu. subst.
      cbn. rewrite He. cbn. by rewrite IH.
Qed.

(** The application of a package: where it is, where it goes, and under which name; the
    repository of the Kptfile is preferred. *)
Context `{!ArgoLaws}.
Lemma set_string_spec v path o o' :
  path ∈ argo_paths → set_string v path o = Ok o' →
  string_at o' path = Some v ∧ ∀ path', path' ∈ argo_paths → path' ≠ path → string_at o' path' = string_at o path'.
Proof.
  intros Hp. unfold set_string. destruct (SetNestedField _ _ _) as [o1 [e|]] eqn:Hs; [done|]. intros [= <-].
  by apply SetNestedField_string.
Qed.

Theorem kpt_repo_application dest proj dir name repo ko :
  app_object dest proj dir name repo = Ok ko →
  GetName ko = name ∧ string_at ko source_path = Some dir ∧ string_at ko destination_path = Some dest ∧
  string_at ko project_path = Some proj ∧
  string_at ko repo_path = Some (if decide (repo = "") then Getenv "ARGOCD_APP_SOURCE_REPO_URL" else repo).
Proof.
  unfold app_object. destruct (ParseKubeObject _) as [k0|]; [cbn|done].
  set (url := if decide (repo = "") then Getenv "ARGOCD_APP_SOURCE_REPO_URL" else repo).
  assert ((if decide (repo = "") then set_string (Getenv "ARGOCD_APP_SOURCE_REPO_URL") repo_path k0 else set_string repo repo_path k0)
    = set_string url repo_path k0) as -> by (unfold url; by case_decide).
  destruct (set_string url _ _) as [k1|] eqn:Hk1; [cbn|done]. destruct (set_string dir _ _) as [k2|] eqn:Hk2; [cbn|done].
  destruct (set_string dest _ _) as [k3|] eqn:Hk3; [cbn|done]. destruct (set_string proj _ _) as [k4|] eqn:Hk4; [cbn|done].
  unfold set_name. destruct (ko_SetName k4 name) as [k5 [e|]] eqn:Hk5; [done|]. intros [= <-].
  apply set_string_spec in Hk1 as [Hk1 _]; [|set_solver]. apply set_string_spec in Hk2 as [Hk2 Hk2o]; [|set_solver].
  apply set_string_spec in Hk3 as [Hk3 Hk3o]; [|set_solver]. apply set_string_spec in Hk4 as [Hk4 Hk4o]; [|set_solver].
  apply SetName_spec in Hk5 as [Hn Hk5o].
  split_and!; [done| | | |]; rewrite Hk5o by set_solver; rewrite ?Hk4o by (set_solver || done); rewrite ?Hk3o by (set_solver || done);
    rewrite ?Hk2o by (set_solver || done); done.
Qed.
End argo.

(** ** Witnesses *)
Module ProgramsWitnesses.
Import Model.
Import GenFn.GenWitnesses.

Definition app : obj := mkObj "argoproj.io/v1alpha1" "Application" "app" "argocd" ∅ [] [] None ∅.
Definition rename (o : obj) (n : string) : obj :=
  mkObj (o_api o) (o_kind o) n (o_ns o) (o_ann o) (o_conds o) (o_gates o) (o_spec o) (o_extra o).
(** A file is a sequence of documents. *)
#[export] Instance argo_sdk : @ArgoSDK sdk := {|
  ParseKubeObjects n := match n_Kind n with SequenceNode => mapM (λ d, from_node (erase d)) (n_Content n) | _ => Err "not KRM" end;
  text_bytes _ := to_node app;
  ko_GetString o f := default "" (o_extra o !! f);
  ko_SetName o n := (rename o n, None);
  any_string := VString;
  string_at o path := o_extra o !! join path |}.

#[export] Instance argo_laws : ArgoLaws.
Proof.
  constructor.
  - intros o v path o' Hp [= <-]. cbn. split; [apply lookup_insert_eq|]. intros path' Hp' Hne. apply lookup_insert_ne.
    unfold argo_paths in *. rewrite !elem_of_cons in Hp, Hp'. intros Heq. apply Hne.
    destruct Hp as [->|[->|[->|[->|[]%not_elem_of_nil]]]]; destruct Hp' as [->|[->|[->|[->|[]%not_elem_of_nil]]]];
      first [reflexivity|vm_compute in Heq; discriminate].
  - intros o n o' [= <-]. done.
Qed.

Definition cm (name : string) (local : bool) : obj :=
  mkObj "v1" "ConfigMap" name "" (if local then {["config.kubernetes.io/local-config" := "true"]} else ∅) [] [] None ∅.
Definition file (path : string) (l : list obj) : @visit sdk := @mkVisit sdk path None false (Ok (seqn (to_node <$> l))).
Definition dir (path : string) : @visit sdk := @mkVisit sdk path None true (Err "is a directory").
Definition unreadable (path : string) : @visit sdk := @mkVisit sdk path None false (Err "permission denied").
Definition before : list (@visit sdk) := [dir "."; file "a.yaml" [cm "a" false; cm "b" true; kust []]].
Lemma file_readable path l : readable (file path l).
Proof. split; [done|]. intros _. by eexists. Qed.
Lemma before_readable : Forall readable before.
Proof. apply Forall_cons. split; [by split|]. apply Forall_cons. split; [apply file_readable|by constructor]. Qed.
(** The map after the unreadable file is not printed. *)
Lemma kpt_render_prints_witness :
  let l := before ++ unreadable "b.yaml" :: [file "c.yaml" [cm "c" false]] in
  kpt_render l = ([to_node (cm "a" false)], 0%Z) ∧
  kpt_render (file "c.yaml" [cm "c" false] :: before) = ([to_node (cm "c" false); to_node (cm "a" false)], 0%Z).
Proof.
  split.
  - rewrite (proj2 (kpt_render_prints _) before (unreadable "b.yaml") [file "c.yaml" [cm "c" false]] eq_refl);
      [vm_compute; reflexivity| |].
    + apply before_readable.
    + intros [_ Hb]. destruct (Hb eq_refl) as [b [=]].
  - rewrite (proj1 (kpt_render_prints _)); [vm_compute; reflexivity|].
    apply Forall_cons. split; [apply file_readable|apply before_readable].
Defined.

Definition getenv (k : string) : string :=
  if decide (k = "ARGOCD_ENV_DESTINATION_NAME") then "edge1" else if decide (k = "ARGOCD_APP_PROJECT_NAME") then "default"
  else if decide (k = "ARGOCD_APP_SOURCE_PATH") then "repo" else if decide (k = "ARGOCD_APP_NAME") then "edge1" else "url".
Definition kptfile : obj := mkObj "kpt.dev/v1" "Kptfile" "free5gc" "" ∅ [] [] None ∅.
Definition edge_app : @KubeObject sdk :=
  match app_object getenv "edge1" "default" "repo/free5gc" "edge1-free5gc" "" with Ok o => o | Err _ => app end.
Example repo_prints :
  kpt_repo getenv [@mkVisit sdk "free5gc/Kptfile" None false (Ok (to_node kptfile))] = ([to_node edge_app], 0%Z).
Proof. vm_compute. reflexivity. Qed.
Example repo_application : GetName edge_app = "edge1-free5gc" ∧ string_at edge_app repo_path = Some "url".
Proof.
  destruct (kpt_repo_application getenv "edge1" "default" "repo/free5gc" "edge1-free5gc" "" edge_app) as (Hn & _ & _ & _ & Hu);
    [vm_compute; reflexivity|]. by split.
Qed.
End ProgramsWitnesses.
