(* ===== verification/Kube.v ===== *)
(** * What the controllers share: the API server, errors, finalizers

    [controllers/pkg/resource] and the parts of controller-runtime and apimachinery the
    reconcilers use.  The API server, with the clock, is a parameter: its state is a type
    [W], a call returns an answer and the next state.  [Object] has the metadata the shared
    helpers read and write. *)
From S2P Require Import Prelude.

(** [types.NamespacedName] and [ctrl.Result] (durations in nanoseconds). *)
Record NamespacedName := mkKey { key_Namespace : string; key_Name : string }.
#[export] Instance NamespacedName_eq_dec : EqDecision NamespacedName.
Proof. solve_decision. Defined.
#[export] Instance NamespacedName_countable : Countable NamespacedName.
Proof.
  apply (inj_countable' (λ k, (key_Namespace k, key_Name k)) (λ p, mkKey (fst p) (snd p))).
  by intros [].
Defined.

Record Result := mkResult { Requeue : bool; RequeueAfter : Z }.
Definition done_result : Result := mkResult false 0.
Definition requeue : Result := mkResult true 0.
Definition requeueAfter (d : Z) : Result := mkResult false d.
Definition Second : Z := 1000000000.

(** [k8s.io/apimachinery/pkg/api/errors] and [github.com/pkg/errors]: which errors say
    that an object does not exist, and the message of a wrapped error. *)
Class ApiErrors := {
  IsNotFound : error → bool;
  errors_Wrap : error → string → error
}.

Section errors.
Context `{!ApiErrors}.

(** [errors.Wrap]: nil for nil. *)
Definition Wrap (err : option error) (msg : string) : option error := (λ e, errors_Wrap e msg) <$> err.

(** [kerrors.IsNotFound] and the like on an error that may be nil. *)
Definition ErrorIs : Type := option error → bool.
Definition IsNotFoundErr : ErrorIs := λ err, match err with Some e => IsNotFound e | None => false end.

Definition Ignore (p : ErrorIs) (err : option error) : option error := if p err then None else err.
Fixpoint IgnoreAny (err : option error) (ps : list ErrorIs) : option error :=
  match ps with
  | [] => err
  | f :: ps => if f err then None else IgnoreAny err ps
  end.
Definition IgnoreNotFound (err : option error) : option error := Ignore IsNotFoundErr err.
End errors.

(** ** [metav1.Object] *)
Class Object (T : Type) := {
  GetKey : T → NamespacedName;
  GetGenerateName : T → string;
  GetFinalizers : T → list string;
  SetFinalizers : list string → T → T;
  (** nil annotations are [None] *)
  ObjAnnotations : T → option (gmap string string);
  SetObjAnnotations : option (gmap string string) → T → T;
  (** the deletion timestamp is set *)
  HasDeletionTimestamp : T → bool
}.

Section objects.
Context {T : Type} `{!Object T}.

Definition WasDeleted (o : T) : bool := HasDeletionTimestamp o.

Definition FinalizerExists (o : T) (finalizer : string) : bool :=
  existsb (λ e, bool_decide (e = finalizer)) (GetFinalizers o).
Definition AddFinalizer (o : T) (finalizer : string) : T :=
  if FinalizerExists o finalizer then o else SetFinalizers (GetFinalizers o ++ [finalizer]) o.
(** The loop deletes from the slice it ranges over. *)
Definition RemoveFinalizer (o : T) (finalizer : string) : comp T :=
  f ← delete_in_range (λ e, bool_decide (e = finalizer)) (GetFinalizers o);
  Done (SetFinalizers f o).

Definition AddAnnotations (o : T) (annotations : option (gmap string string)) : T :=
  match ObjAnnotations o with
  | None => SetObjAnnotations annotations o
  | Some a => SetObjAnnotations (Some (default ∅ annotations ∪ a)) o
  end.
Definition RemoveAnnotations (o : T) (annotations : list string) : T :=
  match ObjAnnotations o with
  | None => o
  | Some a => SetObjAnnotations (Some (foldl (λ a k, delete k a) a annotations)) o
  end.
End objects.

Fixpoint RemoveString (slice : list string) (s : string) : list string :=
  match slice with
  | [] => []
  | v :: slice => if decide (v ≠ s) then v :: RemoveString slice s else RemoveString slice s
  end.

(** ** A client of the API server for one kind of object
    An update fills in the object with what the server stored. *)
Class Client (W T : Type) := {
  Get : W → NamespacedName → result T;
  Create : W → T → W * (T * option error);
  Update : W → T → W * (T * option error);
  StatusUpdate : W → T → W * (T * option error);
  (** [Patch] of an object with a merge patch made from a second one *)
  MergePatch : W → T → T → W * (T * option error)
}.

(** A call to the server. *)
Definition call {W A} (f : W → W * A) : prog W A := λ w, Done (f w).

Section api.
Context `{!ApiErrors} {W T : Type} `{!Object T, !Client W T}.

(** [APIFinalizer]: a finalizer managed at the server. *)
Definition APIFinalizer_AddFinalizer (finalizer : string) (o : T) : prog W (T * option error) :=
  if FinalizerExists o finalizer then mret (o, None)
  else
    '(o, err) ← call (λ w, Update w (AddFinalizer o finalizer));
    mret (o, Wrap err "cannot update object").
Definition APIFinalizer_RemoveFinalizer (finalizer : string) (o : T) : prog W (T * option error) :=
  if negb (FinalizerExists o finalizer) then mret (o, None)
  else
    o ← lift (RemoveFinalizer o finalizer);
    '(o, err) ← call (λ w, Update w o);
    mret (o, Wrap (IgnoreNotFound err) "cannot update object").

(** The options of [Apply]: called on the current and the desired object. *)
Definition ApplyOption : Type := T → T → (T * T) * option error.
Fixpoint run_options (ao : list ApplyOption) (current desired : T) : (T * T) * option error :=
  match ao with
  | [] => ((current, desired), None)
  | f :: ao =>
      match f current desired with
      | (p, Some err) => (p, Some err)
      | ((current, desired), None) => run_options ao current desired
      end
  end.

(** [APIPatchingApplicator.Apply]: create the object or patch the current one. *)
Definition Apply (o : T) (ao : list ApplyOption) : prog W (T * option error) :=
  let create := '(o, err) ← call (λ w, Create w o); mret (o, Wrap err "cannot create object") in
  if bool_decide (key_Name (GetKey o) = "") && negb (bool_decide (GetGenerateName o = "")) then create
  else
    w ← get_st;
    match Get w (GetKey o) with
    | Err e => if IsNotFound e then create else mret (o, Wrap (Some e) "cannot get object")
    | Ok current =>
        match run_options ao current o with
        | ((current, _), Some err) => mret (current, Some err)
        | ((current, desired), None) =>
            '(o, err) ← call (λ w, MergePatch w current desired);
            mret (o, Wrap err "cannot patch object")
        end
    end.
End api.

(** ** Events *)
(** What [record.EventRecorder] records: the type, the reason and the message. *)
Record Event := mkEvent { ev_Type : string; ev_Reason : string; ev_Message : string }.
Definition Warning : string := "Warning".
Definition Normal : string := "Normal".
