(* ===== verification/GoTime.v ===== *)
(** * Durations of the [time] package

    [time.ParseDuration] and [time.Since], which the controllers use: durations are 64-bit
    numbers of nanoseconds, sums wrap around at 64 bits as the library's do.  The product of
    a fraction and a unit is computed in [float64], a parameter here. *)
From S2P Require Import Prelude.
Open Scope Z_scope.

Definition two63 : Z := 2 ^ 63.
Definition two64 : Z := 2 ^ 64.
Definition to_uint64 (z : Z) : Z := z mod two64.
Definition to_int64 (z : Z) : Z := let u := to_uint64 z in if decide (u < two63) then u else u - two64.
Definition is_int64 (z : Z) : Prop := - two63 ≤ z < two63.

(** [uint64(float64(f) * (float64(unit) / 10^digits))] *)
Class GoFloat := float_fraction : Z → Z → nat → Z.

Definition digit (a : ascii) : option Z :=
  let n := Z.of_nat (nat_of_ascii a) in if decide (48 ≤ n ≤ 57) then Some (n - 48) else None.

(** [leadingInt]: [None] is an overflow. *)
Fixpoint leadingInt (x : Z) (s : string) : option (Z * string) :=
  match s with
  | "" => Some (x, s)
  | String a s' =>
      match digit a with
      | None => Some (x, s)
      | Some n =>
          if decide (x > two63 / 10) then None
          else let x := x * 10 + n in
               if decide (x > two63) then None else leadingInt x s'
      end
  end.

(** [leadingFraction]: the digits, their number, and the rest; digits beyond the precision
    are skipped. *)
Fixpoint leadingFraction (x : Z) (scale : nat) (overflow : bool) (s : string) : Z * nat * string :=
  match s with
  | "" => (x, scale, s)
  | String a s' =>
      match digit a with
      | None => (x, scale, s)
      | Some n =>
          if overflow then leadingFraction x scale true s'
          else if decide (x > (two63 - 1) / 10) then leadingFraction x scale true s'
          else let y := x * 10 + n in
               if decide (y > two63) then leadingFraction x scale true s'
               else leadingFraction y (S scale) false s'
      end
  end.

(** The characters up to the next digit or period. *)
Fixpoint take_unit (s : string) : string * string :=
  match s with
  | "" => ("", "")
  | String a s' =>
      if decide (a = dot ∨ is_Some (digit a)) then ("", s)
      else let '(u, rest) := take_unit s' in (String a u, rest)
  end.

(** The micro sign and the Greek mu, in UTF-8. *)
Definition micro1 : string := String "194"%char (String "181"%char "s").
Definition micro2 : string := String "206"%char (String "188"%char "s").
Definition unitMap (u : string) : option Z :=
  if decide (u = "ns") then Some 1
  else if decide (u = "us" ∨ u = micro1 ∨ u = micro2) then Some 1000
  else if decide (u = "ms") then Some (10 ^ 6)
  else if decide (u = "s") then Some (10 ^ 9)
  else if decide (u = "m") then Some (60 * 10 ^ 9)
  else if decide (u = "h") then Some (3600 * 10 ^ 9)
  else None.

Section parse.
Context `{!GoFloat}.

Definition invalid (what : string) : error := "time: invalid duration " +:+ quote what.

(** One number with its unit: its value and the rest of the text. *)
Definition parse_term (orig s : string) : result (Z * string) :=
  match s with
  | String a _ =>
      if decide (a = dot ∨ is_Some (digit a)) then
        match leadingInt 0 s with
        | None => Err (invalid orig)
        | Some (v, s1) =>
            let pre := negb (bool_decide (s1 = s)) in
            let '(f, scale, s2, post) :=
              match s1 with
              | String a s1' =>
                  if decide (a = dot) then
                    let '(f, scale, s2) := leadingFraction 0 0 false s1' in (f, scale, s2, negb (bool_decide (s2 = s1')))
                  else (0, 0%nat, s1, false)
              | "" => (0, 0%nat, s1, false)
              end in
            if negb pre && negb post then Err (invalid orig)
            else
              let '(u, s3) := take_unit s2 in
              if decide (u = "") then Err ("time: missing unit in duration " +:+ quote orig)
              else match unitMap u with
                   | None => Err ("time: unknown unit " +:+ quote u +:+ " in duration " +:+ quote orig)
                   | Some unit =>
                       if decide (v > two63 / unit) then Err (invalid orig)
                       else
                         let v := v * unit in
                         let v := if decide (f > 0) then to_uint64 (v + float_fraction f unit scale) else v in
                         if decide (f > 0 ∧ v > two63) then Err (invalid orig) else Ok (v, s3)
                   end
        end
      else Err (invalid orig)
  | "" => Err (invalid orig)
  end.

(** The loop over the terms; every term takes characters, so the length of the text is
    fuel enough ([parse_terms_enough]). *)
Fixpoint parse_terms (fuel : nat) (orig s : string) (d : Z) : option (result Z) :=
  match s with
  | "" => Some (Ok d)
  | _ =>
      match fuel with
      | O => None
      | S fuel =>
          match parse_term orig s with
          | Err e => Some (Err e)
          | Ok (v, s) =>
              let d := to_uint64 (d + v) in
              if decide (d > two63) then Some (Err (invalid orig)) else parse_terms fuel orig s d
          end
      end
  end.

Definition ParseDuration (orig : string) : result Z :=
  let '(neg, s) := match orig with
                   | String "-"%char s => (true, s)
                   | String "+"%char s => (false, s)
                   | _ => (false, orig)
                   end in
  if decide (s = "0") then Ok 0
  else if decide (s = "") then Err (invalid orig)
  else match parse_terms (String.length s) orig s 0 with
       | None => Err "unreachable"
       | Some (Err e) => Err e
       | Some (Ok d) =>
           if (neg : bool) then Ok (to_int64 (- to_int64 d))
           else if decide (d > two63 - 1) then Err (invalid orig)
           else Ok (to_int64 d)
       end.
End parse.

(** [time.Since]: saturating. *)
Definition Since (now t : Z) : Z := Z.max (- two63) (Z.min (two63 - 1) (now - t)).

Example parse_1h15m : @ParseDuration (λ _ _ _, 0) "1h15m" = Ok (4500 * 10 ^ 9).
Proof. vm_compute. reflexivity. Qed.
Example parse_minus : @ParseDuration (λ _ _ _, 0) "-5s" = Ok (-5 * 10 ^ 9).
Proof. vm_compute. reflexivity. Qed.

(** ** Termination and bounds *)
Lemma leadingInt_length x s v r : leadingInt x s = Some (v, r) → (String.length r ≤ String.length s)%nat.
Proof.
  revert x. induction s as [|a s IH]; intros x; simpl; [by intros [= _ <-]|].
  destruct (digit a); [|by intros [= _ <-]]. case_decide; [done|]. case_decide; [done|]. intros Hr%IH. lia.
Qed.
Lemma leadingFraction_length x n o s v k r :
  leadingFraction x n o s = (v, k, r) → (String.length r ≤ String.length s)%nat.
Proof.
  revert x n o. induction s as [|a s IH]; intros x n o; simpl; [by intros [= _ _ <-]|].
  destruct (digit a); [|by intros [= _ _ <-]]. destruct o; [|case_decide; [|case_decide]]; intros Hr%IH; lia.
Qed.
Lemma take_unit_length s u r : take_unit s = (u, r) → (String.length u + String.length r = String.length s)%nat.
Proof.
  revert u r. induction s as [|a s IH]; intros u r; simpl; [by intros [= <- <-]|].
  case_decide; [by intros [= <- <-]|]. destruct (take_unit s) as [u' r'] eqn:Hs. intros [= <- <-]. simpl. by rewrite (IH u' r').
Qed.

Section duration_lemmas.
Context `{!GoFloat}.

Lemma parse_term_length orig s v r : parse_term orig s = Ok (v, r) → (String.length r < String.length s)%nat.
Proof.
  destruct s as [|a s]; [done|]. unfold parse_term. case_decide; [|done].
  destruct (leadingInt 0 (String a s)) as [[x s1]|] eqn:Hi; [|done]. apply leadingInt_length in Hi.
  set (p := match s1 with "" => _ | _ => _ end).
  assert (String.length (p.1.2) ≤ String.length s1)%nat as Hp.
  { subst p. destruct s1 as [|b s1]; [done|]. case_decide; [|done].
    destruct (leadingFraction _ _ _ s1) as [[f k] s2] eqn:Hf. apply leadingFraction_length in Hf. simpl in *. lia. }
  destruct p as [[[f scale] s2] post]. cbn [fst snd] in Hp. destruct (_ && _); [done|].
  destruct (take_unit s2) as [u s3] eqn:Hu. apply take_unit_length in Hu. case_decide as Hne; [done|].
  destruct (unitMap u); [|done]. case_decide; [done|]. cbv zeta. destruct (decide (f > 0 ∧ _)); [done|]. intros [= _ <-].
  destruct u; [done|]. simpl in *. lia.
Qed.

Lemma parse_terms_enough fuel orig s d : (String.length s ≤ fuel)%nat → parse_terms fuel orig s d ≠ None.
Proof.
  revert s d. induction fuel as [|fuel IH]; intros s d Hl; (destruct s as [|a s]; [done|]); [simpl in Hl; lia|].
  cbn [parse_terms]. destruct (parse_term orig (String a s)) as [[v r]|] eqn:Ht; [|done].
  apply parse_term_length in Ht. case_decide; [done|]. apply IH. simpl in *. lia.
Qed.

Lemma to_int64_bounds z : is_int64 (to_int64 z).
Proof.
  unfold is_int64, to_int64, to_uint64. cbv zeta. pose proof (Z.mod_pos_bound z two64 eq_refl).
  unfold two64, two63 in *. case_decide; lia.
Qed.

Lemma ParseDuration_bounds s d : ParseDuration s = Ok d → is_int64 d.
Proof.
  assert (H0 : is_int64 0) by done. unfold ParseDuration. destruct (match s with "" => _ | _ => _ end) as [neg t].
  case_decide; [by intros [= <-]|]. case_decide; [done|].
  destruct (parse_terms _ _ _ _) as [[x|]|]; [|done|done].
  destruct neg; [intros [= <-]; apply to_int64_bounds|]. case_decide; [done|]. intros [= <-]. apply to_int64_bounds.
Qed.
End duration_lemmas.
