(* ===== verification/Porch.v ===== *)
(** * Package revisions of Porch, as the controllers see them

    [controllers/pkg/porch]: whether the package variant that owns a revision is ready, the
    approval of a revision, and conditions.  The types and the two predicates of the Porch
    API and the API server are parameters; [PorchLaws] says what is relied on. *)
From S2P Require Import Prelude External Kptfile Kube.

(** The fields in use. *)
Record OwnerReference := mkOwnerRef {
  or_Controller : option bool; or_APIVersion : string; or_Kind : string; or_Name : string
}.
(** [porchv1alpha1.Condition] *)
Record PorchCondition := mkPorchCondition { pc_Type : string; pc_Reason : string; pc_Status : string; pc_Message : string }.
Record PackageRevision := mkPR {
  pr_Key : NamespacedName;
  pr_Annotations : gmap string string;
  pr_OwnerReferences : list OwnerReference;
  pr_CreationTimestamp : Z;
  pr_PackageName : string;
  pr_RepositoryName : string;
  pr_Lifecycle : string;
  (** the condition types of the readiness gates *)
  pr_ReadinessGates : list string;
  pr_Conditions : list PorchCondition;
  pr_Revision : Z
}.
Definition with_Lifecycle (l : string) (pr : PackageRevision) : PackageRevision :=
  mkPR (pr_Key pr) (pr_Annotations pr) (pr_OwnerReferences pr) (pr_CreationTimestamp pr) (pr_PackageName pr)
    (pr_RepositoryName pr) l (pr_ReadinessGates pr) (pr_Conditions pr) (pr_Revision pr).

Definition LifecycleDraft : string := "Draft".
Definition LifecycleProposed : string := "Proposed".
Definition LifecyclePublished : string := "Published".

(** A condition of a package variant: type and status. *)
Record PVCondition := mkPVCondition { pvc_Type : string; pvc_Status : string }.

Class Porch (W : Type) := {
  porchconfig_GroupVersion : string;
  LifecycleIsPublished : string → bool;
  PackageRevisionIsReady : list string → list PorchCondition → bool;
  porch_AddToScheme : option error;
  (** the reader that bypasses the caches *)
  reader_GetPR : W → NamespacedName → result PackageRevision;
  reader_ListPR : W → result (list PackageRevision);
  reader_GetPV : W → NamespacedName → result (list PVCondition);
  (** the client, and the REST client with the approval subresource *)
  client_UpdatePR : W → PackageRevision → W * option error;
  rest_GetPR : W → NamespacedName → result PackageRevision;
  rest_PutApproval : W → PackageRevision → W * option error;
  (** the clock, in nanoseconds *)
  now : W → Z
}.

(** [PackageRevisionResources]: the files of a revision; [porchconfig.Repository], the
    fields in use. *)
Record PackageRevisionResources `{FnSDK} := mkPRR { prr_Key : NamespacedName; prr_Resources : gmap string bytes }.
Arguments mkPRR {_}.
Record Repository := mkRepository { repo_Name : string; repo_Deployment : bool }.
Class PorchResources (W : Type) `{FnSDK} := {
  reader_GetPRR : W → NamespacedName → result PackageRevisionResources;
  reader_ListRepositories : W → result (list Repository);
  (** the manager's client and the Porch client *)
  client_GetPR : W → NamespacedName → result PackageRevision;
  porchClient_GetPRR : W → NamespacedName → result PackageRevisionResources;
  porchClient_UpdatePRR : W → PackageRevisionResources → W * option error
}.

Section porch.
Context {W : Type} `{!Porch W}.

(** The references the loop of [PackageVariantReady] does not skip. *)
Definition isVariantRef (ref : OwnerReference) : bool :=
  match or_Controller ref with
  | Some true => bool_decide (porchconfig_GroupVersion = or_APIVersion ref) && bool_decide (or_Kind ref = "PackageVariant")
  | _ => false
  end.
(** The inner loop: the status of the first [Ready] condition. *)
Definition readyCondition (cs : list PVCondition) : option bool :=
  (λ c, bool_decide (pvc_Status c = "True")) <$> List.find (λ c, bool_decide (pvc_Type c = "Ready")) cs.
Fixpoint variant_loop (w : W) (ns : string) (refs : list OwnerReference) (owned : bool) : result bool :=
  match refs with
  | [] => Ok (negb owned)
  | ref :: refs =>
      if isVariantRef ref then
        cs ← reader_GetPV w (mkKey ns (or_Name ref));
        match readyCondition cs with
        | Some b => Ok b
        | None => variant_loop w ns refs true
        end
      else variant_loop w ns refs owned
  end.
Definition PackageVariantReady (w : W) (pr : PackageRevision) : result bool :=
  variant_loop w (key_Namespace (pr_Key pr)) (pr_OwnerReferences pr) false.

Definition UpdatePackageRevisionApproval (key : NamespacedName) (new : string) : prog W (option error) :=
  match porch_AddToScheme with
  | Some err => mret (Some err)
  | None =>
      w ← get_st;
      match rest_GetPR w key with
      | Err err => mret (Some err)
      | Ok pr =>
          if decide (pr_Lifecycle pr = LifecycleProposed) then call (λ w, rest_PutApproval w (with_Lifecycle new pr))
          else if decide (pr_Lifecycle pr = new) then mret None
          else mret (Some ("cannot change approval from " +:+ pr_Lifecycle pr +:+ " to " +:+ new))
      end
  end.
End porch.

(** ** [porch/condition] *)
Definition GetPorchConditions (cs : list Condition) : list PorchCondition :=
  (λ c, mkPorchCondition (Type_ c) (Reason c) (Status c) (Message c)) <$> cs.
Definition HasSpecificTypeConditions (conditions : list PorchCondition) (conditionType : string) : bool :=
  existsb (λ c, HasPrefix (pc_Type c) (conditionType +:+ ".")) conditions.
