(* ===== verification/Kptrl.v ===== *)
(** * [krm-functions/lib/kptrl]: the resource list of a package revision

    Porch stores a package revision as a map from file names to texts.  [GetResourceList]
    reads the YAML files and the Kptfile into a resource list.  The reader of kyaml is a
    parameter; [path/filepath] is modelled as far as the three patterns need it. *)
From S2P Require Import Prelude External KubeObjectLib SdkModel Ref Kptfile Inventory InventoryDiff InventoryReady Sdk.

(** ** [path/filepath], on Unix *)

(** [filepath.Base]: the last element of a path, trailing separators removed. *)
Definition Base (path : string) : string :=
  if decide (path = "") then "."
  else match List.rev (List.filter (λ e, negb (bool_decide (e = ""))) (split_on slash path)) with
       | [] => String slash ""
       | e :: _ => e
       end.

Definition star : ascii := "*"%char.
(** [filepath.Match] on patterns without classes, [?] and escapes: a star stands for any
    characters but the separator. *)
Fixpoint Match (pattern name : string) : bool :=
  match pattern with
  | EmptyString => bool_decide (name = "")
  | String c pattern =>
      if decide (c = star) then
        (fix skip (name : string) : bool :=
           Match pattern name ||
           match name with
           | EmptyString => false
           | String d name => negb (bool_decide (d = slash)) && skip name
           end) name
      else
        match name with
        | EmptyString => false
        | String d name => bool_decide (c = d) && Match pattern name
        end
  end.

Definition includeFile (path : string) (match_ : list string) : bool :=
  existsb (λ m, Match m (Base path)) match_.
Definition yamlFiles : list string := ["*.yaml"; "*.yml"; "Kptfile"].

(** ** kyaml *)
Class Kio `{FnSDK} := {
  RNode : Type;
  (** the nodes a pipeline of one [kio.ByteReader] per pair reads, each node with the path
      of its reader as [PathAnnotation] *)
  kio_Execute : list (string * bytes) → result (list RNode);
  RNode_String : RNode → result bytes;
  PathAnnotation : string;
  (** the results of a new resource list *)
  no_Results : Results
}.

Section kptrl.
Context `{!FnSDK, !Kio, !GoRange}.

(** The loop over the nodes. *)
Fixpoint addNodes (nodes : list RNode) (items : list KubeObject) : comp (result (list KubeObject)) :=
  match nodes with
  | [] => Done (Ok items)
  | n :: nodes =>
      s ←? Done (RNode_String n);
      o ←? Done (ParseKubeObject s);
      match UpsertObjectToItems (λ x, x) o items with
      | (items, None) => addNodes nodes items
      | (_, Some err) => Panic err
      end
  end.

Definition inputs (resources : gmap string bytes) : list (string * bytes) :=
  List.filter (λ kv, includeFile kv.1 yamlFiles) (range (at_ "kptrl") resources).

Definition GetResourceList (resources : gmap string bytes) : comp (result resourceList) :=
  nodes ←? Done (kio_Execute (inputs resources));
  items ←? addNodes nodes [];
  Done (Ok (mkRL items no_Results)).
End kptrl.

(** ** Which files are read *)
Lemma Match_literal pattern name : has_char star pattern = false → Match pattern name = bool_decide (name = pattern).
Proof.
  revert name. induction pattern as [|c p IH]; intros name; [done|]. simpl.
  case_decide as Hc; [done|]. intros Hp.
  destruct name as [|d name]; [by rewrite bool_decide_false|]. rewrite (IH name Hp).
  repeat case_bool_decide; naive_solver.
Qed.

Lemma Match_suffix suffix name :
  has_char star suffix = false →
  Match (String star suffix) name = true ↔ ∃ pre, has_char slash pre = false ∧ name = pre +:+ suffix.
Proof.
  intros Hs. cbn [Match]. rewrite decide_True by done. induction name as [|d name IH].
  - rewrite (Match_literal _ _ Hs), orb_false_r, bool_decide_eq_true. split; [intros <-; by exists ""|].
    by intros ([|] & _ & [=]).
  - rewrite orb_true_iff, andb_true_iff, negb_true_iff, bool_decide_eq_false, IH, (Match_literal _ _ Hs), bool_decide_eq_true.
    split.
    + intros [<-|(Hd & pre & Hpre & ->)]; [by exists ""|]. exists (String d pre). split; [|done].
      simpl. by rewrite Hpre, decide_False.
    + intros ([|d' pre] & Hpre & Heq); [by left|right]. injection Heq as <- ->. simpl in Hpre.
      case_decide; [done|]. by eauto.
Qed.

Lemma Base_slash path : has_char slash (Base path) = false ∨ Base path = String slash "".
Proof.
  unfold Base. case_decide; [by left|]. destruct (List.rev _) as [|e l] eqn:Hl; [by right|left].
  assert (e ∈ split_on slash path) as He.
  { apply list_elem_of_In. apply (proj1 (List.filter_In (λ e, negb (bool_decide (e = ""))) e _)).
    apply List.in_rev. rewrite Hl. by left. }
  by apply (proj1 (Forall_forall _ _) (split_on_parts slash path)).
Qed.

(** The files that are read: the Kptfile and what ends in a YAML extension. *)
Lemma includeFile_spec path :
  includeFile path yamlFiles = true ↔
  Base path = "Kptfile" ∨ ∃ pre, Base path = pre +:+ ".yaml" ∨ Base path = pre +:+ ".yml".
Proof.
  unfold includeFile, yamlFiles. cbn [existsb]. rewrite !orb_true_iff, !Match_suffix by done.
  rewrite Match_literal, bool_decide_eq_true by done.
  assert (∀ pre suffix, Base path = pre +:+ suffix → suffix ≠ "" → has_char slash suffix = false → has_char slash pre = false) as Hno.
  { intros pre suffix Hb Hne Hs. destruct (Base_slash path) as [Hb'|Hb']; rewrite Hb in Hb'.
    - rewrite has_char_app in Hb'. by apply orb_false_iff in Hb' as [? _].
    - destruct pre as [|c [|]]; [done| |]; injection Hb' as ->; by destruct suffix. }
  split.
  - intros [(pre & _ & ?)|[(pre & _ & ?)|[?|?]]]; [right; eauto..|by left|done].
  - intros [?|(pre & [Hb|Hb])]; [by auto|left|right; left]; exists pre; (split; [by eapply Hno|done]).
Qed.
