(* ===== verification/Approval.v ===== *)
(** * [controllers/pkg/reconcilers/approval]: the approval controller

    The controller proposes and approves package revisions according to the policy their
    annotations ask for.  A run of [Reconcile] acts on the API server and on the list of
    events it records. *)
From S2P Require Import Prelude External Kptfile Kube GoTime Porch.

Definition DelayAnnotationName : string := "approval.nephio.org/delay".
Definition PolicyAnnotationName : string := "approval.nephio.org/policy".
Definition InitialPolicyAnnotationValue : string := "initial".
Definition AlwaysPolicyAnnotationValue : string := "always".

Section approval.
Context `{!ApiErrors, !GoFloat} {W : Type} `{!Porch W}.

(** The server and the events. *)
Record state := mkState { st_world : W; st_events : list Event }.
Definition emit (ty reason msg : string) : prog state () :=
  modify (λ s, mkState (st_world s) (st_events s ++ [mkEvent ty reason msg])).
Definition on_server {A} (m : prog W A) : prog state A := λ s,
  '(w, a) ← m (st_world s); Done (mkState w (st_events s), a).

Definition shouldProcess (pr : PackageRevision) : string * bool :=
  let policy := pr_Annotations pr !! PolicyAnnotationName in
  (default "" policy, negb (LifecycleIsPublished (pr_Lifecycle pr)) && bool_decide (is_Some policy)).

Definition manageDelay (w : W) (pr : PackageRevision) : result Z :=
  match pr_Annotations pr !! DelayAnnotationName with
  | None => Ok 0%Z
  | Some delay =>
      d ← ParseDuration delay;
      if decide (d < 0)%Z then Err ("invalid delay " +:+ quote delay +:+ "; delay must be 0 or more")
      else if decide (Since (now w) (pr_CreationTimestamp pr) > d)%Z then Ok 0%Z
      else Ok d
  end.

(** The revisions that keep the initial policy from approving [pr]. *)
Definition publishedSibling (pr pr2 : PackageRevision) : bool :=
  LifecycleIsPublished (pr_Lifecycle pr2) && bool_decide (pr_RepositoryName pr2 = pr_RepositoryName pr) &&
  bool_decide (pr_PackageName pr2 = pr_PackageName pr).
Definition policyInitial (w : W) (pr : PackageRevision) : result bool :=
  prs ← reader_ListPR w;
  Ok (negb (existsb (publishedSibling pr) prs)).

(** The switch over the policies; [None] is an invalid one. *)
Definition evalPolicy (w : W) (policy : string) (pr : PackageRevision) : option (result bool) :=
  if decide (policy = InitialPolicyAnnotationValue) then Some (policyInitial w pr)
  else if decide (policy = AlwaysPolicyAnnotationValue) then Some (Ok true)
  else None.

(** All policies are met: propose a draft, approve anything else. *)
Definition promote (pr : PackageRevision) : prog state (Result * option error) :=
  let draft := bool_decide (pr_Lifecycle pr = LifecycleDraft) in
  err ← on_server (if draft then call (λ w, client_UpdatePR w (with_Lifecycle LifecycleProposed pr))
                   else UpdatePackageRevisionApproval (pr_Key pr) LifecyclePublished);
  let reason := if draft then "Proposed" else "Approved" in
  match err with
  | Some e => emit Warning "Error" ("error " +:+ (if draft then "proposing" else "approving") +:+ ": " +:+ e)
  | None => emit Normal reason ("all approval policies met for " +:+ pr_PackageName pr +:+ ": " +:+ reason)
  end ;;
  mret (done_result, err).

(** From the policies to the end. *)
Definition decidePolicy (requeueDuration : Z) (policy : string) (pr : PackageRevision)
    : prog state (Result * option error) :=
  s ← get_st;
  match evalPolicy (st_world s) policy pr with
  | None =>
      emit Warning "InvalidPolicy" ("invalid " +:+ quote PolicyAnnotationName +:+ " annotation value: " +:+ quote policy) ;;
      mret (done_result, None)
  | Some (Err err) =>
      emit Warning "Error" ("error evaluating approval policy " +:+ quote policy +:+ ": " +:+ err) ;;
      mret (done_result, None)
  | Some (Ok false) =>
      emit Normal "NotApproved" ("approval policy " +:+ quote policy +:+ " not met for " +:+ pr_PackageName pr) ;;
      mret (requeueAfter requeueDuration, None)
  | Some (Ok true) =>
      match manageDelay (st_world s) pr with
      | Err err =>
          emit Warning "Error" ("error processing " +:+ quote DelayAnnotationName +:+ ": " +:+ err) ;;
          mret (done_result, None)
      | Ok requeue =>
          if decide (requeue > 0)%Z then
            emit Normal "NotApproved" "delay time not met" ;;
            mret (requeueAfter requeue, None)
          else promote pr
      end
  end.

Definition Reconcile (requeueDuration : Z) (req : NamespacedName) : prog state (Result * option error) :=
  s ← get_st;
  match reader_GetPR (st_world s) req with
  | Err err =>
      match IgnoreNotFound (Some err) with
      | Some err => mret (done_result, Wrap (Some err) "cannot get resource")
      | None => mret (done_result, None)
      end
  | Ok pr =>
      let '(policy, ok) := shouldProcess pr in
      if negb ok then mret (done_result, None)
      else
        match PackageVariantReady (st_world s) pr with
        | Err err =>
            emit Warning "Error" ("could not get owning PackageVariant: " +:+ err) ;;
            mret (done_result, None)
        | Ok false =>
            emit Normal "NotApproved" ("owning PackageVariant for " +:+ pr_PackageName pr +:+ " not Ready") ;;
            mret (requeueAfter requeueDuration, None)
        | Ok true =>
            if negb (PackageRevisionIsReady (pr_ReadinessGates pr) (pr_Conditions pr)) then
              emit Normal "NotApproved" ("readiness gates not met for " +:+ pr_PackageName pr +:+ ", in repo " +:+ pr_RepositoryName pr) ;;
              mret (requeueAfter requeueDuration, None)
            else decidePolicy requeueDuration policy pr
        end
  end.
End approval.
Arguments state W : clear implicits.

(** ** When a revision may be promoted *)
Section properties.
Context `{!ApiErrors, !GoFloat} {W : Type} `{!Porch W}.

(** Every check of the controller passes. *)
Definition approvable (w : W) (pr : PackageRevision) : Prop :=
  ∃ policy, shouldProcess (W := W) pr = (policy, true) ∧ PackageVariantReady w pr = Ok true ∧
    PackageRevisionIsReady (W := W) (pr_ReadinessGates pr) (pr_Conditions pr) = true ∧
    evalPolicy w policy pr = Some (Ok true) ∧ ∃ d, manageDelay w pr = Ok d ∧ (d ≤ 0)%Z.

Lemma Reconcile_cases d req s s' r :
  Reconcile d req s = Done (s', r) →
  st_world s' = st_world s ∨
  ∃ pr, reader_GetPR (st_world s) req = Ok pr ∧ approvable (st_world s) pr ∧ promote pr s = Done (s', r).
Proof.
  destruct s as [w ev]. unfold Reconcile, mbind, prog_bind. cbn [get_st st_world].
  destruct (reader_GetPR w req) as [pr|e]; [|destruct (IgnoreNotFound _); intros [= <- _]; by left].
  destruct (shouldProcess (W := W) pr) as [policy []] eqn:Hsp; [|intros [= <- _]; by left]. cbn [negb].
  destruct (PackageVariantReady w pr) as [[]|] eqn:Hpv; [|intros [= <- _]; by left..].
  destruct (PackageRevisionIsReady _ _) eqn:Hready; [|intros [= <- _]; by left].
  cbn [negb]. unfold decidePolicy, mbind, prog_bind. cbn [get_st st_world].
  destruct (evalPolicy w policy pr) as [[[]|]|] eqn:Hpol; [|intros [= <- _]; by left..].
  destruct (manageDelay w pr) as [dl|] eqn:Hd; [|intros [= <- _]; by left].
  case_decide as Hpos; [intros [= <- _]; by left|]. intros Hp. right. exists pr. split; [done|]. split; [|done].
  exists policy. split_and!; try done. exists dl. split; [done|lia].
Qed.

(** C13: the controller writes to the server only for a revision that is not published, has
    a valid policy that is met, whose package variant is ready, whose readiness gates are
    met and whose delay is over; otherwise the server is left exactly as it was. *)
Theorem approve_only_if d req s s' r :
  Reconcile d req s = Done (s', r) → st_world s' ≠ st_world s →
  ∃ pr, reader_GetPR (st_world s) req = Ok pr ∧ approvable (st_world s) pr ∧
    LifecycleIsPublished (W := W) (pr_Lifecycle pr) = false.
Proof.
  intros [?|(pr & Hg & Ha & _)]%Reconcile_cases Hne; [done|]. exists pr. split; [done|]. split; [done|].
  destruct Ha as (policy & Hsp & _). unfold shouldProcess in Hsp. injection Hsp as _ Hb.
  apply andb_true_iff in Hb as [Hb _]. by apply negb_true_iff in Hb.
Qed.

End properties.

(** ** The revisions on the server *)

(** The revisions a server holds, and what the calls do to them.  A write that fails may
    have been carried out all the same; what is stored agrees with what was sent but for
    the parts the server sets. *)
Class PorchStore (W : Type) := store : W → gmap NamespacedName PackageRevision.
Definition same_spec (pr pr' : PackageRevision) : Prop :=
  pr_Key pr' = pr_Key pr ∧ pr_Annotations pr' = pr_Annotations pr ∧ pr_PackageName pr' = pr_PackageName pr ∧
  pr_RepositoryName pr' = pr_RepositoryName pr ∧ pr_Lifecycle pr' = pr_Lifecycle pr.
Definition written `{PorchStore W} (w : W) (pr : PackageRevision) (w' : W) : Prop :=
  store w' = store w ∨ ∃ pr', same_spec pr pr' ∧ store w' = <[pr_Key pr := pr']> (store w).
Class PorchLaws (W : Type) `{!Porch W, !PorchStore W} : Prop := {
  lifecycles : LifecycleIsPublished (W := W) LifecyclePublished = true ∧
    LifecycleIsPublished (W := W) LifecycleProposed = false;
  stored_key w k pr : store w !! k = Some pr → pr_Key pr = k;
  reader_Get_stored w k pr : reader_GetPR w k = Ok pr → store w !! k = Some pr;
  rest_Get_stored w k pr : rest_GetPR w k = Ok pr → store w !! k = Some pr;
  reader_List_stored w l : reader_ListPR w = Ok l → ∀ k pr, store w !! k = Some pr → pr ∈ l;
  UpdatePR_written w pr w' err : client_UpdatePR w pr = (w', err) → written w pr w';
  PutApproval_written w pr w' err : rest_PutApproval w pr = (w', err) → written w pr w'
}.

Section invariant.
Context `{!ApiErrors, !GoFloat} {W : Type} `{!Porch W, !PorchStore W, !PorchLaws W}.

Definition published (w : W) (repo pkg : string) (k : NamespacedName) : Prop :=
  ∃ pr, store w !! k = Some pr ∧ LifecycleIsPublished (W := W) (pr_Lifecycle pr) = true ∧
    pr_RepositoryName pr = repo ∧ pr_PackageName pr = pkg.
(** No package has two published revisions, and no revision asks to be approved always. *)
Definition unique_published (w : W) : Prop :=
  ∀ repo pkg k1 k2, published w repo pkg k1 → published w repo pkg k2 → k1 = k2.
Definition no_always (w : W) : Prop :=
  ∀ k pr, store w !! k = Some pr → pr_Annotations pr !! PolicyAnnotationName ≠ Some AlwaysPolicyAnnotationValue.

(** Runs of the controller, one at a time, and what others do in between: anything but
    publish a revision or ask for the policy [always]. *)
Inductive step : W → W → Prop :=
  | step_reconcile d req w ev w' ev' r :
      Reconcile d req (mkState w ev) = Done (mkState w' ev', r) → step w w'
  | step_others w w' :
      no_always w' → (∀ repo pkg k, published w' repo pkg k → published w repo pkg k) → step w w'.

Lemma published_written w pr pr' w' repo pkg k :
  same_spec pr pr' → store w' = <[pr_Key pr := pr']> (store w) → published w' repo pkg k →
  published w repo pkg k ∨
  (k = pr_Key pr ∧ LifecycleIsPublished (W := W) (pr_Lifecycle pr) = true ∧ pr_RepositoryName pr = repo ∧ pr_PackageName pr = pkg).
Proof.
  intros (_ & _ & Hpk & Hrp & Hl) Hst (q & Hq & Hpub & Hr & Hp). rewrite Hst in Hq.
  apply lookup_insert_Some in Hq as [[<- <-]|[_ Hq]]; [right|left; by exists q].
  split; [done|]. by rewrite <-Hl, <-Hrp, <-Hpk.
Qed.

Lemma no_always_written w pr pr' w' :
  same_spec pr pr' → store w' = <[pr_Key pr := pr']> (store w) →
  pr_Annotations pr !! PolicyAnnotationName ≠ Some AlwaysPolicyAnnotationValue → no_always w → no_always w'.
Proof.
  intros (_ & Ha & _) Hst Hpr Hno k q Hq. rewrite Hst in Hq.
  apply lookup_insert_Some in Hq as [[<- <-]|[_ Hq]]; [by rewrite Ha|by eapply Hno].
Qed.

(** What a promotion sends to the server. *)
Lemma promote_sends pr s s' r :
  promote pr s = Done (s', r) → pr_Lifecycle pr ≠ LifecyclePublished →
  st_world s' = st_world s ∨
  (∃ err, client_UpdatePR (st_world s) (with_Lifecycle LifecycleProposed pr) = (st_world s', err)) ∨
  (∃ pr2 err, rest_GetPR (st_world s) (pr_Key pr) = Ok pr2 ∧
    rest_PutApproval (st_world s) (with_Lifecycle LifecyclePublished pr2) = (st_world s', err)).
Proof.
  intros Hp Hnot. unfold promote in Hp. apply prog_bind_Done in Hp as (s1 & err & Hs1 & Hp).
  assert (st_world s' = st_world s1) as ->.
  { destruct err; unfold mbind, prog_bind, emit, modify in Hp; by injection Hp as <- _. }
  clear Hp s'. unfold on_server in Hs1. destruct s as [w ev]. cbn [st_world] in *.
  case_bool_decide.
  - unfold call in Hs1. destruct (client_UpdatePR _ _) as [w1 e] eqn:Hu. injection Hs1 as <- <-. right. left. by exists e.
  - unfold UpdatePackageRevisionApproval in Hs1. destruct porch_AddToScheme; [injection Hs1 as <- _; by left|].
    unfold mbind at 2, prog_bind in Hs1. cbn [get_st] in Hs1.
    destruct (rest_GetPR w (pr_Key pr)) as [pr2|]; [|injection Hs1 as <- _; by left].
    case_decide; [|case_decide; injection Hs1 as <- _; by left].
    unfold call in Hs1. destruct (rest_PutApproval _ _) as [w1 e] eqn:Hu. injection Hs1 as <- <-. right. right. eauto.
Qed.

Lemma reconcile_keeps d req w ev w' ev' r :
  Reconcile d req (mkState w ev) = Done (mkState w' ev', r) →
  unique_published w → no_always w → unique_published w' ∧ no_always w'.
Proof.
  intros [Hw|(pr & Hg & Ha & Hp)]%Reconcile_cases Hu Hn; cbn [st_world] in *; [by subst|].
  destruct lifecycles as [Hpub Hprop]. apply reader_Get_stored in Hg as Hst. pose proof (stored_key _ _ _ Hst) as Hk.
  destruct Ha as (policy & Hsp & _ & _ & Hpol & _). unfold shouldProcess in Hsp. injection Hsp as Hpo Hb.
  apply andb_true_iff in Hb as [Hb Hs%bool_decide_eq_true]. apply negb_true_iff in Hb.
  assert (Hann : pr_Annotations pr !! PolicyAnnotationName = Some InitialPolicyAnnotationValue).
  { destruct Hs as [v Hv]. rewrite Hv in Hpo. simpl in Hpo. subst v. unfold evalPolicy in Hpol.
    case_decide; [by subst|]. case_decide; [|done]. subst. by destruct (Hn _ _ Hst). }
  rewrite Hann in Hpo. simpl in Hpo. subst policy. unfold evalPolicy in Hpol. rewrite decide_True in Hpol by done.
  injection Hpol as Hpol. unfold policyInitial in Hpol. apply result_bind_Ok in Hpol as (l & Hl & [= Hnone]).
  apply promote_sends in Hp as [Hw|[(err & Hw)|(pr2 & err & Hg2 & Hw)]]; cbn [st_world] in *; [by subst| | |by intros Heq; rewrite Heq, Hpub in Hb].
  - destruct (UpdatePR_written _ _ _ _ Hw) as [Heq|(pr' & Hsame & Hins)].
    { unfold unique_published, no_always, published. rewrite Heq. done. }
    split; [|eapply no_always_written; try done; simpl; by rewrite Hann].
    intros repo pkg k1 k2 H1 H2. apply (published_written _ _ _ _ _ _ _ Hsame Hins) in H1, H2. simpl in *.
    rewrite Hprop in *. naive_solver.
  - apply rest_Get_stored in Hg2. rewrite Hk, Hst in Hg2. injection Hg2 as <-.
    destruct (PutApproval_written _ _ _ _ Hw) as [Heq|(pr' & Hsame & Hins)].
    { unfold unique_published, no_always, published. rewrite Heq. done. }
    split; [|eapply no_always_written; try done; simpl; by rewrite Hann].
    assert (Hfree : ∀ k, ¬ published w (pr_RepositoryName pr) (pr_PackageName pr) k).
    { intros k (q & Hq & Hqp & Hqr & Hqn). apply negb_true_iff in Hnone. apply Bool.not_true_iff_false in Hnone.
      apply Hnone, existsb_exists. exists q. split; [by eapply list_elem_of_In, reader_List_stored|].
      unfold publishedSibling. by rewrite Hqp, !bool_decide_eq_true_2. }
    intros repo pkg k1 k2 H1 H2. apply (published_written _ _ _ _ _ _ _ Hsame Hins) in H1, H2. simpl in *.
    destruct H1 as [H1|(-> & _ & <- & <-)], H2 as [H2|(-> & _ & Hr & Hp)]; subst; [by eapply Hu|by destruct (Hfree k1)|by destruct (Hfree k2)|done].
Qed.

(** C3: with the initial policy no package ever has two published revisions: from a server
    where published revisions are unique and no revision asks for the policy [always], any
    sequence of runs of the controller, interleaved with changes by others that publish
    nothing themselves, keeps both. *)
Theorem approval_unique w w' :
  rtc step w w' → unique_published w → no_always w → unique_published w' ∧ no_always w'.
Proof.
  induction 1 as [w|w w1 w2 Hstep _ IH]; [done|]. intros Hu Hn.
  destruct Hstep as [d req w ev w' ev' r Hr|w w' Hn' Hpub].
  - destruct (reconcile_keeps _ _ _ _ _ _ _ Hr Hu Hn). by apply IH.
  - apply IH; [|done]. intros repo pkg k1 k2 H1 H2. apply (Hu repo pkg); by apply Hpub.
Qed.
End invariant.

(** ** Progress *)

(** A server that answers: reads return what is stored, writes of existing revisions are
    stored, they do not touch package variants, and time does not run backwards. *)
Class PorchHealthy (W : Type) `{!Porch W, !PorchStore W} : Prop := {
  scheme_ok : porch_AddToScheme (W := W) = None;
  reader_Get_ok w k pr : store w !! k = Some pr → reader_GetPR w k = Ok pr;
  rest_Get_ok w k pr : store w !! k = Some pr → rest_GetPR w k = Ok pr;
  reader_List_ok w : ∃ l, reader_ListPR w = Ok l ∧ ∀ pr, pr ∈ l ↔ ∃ k, store w !! k = Some pr;
  UpdatePR_ok w pr : is_Some (store w !! pr_Key pr) → ∃ w', client_UpdatePR w pr = (w', None) ∧
    store w' = <[pr_Key pr := pr]> (store w) ∧ reader_GetPV w' = reader_GetPV w ∧ (now w ≤ now w')%Z;
  PutApproval_ok w pr : is_Some (store w !! pr_Key pr) → ∃ w', rest_PutApproval w pr = (w', None) ∧
    store w' = <[pr_Key pr := pr]> (store w)
}.

Section progress.
Context `{!ApiErrors, !GoFloat} {W : Type} `{!Porch W, !PorchStore W, !PorchLaws W, !PorchHealthy W}.

Lemma variant_loop_pv w w' ns refs owned :
  reader_GetPV w' = reader_GetPV w → variant_loop w' ns refs owned = variant_loop w ns refs owned.
Proof.
  intros Hpv. revert owned. induction refs as [|ref refs IH]; intros owned; simpl; [done|].
  destruct (isVariantRef ref); [|apply IH]. rewrite Hpv. destruct (reader_GetPV w _); simpl; [|done].
  destruct (readyCondition _); [done|apply IH].
Qed.

Lemma manageDelay_over w w' pr pr' d :
  manageDelay w pr = Ok d → (d ≤ 0)%Z → (now w ≤ now w')%Z → pr_Annotations pr' = pr_Annotations pr →
  pr_CreationTimestamp pr' = pr_CreationTimestamp pr → manageDelay w' pr' = Ok 0%Z ∨ manageDelay w' pr' = Ok d.
Proof.
  unfold manageDelay. intros Hd Hle Hnow -> ->. destruct (pr_Annotations pr !! DelayAnnotationName) as [text|]; [|by left].
  apply result_bind_Ok in Hd as (x & Hx & Hd). rewrite Hx. unfold mbind, result_bind.
  case_decide as Hx0; [done|]. case_decide as Hs; injection Hd as <-.
  - left. rewrite decide_True; [done|]. unfold Since in *. lia.
  - assert (x = 0)%Z as -> by lia. case_decide; auto.
Qed.

(** Proposing a draft keeps it approvable. *)
Lemma approvable_proposed w w' pr :
  approvable w pr → store w !! pr_Key pr = Some pr → reader_GetPV w' = reader_GetPV w → (now w ≤ now w')%Z →
  store w' = <[pr_Key pr := with_Lifecycle LifecycleProposed pr]> (store w) →
  approvable w' (with_Lifecycle LifecycleProposed pr).
Proof.
  intros (policy & Hsp & Hpv & Hready & Hpol & d & Hd & Hle) Hst Hpvs Hnow Hins.
  destruct lifecycles as [_ Hprop]. exists policy. unfold shouldProcess in *. simpl. injection Hsp as Hpo Hb.
  apply andb_true_iff in Hb as [Hb Hs]. rewrite Hprop, Hs, Hpo. split_and!; [done| |done| |].
  - unfold PackageVariantReady. simpl. rewrite (variant_loop_pv w) by done. exact Hpv.
  - unfold evalPolicy in *. case_decide; [|by case_decide]. injection Hpol as Hpol. f_equal.
    unfold policyInitial in *. destruct (reader_List_ok w) as (l & Hl & Hel), (reader_List_ok w') as (l' & Hl' & Hel').
    rewrite Hl in Hpol. rewrite Hl'. unfold mbind, result_bind in *. injection Hpol as Hnone. f_equal.
    apply negb_true_iff in Hnone. apply negb_true_iff. apply Bool.not_true_iff_false. intros Hex.
    apply existsb_exists in Hex as (q & Hq%list_elem_of_In & Hsib). apply Hel' in Hq as (k & Hq). rewrite Hins in Hq.
    apply lookup_insert_Some in Hq as [[_ <-]|[_ Hq]].
    + unfold publishedSibling in Hsib. simpl in Hsib. by rewrite Hprop in Hsib.
    + apply Bool.not_true_iff_false in Hnone. apply Hnone, existsb_exists. exists q. split; [by apply list_elem_of_In, Hel; eauto|done].
  - destruct (manageDelay_over w w' pr (with_Lifecycle LifecycleProposed pr) d) as [Hm|Hm]; try done; eauto.
    exists 0%Z. done.
Qed.

(** A run on an approvable revision promotes it. *)
Lemma Reconcile_approvable d s pr :
  store (st_world s) !! pr_Key pr = Some pr → approvable (st_world s) pr →
  Reconcile d (pr_Key pr) s = promote pr s.
Proof.
  intros Hst (policy & Hsp & Hpv & Hready & Hpol & dl & Hd & Hle). destruct s as [w ev]. cbn [st_world] in *.
  unfold Reconcile, mbind at 1, prog_bind at 1. cbn [get_st st_world]. rewrite (reader_Get_ok _ _ _ Hst), Hsp, Hpv, Hready.
  cbn [negb]. unfold decidePolicy, mbind at 1, prog_bind at 1. cbn [get_st st_world]. rewrite Hpol, Hd.
  by rewrite decide_False by lia.
Qed.

Lemma promote_draft s pr :
  pr_Lifecycle pr = LifecycleDraft → store (st_world s) !! pr_Key pr = Some pr →
  ∃ s', promote pr s = Done (s', (done_result, None)) ∧
    store (st_world s') = <[pr_Key pr := with_Lifecycle LifecycleProposed pr]> (store (st_world s)) ∧
    reader_GetPV (st_world s') = reader_GetPV (st_world s) ∧ (now (st_world s) ≤ now (st_world s'))%Z.
Proof.
  intros Hl Hst. destruct s as [w ev]. cbn [st_world] in *.
  destruct (UpdatePR_ok w (with_Lifecycle LifecycleProposed pr)) as (w' & Hu & Hs & Hpv & Hn); [by exists pr|].
  unfold promote. rewrite bool_decide_eq_true_2 by done. unfold mbind, prog_bind, on_server, call. cbn. rewrite Hu. cbn.
  eexists. split; [done|]. by cbn.
Qed.

Lemma promote_proposed s pr :
  pr_Lifecycle pr = LifecycleProposed → store (st_world s) !! pr_Key pr = Some pr →
  ∃ s', promote pr s = Done (s', (done_result, None)) ∧
    store (st_world s') = <[pr_Key pr := with_Lifecycle LifecyclePublished pr]> (store (st_world s)).
Proof.
  intros Hl Hst. destruct s as [w ev]. cbn [st_world] in *.
  destruct (PutApproval_ok w (with_Lifecycle LifecyclePublished pr)) as (w' & Hu & Hs); [by exists pr|].
  unfold promote. rewrite bool_decide_eq_false_2 by (rewrite Hl; done).
  unfold UpdatePackageRevisionApproval. rewrite scheme_ok.
  unfold mbind, prog_bind, on_server, call. cbn. rewrite (rest_Get_ok _ _ _ Hst), decide_True by done. rewrite Hu. cbn.
  eexists. split; [done|]. by cbn.
Qed.

End progress.

(** ** A server, and the witnesses *)
Module ApprovalWitnesses.

Record server := mkServer { sv_prs : list PackageRevision; sv_variants : gmap NamespacedName (list PVCondition); sv_now : Z }.
Definition sv_store (w : server) : gmap NamespacedName PackageRevision :=
  list_to_map ((λ pr, (pr_Key pr, pr)) <$> sv_prs w).
(** Replace the revision with the key of [pr]. *)
Definition sv_put (pr : PackageRevision) (l : list PackageRevision) : list PackageRevision :=
  (λ q, if decide (pr_Key q = pr_Key pr) then pr else q) <$> l.
Definition sv_write (w : server) (pr : PackageRevision) : server * option error :=
  (mkServer (sv_put pr (sv_prs w)) (sv_variants w) (sv_now w + 1), None).
Definition sv_get (w : server) (k : NamespacedName) : result PackageRevision :=
  match sv_store w !! k with Some pr => Ok pr | None => Err "not found" end.

#[export] Instance errors : ApiErrors := {
  IsNotFound e := bool_decide (e = "not found"); errors_Wrap e msg := msg +:+ ": " +:+ e }.
#[export] Instance floats : GoFloat := λ f unit digits, (f * unit / 10 ^ Z.of_nat digits)%Z.
#[export] Instance porch : Porch server := {
  porchconfig_GroupVersion := "config.porch.kpt.dev/v1alpha1";
  LifecycleIsPublished l := bool_decide (l = "Published" ∨ l = "DeletionProposed");
  PackageRevisionIsReady gates cs :=
    forallb (λ g, existsb (λ c, bool_decide (pc_Type c = g ∧ pc_Status c = "True")) cs) gates;
  porch_AddToScheme := None;
  reader_GetPR := sv_get; reader_ListPR w := Ok (snd <$> map_to_list (sv_store w));
  reader_GetPV w k := match sv_variants w !! k with Some cs => Ok cs | None => Err "not found" end;
  client_UpdatePR := sv_write; rest_GetPR := sv_get; rest_PutApproval := sv_write;
  now := sv_now
}.
#[export] Instance porch_store : PorchStore server := sv_store.

Lemma sv_put_store pr l :
  (list_to_map ((λ q, (pr_Key q, q)) <$> sv_put pr l) : gmap NamespacedName PackageRevision) =
  alter (λ _, pr) (pr_Key pr) (list_to_map ((λ q, (pr_Key q, q)) <$> l)).
Proof.
  apply map_eq. intros k. induction l as [|q l IH].
  { simpl. symmetry. apply lookup_alter_None. apply lookup_empty. }
  simpl. case_decide as Hk; simpl.
  - destruct (decide (k = pr_Key pr)) as [->|Hne].
    + rewrite lookup_insert_eq, lookup_alter_eq, <-Hk, lookup_insert_eq. done.
    + rewrite lookup_insert_ne by congruence. etransitivity; [apply IH|].
      by rewrite lookup_alter_ne, lookup_alter_ne, lookup_insert_ne by congruence.
  - destruct (decide (k = pr_Key q)) as [->|Hne].
    + by rewrite lookup_insert_eq, lookup_alter_ne, lookup_insert_eq by done.
    + rewrite lookup_insert_ne by done. etransitivity; [apply IH|]. destruct (decide (k = pr_Key pr)) as [->|Hne'].
      * by rewrite !lookup_alter_eq, lookup_insert_ne by done.
      * by rewrite !lookup_alter_ne, lookup_insert_ne by done.
Qed.
Lemma sv_key l k pr : (list_to_map ((λ q, (pr_Key q, q)) <$> l) : gmap _ _) !! k = Some pr → pr_Key pr = k.
Proof. intros (q & [= -> ->] & _)%elem_of_list_to_map_2%list_elem_of_fmap. done. Qed.

#[export] Instance porch_laws : PorchLaws server.
Proof.
  assert (Hget : ∀ w k pr, sv_get w k = Ok pr → sv_store w !! k = Some pr).
  { intros w k pr. unfold sv_get. destruct (sv_store w !! k); congruence. }
  assert (Hput : ∀ w pr w' err, sv_write w pr = (w', err) → written w pr w').
  { intros w pr w' err [= <- _]. unfold written, store, porch_store, sv_store. simpl. rewrite sv_put_store.
    destruct (sv_store w !! pr_Key pr) as [q|] eqn:Hq; unfold sv_store in Hq.
    - right. exists pr. split; [by split_and!|]. apply map_eq. intros k. destruct (decide (k = pr_Key pr)) as [->|].
      + by rewrite lookup_alter_eq, lookup_insert_eq, Hq.
      + by rewrite lookup_alter_ne, lookup_insert_ne.
    - left. apply map_eq. intros k. destruct (decide (k = pr_Key pr)) as [->|]; [by rewrite lookup_alter_eq, Hq|by rewrite lookup_alter_ne]. }
  constructor; try done.
  - intros w k pr. apply sv_key.
  - intros w l [= <-] k pr Hk. apply list_elem_of_fmap. exists (k, pr). split; [done|]. by apply elem_of_map_to_list.
Qed.

#[export] Instance porch_healthy : PorchHealthy server.
Proof.
  assert (Hget : ∀ w k pr, sv_store w !! k = Some pr → sv_get w k = Ok pr) by (intros w k pr Hk; unfold sv_get; by rewrite Hk).
  assert (Hput : ∀ w pr, is_Some (sv_store w !! pr_Key pr) → sv_store (fst (sv_write w pr)) = <[pr_Key pr := pr]> (sv_store w)).
  { intros w pr [q Hq]. unfold sv_write, sv_store. simpl. rewrite sv_put_store. apply map_eq. intros k.
    destruct (decide (k = pr_Key pr)) as [->|].
    - rewrite lookup_alter_eq, lookup_insert_eq. unfold sv_store in Hq. by rewrite Hq.
    - by rewrite lookup_alter_ne, lookup_insert_ne. }
  constructor; try done.
  - intros w. eexists. split; [done|]. intros pr. rewrite list_elem_of_fmap. split.
    + intros ([k q] & -> & Hk%elem_of_map_to_list). by exists k.
    + intros (k & Hk). exists (k, pr). split; [done|]. by apply elem_of_map_to_list.
  - intros w pr Hs. eexists. split; [done|]. split; [by apply Hput|]. simpl. split; [done|lia].
  - intros w pr Hs. eexists. split; [done|]. by apply Hput.
Qed.

Definition draft (name policy delay lifecycle : string) : PackageRevision :=
  mkPR (mkKey "default" name) {[ PolicyAnnotationName := policy; DelayAnnotationName := delay ]}
    [mkOwnerRef (Some true) "config.porch.kpt.dev/v1alpha1" "PackageVariant" "upf"] 0
    "upf" "edge" lifecycle ["nephio.org.Specializer.specialize"]
    [mkPorchCondition "nephio.org.Specializer.specialize" "" "True" ""] 0.
Definition cluster (prs : list PackageRevision) (t : Z) : state server :=
  mkState (mkServer prs {[ mkKey "default" "upf" := [mkPVCondition "Ready" "True"] ]} t) [].
Definition upf1 : PackageRevision := draft "upf-v1" "initial" "20s" "Draft".
Definition upf2 : PackageRevision := draft "upf-v2" "initial" "20s" "Draft".
Definition start : state server := cluster [upf1; upf2] (30 * Second).
Definition run (k : PackageRevision) (s : state server) : state server :=
  match Reconcile (10 * Second) (pr_Key k) s with Done (s, _) => s | Panic _ => s end.
Definition lifecycles_of (s : state server) : list string := pr_Lifecycle <$> sv_prs (st_world s).

Lemma upf1_approvable : approvable (st_world start) upf1.
Proof. exists "initial". repeat split; try (vm_compute; reflexivity). exists 0%Z. split; [vm_compute; reflexivity|done]. Defined.

Lemma run_ok k s : (match Reconcile (10 * Second) (pr_Key k) s with Done _ => true | Panic _ => false end) = true →
  ∃ r, Reconcile (10 * Second) (pr_Key k) s = Done (run k s, r).
Proof. unfold run. destruct (Reconcile _ _ s) as [[s' r]|]; [|done]. by exists r. Qed.

Lemma approve_only_if_witness :
  lifecycles_of (run upf1 start) = ["Proposed"; "Draft"] ∧
  ∃ pr, reader_GetPR (st_world start) (pr_Key upf1) = Ok pr ∧ approvable (st_world start) pr ∧
    LifecycleIsPublished (W := server) (pr_Lifecycle pr) = false.
Proof.
  split; [vm_compute; reflexivity|].
  destruct (run_ok upf1 start) as [r Hr]; [vm_compute; reflexivity|].
  apply (approve_only_if (10 * Second) (pr_Key upf1) start (run upf1 start) r); [exact Hr|].
  intros Heq%(f_equal sv_now). vm_compute in Heq. discriminate.
Defined.


(** Both drafts are proposed, one is published; the other one never is. *)
Definition s1 := run upf1 start.
Definition s2 := run upf2 s1.
Definition s3 := run upf1 s2.
Definition s4 := run upf2 s3.
Lemma run_step k s : (match Reconcile (10 * Second) (pr_Key k) s with Done _ => true | Panic _ => false end) = true →
  step (st_world s) (st_world (run k s)).
Proof. intros [r Hr]%run_ok. destruct s as [w ev], (run k (mkState w ev)) as [w' ev']. by eapply step_reconcile. Qed.

Lemma start_unique : unique_published (st_world start) ∧ no_always (st_world start).
Proof.
  assert (Hin : ∀ k pr, store (st_world start) !! k = Some pr → pr = upf1 ∨ pr = upf2).
  { intros k pr (q & [= _ ->] & Hq)%elem_of_list_to_map_2%list_elem_of_fmap. simpl in Hq.
    rewrite !elem_of_cons in Hq. destruct Hq as [Hq|[Hq|Hq]]; [by left|by right|by apply elem_of_nil in Hq]. }
  split.
  - intros repo pkg k1 k2 (pr & Hk & Hp & _). destruct (Hin _ _ Hk) as [-> | ->]; vm_compute in Hp; discriminate.
  - intros k pr Hk. destruct (Hin _ _ Hk) as [-> | ->]; vm_compute; discriminate.
Defined.

Lemma approval_unique_witness :
  lifecycles_of s4 = ["Published"; "Proposed"] ∧ unique_published (st_world s4) ∧ no_always (st_world s4).
Proof.
  split; [vm_compute; reflexivity|].
  apply (approval_unique (st_world start) (st_world s4)); [|apply start_unique|apply start_unique].
  eapply rtc_l; [apply (run_step upf1 start); vm_compute; reflexivity|].
  eapply rtc_l; [apply (run_step upf2 s1); vm_compute; reflexivity|].
  eapply rtc_l; [apply (run_step upf1 s2); vm_compute; reflexivity|].
  eapply rtc_l; [apply (run_step upf2 s3); vm_compute; reflexivity|]. apply rtc_refl.
Defined.

End ApprovalWitnesses.
