(* ===== verification/Cluster.v ===== *)
(** * [controllers/pkg/cluster]: access to the workload clusters

    Cluster API keeps the kubeconfig of a workload cluster in a secret of the management
    cluster.  [Cluster.GetClusterClient] recognizes such a secret, and
    [Capi.GetClusterClient] makes a client from it once the cluster is ready.  The API
    server, the kubeconfig parser and the clients are parameters. *)
From S2P Require Import Prelude GoStrings Kube.

(** ** [corev1.Secret] and [corev1.ConfigMap], the fields in use *)
Record ObjectMeta := mkMeta {
  m_Key : NamespacedName;
  m_GenerateName : string;
  m_UID : string;
  m_ResourceVersion : string;
  m_Annotations : option (gmap string string);
  m_Finalizers : list string;
  m_Deleted : bool
}.
Record Secret := mkSecret { sec_Meta : ObjectMeta; sec_Type : string; sec_Data : gmap string string }.
Record ConfigMap := mkConfigMap { cm_Meta : ObjectMeta; cm_Data : option (gmap string string) }.

Definition set_Finalizers (l : list string) (m : ObjectMeta) : ObjectMeta :=
  mkMeta (m_Key m) (m_GenerateName m) (m_UID m) (m_ResourceVersion m) (m_Annotations m) l (m_Deleted m).
Definition set_Annotations (a : option (gmap string string)) (m : ObjectMeta) : ObjectMeta :=
  mkMeta (m_Key m) (m_GenerateName m) (m_UID m) (m_ResourceVersion m) a (m_Finalizers m) (m_Deleted m).
(** [o.ResourceVersion = ""; o.UID = ""; o.Namespace = ns] *)
Definition detach (ns : string) (m : ObjectMeta) : ObjectMeta :=
  mkMeta (mkKey ns (key_Name (m_Key m))) (m_GenerateName m) "" "" (m_Annotations m) (m_Finalizers m) (m_Deleted m).

#[export] Instance Secret_Object : Object Secret := {|
  GetKey s := m_Key (sec_Meta s); GetGenerateName s := m_GenerateName (sec_Meta s);
  GetFinalizers s := m_Finalizers (sec_Meta s);
  SetFinalizers l s := mkSecret (set_Finalizers l (sec_Meta s)) (sec_Type s) (sec_Data s);
  ObjAnnotations s := m_Annotations (sec_Meta s);
  SetObjAnnotations a s := mkSecret (set_Annotations a (sec_Meta s)) (sec_Type s) (sec_Data s);
  HasDeletionTimestamp s := m_Deleted (sec_Meta s) |}.
#[export] Instance ConfigMap_Object : Object ConfigMap := {|
  GetKey c := m_Key (cm_Meta c); GetGenerateName c := m_GenerateName (cm_Meta c);
  GetFinalizers c := m_Finalizers (cm_Meta c);
  SetFinalizers l c := mkConfigMap (set_Finalizers l (cm_Meta c)) (cm_Data c);
  ObjAnnotations c := m_Annotations (cm_Meta c);
  SetObjAnnotations a c := mkConfigMap (set_Annotations a (cm_Meta c)) (cm_Data c);
  HasDeletionTimestamp c := m_Deleted (cm_Meta c) |}.

Definition sec_Name (s : Secret) : string := key_Name (GetKey s).
(** [o.GetAnnotations()[key]]: the empty text when there is none. *)
Definition annotation {T} `{!Object T} (o : T) (key : string) : string :=
  default "" (ObjAnnotations o ≫= lookup key).
(** [m[k] = v] for a map that may be nil. *)
Definition map_assign (m : option (gmap string string)) (k v : string) : comp (option (gmap string string)) :=
  match m with
  | Some m => Done (Some (<[k := v]> m))
  | None => Panic "assignment to entry in nil map"
  end.

(** A condition of a Cluster API cluster: type and status. *)
Record CapiCondition := mkCapiCondition { cc_Type : string; cc_Status : string }.
Definition ReadyCondition : string := "Ready".

Class ClusterAPI (W : Type) := {
  (** the management cluster *)
  list_Secrets : W → result (list Secret);
  CapiCluster : Type;
  get_Cluster : W → NamespacedName → result CapiCluster;
  (** [json.Marshal] and [json.Unmarshal] of a cluster; the conditions of the latter *)
  Cluster_Marshal : CapiCluster → result string;
  Cluster_Unmarshal : string → result (list CapiCondition);
  (** client-go and controller-runtime: parse a kubeconfig, make a client *)
  RestConfig : Type;
  RESTConfigFromKubeConfig : string → result RestConfig;
  Remote : Type;
  client_New : RestConfig → result Remote;
  (** whether a namespace exists on a cluster *)
  remote_GetNamespace : W → Remote → string → option error
}.

Definition kubeConfigSuffix : string := "-kubeconfig".
Definition capiSecretType : string := "cluster.x-k8s.io/secret".
(** [capi.Capi]; the secret may be nil. *)
Record Capi := mkCapi { capi_Secret : option Secret }.

(** [Cluster.GetClusterClient] *)
Definition Cluster_GetClusterClient (secret : Secret) : option Capi :=
  if decide (sec_Type secret = capiSecretType) then
    if Contains (sec_Name secret) "kubeconfig" then Some (mkCapi (Some secret)) else None
  else None.

Definition GetClusterName (r : Capi) : string :=
  match capi_Secret r with
  | None => ""
  | Some s => TrimSuffix (sec_Name s) kubeConfigSuffix
  end.

Fixpoint isReady (cs : list CapiCondition) : bool :=
  match cs with
  | [] => false
  | c :: cs =>
      if decide (cc_Type c = ReadyCondition) then
        if decide (cc_Status c = "True") then true else isReady cs
      else isReady cs
  end.

Section clusters.
Context {W : Type} `{!ClusterAPI W}.

Definition isCapiClusterReady (w : W) (r : Capi) : comp bool :=
  match capi_Secret r with
  | None => Panic nil_dereference
  | Some s =>
      Done match get_Cluster w (mkKey (key_Namespace (GetKey s)) (GetClusterName r)) with
           | Err _ => false
           | Ok cl =>
               match Cluster_Marshal cl with
               | Err _ => false
               | Ok b =>
                   match Cluster_Unmarshal b with
                   | Err _ => false
                   | Ok cs => isReady cs
                   end
               end
           end
  end.

Definition getCapiClusterClient (secret : Secret) : result (option Remote) :=
  config ← RESTConfigFromKubeConfig (default "" (sec_Data secret !! "value"));
  clClient ← client_New config;
  Ok (Some clClient).

(** [Capi.GetClusterClient]: no client when the cluster is not ready. *)
Definition Capi_GetClusterClient (w : W) (r : Capi) : comp (result (option Remote)) :=
  ready ← isCapiClusterReady w r;
  if negb ready then Done (Ok None)
  else match capi_Secret r with
       | None => Panic nil_dereference
       | Some s => Done (getCapiClusterClient s)
       end.

(** ** Which secrets are used, for which cluster *)

(** The cluster [name] of namespace [ns] has the condition [Ready]. *)
Definition cluster_ready (w : W) (ns name : string) : Prop :=
  ∃ cl b cs c, get_Cluster w (mkKey ns name) = Ok cl ∧ Cluster_Marshal cl = Ok b ∧ Cluster_Unmarshal b = Ok cs ∧
    c ∈ cs ∧ cc_Type c = ReadyCondition ∧ cc_Status c = "True".

Lemma isReady_spec cs : isReady cs = true ↔ ∃ c, c ∈ cs ∧ cc_Type c = ReadyCondition ∧ cc_Status c = "True".
Proof.
  induction cs as [|c cs IH]; simpl; [split; [done|by intros (? & ?%elem_of_nil & _)]|].
  setoid_rewrite elem_of_cons. repeat case_decide; rewrite ?IH; naive_solver.
Qed.

Lemma CutSuffix_app s suf : suf ≠ "" → CutSuffix (s +:+ suf) suf = Some s.
Proof.
  intros Hsuf. induction s as [|a s IH].
  - destruct suf; [done|]. simpl. by rewrite decide_True.
  - rewrite string_app_cons. cbn [CutSuffix]. rewrite decide_False.
    + by rewrite IH.
    + intros Heq. apply (f_equal String.length) in Heq. rewrite <- string_app_cons, string_length_app in Heq. simpl in Heq. lia.
Qed.
Lemma TrimSuffix_app s suf : suf ≠ "" → TrimSuffix (s +:+ suf) suf = s.
Proof. intros Hsuf. unfold TrimSuffix. by rewrite CutSuffix_app. Qed.

(** A client is made only for a ready cluster, from the kubeconfig of its secret. *)
Lemma Capi_client w s h :
  Capi_GetClusterClient w (mkCapi (Some s)) = Done (Ok (Some h)) →
  cluster_ready w (key_Namespace (GetKey s)) (TrimSuffix (sec_Name s) kubeConfigSuffix) ∧
  getCapiClusterClient s = Ok (Some h).
Proof.
  unfold Capi_GetClusterClient, isCapiClusterReady. cbn [capi_Secret GetClusterName].
  destruct (get_Cluster _ _) as [cl|] eqn:Hc; [|done]. destruct (Cluster_Marshal cl) as [b|] eqn:Hb; [|done].
  destruct (Cluster_Unmarshal b) as [cs|] eqn:Hu; [|done]. cbn. destruct (isReady cs) eqn:Hr; [|done]. cbn. intros [= Hs].
  split; [|done]. apply isReady_spec in Hr as (c & ? & ? & ?). by exists cl, b, cs, c.
Qed.

Lemma Capi_client_ready w s h :
  cluster_ready w (key_Namespace (GetKey s)) (TrimSuffix (sec_Name s) kubeConfigSuffix) →
  getCapiClusterClient s = Ok (Some h) → Capi_GetClusterClient w (mkCapi (Some s)) = Done (Ok (Some h)).
Proof.
  intros (cl & b & cs & c & Hc & Hb & Hu & Hr) Hcl. unfold Capi_GetClusterClient, isCapiClusterReady.
  cbn [capi_Secret GetClusterName]. rewrite Hc, Hb, Hu, (proj2 (isReady_spec cs)) by (by exists c). cbn. by rewrite Hcl.
Qed.

(** No client for a cluster that is not ready; an error comes from its kubeconfig. *)
Lemma Capi_not_ready w s :
  Capi_GetClusterClient w (mkCapi (Some s)) = Done (Ok None) →
  ¬ cluster_ready w (key_Namespace (GetKey s)) (TrimSuffix (sec_Name s) kubeConfigSuffix).
Proof.
  intros Hn (cl & b & cs & c & Hc & Hb & Hu & Hr). revert Hn. unfold Capi_GetClusterClient, isCapiClusterReady.
  cbn [capi_Secret GetClusterName]. rewrite Hc, Hb, Hu, (proj2 (isReady_spec cs)) by (by exists c). cbn.
  unfold getCapiClusterClient. destruct (RESTConfigFromKubeConfig _) as [config|]; [|done]. cbn. by destruct (client_New config).
Qed.
Lemma Capi_failed w s e : Capi_GetClusterClient w (mkCapi (Some s)) = Done (Err e) → getCapiClusterClient s = Err e.
Proof. unfold Capi_GetClusterClient, isCapiClusterReady. cbn [capi_Secret]. cbn. destruct (negb _); [done|]. by intros [= ->]. Qed.

Lemma Cluster_GetClusterClient_Some s c :
  Cluster_GetClusterClient s = Some c ↔
  sec_Type s = capiSecretType ∧ substring_of "kubeconfig" (sec_Name s) ∧ c = mkCapi (Some s).
Proof.
  unfold Cluster_GetClusterClient. rewrite <- Contains_spec. case_decide as Ht.
  - destruct (Contains _ _); (split; [by intros [= <-]|by intros (_ & ? & ->)]).
  - split; [done|]. by intros (? & _).
Qed.
(** The secrets that Cluster API names after their clusters are accepted. *)
Lemma kubeconfig_accepted s c :
  sec_Type s = capiSecretType → sec_Name s = c +:+ kubeConfigSuffix → Cluster_GetClusterClient s = Some (mkCapi (Some s)).
Proof.
  intros Ht Hn. apply Cluster_GetClusterClient_Some. split_and!; [done| |done].
  rewrite Hn. exists (c +:+ "-"), "". by rewrite <- string_app_assoc.
Qed.
End clusters.

(** ** A concrete fleet of clusters
    A kubeconfig is the name of its cluster; [fl_local] and [fl_remote] are the objects of
    one kind on the management cluster and on the workload clusters. *)
Module FleetModel.
Record fleet (T : Type) := mkFleet {
  fl_secrets : list Secret;
  fl_clusters : gmap NamespacedName string;
  fl_namespaces : list (string * string);
  fl_local : gmap NamespacedName T;
  fl_remote : gmap (string * NamespacedName) T
}.
Arguments mkFleet {T}. Arguments fl_secrets {T}. Arguments fl_clusters {T}. Arguments fl_namespaces {T}.
Arguments fl_local {T}. Arguments fl_remote {T}.

#[export] Instance fleet_errors : ApiErrors := {|
  IsNotFound e := bool_decide (e = "not found"); errors_Wrap e msg := msg +:+ ": " +:+ e |}.
Definition found {A} (o : option A) : result A := match o with Some x => Ok x | None => Err "not found" end.
#[export] Instance fleet_api T : ClusterAPI (fleet T) := {|
  list_Secrets w := Ok (fl_secrets w);
  CapiCluster := string; get_Cluster w k := found (fl_clusters w !! k);
  Cluster_Marshal st := Ok st; Cluster_Unmarshal st := Ok [mkCapiCondition ReadyCondition st];
  RestConfig := string; RESTConfigFromKubeConfig s := if decide (s = "") then Err "no kubeconfig" else Ok s;
  Remote := string; client_New s := Ok s;
  remote_GetNamespace w h ns := if decide ((h, ns) ∈ fl_namespaces w) then None else Some "not found" |}.

Section stores.
Context {T : Type} `{!Object T}.
Definition put_remote (h : string) (o : T) (w : fleet T) : fleet T :=
  mkFleet (fl_secrets w) (fl_clusters w) (fl_namespaces w) (fl_local w) (<[(h, GetKey o) := o]> (fl_remote w)).
Definition put_local (o : T) (w : fleet T) : fleet T :=
  mkFleet (fl_secrets w) (fl_clusters w) (fl_namespaces w) (<[GetKey o := o]> (fl_local w)) (fl_remote w).
Definition fleet_remote (h : string) : Client (fleet T) T := {|
  Get w k := found (fl_remote w !! (h, k));
  Create w o := (put_remote h o w, (o, None)); Update w o := (put_remote h o w, (o, None));
  StatusUpdate w o := (put_remote h o w, (o, None)); MergePatch w _ o := (put_remote h o w, (o, None)) |}.
Definition fleet_local : Client (fleet T) T := {|
  Get w k := match fl_local w !! k with
             | Some o => if decide (GetKey o = k) then Ok o else Err "not found"
             | None => Err "not found"
             end;
  Create w o := (put_local o w, (o, None)); Update w o := (put_local o w, (o, None));
  StatusUpdate w o := (put_local o w, (o, None)); MergePatch w _ o := (put_local o w, (o, None)) |}.
End stores.

(** The kubeconfig secret of a cluster, and an object's metadata. *)
Definition meta (ns name : string) (a : option (gmap string string)) : ObjectMeta :=
  mkMeta (mkKey ns name) "" ("uid-" +:+ name) "7" a [] false.
Definition kubeconfig (c : string) : Secret :=
  mkSecret (meta "default" (c +:+ kubeConfigSuffix) None) capiSecretType {[ "value" := c ]}.
End FleetModel.
