(* ===== verification/ResourceHelpers.v ===== *)
(** * [controllers/pkg/resource]: the rest of the helpers, and what they do

    The adapters and tests on errors that go with the operations of [Kube], and the laws of
    finalizers, annotations and [Apply]. *)
From S2P Require Import Prelude External Kube Cluster.

(** [err.(kerrors.APIStatus)] and [errors.Cause] of an error that is not nil. *)
Class ErrorTypes := { is_APIStatus : error → bool; errors_Cause : error → error }.
(** A wrapped error has the cause of the error in it. *)
Class ErrorTypesLaws `{!ApiErrors, !ErrorTypes} : Prop := {
  Cause_Wrap e msg : errors_Cause (errors_Wrap e msg) = errors_Cause e
}.

Section helpers.
Context `{!ErrorTypes}.

(** nil is no API error. *)
Definition IsAPIError (err : option error) : bool := match err with Some e => is_APIStatus e | None => false end.
Definition IsAPIErrorWrapped (err : option error) : bool := IsAPIError (errors_Cause <$> err).

(** An option that modifies the current and the desired object and never fails. *)
Definition UpdateFn {T} (fn : T → T → T * T) : ApplyOption (T := T) := λ c d, (fn c d, None).

(** The apiVersion and the kind of the new object. *)
Definition GetUnstructuredFromGVK `{!FnSDK} (gvk : option (GroupVersion * string)) : comp (string * string) :=
  match gvk with
  | Some (gv, kind) => Done (GroupVersion_String gv, kind)
  | None => Panic nil_dereference
  end.

Lemma IsAPIErrorWrapped_Wrap `{!ApiErrors, !ErrorTypesLaws} err msg : IsAPIErrorWrapped (Wrap err msg) = IsAPIErrorWrapped err.
Proof. destruct err as [e|]; [|done]. unfold IsAPIErrorWrapped, Wrap. cbn. by rewrite Cause_Wrap. Qed.
End helpers.

(** ** The laws *)

(** Setters and getters of an object. *)
Class ObjectLaws (T : Type) `{!Object T} : Prop := {
  finalizers_get (o : T) l : GetFinalizers (SetFinalizers l o) = l;
  finalizers_set (o : T) l l' : SetFinalizers l (SetFinalizers l' o) = SetFinalizers l o;
  finalizers_same (o : T) : SetFinalizers (GetFinalizers o) o = o;
  annotations_get (o : T) a : ObjAnnotations (SetObjAnnotations a o) = a
}.

Section laws.
Context {T : Type} `{!Object T, !ObjectLaws T}.
Implicit Types o : T.

Lemma FinalizerExists_spec o f : FinalizerExists o f = true ↔ f ∈ GetFinalizers o.
Proof.
  unfold FinalizerExists. rewrite existsb_exists. setoid_rewrite bool_decide_eq_true.
  split; [intros (x & Hin%list_elem_of_In & ->); done|intros Hin; exists f; split; [by apply list_elem_of_In|done]].
Qed.

(** Removing a finalizer that is there at most once. *)
Lemma RemoveFinalizer_filter o f :
  NoDup (GetFinalizers o) → RemoveFinalizer o f = Done (SetFinalizers (filter (λ e, e ≠ f) (GetFinalizers o)) o).
Proof.
  intros Hnd. unfold RemoveFinalizer.
  assert (delete_in_range (λ e, bool_decide (e = f)) (GetFinalizers o) = Done (filter (λ e, e ≠ f) (GetFinalizers o))) as ->; [|done].
  destruct (decide (f ∈ GetFinalizers o)) as [Hin|Hout].
  - apply list_elem_of_split in Hin as (l1 & l2 & Hl). rewrite Hl in Hnd |- *.
    apply NoDup_app in Hnd as (_ & Hd & [Hf _]%NoDup_cons).
    assert (Forall (λ e, e ≠ f) (l1 ++ l2)) as Hne.
    { apply Forall_app. split; apply Forall_forall; intros e He ->; [by apply (Hd f He), list_elem_of_here|done]. }
    rewrite delete_in_range_one; [|by apply bool_decide_eq_true|eapply Forall_impl; [exact Hne|intros e He; by apply bool_decide_eq_false]].
    f_equal. rewrite filter_app, filter_cons_False by (intros Hc; by apply Hc). rewrite <- filter_app. symmetry. by apply filter_all.
  - rewrite delete_in_range_none; [|apply Forall_forall; intros e He; apply bool_decide_eq_false; by intros ->].
    f_equal. symmetry. apply filter_all, Forall_forall. intros e He ->. done.
Qed.

Lemma AddFinalizer_get o f :
  GetFinalizers (AddFinalizer o f) = if decide (f ∈ GetFinalizers o) then GetFinalizers o else GetFinalizers o ++ [f].
Proof.
  unfold AddFinalizer. pose proof (FinalizerExists_spec o f) as Hx.
  destruct (FinalizerExists o f), (decide (f ∈ GetFinalizers o)); try done; [naive_solver..|apply finalizers_get].
Qed.

(** C40: Adding and removing finalizers, of an object that lists none of them twice (removing one that is listed twice can panic): adding one puts it last unless it is there, keeps the list free of repetitions and is idempotent; removing one takes it out, keeps the others in their order and is idempotent; removing a finalizer that was added to an object without it gives back that object, and adding one that was removed gives back the finalizers but for their order, with the added one last. *)
Theorem finalizer_roundtrip o f :
  NoDup (GetFinalizers o) →
  f ∈ GetFinalizers (AddFinalizer o f) ∧ NoDup (GetFinalizers (AddFinalizer o f)) ∧ AddFinalizer (AddFinalizer o f) f = AddFinalizer o f ∧
  (f ∉ GetFinalizers o → GetFinalizers (AddFinalizer o f) = GetFinalizers o ++ [f] ∧ RemoveFinalizer (AddFinalizer o f) f = Done o) ∧
  ∃ o', RemoveFinalizer o f = Done o' ∧ RemoveFinalizer o' f = Done o' ∧ FinalizerExists o' f = false ∧
    (∀ g, g ≠ f → FinalizerExists o' g = FinalizerExists o g) ∧ GetFinalizers o' `sublist_of` GetFinalizers o ∧
    (f ∈ GetFinalizers o → GetFinalizers (AddFinalizer o' f) = GetFinalizers o' ++ [f] ∧
       GetFinalizers (AddFinalizer o' f) ≡ₚ GetFinalizers o).
Proof.
  intros Hnd. pose proof (AddFinalizer_get o f) as Hadd.
  assert (Hin : f ∈ GetFinalizers (AddFinalizer o f)) by (rewrite Hadd; case_decide; set_solver).
  assert (Hnd' : NoDup (GetFinalizers (AddFinalizer o f))).
  { rewrite Hadd. case_decide; [done|]. apply NoDup_app. split_and!; [done|set_solver|apply NoDup_singleton]. }
  split_and!; [done|done| | |].
  - unfold AddFinalizer at 1. by rewrite (proj2 (FinalizerExists_spec _ _) Hin).
  - intros Hout. rewrite decide_False in Hadd by done. split; [done|]. rewrite RemoveFinalizer_filter, Hadd by done.
    rewrite filter_app, filter_cons_False by (intros Hc; by apply Hc). rewrite filter_nil, app_nil_r, filter_all by (apply Forall_forall; intros e He ->; done).
    f_equal. unfold AddFinalizer. destruct (FinalizerExists o f); [apply finalizers_same|]. rewrite finalizers_set. apply finalizers_same.
  - eexists. split; [by apply RemoveFinalizer_filter|]. set (l := filter (λ e, e ≠ f) (GetFinalizers o)).
    assert (Hl : ∀ g, g ∈ l ↔ g ≠ f ∧ g ∈ GetFinalizers o) by (intros g; unfold l; by rewrite list_elem_of_filter). split_and!.
    + rewrite RemoveFinalizer_filter; rewrite finalizers_get; [|by apply NoDup_filter].
      rewrite finalizers_set. f_equal. f_equal. apply filter_all, Forall_forall. intros e He%Hl. apply He.
    + apply not_true_iff_false. rewrite FinalizerExists_spec, finalizers_get, Hl. naive_solver.
    + intros g Hg. apply eq_true_iff_eq. rewrite !FinalizerExists_spec, finalizers_get, Hl. naive_solver.
    + rewrite finalizers_get. apply sublist_filter.
    + intros Hf. rewrite AddFinalizer_get, finalizers_get, decide_False by (rewrite Hl; naive_solver). split; [done|].
      apply NoDup_Permutation; [|done|intros g; rewrite elem_of_app, Hl, list_elem_of_singleton; destruct (decide (g = f)) as [->|]; naive_solver].
      apply NoDup_app. split_and!; [by apply NoDup_filter|set_solver|apply NoDup_singleton].
Qed.

(** With a finalizer listed twice at the end, removing it panics. *)
Lemma RemoveFinalizer_duplicate_panics o l f :
  GetFinalizers o = l ++ [f; f] → f ∉ l → RemoveFinalizer o f = Panic "slice bounds out of range".
Proof.
  intros Hf Hl. unfold RemoveFinalizer. rewrite Hf, delete_in_range_dup_end; [done|by apply bool_decide_eq_true..|].
  apply Forall_forall. intros e He. apply bool_decide_eq_false. by intros ->.
Qed.

(** Annotations: the added ones win, the removed ones are gone, the others stay. *)
Lemma AddAnnotations_lookup o (a : gmap string string) k :
  ObjAnnotations (AddAnnotations o (Some a)) ≫= lookup k = match a !! k with Some v => Some v | None => ObjAnnotations o ≫= lookup k end.
Proof.
  unfold AddAnnotations. destruct (ObjAnnotations o) as [b|] eqn:Ho; rewrite annotations_get; cbn; [|by destruct (a !! k)].
  rewrite lookup_union. by destruct (a !! k), (b !! k).
Qed.
Lemma RemoveAnnotations_lookup o l k :
  ObjAnnotations (RemoveAnnotations o l) ≫= lookup k = if decide (k ∈ l) then None else ObjAnnotations o ≫= lookup k.
Proof.
  unfold RemoveAnnotations. destruct (ObjAnnotations o) as [a|] eqn:Ho; [|rewrite Ho; by case_decide]. rewrite annotations_get. cbn.
  revert a Ho. generalize o. clear o. induction l as [|x l IH]; intros o a Ho; cbn; [done|].
  destruct (decide (x = k)) as [->|Hne].
  - rewrite (decide_True (P := k ∈ k :: l)) by apply list_elem_of_here. clear IH Ho.
    assert (∀ m : gmap string string, m !! k = None → foldl (λ a y, delete y a) m l !! k = None) as Hgone.
    { induction l as [|y l IHl]; intros m Hm; [done|]. cbn. apply IHl. rewrite lookup_delete_None. by right. }
    apply Hgone. by rewrite lookup_delete_None; left.
  - rewrite (IH (SetObjAnnotations (Some (delete x a)) o)) by apply annotations_get. rewrite lookup_delete_ne by done.
    destruct (decide (k ∈ l)), (decide (k ∈ x :: l)); set_solver.
Qed.
Lemma RemoveString_filter l s : RemoveString l s = filter (λ v, v ≠ s) l.
Proof. induction l as [|v l IH]; [done|]. cbn [RemoveString]. rewrite filter_cons, IH. done. Qed.

Context `{!ApiErrors} {W : Type} `{!Client W T}.
Lemma run_options_UpdateFn (fns : list (T → T → T * T)) c d :
  run_options (UpdateFn <$> fns) c d = (foldl (λ p f, f p.1 p.2) (c, d) fns, None).
Proof. revert c d. induction fns as [|f fns IH]; intros c d; [done|]. cbn. destruct (f c d) as [c' d']. apply IH. Qed.
(** Applying an object that exists patches what the options made of the current object, with
    what they made of the desired one. *)
Lemma Apply_existing o current (fns : list (T → T → T * T)) w :
  key_Name (GetKey o) ≠ "" → Get w (GetKey o) = Ok current →
  let '(c, d) := foldl (λ p f, f p.1 p.2) (current, o) fns in
  Apply o (UpdateFn <$> fns) w = Done ((MergePatch w c d).1, ((MergePatch w c d).2.1, Wrap (MergePatch w c d).2.2 "cannot patch object")).
Proof.
  intros Hn Hg. unfold Apply. rewrite bool_decide_false by done. cbn [andb]. unfold mbind, prog_bind, get_st. rewrite Hg, run_options_UpdateFn.
  destruct (foldl _ _ _) as [c d]. unfold call. by destruct (MergePatch w c d) as [w1 [o1 e1]].
Qed.
End laws.

(** ** Witnesses *)
Module ResourceWitnesses.
#[export] Instance secret_laws : ObjectLaws Cluster.Secret.
Proof. constructor; [done|done| |done]. by intros [[] ? ?]. Qed.
Definition secret : Cluster.Secret := mkSecret (mkMeta (mkKey "default" "s") "" "" "" None ["a"; "b"] false) "Opaque" ∅.
Lemma finalizer_roundtrip_witness :
  NoDup (GetFinalizers secret) ∧ "c" ∈ GetFinalizers (AddFinalizer secret "c") ∧ RemoveFinalizer (AddFinalizer secret "c") "c" = Done secret ∧
  ∃ o', RemoveFinalizer secret "a" = Done o' ∧ GetFinalizers (AddFinalizer o' "a") ≡ₚ ["a"; "b"].
Proof.
  assert (NoDup (GetFinalizers secret)) as Hnd by (cbn; apply NoDup_cons; split; [set_solver|apply NoDup_singleton]).
  destruct (finalizer_roundtrip secret "c" Hnd) as (Hin & _ & _ & Hback & _).
  destruct (finalizer_roundtrip secret "a" Hnd) as (_ & _ & _ & _ & o' & Hr & _ & _ & _ & _ & Hperm).
  split; [exact Hnd|]. split; [exact Hin|]. split; [apply Hback; cbn; set_solver|].
  exists o'. split; [exact Hr|]. apply Hperm. cbn. set_solver.
Defined.
End ResourceWitnesses.
