(* ===== verification/BootstrapSecret.v ===== *)
(** * [controllers/pkg/reconcilers/bootstrap-secret]: secrets for the workload clusters

    A secret of the management cluster that is annotated for it is copied to each of the
    workload clusters the annotation names.  The management cluster and the workload
    clusters are one state [W]; [remote h] is the client of the workload cluster [h]. *)
From S2P Require Import Prelude GoStrings Kube Cluster.

Definition clusterNameKey : string := "nephio.org/cluster-name".
Definition nephioAppKey : string := "nephio.org/app".
Definition remoteNamespaceKey : string := "nephio.org/remote-namespace".
Definition syncApp : string := "tobeinstalledonremotecluster".
Definition bootstrapApp : string := "bootstrap".

(** What a reconciler returns; [None] in a loop is to go on. *)
Definition Return : Type := Result * option error.

Section bootstrap_secret.
Context `{!ApiErrors} {W : Type} `{!ClusterAPI W, !Client W Secret} (remote : Remote → Client W Secret).

(** The secret is to be installed on workload clusters. *)
Definition relevant (cr : Secret) : bool :=
  bool_decide (annotation cr nephioAppKey = syncApp) &&
  negb (bool_decide (annotation cr clusterNameKey = "")) &&
  negb (bool_decide (annotation cr clusterNameKey = "mgmt")).

Definition remoteNamespace (cr : Secret) : string :=
  default (key_Namespace (GetKey cr)) (ObjAnnotations cr ≫= lookup remoteNamespaceKey).

(** The copy of the secret for a cluster. *)
Definition copy_for (cr : Secret) (clusterName : string) : comp Secret :=
  a ← map_assign (ObjAnnotations cr) nephioAppKey bootstrapApp;
  a ← map_assign a clusterNameKey clusterName;
  Done (mkSecret (detach (remoteNamespace cr) (set_Annotations a (sec_Meta cr))) (sec_Type cr) (sec_Data cr)).

(** The body of the loop for a secret that was accepted. *)
Definition install_on (cr : Secret) (clusterName : string) (c : Capi) : prog W (option Return) :=
  w ← get_st;
  cl ← lift (Capi_GetClusterClient w c);
  match cl with
  | Err e => mret (Some (requeueAfter (30 * Second), Wrap (Some e) "cannot get clusterClient"))
  | Ok None => mret (Some (requeueAfter (10 * Second), None))
  | Ok (Some h) =>
      let ns := remoteNamespace cr in
      match remote_GetNamespace w h ns with
      | Some e =>
          match IgnoreNotFound (Some e) with
          | Some _ => mret (Some (requeueAfter (30 * Second), Wrap (Some e) ("cannot get namespace: " +:+ ns)))
          | None => mret (Some (requeueAfter (10 * Second), None))
          end
      | None =>
          newcr ← lift (copy_for cr clusterName);
          '(_, err) ← @Apply _ W Secret _ (remote h) newcr [];
          match err with
          | Some e => mret (Some (done_result, Wrap (Some e) ("cannot apply secret to cluster " +:+ clusterName)))
          | None => mret None
          end
      end
  end.

(** The loop over the secrets: whether one was accepted, and the early return. *)
Fixpoint secrets_loop (cr : Secret) (clusterName : string) (secrets : list Secret) : prog W (bool * option Return) :=
  match secrets with
  | [] => mret (false, None)
  | secret :: secrets =>
      if Contains (sec_Name secret) clusterName then
        match Cluster_GetClusterClient secret with
        | Some c => r ← install_on cr clusterName c; mret (true, r)
        | None => secrets_loop cr clusterName secrets
        end
      else secrets_loop cr clusterName secrets
  end.

Fixpoint clusters_loop (cr : Secret) (clusterNames : list string) : prog W Return :=
  match clusterNames with
  | [] => mret (done_result, None)
  | clusterName :: clusterNames =>
      w ← get_st;
      match list_Secrets w with
      | Err e => mret (done_result, Wrap (Some e) "cannot list secrets")
      | Ok secrets =>
          '(found, ret) ← secrets_loop cr clusterName secrets;
          match ret with
          | Some r => mret r
          | None =>
              if negb found then mret (requeueAfter (10 * Second), None)
              else clusters_loop cr clusterNames
          end
      end
  end.

Definition bootstrapsecret_Reconcile (req : NamespacedName) : prog W Return :=
  w ← get_st;
  match Get w req with
  | Err e =>
      match IgnoreNotFound (Some e) with
      | Some e => mret (done_result, Wrap (Some e) "cannot get resource")
      | None => mret (done_result, None)
      end
  | Ok cr =>
      if WasDeleted cr then mret (done_result, None)
      else if relevant cr then clusters_loop cr (split_on comma (annotation cr clusterNameKey))
      else mret (done_result, None)
  end.

(** ** What is installed where *)

(** The secret whose credentials are used for a cluster name: the first one that is
    accepted among those whose name contains it. *)
Definition target (clusterName : string) (secrets : list Secret) : option Secret :=
  List.find (λ s, Contains (sec_Name s) clusterName && bool_decide (is_Some (Cluster_GetClusterClient s))) secrets.

Lemma secrets_loop_target cr c secrets :
  secrets_loop cr c secrets =
  match target c secrets with
  | Some s => r ← install_on cr c (mkCapi (Some s)); mret (true, r)
  | None => mret (false, None)
  end.
Proof.
  induction secrets as [|s secrets IH]; [done|]. cbn [secrets_loop target List.find].
  destruct (Contains _ _); [|exact IH]. destruct (Cluster_GetClusterClient s) as [c'|] eqn:Hs.
  - by apply Cluster_GetClusterClient_Some in Hs as (_ & _ & ->).
  - rewrite bool_decide_false by (by intros [? ?]). exact IH.
Qed.
Lemma target_Some c secrets s :
  target c secrets = Some s → s ∈ secrets ∧ substring_of c (sec_Name s) ∧ sec_Type s = capiSecretType ∧ substring_of "kubeconfig" (sec_Name s).
Proof.
  unfold target. intros [Hin [Hc Hs]%andb_true_iff]%List.find_some. rewrite bool_decide_eq_true in Hs. destruct Hs as [c' (?&?&?)%Cluster_GetClusterClient_Some].
  split_and!; [by apply list_elem_of_In|by apply Contains_spec|done..].
Qed.

(** The copy that belongs on cluster [c]. *)
Definition is_copy (cr : Secret) (c : string) (o : Secret) : Prop :=
  GetKey o = mkKey (remoteNamespace cr) (sec_Name cr) ∧
  m_UID (sec_Meta o) = "" ∧ m_ResourceVersion (sec_Meta o) = "" ∧
  sec_Type o = sec_Type cr ∧ sec_Data o = sec_Data cr ∧
  annotation o nephioAppKey = bootstrapApp ∧ annotation o clusterNameKey = c ∧
  ∀ k, k ≠ nephioAppKey → k ≠ clusterNameKey → annotation o k = annotation cr k.

Lemma copy_for_spec cr c : relevant cr = true → ∃ o, copy_for cr c = Done o ∧ is_copy cr c o.
Proof.
  unfold relevant, annotation. rewrite !andb_true_iff, bool_decide_eq_true, !negb_true_iff, !bool_decide_eq_false. intros [[Ha _] _].
  unfold copy_for. destruct (ObjAnnotations cr) as [a|] eqn:Hann; [|done]. cbn. eexists. split; [reflexivity|].
  unfold is_copy, annotation. cbn. cbn in Hann. rewrite Hann. split_and!; try done.
  - rewrite lookup_insert_ne by done. by rewrite lookup_insert_eq.
  - by rewrite lookup_insert_eq.
  - intros k H1 H2. by rewrite !lookup_insert_ne by congruence.
Qed.

(** One installation: the copy of [cr] for one of its cluster names is applied with the
    credentials of a ready cluster on which the namespace exists. *)
Definition installs (cr : Secret) (w w' : W) : Prop :=
  ∃ c secrets s h o res, c ∈ split_on comma (annotation cr clusterNameKey) ∧
    list_Secrets w = Ok secrets ∧ target c secrets = Some s ∧
    cluster_ready w (key_Namespace (GetKey s)) (TrimSuffix (sec_Name s) kubeConfigSuffix) ∧
    getCapiClusterClient s = Ok (Some h) ∧ remote_GetNamespace w h (remoteNamespace cr) = None ∧
    is_copy cr c o ∧ @Apply _ W Secret _ (remote h) o [] w = Done (w', res).

Lemma Apply_returns (h : Remote) o w : ∃ w' o' err, @Apply _ W Secret _ (remote h) o [] w = Done (w', (o', err)).
Proof.
  unfold Apply, mbind, prog_bind, call, get_st, mret, prog_ret. case_match; [destruct (@Create _ _ (remote h) w o) as [? []]; by eauto|].
  cbn [run_options]. destruct (@Get _ _ (remote h) w (GetKey o)).
  - destruct (@MergePatch _ _ (remote h) w _ o) as [? []]; by eauto.
  - case_match; [destruct (@Create _ _ (remote h) w o) as [? []]; by eauto|by eauto].
Qed.

(** A branch that returns without a write. *)
Ltac stays := by (eexists _, _; split; [reflexivity|by left]).

(** One cluster name: nothing happens, or one installation. *)
Lemma install_on_safe cr c secrets s w :
  relevant cr = true → c ∈ split_on comma (annotation cr clusterNameKey) →
  list_Secrets w = Ok secrets → target c secrets = Some s →
  ∃ w' r, install_on cr c (mkCapi (Some s)) w = Done (w', r) ∧ (w' = w ∨ installs cr w w').
Proof.
  intros Hrel Hc Hl Ht. unfold install_on, mbind, prog_bind, get_st, lift.
  destruct (Capi_GetClusterClient w (mkCapi (Some s))) as [[[h|]|e]|why] eqn:Hcl; cbn -[remoteNamespace IgnoreNotFound].
  2,3: stays.
  2:{ by unfold Capi_GetClusterClient in Hcl; cbn in Hcl; destruct (negb _) in Hcl. }
  destruct (remote_GetNamespace w h _) as [e|] eqn:Hns; [destruct (IgnoreNotFound (Some e)); stays|].
  destruct (copy_for_spec cr c Hrel) as (o & -> & Ho). cbn.
  destruct (Apply_returns h o w) as (w' & o' & err & Happly). rewrite Happly.
  apply Capi_client in Hcl as [Hready Hclient].
  exists w'. destruct err; (eexists; split; [reflexivity|right; by eexists c, secrets, s, h, o, _]).
Qed.

Lemma clusters_loop_safe cr names w :
  relevant cr = true → names ⊆ split_on comma (annotation cr clusterNameKey) →
  ∃ w' r, clusters_loop cr names w = Done (w', r) ∧ rtc (installs cr) w w'.
Proof.
  intros Hrel. revert w. induction names as [|c names IH]; intros w Hsub; [by eauto using rtc_refl|].
  cbn [clusters_loop]. unfold mbind at 1, prog_bind at 1, get_st at 1. cbn.
  destruct (list_Secrets w) as [secrets|e] eqn:Hl; [|by eauto using rtc_refl].
  rewrite secrets_loop_target. destruct (target c secrets) as [s|] eqn:Ht; [|by eauto using rtc_refl].
  destruct (install_on_safe cr c secrets s w Hrel) as (w1 & r & Hi & Hw); [apply Hsub; by left|done..|].
  unfold mbind, prog_bind. rewrite Hi. cbn.
  assert (Hrtc : rtc (installs cr) w w1) by (destruct Hw as [->|]; eauto using rtc_refl, rtc_once).
  destruct r as [r|]; cbn; [by eauto|].
  destruct (IH w1) as (w2 & r & Hloop & Hr); [intros x Hx; apply Hsub; by right|].
  exists w2, r. split; [exact Hloop|by etrans].
Qed.

(** Reconcile returns, and it only installs: it leaves the clusters as they are or, for a secret that is annotated for it and not being deleted, applies copies of it (same name, type and data, no UID and resource version, the remote namespace, and the two annotations overwritten) with the credentials of ready clusters on which the namespace exists. *)
Theorem bootstrap_secret_installs (req : NamespacedName) (w : W) :
  ∃ w' r, bootstrapsecret_Reconcile req w = Done (w', r) ∧
    (w' = w ∨ ∃ cr, Get w req = Ok cr ∧ WasDeleted cr = false ∧ relevant cr = true ∧ rtc (installs cr) w w').
Proof.
  unfold bootstrapsecret_Reconcile, mbind at 1, prog_bind at 1, get_st. cbn -[IgnoreNotFound WasDeleted annotation].
  destruct (Get w req) as [cr|e]; [|destruct (IgnoreNotFound (Some e)); stays].
  destruct (WasDeleted cr) eqn:Hd; [stays|]. destruct (relevant cr) eqn:Hrel; [|stays].
  destruct (clusters_loop_safe cr (split_on comma (annotation cr clusterNameKey)) w Hrel) as (w' & r & ? & ?); [done|].
  exists w', r. split; [done|]. right. by exists cr.
Qed.

(** ** Delivery
    The copies are applied one after the other; an error ends it. *)
Fixpoint deliver (cr : Secret) (plan : list (string * Remote)) : prog W Return :=
  match plan with
  | [] => mret (done_result, None)
  | (c, h) :: plan =>
      newcr ← lift (copy_for cr c);
      '(_, err) ← @Apply _ W Secret _ (remote h) newcr [];
      match err with
      | Some e => mret (done_result, Wrap (Some e) ("cannot apply secret to cluster " +:+ c))
      | None => deliver cr plan
      end
  end.

(** The credentials [h] are used for the cluster name [c]. *)
Definition resolves (w : W) (cr : Secret) (c : string) (h : Remote) : Prop :=
  ∃ secrets s, list_Secrets w = Ok secrets ∧ target c secrets = Some s ∧
    Capi_GetClusterClient w (mkCapi (Some s)) = Done (Ok (Some h)) ∧ remote_GetNamespace w h (remoteNamespace cr) = None.

(** A write to a workload cluster changes neither the management cluster nor which
    namespaces exist. *)
Definition same_fleet (w w' : W) : Prop :=
  list_Secrets w' = list_Secrets w ∧ (∀ k, get_Cluster w' k = get_Cluster w k) ∧
  ∀ h ns, remote_GetNamespace w' h ns = remote_GetNamespace w h ns.
Class RemoteLaws : Prop := {
  Create_remote h w o w' r : @Create _ _ (remote h) w o = (w', r) → same_fleet w w';
  MergePatch_remote h w o p w' r : @MergePatch _ _ (remote h) w o p = (w', r) → same_fleet w w'
}.

Lemma Apply_same_fleet `{!RemoteLaws} h o w w' r : @Apply _ W Secret _ (remote h) o [] w = Done (w', r) → same_fleet w w'.
Proof.
  unfold Apply, mbind, prog_bind, call, get_st, mret, prog_ret. cbn [run_options]. intros Ha.
  destruct (_ && _).
  - destruct (@Create _ _ (remote h) w o) as [w1 []] eqn:Hc. injection Ha as <- _. by eapply Create_remote.
  - destruct (@Get _ _ (remote h) w (GetKey o)) as [cur|e].
    + destruct (@MergePatch _ _ (remote h) w cur o) as [w1 []] eqn:Hc. injection Ha as <- _. by eapply MergePatch_remote.
    + destruct (IsNotFound e); [|by injection Ha as <- _].
      destruct (@Create _ _ (remote h) w o) as [w1 []] eqn:Hc. injection Ha as <- _. by eapply Create_remote.
Qed.
Lemma resolves_same w w' cr c h : same_fleet w w' → resolves w cr c h → resolves w' cr c h.
Proof.
  intros (Hl & Hc & Hn) (secrets & s & ? & ? & Hcl & ?). exists secrets, s. rewrite Hl, Hn. split_and!; try done.
  unfold Capi_GetClusterClient, isCapiClusterReady in *. cbn in *. by rewrite Hc.
Qed.

Lemma clusters_loop_deliver `{!RemoteLaws} cr names hs w :
  relevant cr = true → Forall2 (resolves w cr) names hs → clusters_loop cr names w = deliver cr (zip names hs) w.
Proof.
  intros Hrel Hall. revert w hs Hall. induction names as [|c names IH]; intros w hs Hall; inversion Hall as [|? h ? hs' Hc Hr]; [done|]; subst.
  destruct Hc as (secrets & s & Hl & Ht & Hcl & Hns).
  cbn [clusters_loop deliver zip]. unfold mbind at 1, prog_bind at 1, get_st at 1. cbn. rewrite Hl, secrets_loop_target, Ht.
  unfold install_on, mbind, prog_bind, get_st, lift. rewrite Hcl. cbn -[remoteNamespace]. rewrite Hns.
  destruct (copy_for_spec cr c Hrel) as (o & -> & _). cbn.
  destruct (Apply_returns h o w) as (w' & o' & err & Ha). rewrite Ha. destruct err as [e|]; [done|]. cbn.
  apply IH. eapply Forall2_impl; [exact Hr|]. intros x y. apply resolves_same. by eapply Apply_same_fleet.
Qed.
Lemma Reconcile_deliver `{!RemoteLaws} req w cr hs :
  Get w req = Ok cr → WasDeleted cr = false → relevant cr = true →
  Forall2 (resolves w cr) (split_on comma (annotation cr clusterNameKey)) hs →
  bootstrapsecret_Reconcile req w = deliver cr (zip (split_on comma (annotation cr clusterNameKey)) hs) w.
Proof.
  intros Hg Hd Hrel Hall. unfold bootstrapsecret_Reconcile, mbind at 1, prog_bind at 1, get_st. cbn -[WasDeleted annotation].
  rewrite Hg, Hd, Hrel. by apply clusters_loop_deliver.
Qed.

(** The cluster [c] has its kubeconfig in the secret Cluster API names after it, and it is the
    only kubeconfig secret whose name contains [c] (the other secrets of the cluster, with its
    certificates and keys, are of the same type); it is ready, [h] is its client, and the
    namespace exists there. *)
Definition own_cluster (w : W) (cr : Secret) (secrets : list Secret) (c : string) (h : Remote) : Prop :=
  ∃ s, s ∈ secrets ∧ sec_Name s = c +:+ kubeConfigSuffix ∧ sec_Type s = capiSecretType ∧
    cluster_ready w (key_Namespace (GetKey s)) c ∧ getCapiClusterClient s = Ok (Some h) ∧
    remote_GetNamespace w h (remoteNamespace cr) = None ∧
    ∀ s', s' ∈ secrets → sec_Type s' = capiSecretType → substring_of "kubeconfig" (sec_Name s') →
      substring_of c (sec_Name s') → s' = s.

Lemma own_cluster_resolves w cr secrets c h :
  list_Secrets w = Ok secrets → own_cluster w cr secrets c h → resolves w cr c h.
Proof.
  intros Hl (s & Hin & Hname & Htype & Hready & Hcl & Hns & Huniq). exists secrets, s. split_and!; [done| |by apply Capi_client_ready; rewrite ?Hname, ?TrimSuffix_app|done].
  assert (Hacc : Contains (sec_Name s) c && bool_decide (is_Some (Cluster_GetClusterClient s)) = true).
  { rewrite andb_true_iff, Contains_spec, bool_decide_eq_true, Hname. split; [apply substring_app_r|]. eexists. by eapply kubeconfig_accepted. }
  unfold target. destruct (List.find _ secrets) as [s'|] eqn:Hf.
  - f_equal. apply (target_Some c) in Hf as (? & ? & ? & ?). by apply Huniq.
  - eapply List.find_none in Hf; [|by apply list_elem_of_In]. by rewrite Hacc in Hf.
Qed.

(** C11: When every cluster that is named is a ready Cluster API cluster on which the remote namespace exists, and its kubeconfig secret is the only kubeconfig secret whose name contains the cluster name, Reconcile delivers: it applies a copy of the secret for each named cluster, with the credentials of that cluster, in the order of the annotation, until an apply fails.  A copy has the name, the type and the data of the secret, the remote namespace, no UID and no resource version, and the two annotations overwritten.  The other secrets that Cluster API keeps for the clusters, in any place of the list, make no difference. *)
Theorem bootstrap_secret_delivers `{!RemoteLaws} req w cr secrets hs :
  Get w req = Ok cr → WasDeleted cr = false → relevant cr = true → list_Secrets w = Ok secrets →
  Forall2 (own_cluster w cr secrets) (split_on comma (annotation cr clusterNameKey)) hs →
  bootstrapsecret_Reconcile req w = deliver cr (zip (split_on comma (annotation cr clusterNameKey)) hs) w ∧
  ∀ c, ∃ o, copy_for cr c = Done o ∧ is_copy cr c o.
Proof.
  intros Hg Hd Hrel Hl Hall. split; [|intros c; by apply copy_for_spec]. apply Reconcile_deliver; [done..|].
  eapply Forall2_impl; [exact Hall|]. intros c h. by apply own_cluster_resolves.
Qed.

(** C28: A cluster name that occurs in another cluster's name is taken for that cluster: when the kubeconfig secret of the other cluster is listed first, the secret for [c] is installed there, with an annotation that says it is for [c], and Reconcile is done without having looked at [c]'s own cluster. *)
Theorem bootstrap_secret_wrong_cluster `{!RemoteLaws} req w cr c other s secrets h :
  Get w req = Ok cr → WasDeleted cr = false → relevant cr = true → annotation cr clusterNameKey = c → has_char comma c = false →
  c ≠ other → substring_of c other → sec_Name s = other +:+ kubeConfigSuffix → sec_Type s = capiSecretType →
  list_Secrets w = Ok (s :: secrets) → cluster_ready w (key_Namespace (GetKey s)) other →
  getCapiClusterClient s = Ok (Some h) → remote_GetNamespace w h (remoteNamespace cr) = None →
  ∃ o, is_copy cr c o ∧
    bootstrapsecret_Reconcile req w =
      ('(_, err) ← @Apply _ W Secret _ (remote h) o [];
       mret (done_result, Wrap err ("cannot apply secret to cluster " +:+ c))) w.
Proof.
  intros Hg Hd Hrel Hann Hcomma Hne Hsub Hname Htype Hl Hready Hcl Hns.
  destruct (copy_for_spec cr c Hrel) as (o & Hcopy & Ho). exists o. split; [done|].
  rewrite (Reconcile_deliver req w cr [h] Hg Hd Hrel).
  - rewrite Hann, (split_on_no_sep _ _ Hcomma). cbn. unfold mbind, prog_bind, lift. rewrite Hcopy. cbn.
    destruct (Apply_returns h o w) as (w' & o' & [e|] & ->); done.
  - rewrite Hann, (split_on_no_sep _ _ Hcomma). constructor; [|done]. exists (s :: secrets), s. split_and!; [done| | |done].
    + unfold target. cbn. rewrite Hname, (proj2 (Contains_spec _ _)).
      * rewrite bool_decide_true; [done|]. eexists. by eapply kubeconfig_accepted.
      * etrans; [exact Hsub|apply substring_app_r].
    + apply Capi_client_ready; [by rewrite Hname, TrimSuffix_app|done].
Qed.
End bootstrap_secret.

Module BootstrapSecretWitnesses.
Import FleetModel.
#[local] Existing Instance fleet_local.
Abbreviation world := (fleet Secret).
Definition clients : @Remote world _ → Client world Secret := fleet_remote (T := Secret).
#[export] Instance fleet_laws : RemoteLaws (W := world) clients.
Proof. constructor; by intros ? ? ? * [= <- _]. Qed.

(** The secret [git] is for [edge1] (and [edge2]). *)
Definition git (names : string) : Secret := mkSecret
  (meta "default" "git" (Some {[ nephioAppKey := syncApp; clusterNameKey := names; remoteNamespaceKey := "config" ]})) "" {[ "token" := "t" ]}.
Definition edges (names : string) (order : list string) : world := mkFleet (kubeconfig <$> order)
  (list_to_map ((λ c, (mkKey "default" c, "True")) <$> order)) ((λ c, (c, "config")) <$> order)
  {[ mkKey "default" "git" := git names ]} ∅.
Definition req : NamespacedName := mkKey "default" "git".
(** Where the secret is after a run. *)
Definition installed (w : world) : list string := (λ kv, kv.1.1) <$> map_to_list (fl_remote w).
Definition installed_after (w : world) : list string :=
  match bootstrapsecret_Reconcile clients req w with Done (w', (_, None)) => installed w' | _ => [] end.

Lemma edge_ready names order c : c ∈ order → cluster_ready (edges names order) "default" c.
Proof.
  intros Hc. assert (Hl : (list_to_map ((λ c, (mkKey "default" c, "True")) <$> order) : gmap NamespacedName string) !! mkKey "default" c = Some "True").
  { induction order as [|d order IH]; [by apply elem_of_nil in Hc|]. cbn. destruct (decide (d = c)) as [->|]; [by rewrite lookup_insert_eq|].
    rewrite lookup_insert_ne by congruence. apply IH. by apply elem_of_cons in Hc as [|]. }
  exists "True", "True", [mkCapiCondition ReadyCondition "True"], (mkCapiCondition ReadyCondition "True").
  split_and!; [|done|done|by left|done..]. cbn. unfold edges, fl_clusters. by rewrite Hl.
Qed.

(** The certificate secret that Cluster API keeps beside the kubeconfig, listed first. *)
Definition ca (c : string) : Secret := mkSecret (meta "default" (c +:+ "-ca") None) capiSecretType {[ "value" := "certificate" ]}.
Definition with_ca (w : world) (order : list string) : world :=
  mkFleet ((ca <$> order) ++ fl_secrets w) (fl_clusters w) (fl_namespaces w) (fl_local w) (fl_remote w).

Lemma bootstrap_secret_delivers_witness :
  let w := with_ca (edges "edge1,edge2" ["edge2"; "edge1"]) ["edge1"; "edge2"] in
  bootstrapsecret_Reconcile clients req w = deliver clients (git "edge1,edge2") [("edge1", "edge1"); ("edge2", "edge2")] w ∧
  installed_after w ≡ₚ ["edge1"; "edge2"].
Proof.
  intros w. split; [|vm_compute; reflexivity].
  apply (bootstrap_secret_delivers clients req w (git "edge1,edge2") (fl_secrets w) ["edge1"; "edge2"]); [reflexivity..|].
  assert (∀ c, c ∈ ["edge2"; "edge1"] → own_cluster w (git "edge1,edge2") (fl_secrets w) c c) as Hown.
  { intros c Hc. exists (kubeconfig c). split_and!; try done.
    - apply elem_of_app. right. by apply list_elem_of_fmap_2.
    - by apply (edge_ready "edge1,edge2").
    - set_unfold in Hc; by destruct Hc as [->|[->|[]]].
    - set_unfold in Hc; by destruct Hc as [->|[->|[]]].
    - intros s' [(c' & -> & Hc')%list_elem_of_fmap|(c' & -> & Hc')%list_elem_of_fmap]%elem_of_app _ Hk Hsub;
        apply Contains_spec in Hsub, Hk; f_equal;
        set_unfold in Hc; set_unfold in Hc'; destruct Hc as [->|[->|[]]], Hc' as [->|[->|[]]]; by vm_compute in Hsub, Hk. }
  repeat constructor; apply Hown; set_solver.
Defined.

Lemma bootstrap_secret_wrong_cluster_witness :
  let w := edges "edge1" ["edge10"; "edge1"] in
  ∃ o, is_copy (git "edge1") "edge1" o ∧ installed_after w = ["edge10"] ∧
    bootstrapsecret_Reconcile clients req w =
      ('(_, err) ← @Apply _ world Secret _ (clients "edge10") o [];
       mret (done_result, Wrap err ("cannot apply secret to cluster " +:+ "edge1"))) w.
Proof.
  intros w.
  destruct (bootstrap_secret_wrong_cluster clients req w (git "edge1") "edge1" "edge10" (kubeconfig "edge10") [kubeconfig "edge1"] "edge10")
    as (o & Ho & Hr); try reflexivity; [done|exists "", "0"; reflexivity|apply edge_ready; by left|].
  exists o. split; [exact Ho|]. split; [vm_compute; reflexivity|exact Hr].
Defined.
End BootstrapSecretWitnesses.
