(* ===== verification/Spire.v ===== *)
(** * [controllers/pkg/reconcilers/spire-bootstrap]: SPIRE agents on the workload clusters

    For a Cluster API cluster the controller records a kubeconfig and the cluster's name in
    two config maps of the SPIRE server and installs the trust bundle and the agent's
    configuration on the cluster.  The API servers, the typed clients and the YAML printer
    are parameters; [remote h] is the client of the workload cluster [h]. *)
From S2P Require Import Prelude GoStrings Kube Cluster BootstrapSecret.

(** ** [kubeconfigTypes.go] *)
Record ClusterDetail := mkClusterDetail { CertificateAuthorityData : string; Server : string }.
Record Cluster := mkCluster { cl_Name : string; cl_Cluster : ClusterDetail }.
Record ContextDetails := mkContextDetails { cd_Cluster : string; cd_Namespace : string; cd_User : string }.
Record Context_ := mkContext { ctx_Name : string; ctx_Context : ContextDetails }.
Record UserDetail := mkUserDetail { Token : string }.
Record User := mkUser { user_Name : string; user_User : UserDetail }.
Record KubernetesConfig := mkKubernetesConfig {
  kc_APIVersion : string; kc_Kind : string; kc_Clusters : list Cluster; kc_Contexts : list Context_;
  kc_Users : list User; kc_CurrentContext : string
}.

(** [corev1.Service], the fields in use: IP and host name of the ingresses. *)
Record Service := mkService { svc_Ingress : list (string * string); svc_ExternalIPs : list string; svc_Ports : list Z }.

Class SpireAPI (W : Type) `{!ClusterAPI W} := {
  (** the management cluster: the name of a cluster, a service *)
  get_ClusterName : W → NamespacedName → result string;
  get_Service : W → NamespacedName → result Service;
  (** client-go's typed clients of a workload cluster: the data of a secret and of a config
      map, and the URL of the server *)
  Clientset : Type;
  NewForConfig : RestConfig → result Clientset;
  cs_GetSecret : W → Clientset → NamespacedName → result (gmap string string);
  cs_GetConfigMap : W → Clientset → NamespacedName → result (gmap string string);
  cs_URL : Clientset → string;
  (** [yaml.Marshal] *)
  KubernetesConfig_Marshal : KubernetesConfig → result string
}.

(** ** Texts *)
Definition nl : string := String newline "".
(** Lines, as a raw string literal has them. *)
Definition lines (l : list string) : string := String.concat nl l.

(** [base64.StdEncoding.EncodeToString] *)
Definition base64_char (n : nat) : ascii :=
  default "="%char (String.get n "ABCDEFGHIJKLMNOPQRSTUVWXYZabcdefghijklmnopqrstuvwxyz0123456789+/").
Definition base64_pad : string := "=".
Fixpoint base64_encode (s : string) : string :=
  match s with
  | EmptyString => ""
  | String a EmptyString =>
      let n := nat_of_ascii a in
      String (base64_char (n / 4)) (String (base64_char (n mod 4 * 16)) (base64_pad +:+ base64_pad))
  | String a (String b EmptyString) =>
      let n := nat_of_ascii a in let m := nat_of_ascii b in
      String (base64_char (n / 4)) (String (base64_char (n mod 4 * 16 + m / 16)) (String (base64_char (m mod 16 * 4)) base64_pad))
  | String a (String b (String c s)) =>
      let n := nat_of_ascii a in let m := nat_of_ascii b in let k := nat_of_ascii c in
      String (base64_char (n / 4)) (String (base64_char (n mod 4 * 16 + m / 16))
        (String (base64_char (m mod 16 * 4 + k / 64)) (String (base64_char (k mod 64)) (base64_encode s))))
  end.

(** ** [spiffeutils.go] *)
Definition agent_conf (cluster serverAddress serverPort : string) : string := lines
  [ ""; "agent {";
    "  data_dir = " +:+ in_quotes "/run/spire";
    "  log_level = " +:+ in_quotes "DEBUG";
    "  server_address = " +:+ in_quotes serverAddress;
    "  server_port = " +:+ in_quotes serverPort;
    "  socket_path = " +:+ in_quotes "/run/spire/sockets/spire-agent.sock";
    "  trust_bundle_path = " +:+ in_quotes "/run/spire/bundle/bundle.crt";
    "  trust_domain = " +:+ in_quotes "example.org";
    "}"; ""; "plugins {";
    "  NodeAttestor " +:+ in_quotes "k8s_psat" +:+ " {";
    "    plugin_data {";
    "      cluster = " +:+ in_quotes cluster;
    "    }"; "  }"; "";
    "  KeyManager " +:+ in_quotes "memory" +:+ " {";
    "    plugin_data {"; "    }"; "  }"; "";
    "  WorkloadAttestor " +:+ in_quotes "k8s" +:+ " {";
    "    plugin_data {";
    "      skip_kubelet_verification = true";
    "    }"; "  }"; "}"; "" ].
Definition createSpireAgentConfigMap (name namespace cluster serverAddress serverPort : string) : ConfigMap :=
  mkConfigMap (mkMeta (mkKey namespace name) "" "" "" None [] false)
    (Some {[ "agent.conf" := agent_conf cluster serverAddress serverPort ]}).

Definition getServiceExternalIP (service : Service) : string :=
  let external := match svc_ExternalIPs service with ip :: _ => ip | [] => "" end in
  match svc_Ingress service with
  | (IP, Hostname) :: _ =>
      if decide (IP ≠ "") then IP else if decide (Hostname ≠ "") then Hostname else external
  | [] => external
  end.

Definition spirekubeconfig : string := "spire-kubeconfig".
Definition spire_config (clustername caCert server token : string) : KubernetesConfig :=
  mkKubernetesConfig "v1" "Config"
    [mkCluster clustername (mkClusterDetail (TrimSpace (base64_encode caCert)) server)]
    [mkContext ("spire-kubeconfig@" +:+ clustername) (mkContextDetails clustername "spire" spirekubeconfig)]
    [mkUser spirekubeconfig (mkUserDetail token)]
    ("spire-kubeconfig@" +:+ clustername).

(** The text of [clusters.conf] after a cluster is added; nothing to do when it is there. *)
Definition newCluster (clusterName : string) : string := lines
  [ "      " +:+ in_quotes clusterName +:+ " = {";
    "        service_account_allow_list = [" +:+ in_quotes "spire:spire-agent" +:+ "]";
    "        kube_config_file = " +:+ in_quotes ("/run/spire/kubeconfigs/kubeconfig-" +:+ clusterName);
    "      }" ].
Definition brace : ascii := "}"%char.
Definition indent : string := "    ".
Definition update_conf (conf : option string) (clusterName : string) : result (option string) :=
  let clustersConf := default ("clusters = {" +:+ nl +:+ "}") conf in
  let clustersConf := TrimSpace (TrimPrefix clustersConf "|") in
  if Contains clustersConf (in_quotes clusterName) then Ok None
  else
    match cut_last brace clustersConf with
    | Some (before, rest) =>
        let clustersConf := before +:+ (newCluster clusterName +:+ nl) +:+ rest in
        Ok (Some ("|" +:+ nl +:+ indent +:+ ReplaceAll clustersConf newline (nl +:+ indent)))
    | None => Err "invalid clusters.conf format"
    end.

Section spire.
Context `{!ApiErrors} {W : Type} `{!ClusterAPI W, !SpireAPI W, !Client W ConfigMap} (remote : Remote → Client W ConfigMap).

Definition createKubeconfigConfigMap (w : W) (clientset : Clientset) (clustername : string) : result ConfigMap :=
  let wrap {A} (r : result A) (msg : string) : result A := match r with Ok x => Ok x | Err e => Err (errors_Wrap e msg) end in
  restrictedKC ← wrap (Get w (mkKey "spire" "kubeconfigs")) "failed to get existing ConfigMap";
  secret ← wrap (cs_GetSecret w clientset (mkKey "spire" "agent-sa-secret")) "failed to get Service Account token";
  configMap ← wrap (cs_GetConfigMap w clientset (mkKey "kube-system" "kube-root-ca.crt")) "failed to get cluster CA";
  let config := spire_config clustername (default "" (configMap !! "ca.crt")) (cs_URL clientset) (default "" (secret !! "token")) in
  yamlData ← wrap (KubernetesConfig_Marshal config) "failed to create kubeconfig CM";
  Ok (mkConfigMap (cm_Meta restrictedKC)
    (Some (<["kubeconfig-" +:+ clustername := yamlData]> (default ∅ (cm_Data restrictedKC))))).

Definition updateClusterListConfigMap (clusterName : string) : prog W (option error) :=
  w ← get_st;
  match Get w (mkKey "spire" "clusters") with
  | Err e => mret (Wrap (Some e) "failed to create kubeconfig CM")
  | Ok cm =>
      match update_conf (cm_Data cm ≫= lookup "clusters.conf") clusterName with
      | Err e => mret (Some e)
      | Ok None => mret None
      | Ok (Some formattedConf) =>
          '(_, err) ← call (λ w, Update w (mkConfigMap (cm_Meta cm) (Some {[ "clusters.conf" := formattedConf ]})));
          mret (Wrap err "error updating Cluster List ConfigMap")
      end
  end.

(** [newcr.ResourceVersion = ""], [.UID = ""], [.Namespace = ns] on a copy. *)
Definition detached (ns : string) (cm : ConfigMap) : ConfigMap := mkConfigMap (detach ns (cm_Meta cm)) (cm_Data cm).

(** The steps after the kubeconfig was recorded: the list, and the two config maps. *)
Definition install_agent (h : Remote) (clusterName : string) (bundle agent : ConfigMap) : prog W (option Return) :=
  err ← updateClusterListConfigMap clusterName;
  match err with
  | Some e => mret (Some (done_result, Wrap (Some e) "Cluster List could not be updated"))
  | None =>
      w ← get_st;
      let ns := key_Namespace (GetKey bundle) in
      match remote_GetNamespace w h ns with
      | Some e =>
          match IgnoreNotFound (Some e) with
          | Some _ => mret (Some (requeueAfter (30 * Second), Wrap (Some e) ("cannot get namespace: " +:+ ns)))
          | None => mret (Some (requeueAfter (10 * Second), None))
          end
      | None =>
          '(_, err) ← @Apply _ W ConfigMap _ (remote h) (detached ns bundle) [];
          match err with
          | Some e => mret (Some (done_result, Wrap (Some e) ("cannot apply spire-bundle configMap to cluster " +:+ clusterName)))
          | None =>
              '(_, err) ← @Apply _ W ConfigMap _ (remote h) (detached ns agent) [];
              match err with
              | Some e => mret (Some (done_result, Wrap (Some e) ("cannot apply spire-agent configMap to cluster " +:+ clusterName)))
              | None => mret None
              end
          end
      end
  end.

(** The body of the loop for a secret that was accepted. *)
Definition bootstrap_with (secret : Secret) (c : Capi) (clusterName : string) (bundle agent : ConfigMap) : prog W (option Return) :=
  w ← get_st;
  cl ← lift (Capi_GetClusterClient w c);
  match cl with
  | Err e => mret (Some (requeueAfter (30 * Second), Wrap (Some e) "cannot get clusterClient"))
  | Ok None => mret (Some (requeueAfter (10 * Second), None))
  | Ok (Some h) =>
      match RESTConfigFromKubeConfig (default "" (sec_Data secret !! "value")) with
      | Err e => mret (Some (done_result, Wrap (Some e) "failed to get kubeconfig"))
      | Ok config =>
          match NewForConfig config with
          | Err e => mret (Some (done_result, Wrap (Some e) "failed to create rest config"))
          | Ok clientset =>
              match createKubeconfigConfigMap w clientset clusterName with
              | Err e => mret (Some (done_result, Wrap (Some e) "Error creating Kubeconfig configmap"))
              | Ok kubeconfigCM =>
                  '(_, err) ← call (λ w, Update w kubeconfigCM);
                  match err with
                  | Some e => mret (Some (done_result, Wrap (Some e) "failed to Update Kubeconfig list configmap"))
                  | None => install_agent h clusterName bundle agent
                  end
              end
          end
      end
  end.

Fixpoint spire_loop (clusterName : string) (bundle agent : ConfigMap) (secrets : list Secret) : prog W Return :=
  match secrets with
  | [] => mret (done_result, None)
  | secret :: secrets =>
      if Contains (sec_Name secret) clusterName then
        match Cluster_GetClusterClient secret with
        | Some c =>
            r ← bootstrap_with secret c clusterName bundle agent;
            match r with Some r => mret r | None => spire_loop clusterName bundle agent secrets end
        | None => spire_loop clusterName bundle agent secrets
        end
      else spire_loop clusterName bundle agent secrets
  end.

Definition spire_Reconcile (req : NamespacedName) : prog W Return :=
  w ← get_st;
  match get_ClusterName w req with
  | Err e => mret (done_result, IgnoreNotFound (Some e))
  | Ok name =>
      match Get w (mkKey "spire" "spire-bundle") with
      | Err e => mret (done_result, Some e)
      | Ok configMap =>
          match list_Secrets w with
          | Err e => mret (done_result, Wrap (Some e) "cannot list secrets")
          | Ok secrets =>
              match get_Service w (mkKey "spire" "spire-server") with
              | Err e => mret (done_result, Wrap (Some e) "failed to get spire-server service")
              | Ok spireService =>
                  let port := match svc_Ports spireService with p :: _ => pretty p | [] => "" end in
                  let agent := createSpireAgentConfigMap "spire-agent" "spire" name (getServiceExternalIP spireService) port in
                  spire_loop name configMap agent secrets
              end
          end
      end
  end.
End spire.

(** ** The list of clusters *)

(** Names of clusters are those of Kubernetes objects: lower case letters, digits, dots and
    hyphens. *)
Definition dns_char (a : ascii) : bool :=
  let n := nat_of_ascii a in
  bool_decide (97 ≤ n ≤ 122)%nat || bool_decide (48 ≤ n ≤ 57)%nat || bool_decide (a = "."%char) || bool_decide (a = "-"%char).
Definition dns_name (n : string) : Prop := n ≠ "" ∧ ∀ a, has_char a n = true → dns_char a = true.
Lemma dns_no_char n a : dns_name n → dns_char a = false → has_char a n = false.
Proof. intros [_ Hn] Ha. destruct (has_char a n) eqn:Hc; [|done]. apply Hn in Hc. congruence. Qed.

(** The lines of [clusters.conf]: four for every cluster. *)
Definition entry (n : string) : list string :=
  [ in_quotes n +:+ " = {";
    "service_account_allow_list = [" +:+ in_quotes "spire:spire-agent" +:+ "]";
    "kube_config_file = " +:+ in_quotes ("/run/spire/kubeconfigs/kubeconfig-" +:+ n);
    "}" ].
Definition entries (ns : list string) : list string := ns ≫= entry.
Definition list_lines (ns : list string) : list string := ("clusters = {" :: entries ns) ++ ["}"].

(** A text that consists of these lines, each with some indentation. *)
Fixpoint spaces (k : nat) : string := match k with 0%nat => "" | S k => String " "%char (spaces k) end.
Inductive laid_out : list string → string → Prop :=
  | laid_last k l : laid_out [l] (spaces k +:+ l)
  | laid_line k l ls t : laid_out ls t → laid_out (l :: ls) (spaces k +:+ (l +:+ String newline t)).

(** The text in the config map lists the clusters [ns], in this order; [|] and white space
    around it do not matter. *)
Definition trimmed (t : string) : string := TrimSpace (TrimPrefix t "|").
Definition renders (conf : option string) (ns : list string) : Prop :=
  match conf with
  | None => ns = []
  | Some t => laid_out (list_lines ns) (trimmed t)
  end.

Lemma spaces_add k k' : spaces k +:+ spaces k' = spaces (k + k').
Proof. induction k as [|k IH]; [done|]. cbn. by rewrite <- IH. Qed.
Lemma spaces_no_char k a : a ≠ " "%char → has_char a (spaces k) = false.
Proof. intros Ha. induction k as [|k IH]; [done|]. cbn. by rewrite decide_False. Qed.
Lemma laid_indent k ls t : laid_out ls t → laid_out ls (spaces k +:+ t).
Proof. intros [k' l|k' l ls' t' Hl]; rewrite string_app_assoc, spaces_add; by constructor. Qed.
Lemma laid_replace ls t :
  Forall (λ l, has_char newline l = false) ls → laid_out ls t → laid_out ls (ReplaceAll t newline (nl +:+ indent)).
Proof.
  intros Hls Hl. revert Hls. induction Hl as [k l|k l ls t Hl IH]; intros [Hn Hls]%Forall_cons.
  - rewrite ReplaceAll_absent; [constructor|]. by rewrite has_char_app, Hn, spaces_no_char.
  - rewrite !ReplaceAll_app, !ReplaceAll_absent by (done || by apply spaces_no_char). cbn -[indent spaces].
    rewrite decide_True by done. constructor. by apply (laid_indent 4), IH.
Qed.
(** The lines before the last one can be continued in another way. *)
Lemma laid_split ls l t :
  laid_out (ls ++ [l]) t →
  ∃ pre k, t = pre +:+ (spaces k +:+ l) ∧ ∀ ls' t', laid_out ls' t' → laid_out (ls ++ ls') (pre +:+ t').
Proof.
  revert t. induction ls as [|l0 ls IH]; intros t Hl.
  - inversion Hl as [k l'|k l' ls' t' Hl']; subst; [|inversion Hl']. exists "", k. done.
  - inversion Hl as [k l'|k l' ls' t' Hl']; subst; [by destruct ls|]. destruct (IH _ Hl') as (pre & k' & -> & Hc).
    exists (spaces k +:+ (l0 +:+ String newline pre)), k'. split; [by rewrite <- !string_app_assoc, string_app_cons|].
    intros ls' t'' Ht. rewrite <- !string_app_assoc, string_app_cons. constructor. by apply Hc.
Qed.
(** What has no line break is found in one of the lines. *)
Lemma laid_substring sub ls t :
  has_char newline sub = false → laid_out ls t → substring_of sub t → ∃ k l, l ∈ ls ∧ substring_of sub (spaces k +:+ l).
Proof.
  intros Hs. induction 1 as [k l|k l ls t _ IH]; intros Hsub; [exists k, l; split; [by left|done]|].
  rewrite string_app_assoc in Hsub. apply (substring_sep _ _ _ _ Hs) in Hsub as [Hsub|Hsub].
  - exists k, l. split; [by left|done].
  - destruct (IH Hsub) as (k' & l' & ? & ?). exists k', l'. split; [by right|done].
Qed.
Lemma laid_line_in ls t l : l ∈ ls → laid_out ls t → substring_of l t.
Proof.
  intros Hin Hl. induction Hl as [k l'|k l' ls t _ IH].
  - apply list_elem_of_singleton in Hin as ->. apply substring_app_l.
  - apply elem_of_cons in Hin as [->|Hin]; [apply substring_mid|]. destruct (IH Hin) as (x & y & ->).
    exists (spaces k +:+ (l' +:+ String newline x)), y. by rewrite <- !string_app_assoc, string_app_cons.
Qed.

(** A quoted name is one of the parts between the quotes. *)
Lemma quoted_part n t : has_char dquote n = false → substring_of (in_quotes n) t → n ∈ split_on dquote t.
Proof.
  intros Hn (x & y & ->). unfold in_quotes. rewrite string_app_cons, <- (string_app_assoc n), string_app_cons, split_on_app_sep.
  apply elem_of_app. right. rewrite split_on_sep by done. by left.
Qed.
(** The names that are quoted in the lines are those of the clusters. *)
Lemma quoted_line k u m v n :
  has_char dquote u = false → has_char dquote m = false → has_char dquote v = false → has_char dquote n = false →
  substring_of (in_quotes n) (spaces k +:+ (u +:+ (in_quotes m +:+ v))) → n = spaces k +:+ u ∨ n = m ∨ n = v.
Proof.
  intros Hu Hm Hv Hn Hsub. apply (quoted_part _ _ Hn) in Hsub. revert Hsub. unfold in_quotes.
  rewrite string_app_cons, <- (string_app_assoc m), string_app_cons, (string_app_assoc (spaces k)).
  rewrite !split_on_sep, split_on_no_sep by (rewrite ?has_char_app, ?Hu, ?spaces_no_char; done).
  rewrite !elem_of_cons. intros [?|[?|[?|?%elem_of_nil]]]; auto; done.
Qed.
Lemma dns_differs n a u v : dns_name n → dns_char a = false → has_char a v = true → n ≠ u +:+ v.
Proof. intros Hn Ha Hv ->. apply (dns_no_char _ _ Hn) in Ha. by rewrite has_char_app, Hv, orb_true_r in Ha. Qed.
Lemma line_quotes k l n ns :
  dns_name n → l ∈ list_lines ns → Forall dns_name ns → substring_of (in_quotes n) (spaces k +:+ l) → n ∈ ns.
Proof.
  intros Hn Hl Hns Hsub. assert (Hq : has_char dquote n = false) by (by apply dns_no_char).
  assert (Hplain : has_char dquote l = false → n ∈ ns).
  { intros Hlq. exfalso. assert (Hd : has_char dquote (spaces k +:+ l) = true); [|by rewrite has_char_app, Hlq, spaces_no_char in Hd].
    destruct Hsub as (x & y & ->). rewrite has_char_app. unfold in_quotes. apply orb_true_r. }
  unfold list_lines in Hl. apply elem_of_app in Hl as [[->|Hl]%elem_of_cons|Hl%list_elem_of_singleton]; [by apply Hplain| |subst l; by apply Hplain].
  apply list_elem_of_bind in Hl as (m & Hl & Hm). rewrite Forall_forall in Hns.
  assert (Hqm : has_char dquote m = false) by (apply dns_no_char; auto).
  unfold entry in Hl. rewrite !elem_of_cons in Hl. destruct Hl as [Hl|[Hl|[Hl|[Hl|Hl%elem_of_nil]]]]; [..|done]; subst l.
  - apply (quoted_line k "" m " = {") in Hsub as [Heq|[->|Heq]]; [|done|by apply (dns_differs n "="%char "") in Heq|done..].
    exfalso. rewrite string_app_nil_r in Heq. destruct k; [by destruct Hn as [Hne _]|by apply (dns_differs n " "%char "") in Heq].
  - by apply quoted_line in Hsub as [Heq|[Heq|Heq]]; [apply (dns_differs n "["%char) in Heq|apply (dns_differs n ":"%char "") in Heq|
      apply (dns_differs n "]"%char "") in Heq|..].
  - rewrite <- (string_app_nil_r (in_quotes (_ +:+ m))) in Hsub. apply quoted_line in Hsub as [Heq|[Heq|Heq]];
      [by apply (dns_differs n "="%char) in Heq|by apply (dns_differs n "/"%char "") in Heq|by destruct Hn|done|exact Hqm|done..].
  - by apply Hplain.
Qed.
Lemma conf_contains ns t n :
  Forall dns_name ns → dns_name n → laid_out (list_lines ns) t → Contains t (in_quotes n) = true ↔ n ∈ ns.
Proof.
  intros Hns Hn Hl. rewrite Contains_spec. split.
  - intros Hsub. apply (laid_substring _ (list_lines ns)) in Hsub as (k & l & Hin & Hsub); [by eapply line_quotes| |done].
    rewrite has_char_in_quotes by done. by apply dns_no_char.
  - intros Hin. etrans; [|apply (laid_line_in (list_lines ns) t (in_quotes n +:+ " = {")); [|done]]; [apply substring_app_r|].
    unfold list_lines. apply elem_of_app. left. right. apply list_elem_of_bind. exists n. split; [by left|done].
Qed.
Lemma conf_no_newline ns : Forall dns_name ns → Forall (λ l, has_char newline l = false) (list_lines ns).
Proof.
  intros Hns. unfold list_lines. apply Forall_app. split; [|by repeat constructor]. constructor; [done|].
  apply Forall_forall. intros l (n & Hl & Hn)%list_elem_of_bind. rewrite Forall_forall in Hns.
  assert (has_char newline n = false) as Hnl by (apply dns_no_char; auto).
  unfold entry in Hl. rewrite !elem_of_cons in Hl. destruct Hl as [->|[->|[->|[->|Hl%elem_of_nil]]]]; [..|done];
    unfold in_quotes; rewrite ?has_char_app; cbn; rewrite ?has_char_app, ?Hnl; done.
Qed.

Lemma newCluster_laid n : laid_out (entry n ++ ["}"]) ((newCluster n +:+ nl) +:+ String brace "").
Proof.
  assert ((newCluster n +:+ nl) +:+ String brace "" =
    spaces 6 +:+ ((in_quotes n +:+ " = {") +:+ String newline (
    spaces 8 +:+ (("service_account_allow_list = [" +:+ in_quotes "spire:spire-agent" +:+ "]") +:+ String newline (
    spaces 8 +:+ (("kube_config_file = " +:+ in_quotes ("/run/spire/kubeconfigs/kubeconfig-" +:+ n)) +:+ String newline (
    spaces 6 +:+ ("}" +:+ String newline (spaces 0 +:+ "}"))))))))) as ->; [|repeat constructor].
  unfold newCluster, lines. cbn [String.concat]. rewrite <- !string_app_assoc. reflexivity.
Qed.
(** Adding a cluster inserts its four lines before the last one. *)
Lemma insert_entry ns n t :
  laid_out (list_lines ns) t →
  ∃ x, cut_last brace t = Some (x, String brace "") ∧
    laid_out (list_lines (ns ++ [n])) (x +:+ (newCluster n +:+ nl) +:+ String brace "").
Proof.
  intros (pre & k & -> & Hcont)%laid_split. exists (pre +:+ spaces k). split.
  - rewrite string_app_assoc. apply cut_last_end.
  - assert (list_lines (ns ++ [n]) = ("clusters = {" :: entries ns) ++ (entry n ++ ["}"])) as ->.
    { unfold list_lines, entries. rewrite bind_app, app_comm_cons, <- app_assoc. done. }
    rewrite <- (string_app_assoc pre). apply Hcont, laid_indent, newCluster_laid.
Qed.
(** What is stored is read back. *)
Lemma trimmed_stored ns t :
  laid_out (list_lines ns) t → laid_out (list_lines ns) (trimmed ("|" +:+ (nl +:+ (indent +:+ t)))).
Proof.
  intros Hl. inversion Hl as [k l Hls|k l ls t' Hl' Hls Ht]; [by destruct ns|]. subst l ls.
  destruct (laid_split _ _ _ Hl') as (pre & k' & Heq & _).
  assert (Htl : trim_left (nl +:+ (indent +:+ t)) = "clusters = {" +:+ String newline t').
  { rewrite <- Ht. clear. cbn -[spaces]. induction k as [|k IH]; [done|exact IH]. }
  rewrite Ht. assert (trimmed ("|" +:+ (nl +:+ (indent +:+ t))) = "clusters = {" +:+ String newline t') as ->; [|exact (laid_line 0 "clusters = {" _ _ Hl')].
  change (trim_right (trim_left (nl +:+ (indent +:+ t))) = "clusters = {" +:+ String newline t'). rewrite Htl, Heq.
  rewrite <- string_app_cons, !string_app_assoc. by apply trim_right_end.
Qed.

(** What [updateClusterListConfigMap] makes of the text. *)
Lemma update_conf_spec conf ns n :
  renders conf ns → Forall dns_name ns → dns_name n →
  if decide (n ∈ ns) then update_conf conf n = Ok None
  else ∃ t, update_conf conf n = Ok (Some t) ∧ renders (Some t) (ns ++ [n]).
Proof.
  intros Hr Hns Hn. unfold update_conf. set (t0 := default _ conf). fold (trimmed t0).
  assert (Hl : laid_out (list_lines ns) (trimmed t0)).
  { destruct conf as [t|]; [exact Hr|]. cbn in Hr. subst ns. apply (laid_line 0 "clusters = {"), (laid_last 0). }
  pose proof (conf_contains ns (trimmed t0) n Hns Hn Hl) as Hc. case_decide as Hin; [by rewrite (proj2 Hc Hin)|].
  destruct (Contains _ _); [by destruct Hin; apply Hc|].
  destruct (insert_entry ns n _ Hl) as (x & -> & Hins). eexists. split; [done|].
  apply trimmed_stored, laid_replace; [|done]. apply conf_no_newline, Forall_app. split; [done|by constructor].
Qed.

(** Updates of a config map are stored. *)
Class ConfigMapStore (W : Type) `{!Client W ConfigMap} : Prop := {
  cm_Get_key w k (o : ConfigMap) : Get w k = Ok o → GetKey o = k;
  cm_Update_stored w (o : ConfigMap) w' o' : Update w o = (w', (o', None)) → ∃ o2, Get w' (GetKey o) = Ok o2 ∧ cm_Data o2 = cm_Data o
}.

Section list.
Context `{!ApiErrors} {W : Type} `{!ClusterAPI W, !SpireAPI W, !Client W ConfigMap, !ConfigMapStore W}.
Definition clusters_key : NamespacedName := mkKey "spire" "clusters".
(** The config map exists and lists these clusters. *)
Definition listed (w : W) (ns : list string) : Prop :=
  ∃ cm, Get w clusters_key = Ok cm ∧ renders (cm_Data cm ≫= lookup "clusters.conf") ns.
(** The list with the names that are not in it yet, in the order in which they come. *)
Definition add_all (ns names : list string) : list string :=
  foldl (λ ns n, if decide (n ∈ ns) then ns else ns ++ [n]) ns names.

Lemma update_list_step n w cm ns :
  Get w clusters_key = Ok cm → renders (cm_Data cm ≫= lookup "clusters.conf") ns → Forall dns_name ns → dns_name n →
  if decide (n ∈ ns) then updateClusterListConfigMap n w = Done (w, None)
  else ∃ t, renders (Some t) (ns ++ [n]) ∧
    updateClusterListConfigMap n w =
      (let '(w', (_, err)) := Update w (mkConfigMap (cm_Meta cm) (Some {[ "clusters.conf" := t ]})) in
       Done (w', Wrap err "error updating Cluster List ConfigMap")).
Proof.
  intros Hg Hr Hns Hn. pose proof (update_conf_spec _ ns n Hr Hns Hn) as Hu.
  case_decide; [|destruct Hu as (t & Hu & Ht); exists t; split; [done|]];
    unfold updateClusterListConfigMap, mbind at 1, prog_bind at 1, get_st; fold clusters_key; rewrite Hg, Hu; [done|].
  unfold mbind, prog_bind, call. by destruct (Update w _) as [w' [o' err]].
Qed.
Lemma update_list_stored n w ns :
  (∀ w (o : ConfigMap), (Update w o).2.2 = None) → listed w ns → Forall dns_name ns → dns_name n →
  ∃ w', updateClusterListConfigMap n w = Done (w', None) ∧ listed w' (if decide (n ∈ ns) then ns else ns ++ [n]).
Proof.
  intros answers (cm & Hg & Hr) Hns Hn. pose proof (update_list_step n w cm ns Hg Hr Hns Hn) as Hu.
  case_decide; [exists w; split; [done|by exists cm]|]. destruct Hu as (t & Ht & ->).
  specialize (answers w (mkConfigMap (cm_Meta cm) (Some {[ "clusters.conf" := t ]}))).
  destruct (Update w _) as [w' [o' err]] eqn:Hw. cbn in answers. subst err. exists w'. split; [done|].
  pose proof (cm_Get_key _ _ _ Hg) as Hk. apply cm_Update_stored in Hw as (o2 & Hg2 & Hd2). cbn in Hg2, Hk. rewrite Hk in Hg2.
  exists o2. split; [done|]. rewrite Hd2. cbn -[renders]. by rewrite lookup_singleton_eq.
Qed.

(** C30: The list of clusters, when [clusters.conf] is missing or lists the clusters [ns] (a line that opens the list, for each cluster its quoted name with a brace, the service account, the path of its own kubeconfig and the closing brace, each on a line with any indentation, and the closing line; all names are those of Kubernetes objects).  Adding a cluster that is in the list succeeds without a write; adding any other one writes the config map once, with a text that lists the same clusters and the new one behind them, each with its own lines, and reports the error of that write.  So on a server that carries out every update, adding any sequence of clusters succeeds and leaves the list with the new ones behind the old ones, in their order and none twice. *)
Theorem spire_list_updates w cm ns :
  Get w clusters_key = Ok cm → renders (cm_Data cm ≫= lookup "clusters.conf") ns → Forall dns_name ns →
  (∀ n, dns_name n →
     if decide (n ∈ ns) then updateClusterListConfigMap n w = Done (w, None)
     else ∃ t, renders (Some t) (ns ++ [n]) ∧
       updateClusterListConfigMap n w =
         (let '(w', (_, err)) := Update w (mkConfigMap (cm_Meta cm) (Some {[ "clusters.conf" := t ]})) in
          Done (w', Wrap err "error updating Cluster List ConfigMap"))) ∧
  ((∀ w (o : ConfigMap), (Update w o).2.2 = None) → ∀ names, Forall dns_name names →
     ∃ w', for_each_err updateClusterListConfigMap names w = Done (w', None) ∧ listed w' (add_all ns names)).
Proof.
  intros Hg Hr Hns. split; [intros n; by apply update_list_step|]. intros answers names Hnames.
  assert (Hl : listed w ns) by (by exists cm). clear Hg Hr cm. revert w ns Hns Hl.
  induction Hnames as [|n names Hn Hall IH]; intros w ns Hns Hl; [by exists w|].
  destruct (update_list_stored n w ns answers Hl Hns Hn) as (w1 & Hu & Hl1).
  edestruct (λ H1, IH w1 _ H1 Hl1) as (w2 & Hrun & Hl2).
  - case_decide; [done|]. apply Forall_app. split; [done|by constructor].
  - exists w2. split; [|done]. cbn. unfold mbind, prog_bind. by rewrite Hu.
Qed.
End list.

(** ** An example *)
Module SpireWitnesses.
Import FleetModel.
Abbreviation world := (fleet ConfigMap).
#[export] Existing Instance fleet_local.
Definition clients : @Remote world _ → Client world ConfigMap := fleet_remote (T := ConfigMap).
(** A printed kubeconfig is its server and its token. *)
#[export] Instance spire_api : SpireAPI world := {|
  get_ClusterName w k := match fl_clusters w !! k with Some _ => Ok (key_Name k) | None => Err "not found" end;
  get_Service _ _ := Ok (mkService [("10.0.0.1", "")] [] [8081%Z]);
  Clientset := string; NewForConfig s := Ok s;
  cs_GetSecret _ c _ := Ok {[ "token" := "token of " +:+ c ]}; cs_GetConfigMap _ c _ := Ok {[ "ca.crt" := c ]};
  cs_URL c := c;
  KubernetesConfig_Marshal k :=
    Ok (String.concat " " ((Server ∘ cl_Cluster <$> kc_Clusters k) ++ (Token ∘ user_User <$> kc_Users k))) |}.
#[export] Instance store : ConfigMapStore world.
Proof.
  constructor; cbn; intros w.
  - intros k o. destruct (fl_local w !! k) as [o'|]; [|done]. case_decide; [|done]. by intros [= <-].
  - intros o w' o' [= <- _]. exists o. cbn. by rewrite lookup_insert_eq, decide_True.
Qed.

Definition cm (name : string) (data : option (gmap string string)) : ConfigMap := mkConfigMap (meta "spire" name None) data.
Definition local (l : list ConfigMap) : gmap NamespacedName ConfigMap := list_to_map ((λ c, (GetKey c, c)) <$> l).
Definition edges (order : list string) : world := mkFleet (kubeconfig <$> order)
  (list_to_map ((λ c, (mkKey "default" c, "True")) <$> order)) ((λ c, (c, "spire")) <$> order)
  (local [cm "spire-bundle" (Some {[ "bundle.crt" := "crt" ]}); cm "kubeconfigs" None; cm "clusters" None]) ∅.

(** The name is written in the characters that names of Kubernetes objects have. *)
Fixpoint dns_chars (n : string) : bool := match n with "" => true | String a n => dns_char a && dns_chars n end.
Lemma dns_chars_name n : n ≠ "" → dns_chars n = true → dns_name n.
Proof.
  intros Hn Hc. split; [done|]. clear Hn. induction n as [|b n IH]; intros a; [done|]. cbn in *. apply andb_true_iff in Hc as [Hb Hc].
  case_decide; [subst; done|by apply IH].
Qed.
(** A list as it is installed, with one cluster; another one is added twice. *)
Definition installed_conf : string := lines ["|"; "  clusters = {"; "    " +:+ in_quotes "mgmt" +:+ " = {";
  "      service_account_allow_list = [" +:+ in_quotes "spire:spire-agent" +:+ "]";
  "      kube_config_file = " +:+ in_quotes "/run/spire/kubeconfigs/kubeconfig-mgmt"; "    }"; "  }"; ""].
Definition listing : ConfigMap := cm "clusters" (Some {[ "clusters.conf" := installed_conf ]}).
Definition with_list (w : world) : world :=
  mkFleet (fl_secrets w) (fl_clusters w) (fl_namespaces w) (<[ clusters_key := listing ]> (fl_local w)) (fl_remote w).
Lemma installed_renders : renders (Some installed_conf) ["mgmt"].
Proof.
  unfold renders.
  assert (trimmed installed_conf =
    spaces 0 +:+ ("clusters = {" +:+ String newline (
    spaces 4 +:+ ((in_quotes "mgmt" +:+ " = {") +:+ String newline (
    spaces 6 +:+ (("service_account_allow_list = [" +:+ in_quotes "spire:spire-agent" +:+ "]") +:+ String newline (
    spaces 6 +:+ (("kube_config_file = " +:+ in_quotes ("/run/spire/kubeconfigs/kubeconfig-" +:+ "mgmt")) +:+ String newline (
    spaces 4 +:+ ("}" +:+ String newline (spaces 2 +:+ "}"))))))))))) as ->; [vm_compute; reflexivity|repeat constructor].
Qed.

Lemma spire_list_updates_witness :
  ∃ w', for_each_err updateClusterListConfigMap ["edge1"; "edge10"; "edge1"] (with_list (edges ["edge1"])) = Done (w', None) ∧
    listed w' ["mgmt"; "edge1"; "edge10"].
Proof.
  apply (spire_list_updates (with_list (edges ["edge1"])) listing ["mgmt"]).
  - vm_compute. reflexivity.
  - exact installed_renders.
  - repeat constructor; by apply dns_chars_name.
  - reflexivity.
  - repeat constructor; by apply dns_chars_name.
Defined.

Definition data_at (k : string) (c : ConfigMap) : option string := cm_Data c ≫= lookup k.
(** What the SPIRE server has as the kubeconfig of a cluster, and what the clusters have as
    the configuration of their agents. *)
Definition recorded (w : world) (c : string) : option string :=
  fl_local w !! mkKey "spire" "kubeconfigs" ≫= data_at ("kubeconfig-" +:+ c).
Definition agent_of (w : world) (h : string) : option string :=
  fl_remote w !! (h, mkKey "spire" "spire-agent") ≫= data_at "agent.conf".

(** A run for the cluster [edge1] next to a cluster [edge10], both ready: it succeeds, records the credentials of [edge10] as the kubeconfig of [edge1], and configures the agents of both clusters as agents of [edge1]. *)
Theorem spire_mixes_clusters :
  ∃ w', spire_Reconcile clients (mkKey "default" "edge1") (edges ["edge1"; "edge10"]) = Done (w', (done_result, None)) ∧
    recorded w' "edge1" = Some "edge10 token of edge10" ∧ recorded w' "edge10" = None ∧
    agent_of w' "edge1" = Some (agent_conf "edge1" "10.0.0.1" "8081") ∧
    agent_of w' "edge10" = Some (agent_conf "edge1" "10.0.0.1" "8081").
Proof.
  exists (match spire_Reconcile clients (mkKey "default" "edge1") (edges ["edge1"; "edge10"]) with Done (w, _) => w | Panic _ => edges [] end).
  split_and!; vm_compute; reflexivity.
Qed.
End SpireWitnesses.
