(* ===== verification/NetworkCtrl.v ===== *)
(** * [controllers/pkg/reconcilers/network]: networks and their device configurations

    For a [Network] the controller runs the network computation (a library outside the
    repository) twice, first to apply the initial resources and then to collect all of
    them, adds a configuration for every device and applies everything.  The library, the
    resource types and the API server are parameters.  Endpoints and nodes of the topology
    trigger runs through two event handlers. *)
From S2P Require Import Prelude Inventory Kube.

Definition net_finalizer : string := "infra.nephio.org/finalizer".
Definition nokiaSRLProvider : string := "srl.nokia.com".
Definition errGetCr : string := "cannot get cr".
Definition net_errUpdateStatus : string := "cannot update status".

(** [metav1.ObjectMeta] of a generated configuration. *)
Record ConfigMeta := mkConfigMeta {
  cfg_Name : string; cfg_Namespace : string; cfg_Labels : gmap string string;
  (** API version, kind, name and UID of the controlling owner *)
  cfg_Owner : string * string * string * string
}.

Class NetworkAPI (W : Type) := {
  Network : Type;
  net_Object :: Object Network;
  net_Client :: Client W Network;
  net_SetFailed : string → Network → Network;
  net_SetReady : Network → Network;
  net_Topology : Network → string;
  (** API version, kind and UID *)
  net_APIVersion : Network → string; net_Kind : Network → string; net_UID : Network → string;
  GetOwnerLabelsFromCR : Network → gmap string string;
  (** the inventory, listed by labels *)
  Endpoints : Type;
  Nodes : Type;
  list_Endpoints : W → gmap string string → result Endpoints;
  list_Nodes : W → gmap string string → result Nodes;
  NephioProviderKey : string;
  NephioTopologyKey : string;
  NephioNodeNameKey : string;
  (** [configv1alpha1.Network] *)
  NetworkConfig : Type;
  BuildNetworkConfig : ConfigMeta → string → NetworkConfig;
  nc_Name : NetworkConfig → string;
  LastAppliedConfig : Type;
  nc_LastApplied : NetworkConfig → LastAppliedConfig;
  nc_SetLastApplied : LastAppliedConfig → NetworkConfig → NetworkConfig;
  list_NetworkConfigs : W → gmap string string → string → result (list NetworkConfig);
  (** the resources of a run *)
  Resources : Type;
  resources_New : Network → gmap string string → Resources;
  AddNewResource : NetworkConfig → Resources → Resources;
  APIApply : Resources → W → W * (Resources * option error);
  (** [network.New] and [Run]: with [Apply] or without; the devices by node *)
  Device : Type;
  network_Run : bool → Endpoints → Nodes → Resources → Network → W → W * (Resources * Network * gmap string Device * option error);
  EmitJSON : Device → result string
}.

Section network.
Context `{!ApiErrors, !GoRange, !GoRangeLaws} {W : Type} `{!NetworkAPI W}.

Definition getMatchingNodeLabels (cr : Network) (nodeName : string) : gmap string string :=
  <[NephioNodeNameKey := nodeName]> (GetOwnerLabelsFromCR cr).

Definition provider_labels (topology : string) : gmap string string :=
  <[NephioTopologyKey := topology]> {[ NephioProviderKey := nokiaSRLProvider ]}.
Definition getProviderEndpoints (w : W) (topology : string) : result Endpoints :=
  list_Endpoints w (provider_labels topology).
Definition getProviderNodes (w : W) (topology : string) : result Nodes :=
  list_Nodes w (provider_labels topology).

Definition applyInitialresources (cr : Network) (eps : Endpoints) (nodes : Nodes) (resources : Resources)
    : prog W (Network * Resources * option error) :=
  '(resources, cr, _, err) ← call (network_Run true eps nodes resources cr);
  match err with
  | Some e => mret (cr, resources, Some e)
  | None =>
      '(resources, err) ← call (APIApply resources);
      mret (cr, resources, err)
  end.

(** The configuration of one device. *)
Definition configName (cr : Network) (nodeName : string) : string := key_Name (GetKey cr) +:+ "-" +:+ nodeName.
Definition deviceConfig (cr : Network) (networkConfigs : gmap string NetworkConfig) (nodeName j : string) : NetworkConfig :=
  let o := BuildNetworkConfig
    (mkConfigMeta (configName cr nodeName) (key_Namespace (GetKey cr)) (getMatchingNodeLabels cr nodeName)
       (net_APIVersion cr, net_Kind cr, key_Name (GetKey cr), net_UID cr)) j in
  match networkConfigs !! configName cr nodeName with
  | Some existing => nc_SetLastApplied (nc_LastApplied existing) o
  | None => o
  end.
Fixpoint addDevices (cr : Network) (networkConfigs : gmap string NetworkConfig) (devices : list (string * Device)) (resources : Resources)
    : Resources * option error :=
  match devices with
  | [] => (resources, None)
  | (nodeName, device) :: devices =>
      match EmitJSON device with
      | Err e => (resources, Some e)
      | Ok j => addDevices cr networkConfigs devices (AddNewResource (deviceConfig cr networkConfigs nodeName j) resources)
      end
  end.
Definition byName (ncs : list NetworkConfig) : gmap string NetworkConfig :=
  foldl (λ m nc, <[nc_Name nc := nc]> m) ∅ ncs.

Definition getNewResources (cr : Network) (eps : Endpoints) (nodes : Nodes) (resources : Resources)
    : prog W (Network * Resources * option error) :=
  '(resources, cr, devices, err) ← call (network_Run false eps nodes resources cr);
  match err with
  | Some e => mret (cr, resources, Some e)
  | None =>
      w ← get_st;
      match list_NetworkConfigs w (GetOwnerLabelsFromCR cr) (key_Namespace (GetKey cr)) with
      | Err e => mret (cr, resources, Some e)
      | Ok ncs =>
          let '(resources, err) := addDevices cr (byName ncs) (range (at_ "devices") devices) resources in
          mret (cr, resources, err)
      end
  end.

(** [r.Status().Update] with the result that goes with it. *)
Definition net_status (res : Result) (cr : Network) : prog W (Result * option error) :=
  '(_, err) ← call (λ w, StatusUpdate w cr);
  mret (res, Wrap err net_errUpdateStatus).
Definition net_failed (e : error) (cr : Network) : prog W (Result * option error) :=
  net_status requeue (net_SetFailed e cr).

(** The steps after the finalizer was added. *)
Definition net_process (cr : Network) : prog W (Result * option error) :=
  w ← get_st;
  match getProviderEndpoints w (net_Topology cr) with
  | Err e => net_failed e cr
  | Ok eps =>
      match getProviderNodes w (net_Topology cr) with
      | Err e => net_failed e cr
      | Ok nodes =>
          let resources := resources_New cr (GetOwnerLabelsFromCR cr) in
          '(cr, resources, err) ← applyInitialresources cr eps nodes resources;
          match err with
          | Some e => net_failed e cr
          | None =>
              '(cr, resources, err) ← getNewResources cr eps nodes resources;
              match err with
              | Some e => net_failed e cr
              | None =>
                  '(_, err) ← call (APIApply resources);
                  match err with
                  | Some e => net_failed e cr
                  | None => net_status done_result (net_SetReady cr)
                  end
              end
          end
      end
  end.

Definition network_Reconcile (req : NamespacedName) : prog W (Result * option error) :=
  w ← get_st;
  match Get w req with
  | Err e =>
      match IgnoreNotFound (Some e) with
      | Some e => mret (done_result, Wrap (Some e) errGetCr)
      | None => mret (done_result, None)
      end
  | Ok cr =>
      if WasDeleted cr then
        '(cr, err) ← APIFinalizer_RemoveFinalizer net_finalizer cr;
        match err with
        | Some e => net_failed e cr
        | None => mret (done_result, None)
        end
      else
        '(cr, err) ← APIFinalizer_AddFinalizer net_finalizer cr;
        match err with
        | Some e => net_failed e cr
        | None => net_process cr
        end
  end.

(** ** Events: [watch_endpoint.go], [watch_node.go] and the watches of [SetupWithManager] *)
Inductive InvKind := EndpointKind | NodeKind_.
#[local] Instance InvKind_eq_dec : EqDecision InvKind.
Proof. solve_decision. Defined.
(** An object of the inventory: its Go type and its labels. *)
Record InvObject := mkInv { inv_Kind : InvKind; inv_Labels : gmap string string }.
Inductive InvEvent := CreateEvent (o : InvObject) | UpdateEvent (old new : InvObject) | DeleteEvent (o : InvObject) | GenericEvent (o : InvObject).
Context (list_Networks : W → result (list Network)).

(** The body of both [add] methods after the type assertion: the requests for the queue. *)
Definition enqueue_networks (w : W) (labels : gmap string string) : list NamespacedName :=
  match list_Networks w with
  | Err _ => []
  | Ok networks =>
      GetKey <$> List.filter (λ n, bool_decide (default "" (labels !! NephioProviderKey) = nokiaSRLProvider) &&
                                   bool_decide (default "" (labels !! NephioTopologyKey) = net_Topology n)) networks
  end.
Definition endpoint_add (w : W) (obj : InvObject) : list NamespacedName :=
  if decide (inv_Kind obj = EndpointKind) then enqueue_networks w (inv_Labels obj) else [].
Definition node_add (w : W) (obj : InvObject) : list NamespacedName :=
  if decide (inv_Kind obj = NodeKind_) then enqueue_networks w (inv_Labels obj) else [].
(** The four methods of a handler. *)
Definition handle (add : W → InvObject → list NamespacedName) (w : W) (ev : InvEvent) : list NamespacedName :=
  match ev with
  | CreateEvent o | DeleteEvent o | GenericEvent o => add w o
  | UpdateEvent old new => add w old ++ add w new
  end.
(** The watches on the inventory, in the order of their registration. *)
Definition network_watches : list (InvKind * (W → InvObject → list NamespacedName)) :=
  [(EndpointKind, endpoint_add); (EndpointKind, node_add)].
(** A watch sees the events of the objects of its type. *)
Definition event_objects (ev : InvEvent) : list InvObject :=
  match ev with
  | CreateEvent o | DeleteEvent o | GenericEvent o => [o]
  | UpdateEvent old new => [old; new]
  end.
Definition event_of (k : InvKind) (ev : InvEvent) : bool := forallb (λ o, bool_decide (inv_Kind o = k)) (event_objects ev).
Definition enqueued (w : W) (ev : InvEvent) : list NamespacedName :=
  concat ((λ '(k, add), if event_of k ev then handle add w ev else []) <$> network_watches).

(** ** How a run ends *)
Lemma byName_lookup ncs n :
  match byName ncs !! n with
  | Some nc => nc ∈ ncs ∧ nc_Name nc = n
  | None => ∀ nc, nc ∈ ncs → nc_Name nc ≠ n
  end.
Proof.
  unfold byName. assert (∀ m : gmap string NetworkConfig,
    match foldl (λ m nc, <[nc_Name nc := nc]> m) m ncs !! n with
    | Some nc => m !! n = Some nc ∨ nc ∈ ncs ∧ nc_Name nc = n
    | None => m !! n = None ∧ ∀ nc, nc ∈ ncs → nc_Name nc ≠ n
    end) as Hgen.
  { induction ncs as [|x ncs IH]; intros m; cbn; [destruct (m !! n); [by left|split; [done|by intros ? ?%elem_of_nil]]|].
    specialize (IH (<[nc_Name x := x]> m)). destruct (foldl _ _ ncs !! n) as [nc|].
    - destruct IH as [[[? <-]|[_ ?]]%lookup_insert_Some|[? ?]]; [right; split; [by left|done]|by left|right; split; [by right|done]].
    - destruct IH as [[? Hne]%lookup_insert_None Hall]. split; [done|]. intros nc [->|Hin]%elem_of_cons; [done|by apply Hall]. }
  specialize (Hgen ∅). destruct (foldl _ _ ncs !! n) as [nc|]; [|by destruct Hgen].
  destruct Hgen as [Hm|?]; [by rewrite lookup_empty in Hm|done].
Qed.

(** The configuration that belongs to the device of a node: named after the network and the
    node, in the namespace of the network, labelled with its owner and its node, owned by the
    network, with the JSON of the device, and with the last applied configuration of the one
    of that name that is there already. *)
Definition config_for (cr : Network) (ncs : list NetworkConfig) (nd : string * Device) (o : NetworkConfig) : Prop :=
  ∃ j, EmitJSON nd.2 = Ok j ∧
    let name := key_Name (GetKey cr) +:+ "-" +:+ nd.1 in
    let new := BuildNetworkConfig
      (mkConfigMeta name (key_Namespace (GetKey cr)) (<[NephioNodeNameKey := nd.1]> (GetOwnerLabelsFromCR cr))
         (net_APIVersion cr, net_Kind cr, key_Name (GetKey cr), net_UID cr)) j in
    (∃ nc, nc ∈ ncs ∧ nc_Name nc = name ∧ o = nc_SetLastApplied (nc_LastApplied nc) new) ∨
    (∀ nc, nc ∈ ncs → nc_Name nc ≠ name) ∧ o = new.
Lemma deviceConfig_for cr ncs n d j : EmitJSON d = Ok j → config_for cr ncs (n, d) (deviceConfig cr (byName ncs) n j).
Proof.
  intros Hj. exists j. split; [done|]. cbn. unfold deviceConfig, getMatchingNodeLabels, configName.
  pose proof (byName_lookup ncs (key_Name (GetKey cr) +:+ "-" +:+ n)) as Hn.
  destruct (byName ncs !! _) as [nc|]; [left; by exists nc; destruct Hn|by right].
Qed.
Lemma addDevices_spec cr ncs devices resources :
  match addDevices cr (byName ncs) devices resources with
  | (resources', None) => ∃ os, Forall2 (config_for cr ncs) devices os ∧ resources' = foldl (λ r o, AddNewResource o r) resources os
  | (_, Some e) => ∃ nd, nd ∈ devices ∧ EmitJSON nd.2 = Err e
  end.
Proof.
  revert resources. induction devices as [|[n d] devices IH]; intros resources; cbn; [by exists []|].
  destruct (EmitJSON d) as [j|e] eqn:Hj; [|exists (n, d); split; [by left|done]].
  specialize (IH (AddNewResource (deviceConfig cr (byName ncs) n j) resources)). destruct (addDevices _ _ _ _) as [r' [e|]].
  - destruct IH as (nd & ? & ?). exists nd. split; [by right|done].
  - destruct IH as (os & Hos & ->). exists (deviceConfig cr (byName ncs) n j :: os). split; [|done]. constructor; [by apply deviceConfig_for|done].
Qed.

(** The labels of the endpoints and nodes of a topology of the provider. *)
Definition of_topology (topology : string) : gmap string string :=
  <[NephioTopologyKey := topology]> {[ NephioProviderKey := nokiaSRLProvider ]}.
(** The endpoints and nodes were listed and the initial resources were applied. *)
Definition initialized (cr : Network) (w : W) (eps : Endpoints) (nodes : Nodes) (cr1 : Network) (r2 : Resources) (w2 : W) : Prop :=
  list_Endpoints w (of_topology (net_Topology cr)) = Ok eps ∧ list_Nodes w (of_topology (net_Topology cr)) = Ok nodes ∧
  ∃ w1 r1 d1, network_Run true eps nodes (resources_New cr (GetOwnerLabelsFromCR cr)) cr w = (w1, (r1, cr1, d1, None)) ∧
    APIApply r1 w1 = (w2, (r2, None)).
(** The devices were computed, and the configurations that are there were listed. *)
Definition collected (cr : Network) (w : W) (cr3 : Network) (r3 : Resources) (devices : gmap string Device) (ncs : list NetworkConfig) (w3 : W) : Prop :=
  ∃ eps nodes cr1 r2 w2, initialized cr w eps nodes cr1 r2 w2 ∧
    network_Run false eps nodes r2 cr1 w2 = (w3, (r3, cr3, devices, None)) ∧
    list_NetworkConfigs w3 (GetOwnerLabelsFromCR cr3) (key_Namespace (GetKey cr3)) = Ok ncs.
(** A configuration was added for each of the devices, in some order. *)
Definition configured (cr : Network) (w : W) (cr3 : Network) (r : Resources) (w3 : W) : Prop :=
  ∃ r3 devices ncs nds os, collected cr w cr3 r3 devices ncs w3 ∧ nds ≡ₚ map_to_list devices ∧
    Forall2 (config_for cr3 ncs) nds os ∧ r = foldl (λ r o, AddNewResource o r) r3 os.

(** How the work for a network ends: with the network, the state and the error of the step that
    failed, or with everything applied. *)
Inductive work (cr : Network) (w : W) : Network → W → option error → Prop :=
  | endpoints_failed e : list_Endpoints w (of_topology (net_Topology cr)) = Err e → work cr w cr w (Some e)
  | nodes_failed e : list_Nodes w (of_topology (net_Topology cr)) = Err e → work cr w cr w (Some e)
  | first_run_failed eps nodes r1 cr1 d1 w1 e :
      list_Endpoints w (of_topology (net_Topology cr)) = Ok eps → list_Nodes w (of_topology (net_Topology cr)) = Ok nodes →
      network_Run true eps nodes (resources_New cr (GetOwnerLabelsFromCR cr)) cr w = (w1, (r1, cr1, d1, Some e)) → work cr w cr1 w1 (Some e)
  | first_apply_failed eps nodes r1 cr1 d1 w1 w2 r2 e :
      list_Endpoints w (of_topology (net_Topology cr)) = Ok eps → list_Nodes w (of_topology (net_Topology cr)) = Ok nodes →
      network_Run true eps nodes (resources_New cr (GetOwnerLabelsFromCR cr)) cr w = (w1, (r1, cr1, d1, None)) →
      APIApply r1 w1 = (w2, (r2, Some e)) → work cr w cr1 w2 (Some e)
  | second_run_failed eps nodes cr1 r2 w2 r3 cr3 d3 w3 e :
      initialized cr w eps nodes cr1 r2 w2 → network_Run false eps nodes r2 cr1 w2 = (w3, (r3, cr3, d3, Some e)) → work cr w cr3 w3 (Some e)
  | list_failed eps nodes cr1 r2 w2 r3 cr3 d3 w3 e :
      initialized cr w eps nodes cr1 r2 w2 → network_Run false eps nodes r2 cr1 w2 = (w3, (r3, cr3, d3, None)) →
      list_NetworkConfigs w3 (GetOwnerLabelsFromCR cr3) (key_Namespace (GetKey cr3)) = Err e → work cr w cr3 w3 (Some e)
  | json_failed cr3 r3 devices ncs w3 n d e :
      collected cr w cr3 r3 devices ncs w3 → devices !! n = Some d → EmitJSON d = Err e → work cr w cr3 w3 (Some e)
  | apply_failed cr3 r w3 r4 w4 e :
      configured cr w cr3 r w3 → APIApply r w3 = (w4, (r4, Some e)) → work cr w cr3 w4 (Some e)
  | all_applied cr3 r w3 r4 w4 :
      configured cr w cr3 r w3 → APIApply r w3 = (w4, (r4, None)) → work cr w cr3 w4 None.

(** The status of a network is written, and an error of that is all that is reported. *)
Definition status_written (cr : Network) (res : Result) (w w' : W) (r : Result * option error) : Prop :=
  ∃ o err, StatusUpdate w cr = (w', (o, err)) ∧ r = (res, Wrap err net_errUpdateStatus).
(** The status that goes with the end of the work. *)
Definition reported (cr : Network) (err : option error) (w w' : W) (r : Result * option error) : Prop :=
  match err with
  | Some e => status_written (net_SetFailed e cr) requeue w w' r
  | None => status_written (net_SetReady cr) done_result w w' r
  end.

Lemma net_status_spec res cr w w' r : net_status res cr w = Done (w', r) → status_written cr res w w' r.
Proof.
  unfold net_status, mbind, prog_bind, call. destruct (StatusUpdate w _) as [w1 [o err]] eqn:Hs. intros [= <- <-]. by exists o, err.
Qed.
Lemma net_failed_spec e cr w w' r : net_failed e cr w = Done (w', r) → reported cr (Some e) w w' r.
Proof. apply net_status_spec. Qed.
Lemma applyInitial_spec cr w eps nodes cr1 r2 w2 err :
  list_Endpoints w (of_topology (net_Topology cr)) = Ok eps → list_Nodes w (of_topology (net_Topology cr)) = Ok nodes →
  applyInitialresources cr eps nodes (resources_New cr (GetOwnerLabelsFromCR cr)) w = Done (w2, (cr1, r2, err)) →
  match err with Some e => work cr w cr1 w2 (Some e) | None => initialized cr w eps nodes cr1 r2 w2 end.
Proof.
  intros Heps Hnodes. unfold applyInitialresources, mbind, prog_bind, call.
  destruct (network_Run true _ _ _ _ w) as [w1 [[[r1 cr1'] d1] [e|]]] eqn:Hrun; [intros [= <- <- <- <-]; by eapply first_run_failed|].
  destruct (APIApply r1 w1) as [w2' [r2' err']] eqn:Happ. intros [= <- <- <- <-].
  destruct err' as [e|]; [by eapply first_apply_failed|]. split_and!; [done..|]. by exists w1, r1, d1.
Qed.
Lemma getNew_spec cr w eps nodes cr1 r2 w2 cr3 r w3 err :
  initialized cr w eps nodes cr1 r2 w2 → getNewResources cr1 eps nodes r2 w2 = Done (w3, (cr3, r, err)) →
  match err with Some e => work cr w cr3 w3 (Some e) | None => configured cr w cr3 r w3 end.
Proof.
  intros Hinit. unfold getNewResources, mbind, prog_bind, call, get_st.
  destruct (network_Run false _ _ _ _ w2) as [w3' [[[r3 cr3'] devices] [e|]]] eqn:Hrun; [intros [= <- <- <- <-]; by eapply second_run_failed|].
  destruct (list_NetworkConfigs w3' _ _) as [ncs|e] eqn:Hl; [|intros [= <- <- <- <-]; by eapply list_failed].
  assert (Hcol : collected cr w cr3' r3 devices ncs w3') by (by exists eps, nodes, cr1, r2, w2).
  pose proof (addDevices_spec cr3' ncs (range (at_ "devices") devices) r3) as Hadd.
  destruct (addDevices _ _ _ r3) as [rd err']. intros [= <- <- <- <-]. destruct err' as [e|].
  - destruct Hadd as ([n d] & Hin%range_elem & He). by eapply json_failed.
  - destruct Hadd as (os & Hos & ->). exists r3, devices, ncs, (range (at_ "devices") devices), os. split_and!; [done|apply range_perm|done..].
Qed.
Lemma net_process_spec cr w w' r :
  net_process cr w = Done (w', r) → ∃ cr' w1 err, work cr w cr' w1 err ∧ reported cr' err w1 w' r.
Proof.
  unfold net_process, mbind at 1, prog_bind at 1, get_st. cbn. unfold getProviderEndpoints, getProviderNodes.
  change provider_labels with of_topology.
  destruct (list_Endpoints w _) as [eps|e] eqn:Heps; [|intros ?%net_failed_spec; exists cr, w, (Some e); split; [by apply endpoints_failed|done]].
  destruct (list_Nodes w _) as [nodes|e] eqn:Hnodes; [|intros ?%net_failed_spec; exists cr, w, (Some e); split; [by apply nodes_failed|done]].
  intros (w2 & [[cr1 r2] err] & Hi & Hr)%prog_bind_Done. apply applyInitial_spec in Hi; [|done..].
  destruct err as [e|]; [exists cr1, w2, (Some e); split; [done|by apply net_failed_spec in Hr]|].
  apply prog_bind_Done in Hr as (w3 & [[cr3 r3] err] & Hn & Hr). apply (getNew_spec cr w) in Hn; [|done].
  destruct err as [e|]; [exists cr3, w3, (Some e); split; [done|by apply net_failed_spec in Hr]|].
  apply prog_bind_Done in Hr as (w4 & [r4 err] & Ha & Hr). unfold call in Ha. injection Ha as Ha. exists cr3, w4, err.
  destruct err as [e|]; (split; [by econstructor|]); [by apply net_failed_spec in Hr|by apply net_status_spec in Hr].
Qed.

(** C31: How a run for a network ends, exactly.  A network that is being deleted loses the finalizer and nothing else happens.  For any other one the finalizer is added and the work is done: the endpoints and nodes of its topology are listed, the network computation is run and its resources are applied, it is run again, a configuration is added for each of the devices it returns (named after the network and the node, in its namespace, with the labels of owner and node, the owner, the JSON of the device, and the last applied configuration of the one that was there), and everything is applied.  When all of that succeeded the status of this network is set to ready and no other run is asked for; otherwise the error of the step that failed is set in its status, in the state that step left, and the run is repeated. *)
Theorem network_ready_or_failed req w cr w' r :
  Get w req = Ok cr → network_Reconcile req w = Done (w', r) →
  if WasDeleted cr then
    ∃ w1 cr1 err, APIFinalizer_RemoveFinalizer net_finalizer cr w = Done (w1, (cr1, err)) ∧
      match err with Some _ => reported cr1 err w1 w' r | None => w' = w1 ∧ r = (done_result, None) end
  else
    ∃ w1 cr1 err, APIFinalizer_AddFinalizer net_finalizer cr w = Done (w1, (cr1, err)) ∧
      match err with
      | Some _ => reported cr1 err w1 w' r
      | None => ∃ cr2 w2 err2, work cr1 w1 cr2 w2 err2 ∧ reported cr2 err2 w2 w' r
      end.
Proof.
  intros Hg. unfold network_Reconcile, mbind at 1, prog_bind at 1, get_st. cbn -[WasDeleted]. rewrite Hg.
  destruct (WasDeleted cr); intros (w1 & [cr1 err] & Hf & Hr)%prog_bind_Done; exists w1, cr1, err; (split; [exact Hf|]); destruct err as [e|].
  - by apply net_failed_spec.
  - by injection Hr as <- <-.
  - by apply net_failed_spec.
  - by apply net_process_spec.
Qed.

(** What an event enqueues. *)
Lemma enqueue_networks_spec w l k : k ∈ enqueue_networks w l ↔
  ∃ networks n, list_Networks w = Ok networks ∧ n ∈ networks ∧ k = GetKey n ∧
    default "" (l !! NephioProviderKey) = nokiaSRLProvider ∧ default "" (l !! NephioTopologyKey) = net_Topology n.
Proof.
  unfold enqueue_networks. destruct (list_Networks w) as [ns|e]; [|split; [by intros ?%elem_of_nil|by intros (? & ? & ? & _)]].
  rewrite list_elem_of_fmap. setoid_rewrite list_elem_of_In. setoid_rewrite List.filter_In. setoid_rewrite andb_true_iff.
  setoid_rewrite bool_decide_eq_true. split.
  - intros (n & -> & Hin & ? & ?). exists ns, n. done.
  - intros (? & n & [= <-] & Hin & -> & ? & ?). exists n. done.
Qed.
Lemma event_of_spec k ev : event_of k ev = true ↔ ∀ o, o ∈ event_objects ev → inv_Kind o = k.
Proof. unfold event_of. rewrite List.forallb_forall. setoid_rewrite list_elem_of_In. setoid_rewrite bool_decide_eq_true. done. Qed.
Lemma handle_spec add f w ev :
  (∀ o, o ∈ event_objects ev → add w o = f o) → handle add w ev = concat (f <$> event_objects ev).
Proof. intros Ha. destruct ev; cbn in *; rewrite ?Ha, ?app_nil_r by set_solver; done. Qed.

(** An event of an endpoint of the provider enqueues the networks of its topology, those and no others; an event of a node enqueues nothing, although its handler would enqueue the networks of the node's topology: the handler is registered for endpoints. *)
Theorem network_events w ev :
  (event_of EndpointKind ev = true → ∀ k, k ∈ enqueued w ev ↔
     ∃ o networks n, o ∈ event_objects ev ∧ list_Networks w = Ok networks ∧ n ∈ networks ∧ k = GetKey n ∧
       default "" (inv_Labels o !! NephioProviderKey) = nokiaSRLProvider ∧
       default "" (inv_Labels o !! NephioTopologyKey) = net_Topology n) ∧
  (event_of NodeKind_ ev = true → enqueued w ev = [] ∧
     handle node_add w ev = concat (enqueue_networks w ∘ inv_Labels <$> event_objects ev)).
Proof.
  rewrite !event_of_spec. split; intros Hk.
  - intros k. unfold enqueued. cbn. rewrite (proj2 (event_of_spec _ _) Hk), app_nil_r, elem_of_app.
    rewrite (handle_spec endpoint_add (enqueue_networks w ∘ inv_Labels)) by (intros o Ho; unfold endpoint_add; by rewrite decide_True by auto).
    rewrite (handle_spec node_add (λ _, [])) by (intros o Ho; unfold node_add; rewrite decide_False; [done|by rewrite (Hk o Ho)]).
    rewrite !elem_of_concat. setoid_rewrite list_elem_of_fmap. split.
    + intros [(l & (o & -> & Ho) & Hin)|(l & (o & -> & _) & []%elem_of_nil)].
      apply enqueue_networks_spec in Hin as (ns & n & ?). by exists o, ns, n.
    + intros (o & ns & n & Ho & Hr). left. exists (enqueue_networks w (inv_Labels o)). split; [by exists o|].
      apply enqueue_networks_spec. by exists ns, n.
  - split; [|apply handle_spec; intros o Ho; unfold node_add; by rewrite decide_True by auto].
    unfold enqueued. cbn. destruct (event_of EndpointKind ev) eqn:He; [|done]. exfalso. rewrite event_of_spec in He.
    assert (∃ o, o ∈ event_objects ev) as [o Ho] by (destruct ev; eexists; left). specialize (Hk o Ho). rewrite (He o Ho) in Hk. done.
Qed.
End network.

(** ** An example *)
Module NetworkWitnesses.
Import InventoryModel.
Record network := mkNetwork { nw_key : NamespacedName; nw_finalizers : list string; nw_deleted : bool; nw_topology : string; nw_status : string }.
Definition config : Type := ConfigMeta * string * string.
Record world := mkWorld { wd_networks : gmap NamespacedName network; wd_applied : list config }.
#[export] Instance network_Object : Object network := {|
  GetKey := nw_key; GetGenerateName _ := ""; GetFinalizers := nw_finalizers;
  SetFinalizers l n := mkNetwork (nw_key n) l (nw_deleted n) (nw_topology n) (nw_status n);
  ObjAnnotations _ := None; SetObjAnnotations _ n := n; HasDeletionTimestamp := nw_deleted |}.
Definition put (n : network) (w : world) : world := mkWorld (<[nw_key n := n]> (wd_networks w)) (wd_applied w).
#[export] Instance network_Client : Client world network := {|
  Get w k := match wd_networks w !! k with Some n => Ok n | None => Err "not found" end;
  Create w n := (put n w, (n, None)); Update w n := (put n w, (n, None)); StatusUpdate w n := (put n w, (n, None));
  MergePatch w _ n := (put n w, (n, None)) |}.
Definition set_status (st : string) (n : network) : network := mkNetwork (nw_key n) (nw_finalizers n) (nw_deleted n) (nw_topology n) st.
#[export] Instance errors : ApiErrors := {| IsNotFound e := bool_decide (e = "not found"); errors_Wrap e msg := msg +:+ ": " +:+ e |}.
#[export] Instance api : NetworkAPI world := {|
  Network := network; net_Object := network_Object; net_Client := network_Client;
  net_SetFailed e := set_status ("failed: " +:+ e); net_SetReady := set_status "ready"; net_Topology := nw_topology;
  net_APIVersion _ := "infra.nephio.org/v1alpha1"; net_Kind _ := "Network"; net_UID _ := "";
  GetOwnerLabelsFromCR n := {[ "owner" := key_Name (nw_key n) ]};
  Endpoints := (); Nodes := (); list_Endpoints _ _ := Ok (); list_Nodes _ _ := Ok ();
  NephioProviderKey := "provider"; NephioTopologyKey := "topology"; NephioNodeNameKey := "node";
  NetworkConfig := config; BuildNetworkConfig m j := (m, j, ""); nc_Name c := cfg_Name c.1.1;
  LastAppliedConfig := string; nc_LastApplied c := c.2; nc_SetLastApplied l c := (c.1, l);
  list_NetworkConfigs w _ _ := Ok (wd_applied w);
  Resources := list config; resources_New _ _ := []; AddNewResource c r := r ++ [c];
  APIApply r w := (mkWorld (wd_networks w) (r ++ wd_applied w), (r, None));
  Device := string; network_Run _ _ _ r n w := (w, (r, n, {[ "leaf1" := "{1}"; "leaf2" := "{2}" ]}, None)); EmitJSON d := Ok d |}.

Definition net1 : network := mkNetwork (mkKey "default" "vpc") [] false "nephio" "".
(** One of the two devices has a configuration. *)
Definition old_config : config := (mkConfigMeta "vpc-leaf1" "default" ∅ ("", "", "", ""), "{}", "applied").
Definition start : world := mkWorld {[ nw_key net1 := net1 ]} [old_config].
Definition networks (w : world) : result (list (@Network world api)) := Ok ((map_to_list (wd_networks w)).*2).
Definition final : world := match network_Reconcile (nw_key net1) start with Done (w, _) => w | _ => start end.

Lemma network_ready_or_failed_witness :
  ((λ c : config, (cfg_Name c.1.1, c.2)) <$> wd_applied final) ≡ₚ [("vpc-leaf1", "applied"); ("vpc-leaf2", ""); ("vpc-leaf1", "applied")] ∧
  (nw_status <$> wd_networks final !! nw_key net1) = Some "ready" ∧
  ∃ w1 cr1 err, APIFinalizer_AddFinalizer net_finalizer (net1 : @Network world api) start = Done (w1, (cr1, err)) ∧
    match err with
    | Some _ => reported cr1 err w1 final (done_result, None)
    | None => ∃ cr2 w2 err2, work cr1 w1 cr2 w2 err2 ∧ reported cr2 err2 w2 final (done_result, None)
    end.
Proof.
  split; [vm_compute; reflexivity|]. split; [vm_compute; reflexivity|].
  apply (network_ready_or_failed (nw_key net1) start (net1 : @Network world api) final (done_result, None)); vm_compute; reflexivity.
Defined.

Lemma network_events_witness :
  let labels : gmap string string := {[ "provider" := nokiaSRLProvider; "topology" := "nephio" ]} in
  nw_key net1 ∈ enqueued networks start (CreateEvent (mkInv EndpointKind labels)) ∧
  enqueued networks start (CreateEvent (mkInv NodeKind_ labels)) = [].
Proof.
  intros labels. split.
  - apply (network_events networks start (CreateEvent (mkInv EndpointKind labels))); [reflexivity|].
    exists (mkInv EndpointKind labels), [net1 : @Network world api], (net1 : @Network world api). split_and!; [by left|reflexivity|by left|reflexivity..].
  - apply (network_events networks start (CreateEvent (mkInv NodeKind_ labels))). reflexivity.
Defined.
End NetworkWitnesses.
