(* ===== verification/GitControllers.v ===== *)
(** * [controllers/pkg/reconcilers/token] and [.../repository]: tokens and repositories in Gitea

    The two controllers mirror [Token] and [Repository] resources into a Gitea server and
    protect them with a finalizer.  Their [Reconcile] functions have one and the same
    structure, [reconcile_with], around what they create and delete.  The resource types,
    the API server and Gitea are parameters. *)
From S2P Require Import Prelude Kube.

Definition finalizer : string := "infra.nephio.org/finalizer".
Definition errUpdateStatus : string := "cannot update status".

(** What [cr.SetConditions(infrav1alpha1.Failed(msg))] and [(... Ready())] do, and whether the
    deletion policy is [delete]. *)
Class Managed (T : Type) := {
  SetFailed : string → T → T;
  SetReady : T → T;
  DeletionDelete : T → bool
}.

(** The Gitea client: names of tokens, the user, and the clone URL of repositories. *)
Record CreateRepoOption := mkCreateRepo {
  cr_Name : string; cr_Description : string; cr_Private : bool; cr_IssueLabels : string; cr_Gitignores : string;
  cr_License : string; cr_Readme : string; cr_DefaultBranch : string; cr_TrustModel : string; cr_AutoInit : bool
}.
Record EditRepoOption := mkEditRepo { er_Name : option string; er_Description : option string; er_Private : option bool }.
Class Gitea (W : Type) := {
  IsInitialized : W → bool;
  GetMyUserInfo : W → result string;
  ListAccessTokens : W → result (list string);
  CreateAccessToken : W → string → W * result string;
  DeleteAccessToken : W → string → W * option error;
  GetRepo : W → string → string → option error;
  CreateRepo : W → CreateRepoOption → W * result string;
  EditRepo : W → string → string → EditRepoOption → W * result string;
  DeleteRepo : W → string → string → W * option error
}.

(** ** The structure of the two [Reconcile] functions *)
Section reconcile.
Context `{!ApiErrors} {W T : Type} `{!Object T, !Client W T, !Managed T, !Gitea W}.

(** The status goes to the server; the second result is the error of the update. *)
Definition updateStatus (res : Result) (cr : T) : prog W (Result * option error) :=
  '(_, err) ← call (λ w, StatusUpdate w cr);
  mret (res, Wrap err errUpdateStatus).

Definition reconcile_with (onGetError : Result) (delete_ext upsert_ext : T → prog W (T * option error))
    (req : NamespacedName) : prog W (Result * option error) :=
  w ← get_st;
  match Get w req with
  | Err e =>
      match IgnoreNotFound (Some e) with
      | Some e => mret (onGetError, Wrap (Some e) "cannot get resource")
      | None => mret (done_result, None)
      end
  | Ok cr =>
      if negb (IsInitialized w) then updateStatus requeue (SetFailed "gitea server unreachable" cr)
      else if WasDeleted cr then
        '(cr, err) ← (if DeletionDelete cr then delete_ext cr else mret (cr, None));
        match err with
        | Some _ => updateStatus requeue cr
        | None =>
            '(cr, err) ← APIFinalizer_RemoveFinalizer finalizer cr;
            match err with
            | Some e => updateStatus requeue (SetFailed e cr)
            | None => mret (done_result, None)
            end
        end
      else
        '(cr, err) ← APIFinalizer_AddFinalizer finalizer cr;
        match err with
        | Some e => updateStatus requeue (SetFailed e cr)
        | None =>
            '(cr, err) ← upsert_ext cr;
            match err with
            | Some _ => updateStatus requeue cr
            | None => updateStatus done_result (SetReady cr)
            end
        end
  end.
End reconcile.

(** ** Tokens *)
Record Secret := mkSecret {
  sec_Key : NamespacedName;
  sec_Annotations : option (gmap string string);
  (** the name and the UID of the owner *)
  sec_Owner : string * string;
  sec_username : string; sec_password : string; sec_token : string
}.
Class TokenAPI (T : Type) := { GetTokenName : T → string; tk_UID : T → string }.

Section token.
Context `{!ApiErrors} {W Token : Type} `{!Object Token, !Client W Token, !Managed Token, !TokenAPI Token, !Gitea W}.
Context `{!Object Secret, !Client W Secret}.

Definition tokenSecret (cr : Token) (user token : string) : Secret :=
  mkSecret (GetKey cr) (ObjAnnotations cr) (key_Name (GetKey cr), tk_UID cr) user token token.

Definition createToken (cr : Token) : prog W (Token * option error) :=
  w ← get_st;
  match ListAccessTokens w with
  | Err e => mret (SetFailed e cr, Some e)
  | Ok tokens =>
      if existsb (λ t, bool_decide (t = GetTokenName cr)) tokens then mret (cr, None)
      else
        match GetMyUserInfo w with
        | Err e => mret (SetFailed e cr, Some e)
        | Ok user =>
            r ← call (λ w, CreateAccessToken w (GetTokenName cr));
            match r with
            | Err e => mret (SetFailed e cr, Some e)
            | Ok token =>
                '(_, err) ← Apply (tokenSecret cr user token) [];
                match err with
                | Some e => mret (SetFailed e cr, Some e)
                | None => mret (cr, None)
                end
            end
        end
  end.

Definition deleteToken (cr : Token) : prog W (Token * option error) :=
  err ← call (λ w, DeleteAccessToken w (GetTokenName cr));
  match err with
  | Some e => mret (SetFailed e cr, Some e)
  | None => mret (cr, None)
  end.

Definition token_Reconcile (req : NamespacedName) : prog W (Result * option error) :=
  reconcile_with requeue deleteToken createToken req.
End token.

(** ** Repositories *)
Class RepositoryAPI (T : Type) := {
  re_Description : T → option string; re_Private : T → option bool; re_IssueLabels : T → option string;
  re_Gitignores : T → option string; re_License : T → option string; re_Readme : T → option string;
  re_DefaultBranch : T → option string; re_TrustModel : T → option string;
  (** [cr.Status.URL = ...] *)
  SetURL : string → T → T
}.

Section repository.
Context `{!ApiErrors} {W Repository : Type} `{!Object Repository, !Client W Repository, !Managed Repository}.
Context `{!RepositoryAPI Repository, !Gitea W}.

Definition repoName (cr : Repository) : string := key_Name (GetKey cr).
Definition createOption (cr : Repository) : CreateRepoOption :=
  mkCreateRepo (repoName cr) (default "" (re_Description cr)) (default false (re_Private cr)) (default "" (re_IssueLabels cr))
    (default "" (re_Gitignores cr)) (default "" (re_License cr)) (default "" (re_Readme cr))
    (default "" (re_DefaultBranch cr)) (default "" (re_TrustModel cr)) true.

Definition upsertRepo (cr : Repository) : prog W (Repository * option error) :=
  w ← get_st;
  match GetMyUserInfo w with
  | Err e => mret (SetFailed e cr, Some e)
  | Ok user =>
      match GetRepo w user (repoName cr) with
      | Some _ =>
          r ← call (λ w, CreateRepo w (createOption cr));
          match r with
          | Err e => mret (SetFailed "cannot create repo" cr, Some e)
          | Ok url => mret (SetURL url cr, None)
          end
      | None =>
          r ← call (λ w, EditRepo w user (repoName cr) (mkEditRepo (Some (repoName cr)) (re_Description cr) (re_Private cr)));
          match r with
          | Err e => mret (SetFailed "cannot update repo" cr, Some e)
          | Ok url => mret (SetURL url cr, None)
          end
      end
  end.

Definition deleteRepo (cr : Repository) : prog W (Repository * option error) :=
  w ← get_st;
  match GetMyUserInfo w with
  | Err e => mret (SetFailed e cr, Some e)
  | Ok user =>
      err ← call (λ w, DeleteRepo w user (repoName cr));
      match err with
      | Some e => mret (SetFailed e cr, Some e)
      | None => mret (cr, None)
      end
  end.

Definition repository_Reconcile (req : NamespacedName) : prog W (Result * option error) :=
  reconcile_with done_result deleteRepo upsertRepo req.
End repository.

(** ** The finalizer protects what is in Gitea *)

(** The resources of one kind on the API server, and what is in Gitea, by name. *)
Class Mirror (W T : Type) := {
  objs : W → gmap NamespacedName T;
  mirrored : W → string → Prop;
  mirror_name : T → string
}.
(** What matters of a resource here. *)
Definition same_view {T} `{!Object T, !Managed T} {W} `{!Mirror W T} (x y : T) : Prop :=
  GetFinalizers x = GetFinalizers y ∧ mirror_name (W := W) x = mirror_name (W := W) y ∧ DeletionDelete x = DeletionDelete y.
(** A server that reads what is stored; an update that fails may have been carried out, and
    an object without finalizers that is marked for deletion disappears.  The status of an
    object is not what is mirrored. *)
Class MirrorLaws (W T : Type) `{!Object T, !Client W T, !Managed T, !Mirror W T} : Prop := {
  finalizers_set l (o : T) : GetFinalizers (SetFinalizers l o) = l ∧ GetKey (SetFinalizers l o) = GetKey o ∧
    mirror_name (W := W) (SetFinalizers l o) = mirror_name (W := W) o ∧ DeletionDelete (SetFinalizers l o) = DeletionDelete o;
  Get_stored w k o : Get w k = Ok o → objs w !! k = Some o ∧ GetKey o = k;
  Update_stored w o w' o' err : Update w o = (w', (o', err)) →
    (∀ n, mirrored w' n ↔ mirrored w n) ∧
    ((objs w' = objs w ∧ err ≠ None) ∨
     (∃ x, same_view (W := W) x o ∧ objs w' = <[GetKey o := x]> (objs w) ∧ (err = None → o' = x ∧ GetKey x = GetKey o)) ∨
     (GetFinalizers o = [] ∧ objs w' = delete (GetKey o) (objs w)));
  StatusUpdate_stored w o w' o' err : StatusUpdate w o = (w', (o', err)) →
    (∀ n, mirrored w' n ↔ mirrored w n) ∧
    ∀ k, option_relation (same_view (W := W)) (λ _, False) (λ _, False) (objs w' !! k) (objs w !! k)
}.
(** What deletes and creates in Gitea. *)
Record mirror_ops {W T} `{!Mirror W T, !Object T} (del ups : T → prog W (T * option error)) : Prop := {
  del_spec cr w w' cr' err : del cr w = Done (w', (cr', err)) →
    objs w' = objs w ∧ (∀ n, mirrored w' n → mirrored w n) ∧
    (err = None → cr' = cr ∧ ¬ mirrored w' (mirror_name (W := W) cr));
  ups_spec cr w w' cr' err : ups cr w = Done (w', (cr', err)) →
    objs w' = objs w ∧ ∀ n, mirrored w' n → mirrored w n ∨ n = mirror_name (W := W) cr
}.

Section protected.
Context `{!ApiErrors} {W T : Type} `{!Object T, !Client W T, !Managed T, !Gitea W, !Mirror W T, !MirrorLaws W T}.
Context (onGetError : Result) (del ups : T → prog W (T * option error)) (Hops : mirror_ops del ups).

Definition guarded (w : W) (n : string) : Prop :=
  ∃ k cr, objs w !! k = Some cr ∧ FinalizerExists cr finalizer = true ∧ mirror_name (W := W) cr = n.
(** Everything in Gitea has a resource with the finalizer, and every resource is to be
    deleted in Gitea with it. *)
Definition protected (w : W) : Prop := ∀ n, mirrored w n → guarded w n.
Definition all_delete (w : W) : Prop := ∀ k cr, objs w !! k = Some cr → DeletionDelete cr = true.

(** Runs of the controller, and what others do: they do not add to Gitea, do not remove the
    finalizer (nor the objects that have it), and do not ask to orphan. *)
Inductive mirror_step : W → W → Prop :=
  | mirror_reconcile req w w' r :
      reconcile_with onGetError del ups req w = Done (w', r) → mirror_step w w'
  | mirror_others w w' :
      (∀ n, mirrored w' n → mirrored w n) → (∀ n, guarded w n → guarded w' n) → all_delete w' → mirror_step w w'.

Lemma guarded_finalizers w w' n :
  (∀ k cr, objs w !! k = Some cr → FinalizerExists cr finalizer = true → mirror_name (W := W) cr = n →
    ∃ cr', objs w' !! k = Some cr' ∧ FinalizerExists cr' finalizer = true ∧ mirror_name (W := W) cr' = n) →
  guarded w n → guarded w' n.
Proof. intros Hk (k & cr & Hc & Hf & Hn). destruct (Hk k cr Hc Hf Hn) as (cr' & ?). by exists k, cr'. Qed.

Lemma same_view_finalizer (x y : T) : same_view (W := W) x y → FinalizerExists x finalizer = FinalizerExists y finalizer.
Proof. intros (Hf & _). unfold FinalizerExists. by rewrite Hf. Qed.

Lemma status_keeps res cr w w' r :
  updateStatus res cr w = Done (w', r) → protected w → all_delete w → protected w' ∧ all_delete w'.
Proof.
  unfold updateStatus, mbind, prog_bind, call. destruct (StatusUpdate w cr) as [w1 [o err]] eqn:Hs. cbn. intros [= <- _] Hp Ha.
  apply StatusUpdate_stored in Hs as [Hm Hv]. split.
  - intros n Hn%Hm. apply (guarded_finalizers w); [|by apply Hp]. intros k c Hc Hf Hname. specialize (Hv k). rewrite Hc in Hv.
    destruct (objs w1 !! k) as [x|]; simpl in Hv; [|done]. exists x. split; [done|].
    rewrite (same_view_finalizer _ _ Hv). destruct Hv as (_ & -> & _). done.
  - intros k c Hc. specialize (Hv k). rewrite Hc in Hv. destruct (objs w !! k) as [x|] eqn:Hx; simpl in Hv; [|done].
    destruct Hv as (_ & _ & ->). by eapply Ha.
Qed.

(** Writing an object back: the other objects stay, and it keeps its policy. *)
Lemma update_keeps o w w' o' err :
  Update w o = (w', (o', err)) → DeletionDelete o = true → all_delete w →
  all_delete w' ∧ ∀ n, (mirror_name (W := W) o ≠ n ∨ FinalizerExists o finalizer = true) → (∃ c, objs w !! GetKey o = Some c ∧ mirror_name (W := W) c = mirror_name (W := W) o) → guarded w n → guarded w' n.
Proof.
  intros Hu Hd Ha. apply Update_stored in Hu as [_ [[Ho _]|[(x & Hx & Ho & _)|[Hnil Ho]]]].
  - split; [intros k c; rewrite Ho; apply Ha|]. intros n _ _. unfold guarded. by rewrite Ho.
  - split.
    + intros k c. rewrite Ho, lookup_insert_Some. intros [[_ <-]|[_ Hc]]; [|by eapply Ha]. destruct Hx as (_ & _ & ->). done.
    + intros n Hn (c0 & Hc0 & Hc0n). apply guarded_finalizers. intros k c Hc Hf Hname. rewrite Ho.
      destruct (decide (k = GetKey o)) as [->|]; [|rewrite lookup_insert_ne by done; by exists c].
      rewrite Hc0 in Hc. injection Hc as ->. rewrite lookup_insert_eq. exists x. split; [done|].
      rewrite (same_view_finalizer _ _ Hx). destruct Hx as (_ & Hxn & _). rewrite Hxn. destruct Hn as [Hn|Hn]; [by rewrite Hc0n in Hname|].
      split; [done|congruence].
  - split; [intros k c; rewrite Ho, lookup_delete_Some; intros [_ Hc]; by eapply Ha|].
    intros n Hn (c0 & Hc0 & Hc0n). apply guarded_finalizers. intros k c Hc Hf Hname. rewrite Ho.
    destruct (decide (k = GetKey o)) as [->|]; [|rewrite lookup_delete_ne by done; by exists c].
    rewrite Hc0 in Hc. injection Hc as ->. destruct Hn as [Hn|Hn]; [by rewrite Hc0n in Hname|].
    unfold FinalizerExists in Hn. by rewrite Hnil in Hn.
Qed.
Lemma remove_keeps cr w w' r :
  objs w !! GetKey cr = Some cr → ¬ mirrored w (mirror_name (W := W) cr) →
  APIFinalizer_RemoveFinalizer finalizer cr w = Done (w', r) →
  protected w → all_delete w → protected w' ∧ all_delete w'.
Proof.
  intros Hst Hno. unfold APIFinalizer_RemoveFinalizer. destruct (FinalizerExists cr finalizer); cbn [negb].
  2:{ by intros [= <- _]. }
  intros (w1 & o & Ho & Hr)%prog_bind_Done Hp Ha. unfold lift in Ho. apply comp_bind_Done in Ho as (o1 & Ho & [= <- <-]).
  unfold RemoveFinalizer in Ho. apply comp_bind_Done in Ho as (f & _ & [= <-]).
  destruct (finalizers_set f cr) as (Hf & Hk & Hn & Hd).
  apply prog_bind_Done in Hr as (w2 & [o' err] & Hu & [= <- _]). unfold call in Hu. injection Hu as Hu.
  destruct (update_keeps (SetFinalizers f cr) w w2 o' err Hu) as [Ha' Hg]; [rewrite Hd; by eapply Ha|done|].
  split; [|done]. apply Update_stored in Hu as [Hm _]. intros n Hn'%Hm. apply Hg; [|rewrite Hk, Hn; by exists cr|by apply Hp].
  left. rewrite Hn. intros <-. done.
Qed.

Lemma Wrap_None err msg : Wrap err msg = None ↔ err = None.
Proof. destruct err; done. Qed.

Lemma add_keeps cr w w' cr' err :
  objs w !! GetKey cr = Some cr → APIFinalizer_AddFinalizer finalizer cr w = Done (w', (cr', err)) →
  protected w → all_delete w →
  protected w' ∧ all_delete w' ∧ (err = None → guarded w' (mirror_name (W := W) cr')).
Proof.
  intros Hst. unfold APIFinalizer_AddFinalizer. destruct (FinalizerExists cr finalizer) eqn:He.
  { intros [= <- <- <-] Hp Ha. split_and!; [done|done|]. intros _. by exists (GetKey cr), cr. }
  intros (w1 & [o e] & Hu & [= <- <- Hw])%prog_bind_Done Hp Ha. unfold call in Hu. injection Hu as Hu.
  assert (Hadd : AddFinalizer cr finalizer = SetFinalizers (GetFinalizers cr ++ [finalizer]) cr) by (unfold AddFinalizer; by rewrite He).
  rewrite Hadd in Hu. set (o0 := SetFinalizers _ cr) in *.
  destruct (finalizers_set (GetFinalizers cr ++ [finalizer]) cr) as (Hf & Hk & Hn & Hd). fold o0 in Hf, Hk, Hn, Hd.
  assert (Hfin : FinalizerExists o0 finalizer = true).
  { unfold FinalizerExists. rewrite Hf. apply existsb_exists. exists finalizer. split; [apply in_app_iff; right; by left|by apply bool_decide_eq_true]. }
  destruct (update_keeps o0 w w1 o e Hu) as [Ha' Hg]; [rewrite Hd; by eapply Ha|done|].
  pose proof Hu as Hu2. apply Update_stored in Hu as [Hm Hcase]. split_and!; [|done|].
  - intros n Hn'%Hm. apply Hg; [by right|rewrite Hk, Hn; by exists cr|by apply Hp].
  - intros ->. rewrite Wrap_None in Hw. subst e.
    destruct Hcase as [[_ Hbad]|[(x & Hx & Ho & Hres)|[Hnil _]]]; [done| |rewrite Hf in Hnil; by destruct (GetFinalizers cr)].
    destruct (Hres eq_refl) as [-> Hkx]. exists (GetKey o0), x. rewrite Ho, lookup_insert_eq.
    split_and!; [done|by rewrite (same_view_finalizer _ _ Hx)|done].
Qed.

Lemma reconcile_with_keeps req w w' r :
  reconcile_with onGetError del ups req w = Done (w', r) → protected w → all_delete w → protected w' ∧ all_delete w'.
Proof.
  unfold reconcile_with, mbind at 1, prog_bind at 1. cbn [get_st].
  destruct (Get w req) as [cr|e] eqn:Hget; [|destruct (IgnoreNotFound _); by intros [= <- _]].
  apply Get_stored in Hget as [Hst Hk]. rewrite <-Hk in Hst.
  destruct (IsInitialized w); cbn [negb]; [|by apply status_keeps]. destruct (WasDeleted cr).
  - intros (w1 & [cr1 e1] & Hdel & Hrest)%prog_bind_Done Hp Ha. rewrite (Ha _ _ Hst) in Hdel.
    destruct (del_spec _ _ Hops _ _ _ _ _ Hdel) as (Ho & Hm & Hok).
    assert (Hp1 : protected w1) by (intros n Hn%Hm; unfold guarded; rewrite Ho; by apply Hp).
    assert (Ha1 : all_delete w1) by (unfold all_delete; by rewrite Ho).
    destruct e1 as [e1|]; [by eapply status_keeps|]. destruct (Hok eq_refl) as [-> Hno].
    apply prog_bind_Done in Hrest as (w2 & [cr2 e2] & Hrem & Hrest). rewrite <-Ho in Hst.
    destruct (remove_keeps cr w1 w2 _ Hst Hno Hrem Hp1 Ha1) as [Hp2 Ha2].
    destruct e2; [by eapply status_keeps|]. injection Hrest as <- _. done.
  - intros (w1 & [cr1 e1] & Hadd & Hrest)%prog_bind_Done Hp Ha.
    destruct (add_keeps cr w w1 cr1 e1 Hst Hadd Hp Ha) as (Hp1 & Ha1 & Hg). destruct e1 as [e1|]; [by eapply status_keeps|].
    apply prog_bind_Done in Hrest as (w2 & [cr2 e2] & Hups & Hrest).
    destruct (ups_spec _ _ Hops _ _ _ _ _ Hups) as (Ho & Hm).
    assert (Hp2 : protected w2).
    { intros n Hn. unfold guarded. rewrite Ho. destruct (Hm n Hn) as [Hn'| ->]; [by apply Hp1|by apply Hg]. }
    assert (Ha2 : all_delete w2) by (unfold all_delete; by rewrite Ho).
    destruct e2; by eapply status_keeps.
Qed.

Lemma mirror_steps_keep w w' :
  rtc mirror_step w w' → protected w → all_delete w → protected w' ∧ all_delete w'.
Proof.
  induction 1 as [w|w w1 w2 Hstep _ IH]; [done|]. intros Hp Ha.
  destruct Hstep as [req w w' r Hr|w w' Hm Hg Ha'].
  - destruct (reconcile_with_keeps _ _ _ _ Hr Hp Ha). by apply IH.
  - apply IH; [|done]. intros n Hn. by apply Hg, Hp, Hm.
Qed.
End protected.

(** ** Tokens *)

(** Creating and deleting a token in Gitea and storing a secret leave the token resources
    alone; a deletion that succeeded removed the token. *)
Class TokenLaws (W Token : Type) `{!TokenAPI Token, !Gitea W, !Mirror W Token, !Client W Secret} : Prop := {
  token_name (cr : Token) : mirror_name (W := W) cr = GetTokenName cr;
  CreateAccessToken_spec w n w' r : CreateAccessToken w n = (w', r) →
    objs w' = objs w ∧ ∀ m, mirrored (T := Token) w' m → mirrored (T := Token) w m ∨ m = n;
  DeleteAccessToken_spec w n w' err : DeleteAccessToken w n = (w', err) →
    objs w' = objs w ∧ (∀ m, mirrored (T := Token) w' m → mirrored (T := Token) w m) ∧
    (err = None → ¬ mirrored (T := Token) w' n);
  secret_Create_spec w (s : Secret) w' r : Create w s = (w', r) →
    objs (T := Token) w' = objs w ∧ ∀ m, mirrored (T := Token) w' m → mirrored (T := Token) w m;
  secret_Patch_spec w (s s' : Secret) w' r : MergePatch w s s' = (w', r) →
    objs (T := Token) w' = objs w ∧ ∀ m, mirrored (T := Token) w' m → mirrored (T := Token) w m
}.

Section token_properties.
Context `{!ApiErrors} {W Token : Type} `{!Object Token, !Client W Token, !Managed Token, !TokenAPI Token, !Gitea W}.
Context `{!Object Secret, !Client W Secret, !Mirror W Token, !MirrorLaws W Token, !TokenLaws W Token}.

Lemma apply_secret_spec (s : Secret) w w' r :
  Apply s [] w = Done (w', r) →
  objs (T := Token) w' = objs w ∧ ∀ m, mirrored (T := Token) w' m → mirrored (T := Token) w m.
Proof.
  unfold Apply. destruct (_ && _).
  { intros (w1 & [o e] & Hc & [= <- _])%prog_bind_Done. unfold call in Hc. injection Hc as Hc. by eapply secret_Create_spec. }
  unfold mbind at 1, prog_bind at 1. cbn [get_st run_options]. destruct (Get w (GetKey s)) as [cur|e].
  - intros (w1 & [o e] & Hc & [= <- _])%prog_bind_Done. unfold call in Hc. injection Hc as Hc. by eapply secret_Patch_spec.
  - destruct (IsNotFound e); [|by intros [= <- _]].
    intros (w1 & [o e'] & Hc & [= <- _])%prog_bind_Done. unfold call in Hc. injection Hc as Hc. by eapply secret_Create_spec.
Qed.

Lemma token_ops : mirror_ops (W := W) (T := Token) deleteToken createToken.
Proof.
  split.
  - intros cr w w' cr' err. unfold deleteToken. intros (w1 & e & Hd & Hr)%prog_bind_Done. unfold call in Hd. injection Hd as Hd.
    apply DeleteAccessToken_spec in Hd as (Ho & Hm & Hok). destruct e; injection Hr as <- <- <-; split_and!; try done.
    intros _. rewrite token_name. auto.
  - intros cr w w' cr' err. unfold createToken, mbind at 1, prog_bind at 1. cbn [get_st].
    destruct (ListAccessTokens w) as [l|]; [|by intros [= <- _]; auto].
    destruct (existsb _ l); [by intros [= <- _]; auto|]. destruct (GetMyUserInfo w) as [u|]; [|by intros [= <- _]; auto].
    intros (w1 & t & Hc & Hr)%prog_bind_Done. unfold call in Hc. injection Hc as Hc.
    apply CreateAccessToken_spec in Hc as (Ho & Hm). rewrite token_name.
    destruct t as [t|e]; [|injection Hr as <- _ _; split; auto].
    apply prog_bind_Done in Hr as (w2 & [s e] & Ha & Hr). apply apply_secret_spec in Ha as [Ho2 Hm2].
    assert (w' = w2) as -> by (by destruct e; injection Hr as <- _ _). split; [congruence|]. auto.
Qed.

(** C10: the token controller leaves no token of a resource with the deletion policy [delete]
    behind: when all resources have that policy (with [orphan] the token is meant to stay),
    from a state in which every token in Gitea has its resource with the finalizer on the API
    server, this stays so after any sequence of runs (failing calls included, whether or not
    they took effect) and changes by others, who neither add tokens to Gitea nor remove the
    finalizer, the resources that have it, or the policy; so a resource disappears only after
    its token has. *)
Theorem token_not_orphaned w w' :
  rtc (mirror_step requeue deleteToken createToken) w w' →
  protected (T := Token) w → all_delete (T := Token) w → protected (T := Token) w' ∧ all_delete (T := Token) w'.
Proof. apply mirror_steps_keep, token_ops. Qed.

(** C25: a token whose secret could not be stored is reported ready without a secret: the run
    in which storing the secret fails reports the failure and asks for another run, but that
    run (and every later one) finds the token in Gitea, does not look at the secret and
    sets the resource to ready, with no call but the update of the status. *)
Theorem token_secret_lost req w cr tokens user token w1 w2 o e :
  Get w req = Ok cr → IsInitialized w = true → WasDeleted cr = false → FinalizerExists cr finalizer = true →
  ListAccessTokens w = Ok tokens → GetTokenName cr ∉ tokens → GetMyUserInfo w = Ok user →
  CreateAccessToken w (GetTokenName cr) = (w1, Ok token) →
  Apply (tokenSecret cr user token) [] w1 = Done (w2, (o, Some e)) →
  token_Reconcile req w = updateStatus requeue (SetFailed e cr) w2 ∧
  ∀ w3 cr3 tokens3,
    Get w3 req = Ok cr3 → IsInitialized w3 = true → WasDeleted cr3 = false → FinalizerExists cr3 finalizer = true →
    ListAccessTokens w3 = Ok tokens3 → GetTokenName cr3 ∈ tokens3 →
    token_Reconcile req w3 = updateStatus done_result (SetReady cr3) w3.
Proof.
  intros Hg Hi Hd Hf Hl Hn Hu Hc Ha. split.
  - unfold token_Reconcile, reconcile_with, APIFinalizer_AddFinalizer, createToken, mbind, prog_bind, call. cbn [get_st].
    rewrite Hg, Hi, Hd, Hf. cbn. rewrite Hl. destruct (existsb _ tokens) eqn:He.
    { apply existsb_exists in He as (t & Ht%list_elem_of_In & Heq%bool_decide_eq_true). subst. done. }
    cbn. rewrite Hu, Hc. cbn. rewrite Ha. done.
  - intros w3 cr3 tokens3 Hg3 Hi3 Hd3 Hf3 Hl3 Hn3.
    unfold token_Reconcile, reconcile_with, APIFinalizer_AddFinalizer, createToken, mbind, prog_bind, call. cbn [get_st].
    rewrite Hg3, Hi3, Hd3, Hf3. cbn. rewrite Hl3. destruct (existsb _ tokens3) eqn:He; [done|].
    apply Bool.not_true_iff_false in He. destruct He. apply existsb_exists. exists (GetTokenName cr3).
    split; [by apply list_elem_of_In|by apply bool_decide_eq_true].
Qed.
End token_properties.

(** ** Repositories *)
Class RepositoryLaws (W Repository : Type) `{!Object Repository, !Gitea W, !Mirror W Repository, !RepositoryAPI Repository} : Prop := {
  repo_name (cr : Repository) : mirror_name (W := W) cr = repoName cr;
  CreateRepo_spec w opt w' r : CreateRepo w opt = (w', r) →
    objs w' = objs w ∧ ∀ m, mirrored (T := Repository) w' m → mirrored (T := Repository) w m ∨ m = cr_Name opt;
  EditRepo_spec w u n opt w' r : EditRepo w u n opt = (w', r) → er_Name opt = Some n →
    objs (T := Repository) w' = objs w ∧ ∀ m, mirrored (T := Repository) w' m → mirrored (T := Repository) w m;
  DeleteRepo_spec w u n w' err : DeleteRepo w u n = (w', err) → GetMyUserInfo w = Ok u →
    objs w' = objs w ∧ (∀ m, mirrored (T := Repository) w' m → mirrored (T := Repository) w m) ∧
    (err = None → ¬ mirrored (T := Repository) w' n)
}.

Section repository_properties.
Context `{!ApiErrors} {W Repository : Type} `{!Object Repository, !Client W Repository, !Managed Repository}.
Context `{!RepositoryAPI Repository, !Gitea W, !Mirror W Repository, !MirrorLaws W Repository, !RepositoryLaws W Repository}.

Lemma repository_ops : mirror_ops (W := W) (T := Repository) deleteRepo upsertRepo.
Proof.
  split.
  - intros cr w w' cr' err. unfold deleteRepo, mbind at 1, prog_bind at 1. cbn [get_st].
    destruct (GetMyUserInfo w) as [u|] eqn:Hu; [|by intros [= <- <- <-]].
    intros (w1 & e & Hd & Hr)%prog_bind_Done. unfold call in Hd. injection Hd as Hd.
    apply DeleteRepo_spec in Hd as (Ho & Hm & Hok); [|done]. destruct e; injection Hr as <- <- <-; split_and!; try done.
    intros _. rewrite repo_name. auto.
  - intros cr w w' cr' err. unfold upsertRepo, mbind at 1, prog_bind at 1. cbn [get_st].
    destruct (GetMyUserInfo w) as [u|]; [|by intros [= <- _]; auto]. rewrite repo_name.
    destruct (GetRepo w u (repoName cr)).
    + intros (w1 & t & Hc & Hr)%prog_bind_Done. unfold call in Hc. injection Hc as Hc. apply CreateRepo_spec in Hc as (Ho & Hm).
      assert (w' = w1) as -> by (by destruct t; injection Hr as <- _ _). done.
    + intros (w1 & t & Hc & Hr)%prog_bind_Done. unfold call in Hc. injection Hc as Hc. apply EditRepo_spec in Hc as (Ho & Hm); [|done].
      assert (w' = w1) as -> by (by destruct t; injection Hr as <- _ _). auto.
Qed.

(** The repository controller leaves no repository behind, in the same sense. *)
Theorem repository_not_orphaned w w' :
  rtc (mirror_step done_result deleteRepo upsertRepo) w w' →
  protected (T := Repository) w → all_delete (T := Repository) w →
  protected (T := Repository) w' ∧ all_delete (T := Repository) w'.
Proof. apply mirror_steps_keep, repository_ops. Qed.
End repository_properties.

(** ** A cluster with a Gitea server, and the witnesses *)
Module GitModel.

(** One kind of resource stands for both: its name is the name in Gitea. *)
Record res := mkRes { r_key : NamespacedName; r_fin : list string; r_ann : option (gmap string string); r_deleted : bool; r_status : string }.
(** [g_broken]: secrets cannot be stored. *)
Record git := mkGit { g_objs : gmap NamespacedName res; g_names : list string; g_secrets : list NamespacedName; g_broken : bool }.

#[export] Instance errors : ApiErrors := {
  IsNotFound e := bool_decide (e = "not found"); errors_Wrap e msg := msg +:+ ": " +:+ e }.
#[export] Instance res_object : Object res := {
  GetKey := r_key; GetGenerateName _ := ""; GetFinalizers := r_fin;
  SetFinalizers l o := mkRes (r_key o) l (r_ann o) (r_deleted o) (r_status o);
  ObjAnnotations := r_ann; SetObjAnnotations a o := mkRes (r_key o) (r_fin o) a (r_deleted o) (r_status o);
  HasDeletionTimestamp := r_deleted }.
#[export] Instance res_managed : Managed res := {
  SetFailed msg o := mkRes (r_key o) (r_fin o) (r_ann o) (r_deleted o) ("failed: " +:+ msg);
  SetReady o := mkRes (r_key o) (r_fin o) (r_ann o) (r_deleted o) "ready";
  DeletionDelete _ := true }.
#[export] Instance res_token : TokenAPI res := { GetTokenName o := key_Name (r_key o); tk_UID _ := "" }.
#[export] Instance res_repository : RepositoryAPI res := {
  re_Description _ := None; re_Private _ := None; re_IssueLabels _ := None; re_Gitignores _ := None; re_License _ := None;
  re_Readme _ := None; re_DefaultBranch _ := None; re_TrustModel _ := None; SetURL _ o := o }.
#[export] Instance secret_object : Object Secret := {
  GetKey := sec_Key; GetGenerateName _ := ""; GetFinalizers _ := []; SetFinalizers _ s := s; ObjAnnotations := sec_Annotations;
  SetObjAnnotations _ s := s; HasDeletionTimestamp _ := false }.

Definition put_objs (m : gmap NamespacedName res) (w : git) : git := mkGit m (g_names w) (g_secrets w) (g_broken w).
Definition g_get (w : git) (k : NamespacedName) : result res :=
  match g_objs w !! k with
  | Some o => if decide (r_key o = k) then Ok o else Err "not found"
  | None => Err "not found"
  end.
Definition g_update (w : git) (o : res) : git * (res * option error) :=
  if decide (is_Some (g_objs w !! r_key o)) then
    if decide (r_fin o = [] ∧ r_deleted o = true) then (put_objs (delete (r_key o) (g_objs w)) w, (o, None))
    else (put_objs (<[r_key o := o]> (g_objs w)) w, (o, None))
  else (w, (o, Some "not found")).
Definition g_status (w : git) (o : res) : git * (res * option error) :=
  (put_objs (alter (λ x, mkRes (r_key x) (r_fin x) (r_ann x) (r_deleted x) (r_status o)) (r_key o) (g_objs w)) w, (o, None)).
#[export] Instance res_client : Client git res := {
  Get := g_get; Create w o := (w, (o, Some "forbidden")); Update := g_update; StatusUpdate := g_status;
  MergePatch w o _ := (w, (o, Some "forbidden")) }.
#[export] Instance secret_client : Client git Secret := {
  Get w k := Err "not found";
  Create w s := if g_broken w then (w, (s, Some "quota exceeded"))
                else (mkGit (g_objs w) (g_names w) (sec_Key s :: g_secrets w) (g_broken w), (s, None));
  Update w s := (w, (s, None)); StatusUpdate w s := (w, (s, None)); MergePatch w s _ := (w, (s, None)) }.

Definition put_names (l : list string) (w : git) : git := mkGit (g_objs w) l (g_secrets w) (g_broken w).
#[export] Instance gitea : Gitea git := {
  IsInitialized _ := true; GetMyUserInfo _ := Ok "nephio"; ListAccessTokens w := Ok (g_names w);
  CreateAccessToken w n := (put_names (n :: g_names w) w, Ok "secret");
  DeleteAccessToken w n := (put_names (List.filter (λ m, negb (bool_decide (m = n))) (g_names w)) w, None);
  GetRepo w _ n := if decide (n ∈ g_names w) then None else Some "not found";
  CreateRepo w opt := (put_names (cr_Name opt :: g_names w) w, Ok "url");
  EditRepo w _ _ _ := (w, Ok "url");
  DeleteRepo w _ n := (put_names (List.filter (λ m, negb (bool_decide (m = n))) (g_names w)) w, None) }.
#[export] Instance mirror : Mirror git res := { objs := g_objs; mirrored w n := n ∈ g_names w; mirror_name o := key_Name (r_key o) }.

Lemma filter_names n (l : list string) m :
  m ∈ List.filter (λ m, negb (bool_decide (m = n))) l ↔ m ∈ l ∧ m ≠ n.
Proof.
  rewrite !list_elem_of_In, filter_In. rewrite negb_true_iff, bool_decide_eq_false. done.
Qed.

#[export] Instance mirror_laws : MirrorLaws git res.
Proof.
  constructor.
  - done.
  - intros w k o. cbn. unfold g_get. destruct (g_objs w !! k) as [x|]; [|done]. case_decide; [|done]. by intros [= ->].
  - intros w o w' o' err. cbn. unfold g_update. case_decide as He; [|intros [= <- <- <-]; split; [done|by left]].
    case_decide as Hd; intros [= <- <- <-]; (split; [done|]); right.
    + right. split; [apply Hd|done].
    + left. exists o. split; [done|]. done.
  - intros w o w' o' err [= <- _ _]. split; [done|]. intros k. cbn. destruct (decide (k = r_key o)) as [->|].
    + rewrite lookup_alter_eq. destruct (g_objs w !! r_key o); [done|]. done.
    + rewrite lookup_alter_ne by done. destruct (g_objs w !! k); done.
Qed.
#[export] Instance token_laws : TokenLaws git res.
Proof.
  constructor.
  - done.
  - intros w n w' r [= <- _]. split; [done|]. intros m. cbn. rewrite elem_of_cons. naive_solver.
  - intros w n w' err [= <- <-]. split; [done|]. cbn. setoid_rewrite filter_names. naive_solver.
  - intros w s w' r. cbn. destruct (g_broken w); by intros [= <- _].
  - by intros w s s' w' r [= <- _].
Qed.
#[export] Instance repository_laws : RepositoryLaws git res.
Proof.
  constructor.
  - done.
  - intros w opt w' r [= <- _]. split; [done|]. intros m. cbn. rewrite elem_of_cons. naive_solver.
  - by intros w u n opt w' r [= <- _].
  - intros w u n w' err [= <- <-] _. split; [done|]. cbn. setoid_rewrite filter_names. naive_solver.
Qed.
End GitModel.

Module GitWitnesses.
Import GitModel.

Definition k : NamespacedName := mkKey "default" "edge".
Definition fresh : res := mkRes k [] None false "".
Definition start (broken : bool) : git := mkGit {[ k := fresh ]} [] [] broken.
Definition world_of (p : comp (git * (Result * option error))) (w : git) : git := match p with Done (w, _) => w | Panic _ => w end.
Definition is_done (p : comp (git * (Result * option error))) : bool := match p with Done _ => true | Panic _ => false end.
Lemma done_ok p w : is_done p = true → ∃ r, p = Done (world_of p w, r).
Proof. destruct p as [[w' r]|]; [|done]. by exists r. Qed.
(** The user deletes the resource. *)
Definition mark (w : git) : git :=
  put_objs ((λ o, mkRes (r_key o) (r_fin o) (r_ann o) true (r_status o)) <$> g_objs w) w.

Lemma start_protected b : protected (T := res) (start b) ∧ all_delete (T := res) (start b).
Proof. split; [|done]. intros n Hn. by apply elem_of_nil in Hn. Defined.

Lemma mark_step onErr (del ups : res → prog git (res * option error)) w : mirror_step onErr del ups w (mark w).
Proof.
  apply mirror_others; [done| |done]. intros n. apply guarded_finalizers. intros k cr Hc Hf Hn. cbn in *.
  rewrite lookup_fmap, Hc. eexists. split; [reflexivity|]. done.
Defined.

Definition t1 := world_of (token_Reconcile k (start false)) (start false).
Definition t2 := world_of (token_Reconcile k (mark t1)) (mark t1).
Lemma token_not_orphaned_witness :
  (g_names t1 = ["edge"] ∧ g_secrets t1 = [k] ∧ g_names t2 = [] ∧ bool_decide (g_objs t2 = ∅) = true) ∧
  protected (T := res) t2 ∧ all_delete (T := res) t2.
Proof.
  split; [vm_compute; by split_and!|].
  apply (token_not_orphaned (start false) t2); [|apply start_protected|apply start_protected].
  destruct (done_ok (token_Reconcile k (start false)) (start false)) as [r1 H1]; [vm_compute; reflexivity|].
  destruct (done_ok (token_Reconcile k (mark t1)) (mark t1)) as [r2 H2]; [vm_compute; reflexivity|].
  eapply rtc_l; [eapply mirror_reconcile; exact H1|]. eapply rtc_l; [apply mark_step|].
  eapply rtc_l; [eapply mirror_reconcile; exact H2|]. apply rtc_refl.
Defined.

Definition p1 := world_of (repository_Reconcile k (start false)) (start false).
Definition p2 := world_of (repository_Reconcile k (mark p1)) (mark p1).
Lemma repository_not_orphaned_witness :
  (g_names p1 = ["edge"] ∧ g_names p2 = [] ∧ bool_decide (g_objs p2 = ∅) = true) ∧
  protected (T := res) p2 ∧ all_delete (T := res) p2.
Proof.
  split; [vm_compute; by split_and!|].
  apply (repository_not_orphaned (start false) p2); [|apply start_protected|apply start_protected].
  destruct (done_ok (repository_Reconcile k (start false)) (start false)) as [r1 H1]; [vm_compute; reflexivity|].
  destruct (done_ok (repository_Reconcile k (mark p1)) (mark p1)) as [r2 H2]; [vm_compute; reflexivity|].
  eapply rtc_l; [eapply mirror_reconcile; exact H1|]. eapply rtc_l; [apply mark_step|].
  eapply rtc_l; [eapply mirror_reconcile; exact H2|]. apply rtc_refl.
Defined.

(** The secret cannot be stored in the first run; later it could, but the resource is ready. *)
Definition owned : git := mkGit {[ k := mkRes k [finalizer] None false "" ]} [] [] true.
Definition l1 := world_of (token_Reconcile k owned) owned.
Definition repaired : git := mkGit (g_objs l1) (g_names l1) (g_secrets l1) false.
Definition l2 := world_of (token_Reconcile k repaired) repaired.
Definition status_of (w : git) : string := from_option r_status "" (g_objs w !! k).
Lemma token_secret_lost_witness :
  (status_of l1 = "failed: cannot create object: quota exceeded" ∧ status_of l2 = "ready" ∧
   g_names l2 = ["edge"] ∧ g_secrets l2 = []) ∧
  token_Reconcile k repaired = updateStatus done_result (SetReady (mkRes k [finalizer] None false (status_of l1))) repaired.
Proof.
  split; [vm_compute; by split_and!|].
  apply (token_secret_lost k owned (mkRes k [finalizer] None false "") [] "nephio" "secret" (put_names ["edge"] owned)
    (put_names ["edge"] owned) (tokenSecret (mkRes k [finalizer] None false "") "nephio" "secret")
    "cannot create object: quota exceeded") with (tokens3 := ["edge"]);
    try (vm_compute; reflexivity); try apply not_elem_of_nil.
  vm_compute. apply list_elem_of_here.
Defined.
End GitWitnesses.
