(* ===== verification/GiteaClient.v ===== *)
(** * [controllers/pkg/giteaclient]: the shared client of the Gitea server

    Any number of goroutines call [GetClient]; the first one creates the only instance and
    starts a goroutine that connects it ([Start]).  The calls are broken up at every access
    to the shared variables and interleaved; memory is sequentially consistent.  An
    iteration of the loop in [Start] is one step.  The Gitea SDK and the API server are
    parameters. *)
From S2P Require Import Prelude Kube Cluster GitControllers.

(** The environment of the process, the context, the secrets and the Gitea SDK; its methods
    get the pointer they are called on, which may be nil. *)
Class GiteaSDK (W : Type) := {
  LookupEnv : string → option string;
  ctx_Done : W → bool;
  get_Secret : W → NamespacedName → result Cluster.Secret;
  client : Type;
  (** [gitea.NewClient(url, gitea.SetBasicAuth(username, password))] *)
  gitea_NewClient : W → string → string → string → result client;
  sdk_GetMyUserInfo : option client → W → result string;
  sdk_ListAccessTokens : option client → W → result (list string);
  sdk_CreateAccessToken : option client → W → string → W * result string;
  sdk_DeleteAccessToken : option client → W → string → W * option error;
  sdk_GetRepo : option client → W → string → string → option error;
  sdk_CreateRepo : option client → W → CreateRepoOption → W * result string;
  sdk_EditRepo : option client → W → string → string → EditRepoOption → W * result string;
  sdk_DeleteRepo : option client → W → string → string → W * option error
}.

Definition Getenv `{!GiteaSDK W} (key : string) : string := default "" (LookupEnv key).

Section gitea_client.
Context {W : Type} `{!GiteaSDK W}.
Implicit Types w : W.

(** The struct; nil is [None].  Its API client, the same for all callers, is [get_Secret], and
    the context, which the manager hands to every call, is [ctx_Done]. *)
Record gc := mkGc { giteaClient : option client }.

(** ** [Start] *)

Definition secret_key : NamespacedName :=
  let namespace := Getenv "POD_NAMESPACE" in
  let namespace := match LookupEnv "GIT_NAMESPACE" with Some gitNamespace => gitNamespace | None => namespace end in
  let secretName := "git-user-secret" in
  let secretName := match LookupEnv "GIT_SECRET_NAME" with Some gitSecretName => gitSecretName | None => secretName end in
  mkKey namespace secretName.

(** [getClientAuth]: user name and password. *)
Definition getClientAuth (secret : Cluster.Secret) : string * string :=
  (default "" (Cluster.sec_Data secret !! "username"), default "" (Cluster.sec_Data secret !! "password")).

(** The default case of the loop up to the assignment: [Err] is a [break], tried again. *)
Definition connect w : result client :=
  match LookupEnv "GIT_URL" with
  | None => Err "git url not defined"
  | Some gitURL =>
      match get_Secret w secret_key with
      | Err e => Err e
      | Ok secret =>
          let auth := getClientAuth secret in
          gitea_NewClient w gitURL auth.1 auth.2
      end
  end.

Inductive loop := Looping | Cancelled | Connected.
#[export] Instance loop_eq_dec : EqDecision loop.
Proof. solve_decision. Defined.

(** One iteration. *)
Definition Start_iteration w (r : gc) : gc * loop :=
  if ctx_Done w then (r, Cancelled)
  else match connect w with
       | Err _ => (r, Looping)
       | Ok c => (mkGc (Some c), Connected)
       end.

(** ** The methods, which hand over to the SDK *)
Definition gc_IsInitialized (r : gc) : bool := match giteaClient r with Some _ => true | None => false end.
Definition gc_Get (r : gc) : option client := giteaClient r.
Definition with_gc {A} (r : gc) (x : W * A) : (W * gc) * A := ((x.1, r), x.2).

#[export] Instance gc_Gitea : Gitea (W * gc) := {
  IsInitialized s := gc_IsInitialized s.2;
  GetMyUserInfo s := sdk_GetMyUserInfo (giteaClient s.2) s.1;
  ListAccessTokens s := sdk_ListAccessTokens (giteaClient s.2) s.1;
  CreateAccessToken s name := with_gc s.2 (sdk_CreateAccessToken (giteaClient s.2) s.1 name);
  DeleteAccessToken s name := with_gc s.2 (sdk_DeleteAccessToken (giteaClient s.2) s.1 name);
  GetRepo s userName repoCRName := sdk_GetRepo (giteaClient s.2) s.1 userName repoCRName;
  CreateRepo s opt := with_gc s.2 (sdk_CreateRepo (giteaClient s.2) s.1 opt);
  EditRepo s userName repoCRName opt := with_gc s.2 (sdk_EditRepo (giteaClient s.2) s.1 userName repoCRName opt);
  DeleteRepo s owner repo := with_gc s.2 (sdk_DeleteRepo (giteaClient s.2) s.1 owner repo)
}.

(** ** [GetClient] *)

(** Pointers are positions in the heap of instances. *)
Abbreviation ptr := nat.
(** Where a call of [GetClient] is; the flag says whether the deferred [Unlock] is pending. *)
Inductive pc :=
  | AtArgs
  | AtCheck
  | AtLock
  | AtRecheck
  | AtCreate
  | AtGo
  | AtReturn (locked : bool)
  | AtUnlock (res : option ptr)
  | Returned (res : result (option ptr)).
(** A call: whether [ctx] and [client.Client] are not nil. *)
Record thread := mkThread { th_ctx : bool; th_client : bool; th_pc : pc }.

Record sys := mkSys {
  world : W;
  lock : option nat;
  singleInstance : option ptr;
  heap : list gc;
  (** the goroutines running [Start], each with its receiver *)
  starts : list (ptr * loop);
  threads : list thread
}.

Definition errCtx : error := "failed creating gitea client, value of ctx cannot be nil".
Definition errClient : error := "failed creating gitea client, value of client.Client cannot be nil".

Definition set_lock (l : option nat) (s : sys) : sys := mkSys (world s) l (singleInstance s) (heap s) (starts s) (threads s).

(** The next access of call [i] to the shared state; [None] when it has to wait or is over. *)
Definition GetClient_step (i : nat) (t : thread) (s : sys) : option (pc * sys) :=
  match th_pc t with
  | AtArgs =>
      if negb (th_ctx t) then Some (Returned (Err errCtx), s)
      else if negb (th_client t) then Some (Returned (Err errClient), s)
      else Some (AtCheck, s)
  | AtCheck =>
      match singleInstance s with
      | None => Some (AtLock, s)
      | Some _ => Some (AtReturn false, s)
      end
  | AtLock =>
      match lock s with
      | Some _ => None
      | None => Some (AtRecheck, set_lock (Some i) s)
      end
  | AtRecheck =>
      match singleInstance s with
      | None => Some (AtCreate, s)
      | Some _ => Some (AtReturn true, s)
      end
  | AtCreate =>
      Some (AtGo, mkSys (world s) (lock s) (Some (length (heap s))) (heap s ++ [mkGc None]) (starts s) (threads s))
  | AtGo =>
      match singleInstance s with
      | Some p => Some (AtReturn true, mkSys (world s) (lock s) (singleInstance s) (heap s) (starts s ++ [(p, Looping)]) (threads s))
      | None => None
      end
  | AtReturn locked => Some (if locked then AtUnlock (singleInstance s) else Returned (Ok (singleInstance s)), s)
  | AtUnlock res => Some (Returned (Ok res), set_lock None s)
  | Returned _ => None
  end.

Definition put_pc (i : nat) (t : thread) (p : pc) (s : sys) : sys :=
  mkSys (world s) (lock s) (singleInstance s) (heap s) (starts s) (<[i := mkThread (th_ctx t) (th_client t) p]> (threads s)).

(** A step of one of the calls. *)
Inductive call_step : sys → sys → Prop :=
  | call_moves i t p s s1 :
      threads s !! i = Some t → GetClient_step i t s = Some (p, s1) → call_step s (put_pc i t p s1).

(** A call that runs while no other one moves, as in the start-up of the manager; eight moves
    are the most a call has.  Whoever waits for a lock that is not given back waits forever. *)
Definition enter (ctx cl : bool) (s : sys) : sys :=
  mkSys (world s) (lock s) (singleInstance s) (heap s) (starts s) (threads s ++ [mkThread ctx cl AtArgs]).
Fixpoint GetClient_run (fuel i : nat) (s : sys) : sys :=
  match fuel with
  | 0 => s
  | S fuel =>
      match threads s !! i with
      | Some t => match GetClient_step i t s with
                  | Some (p, s1) => GetClient_run fuel i (put_pc i t p s1)
                  | None => s
                  end
      | None => s
      end
  end.
Definition GetClient (ctx cl : bool) (s : sys) : comp (sys * result (option ptr)) :=
  let i := length (threads s) in
  let s' := GetClient_run 8 i (enter ctx cl s) in
  match threads s' !! i with
  | Some (mkThread _ _ (Returned res)) => Done (s', res)
  | _ => Panic "all goroutines are asleep - deadlock!"
  end.

(** All steps: calls come in and move, [Start] goes round, the world changes. *)
Inductive sys_step : sys → sys → Prop :=
  | step_call s s' : call_step s s' → sys_step s s'
  | step_enter ctx cl s :
      sys_step s (enter ctx cl s)
  | step_start j p r s :
      starts s !! j = Some (p, Looping) → heap s !! p = Some r →
      sys_step s (mkSys (world s) (lock s) (singleInstance s) (<[p := (Start_iteration (world s) r).1]> (heap s))
                    (<[j := (p, (Start_iteration (world s) r).2)]> (starts s)) (threads s))
  | step_world w' s : sys_step s (mkSys w' (lock s) (singleInstance s) (heap s) (starts s) (threads s)).

Definition initial w : sys := mkSys w None None [] [] [].
Definition reachable (s : sys) : Prop := ∃ w, rtc sys_step (initial w) s.

(** ** The invariant *)
Definition args (t : thread) : Prop := th_ctx t = true ∧ th_client t = true.
(** Between [Lock] and [Unlock]. *)
Definition critical (p : pc) : bool :=
  match p with AtRecheck | AtCreate | AtGo | AtReturn true | AtUnlock _ => true | _ => false end.

(** What the position of a call says about the shared variables and its arguments. *)
Definition thread_ok (s : sys) (t : thread) : Prop :=
  match th_pc t with
  | AtArgs => True
  | AtCheck | AtLock | AtRecheck => args t
  | AtCreate => args t ∧ singleInstance s = None
  | AtGo => args t ∧ singleInstance s = Some 0 ∧ starts s = []
  | AtReturn _ => args t ∧ singleInstance s = Some 0
  | AtUnlock res | Returned (Ok res) => args t ∧ singleInstance s = Some 0 ∧ res = Some 0
  | Returned (Err e) => ¬ args t ∧ e = if th_ctx t then errClient else errCtx
  end.

(** The instance: none, made and about to be started, or with its one goroutine. *)
Inductive instance_ok (s : sys) : Prop :=
  | no_instance : singleInstance s = None → heap s = [] → starts s = [] → instance_ok s
  | created : singleInstance s = Some 0 → heap s = [mkGc None] → starts s = [] →
      (∃ i t, threads s !! i = Some t ∧ th_pc t = AtGo) → instance_ok s
  | started st r : singleInstance s = Some 0 → heap s = [r] → starts s = [(0, st)] →
      (giteaClient r = None ∧ st ≠ Connected ∨
       ∃ w c, giteaClient r = Some c ∧ st = Connected ∧ ctx_Done w = false ∧ connect w = Ok c) → instance_ok s.

Record client_inv (s : sys) : Prop := {
  inv_lock : ∀ i, lock s = Some i ↔ ∃ t, threads s !! i = Some t ∧ critical (th_pc t) = true;
  inv_threads : ∀ i t, threads s !! i = Some t → thread_ok s t;
  inv_instance : instance_ok s
}.

(** Only one call is between [Lock] and [Unlock]. *)
Lemma critical_unique s i j t u :
  client_inv s → threads s !! i = Some t → threads s !! j = Some u →
  critical (th_pc t) = true → critical (th_pc u) = true → i = j.
Proof.
  intros Hinv Ht Hu Hct Hcu.
  assert (lock s = Some i) as Hi by (apply (inv_lock _ Hinv); eauto).
  assert (lock s = Some j) as Hj by (apply (inv_lock _ Hinv); eauto). congruence.
Qed.

(** The lock after a move of call [i], which is not the other ones'. *)
Lemma lock_put s i t p s1 :
  client_inv s → threads s !! i = Some t → threads s1 = threads s →
  lock s1 = (if critical p then Some i else if critical (th_pc t) then None else lock s) →
  (critical p = true → critical (th_pc t) = false → lock s = None) →
  ∀ k, lock (put_pc i t p s1) = Some k ↔ ∃ u, threads (put_pc i t p s1) !! k = Some u ∧ critical (th_pc u) = true.
Proof.
  intros Hinv Ht Hth Hl Hfree k. cbn. rewrite Hth, Hl. apply lookup_lt_Some in Ht as Hlt.
  destruct (decide (k = i)) as [->|Hne].
  - rewrite list_lookup_insert_eq by done. destruct (critical p) eqn:Hp.
    { split; [intros _; eexists; split; [done|done]|done]. }
    split; [|intros (u & [= <-] & Hu); cbn in Hu; congruence].
    destruct (critical (th_pc t)) eqn:Hct; [done|]. intros (u & Hu & Hcu)%(inv_lock _ Hinv). congruence.
  - rewrite list_lookup_insert_ne by done. rewrite <- (inv_lock _ Hinv k).
    destruct (critical p) eqn:Hp; destruct (critical (th_pc t)) eqn:Hct; [| | |done].
    all: first [assert (lock s = Some i) as -> by (apply (inv_lock _ Hinv); eauto)|rewrite (Hfree eq_refl eq_refl)];
      split; congruence.
Qed.

(** A call that moves without touching the instance. *)
Lemma inv_moves s i t p s1 :
  client_inv s → threads s !! i = Some t → threads s1 = threads s →
  singleInstance s1 = singleInstance s → heap s1 = heap s → starts s1 = starts s → th_pc t ≠ AtGo →
  lock s1 = (if critical p then Some i else if critical (th_pc t) then None else lock s) →
  (critical p = true → critical (th_pc t) = false → lock s = None) →
  thread_ok s (mkThread (th_ctx t) (th_client t) p) → client_inv (put_pc i t p s1).
Proof.
  intros Hinv Ht Hth Hsi Hh Hst Hgo Hl Hfree Hok. apply lookup_lt_Some in Ht as Hlt.
  assert (Hsame : ∀ u, thread_ok s u → thread_ok (put_pc i t p s1) u).
  { intros u. unfold thread_ok. cbn. by rewrite Hsi, Hst. }
  split; [by eapply lock_put| |].
  - intros k u Hu. apply Hsame. cbn in Hu. rewrite Hth in Hu. destruct (decide (k = i)) as [->|Hne].
    + rewrite list_lookup_insert_eq in Hu by done. by injection Hu as <-.
    + rewrite list_lookup_insert_ne in Hu by done. by eapply (inv_threads _ Hinv).
  - destruct (inv_instance _ Hinv) as [H1 H2 H3|H1 H2 H3 (j & u & Hu & Hpc)|st r H1 H2 H3 H4].
    + apply no_instance; cbn; congruence.
    + apply created; cbn; [congruence..|]. exists j, u. rewrite Hth. split; [|done].
      rewrite list_lookup_insert_ne; [done|]. intros <-. congruence.
    + apply (started _ st r); cbn; [congruence..|exact H4].
Qed.

(** The two moves that make the instance and start its goroutine. *)
Lemma inv_create s i t p s1 :
  client_inv s → threads s !! i = Some t → th_pc t = AtCreate ∨ th_pc t = AtGo →
  GetClient_step i t s = Some (p, s1) → client_inv (put_pc i t p s1).
Proof.
  intros Hinv Ht Hpc Hstep. apply lookup_lt_Some in Ht as Hlt.
  pose proof (inv_threads _ Hinv _ _ Ht) as Hok. unfold thread_ok in Hok. unfold GetClient_step in Hstep.
  assert (lock s = Some i) as Hl by (apply (inv_lock _ Hinv); exists t; destruct Hpc as [-> | ->]; done).
  assert (Hothers : ∀ k u, k ≠ i → threads s !! k = Some u → critical (th_pc u) = false).
  { intros k u Hne Hu. apply not_true_iff_false. intros Hc. apply Hne. eapply (critical_unique s); [done..|].
    destruct Hpc as [-> | ->]; done. }
  destruct Hpc as [Hpc|Hpc]; rewrite Hpc in *.
  - destruct Hok as [Ha Hs0]. injection Hstep as <- <-.
    destruct (inv_instance _ Hinv) as [_ Hh Hst|H1|st r H1]; [|congruence..].
    split; [apply (lock_put s); rewrite ?Hpc; done| |].
    + intros k u Hu. cbn in Hu. destruct (decide (k = i)) as [->|Hne].
      * rewrite list_lookup_insert_eq in Hu by done. injection Hu as <-. cbn. rewrite Hh. by split.
      * rewrite list_lookup_insert_ne in Hu by done. pose proof (inv_threads _ Hinv _ _ Hu) as Hu'. specialize (Hothers _ _ Hne Hu).
        unfold thread_ok in *. destruct (th_pc u) as [| | | | | |[]|?|[?|?]]; cbn in *; try done; first [destruct Hu' as (_ & Hx & _)|destruct Hu' as (_ & Hx)]; congruence.
    + apply created; cbn; rewrite ?Hh; try done. exists i. eexists. by rewrite list_lookup_insert_eq.
  - destruct Hok as (Ha & Hs0 & Hst). rewrite Hs0 in Hstep. injection Hstep as <- <-.
    destruct (inv_instance _ Hinv) as [H1|_ Hh _ _|st r _ _ H3]; [congruence| |congruence].
    split; [apply (lock_put s); rewrite ?Hpc; done| |].
    + intros k u Hu. cbn in Hu. destruct (decide (k = i)) as [->|Hne].
      * rewrite list_lookup_insert_eq in Hu by done. injection Hu as <-. cbn. by split.
      * rewrite list_lookup_insert_ne in Hu by done. pose proof (inv_threads _ Hinv _ _ Hu) as Hu'. specialize (Hothers _ _ Hne Hu).
        unfold thread_ok in *. rewrite Hs0 in Hu'. destruct (th_pc u) as [| | | | | |[]|?|[?|?]]; cbn in *; done.
    + eapply (started _ Looping (mkGc None)); cbn; rewrite ?Hst; [done..|]. left. by split.
Qed.

Lemma inv_call s s' : client_inv s → call_step s s' → client_inv s'.
Proof.
  intros Hinv Hcall. destruct Hcall as [i t p s0 s1 Ht Hstep].
  pose proof (inv_threads _ Hinv _ _ Ht) as Hok.
  assert (Hc : th_pc t = AtCreate ∨ th_pc t = AtGo ∨ th_pc t ≠ AtCreate ∧ th_pc t ≠ AtGo) by (destruct (th_pc t); auto).
  destruct Hc as [Hc|[Hc|[Hcr Hgo]]]; [by eapply inv_create; eauto..|].
  assert (Hlock : critical (th_pc t) = true → lock s0 = Some i) by (intros; apply (inv_lock _ Hinv); eauto).
  assert (Hsi : ∀ q, singleInstance s0 = Some q → q = 0).
  { intros q Hq. destruct (inv_instance _ Hinv); congruence. }
  unfold GetClient_step in Hstep. unfold thread_ok in Hok.
  destruct (th_pc t) as [| | | | | |locked|res|[res|e]] eqn:Hpc; try done.
  - destruct t as [ctx cl q]. cbn in *. subst q. destruct ctx, cl; injection Hstep as <- <-; apply (inv_moves s0); cbn; try done;
      (split; [intros []; done|done]).
  - destruct (singleInstance s0) as [q|] eqn:Hq; injection Hstep as <- <-; apply (inv_moves s0); rewrite ?Hpc; try done.
    by rewrite (Hsi q eq_refl) in Hq.
  - destruct (lock s0) eqn:Hl; [done|]. injection Hstep as <- <-. apply (inv_moves s0); rewrite ?Hpc; done.
  - destruct (singleInstance s0) as [q|] eqn:Hq; injection Hstep as <- <-; apply (inv_moves s0); rewrite ?Hpc; try done; try by apply Hlock.
    by rewrite (Hsi q eq_refl) in Hq.
  - destruct Hok as [Ha Hs]. injection Hstep as <- <-. destruct locked; apply (inv_moves s0); rewrite ?Hpc; cbn; try done; by apply Hlock.
  - destruct Hok as (Ha & Hs & ->). injection Hstep as <- <-. apply (inv_moves s0); rewrite ?Hpc; cbn; done.
Qed.

Lemma inv_step s s' : client_inv s → sys_step s s' → client_inv s'.
Proof.
  intros Hinv Hstep. destruct Hstep as [s s' Hc|ctx cl s|j p r s Hj Hr|w' s].
  - by eapply inv_call.
  - split.
    + intros i. cbn. rewrite (inv_lock _ Hinv i). split; intros (t & Ht & Hc); exists t; (split; [|done]).
      * by apply lookup_app_l_Some.
      * apply lookup_app_Some in Ht as [Ht|[_ Ht]]; [done|]. apply list_lookup_singleton_Some in Ht as [_ <-]. done.
    + intros i t Ht. cbn in Ht. apply lookup_app_Some in Ht as [Ht|[_ Ht]]; [by apply (inv_threads _ Hinv _ _ Ht)|].
      apply list_lookup_singleton_Some in Ht as [_ <-]. done.
    + destruct (inv_instance _ Hinv) as [H1 H2 H3|H1 H2 H3 (i & t & Ht & Hpc)|st r H1 H2 H3 H4];
        [by apply no_instance|apply created; try done|by eapply started].
      exists i, t. split; [by apply lookup_app_l_Some|done].
  - destruct (inv_instance _ Hinv) as [H1 H2 H3|H1 H2 H3 H4|st r0 H1 H2 H3 H4]; [rewrite H3 in Hj; done..|].
    rewrite H3 in Hj. apply list_lookup_singleton_Some in Hj as [-> [= <- ->]]. rewrite H2 in Hr. apply list_lookup_singleton_Some in Hr as [_ ->].
    destruct H4 as [[Hnone _]|(w0 & c & _ & ? & _)]; [|done].
    split; [apply (inv_lock _ Hinv)| |].
    + intros i t Ht. pose proof (inv_threads _ Hinv _ _ Ht) as Hok. unfold thread_ok in *. cbn.
      destruct (th_pc t); try done. destruct Hok as (_ & _ & Hst). congruence.
    + eapply (started _ (Start_iteration (world s) r).2 (Start_iteration (world s) r).1); [done|cbn; rewrite H2; reflexivity|cbn; rewrite H3; reflexivity|]. unfold Start_iteration.
      destruct (ctx_Done (world s)) eqn:Hd; [by left|]. destruct (connect (world s)) as [c|e] eqn:Hco; [right|by left].
      exists (world s), c. done.
  - split; [apply (inv_lock _ Hinv)|apply (inv_threads _ Hinv)|].
    destruct (inv_instance _ Hinv) as [H1 H2 H3|H1 H2 H3 H4|st r0 H1 H2 H3 H4]; [by apply no_instance|by apply created|by eapply started].
Qed.

Lemma inv_initial w : client_inv (initial w).
Proof. split; [|done|by apply no_instance]. intros i. cbn. split; [done|]. intros (t & Ht & _). done. Qed.

Lemma inv_steps s s' : rtc sys_step s s' → client_inv s → client_inv s'.
Proof. induction 1 as [|s1 s2 s3 Hs _ IH]; [done|]. intros. by eapply IH, inv_step. Qed.
Lemma inv_reachable s : reachable s → client_inv s.
Proof. intros (w & Hs). eapply inv_steps; [done|apply inv_initial]. Qed.

(** ** What callers get *)

(** C12: There is one Gitea client however the calls of GetClient interleave: at most one instance is made and at most one Start goroutine started for it, every call with a context and an API client gets that same instance and never nil, the other calls get the error for the argument that is nil, and when all calls are over and one of them succeeded, the goroutine has been started. *)
Theorem gitea_singleton (s : sys) :
  reachable s →
  length (heap s) ≤ 1 ∧ length (starts s) ≤ 1 ∧
  (∀ i t res, threads s !! i = Some t → th_pc t = Returned res →
     if th_ctx t && th_client t then res = Ok (Some 0) ∧ length (heap s) = 1
     else res = Err (if th_ctx t then errClient else errCtx)) ∧
  ((∀ i t, threads s !! i = Some t → ∃ res, th_pc t = Returned res) →
   (∃ i t p, threads s !! i = Some t ∧ th_pc t = Returned (Ok p)) → ∃ st, starts s = [(0, st)]).
Proof.
  intros Hinv%inv_reachable.
  assert (Hlen : length (heap s) ≤ 1 ∧ length (starts s) ≤ 1).
  { destruct (inv_instance _ Hinv) as [_ Hh Hs|_ Hh Hs _|st r _ Hh Hs _]; rewrite Hh, Hs; cbn; lia. }
  destruct Hlen as [Hlh Hls]. split_and!; [done|done|intros i t res Ht Hpc|intros Hall (i & t & p & Ht & Hpc)];
    pose proof (inv_threads _ Hinv _ _ Ht) as Hok; unfold thread_ok in Hok; rewrite Hpc in Hok.
  - destruct res as [res|e].
    + destruct Hok as ([-> ->] & Hsi & ->). cbn. split; [done|].
      destruct (inv_instance _ Hinv) as [? _ _|_ Hh _ _|st r _ Hh _ _]; [congruence|by rewrite Hh..].
    + destruct Hok as (Hna & ->). unfold args in Hna. destruct (th_ctx t), (th_client t); cbn; try done. by destruct Hna.
  - destruct Hok as (_ & Hsi & _).
    destruct (inv_instance _ Hinv) as [? _ _|_ _ _ (j & u & Hu & Hgo)|st r _ _ Hs _]; [congruence| |by exists st].
    destruct (Hall _ _ Hu) as [res Hres]. congruence.
Qed.

(** How many moves a call has left. *)
Definition moves_left (t : thread) : nat :=
  match th_pc t with
  | AtArgs => 8 | AtCheck => 7 | AtLock => 6 | AtRecheck => 5 | AtCreate => 4 | AtGo => 3 | AtReturn true => 2 | AtReturn false => 1
  | AtUnlock _ => 1 | Returned _ => 0
  end.
Definition total_moves (s : sys) : nat := sum_list_with moves_left (threads s).

Lemma sum_insert_lt {A} (f : A → nat) (l : list A) i x y :
  l !! i = Some x → f y < f x → sum_list_with f (<[i := y]> l) < sum_list_with f l.
Proof.
  intros Hx Hlt. rewrite <- (take_drop_middle l i x Hx) at 2. rewrite (insert_take_drop l i y) by (by eapply lookup_lt_Some).
  rewrite !sum_list_with_app. cbn. lia.
Qed.

Lemma call_fewer_moves s s' : call_step s s' → total_moves s' < total_moves s.
Proof.
  intros Hc. destruct Hc as [i t p s s1 Ht Hstep]. unfold total_moves. cbn.
  assert (threads s1 = threads s ∧ moves_left (mkThread (th_ctx t) (th_client t) p) < moves_left t) as [-> Hlt].
  { unfold GetClient_step in Hstep. unfold moves_left. cbn.
    destruct (th_pc t) as [| | | | | |[]|?|?] eqn:Hpc; repeat case_match; simplify_eq; cbn; (split; [done|lia]). }
  by eapply sum_insert_lt.
Qed.

Lemma calls_finite s : sn call_step s.
Proof.
  remember (total_moves s) as n eqn:Hn. revert s Hn. induction (lt_wf n) as [n _ IH]. intros s ->.
  constructor. intros s' Hs'. eapply IH; [|done]. by apply call_fewer_moves.
Qed.

(** Whoever holds the lock can move. *)
Lemma critical_moves s i t :
  client_inv s → threads s !! i = Some t → (∀ res, th_pc t ≠ Returned res) → th_pc t ≠ AtLock → red call_step s.
Proof.
  intros Hinv Ht Hnr Hnl. pose proof (inv_threads _ Hinv _ _ Ht) as Hok.
  assert (is_Some (GetClient_step i t s)) as [[p s1] Hstep].
  { unfold GetClient_step, thread_ok in *. destruct (th_pc t) as [| | | | | | | |res] eqn:Hpc; try done;
      [destruct (th_ctx t), (th_client t); done|destruct (singleInstance s); done|destruct (singleInstance s); done
      |by destruct Hok as (_ & -> & _)|by destruct (Hnr res)]. }
  eexists. by eapply call_moves.
Qed.

(** C36: Calls of GetClient return: every schedule of the moves of the calls that are under way is finite, and it can only end when all of them have returned, so no call waits for the lock forever. *)
Theorem gitea_calls_return (s : sys) :
  reachable s →
  sn call_step s ∧ ∀ s', rtc call_step s s' → nf call_step s' → ∀ i t, threads s' !! i = Some t → ∃ res, th_pc t = Returned res.
Proof.
  intros Hinv%inv_reachable. split; [apply calls_finite|]. intros s' Hs' Hnf i t Ht.
  assert (Hinv' : client_inv s').
  { eapply inv_steps; [|exact Hinv]. eapply rtc_subrel; [|exact Hs']. intros ???. by apply step_call. }
  assert (Hdone : ∀ k u, threads s' !! k = Some u → th_pc u ≠ AtLock → ∃ res, th_pc u = Returned res).
  { intros k u Hu Hnl. destruct (th_pc u) as [| | | | | | | |res] eqn:Hpc; [..|by eauto]; try done;
      (destruct Hnf; eapply critical_moves; [done|exact Hu|intros ?; congruence|congruence]). }
  assert (th_pc t = AtLock ∨ th_pc t ≠ AtLock) as [Hl|Hl] by (destruct (th_pc t); auto); [|by eapply Hdone]. exfalso.
  destruct (lock s') as [k|] eqn:Hk.
  - apply (inv_lock _ Hinv') in Hk as (u & Hu & Hc). destruct (Hdone k u Hu) as [res Hr]; [by intros Heq; rewrite Heq in Hc|].
    by rewrite Hr in Hc.
  - apply Hnf. eexists. eapply call_moves; [done|]. unfold GetClient_step. by rewrite Hl, Hk.
Qed.

(** ** When the client is connected *)
Lemma connected_stays s s' p r c :
  client_inv s → sys_step s s' → heap s !! p = Some r → giteaClient r = Some c → heap s' !! p = Some r.
Proof.
  intros Hinv Hstep Hr Hc. destruct Hstep as [s s' Hcall|ctx cl s|j q r0 s Hj Hr0|w' s]; try done.
  - destruct Hcall as [i t pc0 s s1 Ht Hst]. cbn. unfold GetClient_step in Hst.
    destruct (th_pc t); repeat case_match; simplify_eq; cbn; try done. by apply lookup_app_l_Some.
  - cbn. rewrite list_lookup_insert_ne; [done|]. intros <-. rewrite Hr in Hr0. injection Hr0 as <-.
    destruct (inv_instance _ Hinv) as [_ _ H3|_ _ H3 _|st r1 _ H2 H3 H4]; [rewrite H3 in Hj; done..|].
    rewrite H3 in Hj. apply list_lookup_singleton_Some in Hj as [_ [= <- ->]]. rewrite H2 in Hr. apply list_lookup_singleton_Some in Hr as [_ ->].
    destruct H4 as [[Hn _]|(? & ? & _ & ? & _)]; [congruence|done].
Qed.

(** What an iteration of [Start], goroutine [j] on the instance [p], does at the state of [s]:
    when the context is cancelled it ends, when everything is there it stores the client and
    ends, and otherwise it goes round again. *)
Definition iterated (j : nat) (p : ptr) (s s' : sys) : Prop :=
  match ctx_Done (world s), connect (world s) with
  | true, _ => heap s' = heap s ∧ starts s' = <[j := (p, Cancelled)]> (starts s)
  | false, Ok c => heap s' = <[p := mkGc (Some c)]> (heap s) ∧ starts s' = <[j := (p, Connected)]> (starts s)
  | false, Err _ => heap s' = heap s ∧ starts s' = starts s
  end.
Lemma step_iterated j p r s :
  starts s !! j = Some (p, Looping) → heap s !! p = Some r → giteaClient r = None →
  iterated j p s (mkSys (world s) (lock s) (singleInstance s) (<[p := (Start_iteration (world s) r).1]> (heap s))
                    (<[j := (p, (Start_iteration (world s) r).2)]> (starts s)) (threads s)).
Proof.
  intros Hj Hr _. unfold iterated, Start_iteration. destruct (ctx_Done (world s)); [|destruct (connect (world s))]; cbn;
    split; try done; by apply list_insert_id.
Qed.
(** Only an iteration moves the goroutine on. *)
Lemma start_moves s s' j p r :
  client_inv s → sys_step s s' → starts s !! j = Some (p, Looping) → heap s !! p = Some r → giteaClient r = None →
  heap s' !! p = Some r ∧ starts s' !! j = Some (p, Looping) ∨ iterated j p s s'.
Proof.
  intros Hinv Hstep Hj Hr Hc. destruct Hstep as [s s' Hcall|ctx cl s|j0 q r0 s Hj0 Hr0|w' s]; [left|by left|right|by left].
  - destruct Hcall as [i t pc0 s s1 Ht Hst]. cbn. unfold GetClient_step in Hst.
    destruct (th_pc t); repeat case_match; simplify_eq; cbn; split; try done; by apply lookup_app_l_Some.
  - destruct (inv_instance _ Hinv) as [_ _ H3|_ _ H3 _|st r1 _ H2 H3 H4]; [rewrite H3 in Hj; done..|].
    pose proof Hj as Hj1. rewrite H3 in Hj1, Hj0. apply list_lookup_singleton_Some in Hj1 as [Hq1 [= Hq2 Hq3]].
    apply list_lookup_singleton_Some in Hj0 as [Hq4 [= Hq5]]. assert (j0 = j) as -> by congruence. assert (q = p) as -> by congruence.
    rewrite Hr in Hr0. injection Hr0 as <-. by apply step_iterated.
Qed.

(** C37: The client is connected once and for all with what Start finds: as long as the client is not initialized and Start is going round, an iteration of Start is possible, which ends it when the context is cancelled, stores the client and ends it when the git URL, the secret and the server are there, and changes nothing otherwise; and whatever step the system takes, the client and the place of Start change only by such an iteration, so Start never gives up before it has connected or is cancelled.  An initialized client was made by connecting (never after the context was cancelled) and stays the same in every later state, so a controller that has checked IsInitialized never works on a nil client. *)
Theorem gitea_connected (s : sys) p r :
  reachable s → heap s !! p = Some r →
  match giteaClient r with
  | Some c => starts s = [(p, Connected)] ∧ (∃ w, ctx_Done w = false ∧ connect w = Ok c) ∧ ∀ s', rtc sys_step s s' → heap s' !! p = Some r
  | None => ∀ j, starts s !! j = Some (p, Looping) →
      (∃ s', sys_step s s' ∧ iterated j p s s') ∧
      ∀ s', sys_step s s' → heap s' !! p = Some r ∧ starts s' !! j = Some (p, Looping) ∨ iterated j p s s'
  end.
Proof.
  intros Hinv%inv_reachable Hr. destruct (giteaClient r) as [c|] eqn:Hc.
  - apply and_assoc. split.
    + destruct (inv_instance _ Hinv) as [_ H2 _|_ H2 _ _|st r1 _ H2 H3 H4]; rewrite H2 in Hr; [done|..];
        apply list_lookup_singleton_Some in Hr as [-> <-]; [done|].
      destruct H4 as [[? _]|(w & c' & Hc' & -> & Hd & Hco)]; [congruence|]. split; [done|]. exists w. split; [done|]. congruence.
    + intros s' Hs. revert Hinv Hr. induction Hs as [|s1 s2 s3 H12 _ IH]; [done|]. intros Hinv Hr.
      apply IH; [by eapply inv_step|by eapply connected_stays].
  - intros j Hj. split; [|intros s' Hs; by eapply start_moves].
    eexists. split; [by eapply step_start|]. by apply step_iterated.
Qed.

(** ** A call on its own *)

(** What has been made when no call is under way. *)
Definition settled (s : sys) : Prop := client_inv s ∧ lock s = None.
Lemma settled_initial w : settled (initial w).
Proof. split; [apply inv_initial|done]. Qed.

Lemma GetClient_run_steps fuel i s : rtc sys_step s (GetClient_run fuel i s).
Proof.
  revert s. induction fuel as [|fuel IH]; intros s; [done|]. cbn.
  destruct (threads s !! i) as [t|] eqn:Ht; [|done]. destruct (GetClient_step i t s) as [[p s1]|] eqn:Hs; [|done].
  eapply rtc_l; [|apply IH]. by apply step_call, call_moves.
Qed.

(** The call at the end of the list. *)
Definition last_at (l : list thread) (p : pc) (s : sys) : sys :=
  mkSys (world s) (lock s) (singleInstance s) (heap s) (starts s) (l ++ [mkThread true true p]).
Lemma run_move l p q s s1 fuel :
  GetClient_step (length l) (mkThread true true p) (last_at l p s) = Some (q, last_at l p s1) →
  GetClient_run (S fuel) (length l) (last_at l p s) = GetClient_run fuel (length l) (last_at l q s1).
Proof.
  intros Hs. cbn [GetClient_run last_at threads]. rewrite lookup_app_r by lia. rewrite Nat.sub_diag. cbn.
  rewrite Hs. f_equal. unfold put_pc, last_at. cbn. f_equal. rewrite insert_app_r_alt by lia. by rewrite Nat.sub_diag.
Qed.

Lemma GetClient_returns s :
  settled s →
  ∃ s', GetClient true true s = Done (s', Ok (Some 0)) ∧ settled s' ∧ rtc sys_step s s' ∧
    length (heap s') = 1 ∧ length (starts s') = 1.
Proof.
  intros [Hinv Hl]. set (l := threads s). set (s0 := enter true true s).
  assert (Hend : ∃ s1, GetClient_run 8 (length l) s0 = last_at l (Returned (Ok (Some 0))) s1 ∧ lock s1 = None ∧
    length (heap s1) = 1 ∧ length (starts s1) = 1).
  { change s0 with (last_at l AtArgs s). rewrite (run_move _ _ AtCheck s s) by done.
    destruct (inv_instance _ Hinv) as [H1 H2 H3|H1 H2 H3 (i & t & Ht & Hgo)|st r H1 H2 H3 _].
    - rewrite (run_move _ _ AtLock s s) by (cbn; by rewrite H1).
      set (s2 := set_lock (Some (length l)) s). rewrite (run_move _ _ AtRecheck s s2) by (cbn; by rewrite Hl).
      rewrite (run_move _ _ AtCreate s2 s2) by (cbn; by rewrite H1).
      set (s3 := mkSys (world s) (lock s2) (Some 0) [mkGc None] [] l).
      rewrite (run_move _ _ AtGo s2 s3) by (cbn; by rewrite H2, H3).
      set (s4 := mkSys (world s) (lock s2) (Some 0) [mkGc None] [(0, Looping)] l).
      rewrite (run_move _ _ (AtReturn true) s3 s4) by done. rewrite (run_move _ _ (AtUnlock (Some 0)) s4 s4) by done.
      rewrite (run_move _ _ (Returned (Ok (Some 0))) s4 (set_lock None s4)) by done. by exists (set_lock None s4).
    - exfalso. assert (lock s = Some i) by (apply (inv_lock _ Hinv); exists t; by rewrite Hgo). congruence.
    - rewrite (run_move _ _ (AtReturn false) s s) by (cbn; by rewrite H1).
      rewrite (run_move _ _ (Returned (Ok (Some 0))) s s) by (cbn; by rewrite H1).
      exists s. rewrite H2, H3. split_and!; [|done..]. cbn [GetClient_run last_at threads]. rewrite lookup_app_r by lia. by rewrite Nat.sub_diag. }
  destruct Hend as (s1 & Hrun & Hl1 & Hh1 & Hs1). exists (last_at l (Returned (Ok (Some 0))) s1).
  assert (Hsteps : rtc sys_step s (last_at l (Returned (Ok (Some 0))) s1)).
  { rewrite <- Hrun. eapply rtc_l; [apply step_enter|apply GetClient_run_steps]. }
  split_and!; [|split; [by eapply inv_steps|done]|done..].
  unfold GetClient. fold l s0. rewrite Hrun. cbn [last_at threads]. rewrite lookup_app_r by lia. by rewrite Nat.sub_diag.
Qed.
End gitea_client.

(** ** Schedules, and the witnesses *)
Module GiteaClientWitnesses.
(** The world says whether the context is cancelled and whether the secret is there; a client
    is the URL, the user and the password it was made with. *)
Record env := mkEnv { e_done : bool; e_secret : bool }.
Definition userSecret : Cluster.Secret :=
  Cluster.mkSecret (mkMeta (mkKey "gitea" "git-user-secret") "" "" "" None [] false) "Opaque" {["username" := "nephio"; "password" := "pw"]}.
#[export] Instance env_sdk : GiteaSDK env := {
  LookupEnv k := if decide (k = "GIT_URL") then Some "http://gitea:3000" else if decide (k = "GIT_NAMESPACE") then Some "gitea" else None;
  ctx_Done := e_done;
  get_Secret w k := if e_secret w && bool_decide (k = mkKey "gitea" "git-user-secret") then Ok userSecret else Err "not found";
  client := string * string * string;
  gitea_NewClient _ url user pw := Ok (url, user, pw);
  sdk_GetMyUserInfo c _ := match c with Some (_, user, _) => Ok user | None => Err "nil" end;
  sdk_ListAccessTokens _ _ := Ok [];
  sdk_CreateAccessToken _ w n := (w, Ok n);
  sdk_DeleteAccessToken _ w _ := (w, None);
  sdk_GetRepo _ _ _ _ := Some "not found";
  sdk_CreateRepo _ w _ := (w, Ok "url");
  sdk_EditRepo _ w _ _ _ := (w, Ok "url");
  sdk_DeleteRepo _ w _ _ := (w, None)
}.

Inductive action := Enter (ctx cl : bool) | Move (i : nat) | Loop (j : nat) | World (w : env).
Definition act (a : action) (s : @sys env _) : option (@sys env _) :=
  match a with
  | Enter ctx cl => Some (mkSys (world s) (lock s) (singleInstance s) (heap s) (starts s) (threads s ++ [mkThread ctx cl AtArgs]))
  | Move i => t ← threads s !! i; '(p, s1) ← GetClient_step i t s; Some (put_pc i t p s1)
  | Loop j =>
      match starts s !! j with
      | Some (p, Looping) =>
          r ← heap s !! p;
          Some (mkSys (world s) (lock s) (singleInstance s) (<[p := (Start_iteration (world s) r).1]> (heap s))
                  (<[j := (p, (Start_iteration (world s) r).2)]> (starts s)) (threads s))
      | _ => None
      end
  | World w => Some (mkSys w (lock s) (singleInstance s) (heap s) (starts s) (threads s))
  end.
Fixpoint schedule (l : list action) (s : sys) : option sys :=
  match l with [] => Some s | a :: l => s1 ← act a s; schedule l s1 end.

Lemma act_step a s s' : act a s = Some s' → sys_step s s'.
Proof.
  destruct a as [ctx cl|i|j|w]; cbn.
  - intros [= <-]. apply step_enter.
  - intros (t & Ht & ([p s1] & Hs & [= <-])%bind_Some)%bind_Some. apply step_call. by apply call_moves.
  - destruct (starts s !! j) as [[p []]|] eqn:Hj; [|done..]. intros (r & Hr & [= <-])%bind_Some. by apply step_start.
  - intros [= <-]. apply step_world.
Qed.
Lemma schedule_steps l s s' : schedule l s = Some s' → rtc sys_step s s'.
Proof.
  revert s. induction l as [|a l IH]; cbn; intros s; [by intros [= ->]|].
  intros (s1 & Ha%act_step & Hl)%bind_Some. eapply rtc_l; [exact Ha|by apply IH].
Qed.

Definition start_world : env := mkEnv false false.
(** Two calls race past the first check, a third one has no context; the secret comes later. *)
Definition race : list action :=
  [Enter true true; Enter true true; Enter false true; Move 0; Move 1; Move 0; Move 1; Move 2; Move 1; Move 1; Move 1; Move 1; Move 1; Move 1;
   Move 0; Move 0; Move 0; Move 0; Loop 0; World (mkEnv false true); Loop 0].
Definition after_race : sys := mkSys (mkEnv false true) None (Some 0) [mkGc (Some ("http://gitea:3000", "nephio", "pw"))] [(0, Connected)]
  [mkThread true true (Returned (Ok (Some 0))); mkThread true true (Returned (Ok (Some 0))); mkThread false true (Returned (Err errCtx))].
Lemma race_reachable : reachable after_race.
Proof. exists start_world. apply (schedule_steps race). vm_compute. reflexivity. Qed.

Example gitea_singleton_witness :
  reachable after_race ∧ length (heap after_race) ≤ 1 ∧ ∃ st, starts after_race = [(0, st)].
Proof.
  destruct (gitea_singleton after_race race_reachable) as (Hlen & _ & _ & Hst). split_and!; [exact race_reachable|exact Hlen|].
  apply Hst.
  - intros [|[|[|i]]] t Ht; cbn in Ht; try (injection Ht as <-; eexists; reflexivity). discriminate Ht.
  - exists 0. eexists. eexists. split; reflexivity.
Defined.

(** One call holds the lock, another one waits for it. *)
Definition waiting : sys := mkSys start_world (Some 1) None [] [] [mkThread true true AtLock; mkThread true true AtRecheck].
Lemma waiting_reachable : reachable waiting.
Proof. exists start_world. apply (schedule_steps [Enter true true; Enter true true; Move 0; Move 1; Move 0; Move 1; Move 1]). vm_compute. reflexivity. Qed.
Example gitea_calls_return_witness : reachable waiting ∧ sn call_step waiting.
Proof. split; [exact waiting_reachable|]. exact (proj1 (gitea_calls_return waiting waiting_reachable)). Defined.

(** The client of the race is connected; one made before the secret is there goes on looking. *)
Definition early : sys := mkSys start_world None (Some 0) [mkGc None] [(0, Looping)] [mkThread true true (Returned (Ok (Some 0)))].
Lemma early_reachable : reachable early.
Proof. exists start_world. apply (schedule_steps [Enter true true; Move 0; Move 0; Move 0; Move 0; Move 0; Move 0; Move 0; Move 0]). vm_compute. reflexivity. Qed.
Example gitea_connected_witness :
  (reachable after_race ∧ heap after_race !! 0 = Some (mkGc (Some ("http://gitea:3000", "nephio", "pw"))) ∧
   ∃ w, connect w = Ok ("http://gitea:3000", "nephio", "pw")) ∧
  ∃ s', sys_step early s' ∧ starts s' = [(0, Looping)].
Proof.
  split.
  - split_and!; [exact race_reachable|reflexivity|].
    destruct (gitea_connected after_race 0 _ race_reachable eq_refl) as (_ & (w & _ & Hw) & _). exists w. exact Hw.
  - destruct (gitea_connected early 0 _ early_reachable eq_refl 0 eq_refl) as [(s' & Hs & _ & Hst) _]. exists s'. exact (conj Hs Hst).
Defined.
End GiteaClientWitnesses.
