(* ===== verification/Manager.v ===== *)
(** * The controller manager: [operators/nephio-controller-manager] and the setup of the reconcilers

    [main] registers the APIs, makes the clients and a manager, and sets up the enabled ones
    of the reconcilers that were registered by the [init] functions of their packages.  Each
    [SetupWithManager] fills in the fields of its reconciler and registers a controller.  The
    state of the start-up is the scheme, the Gitea client, the fields and the controllers;
    controller-runtime and client-go are parameters. *)
From S2P Require Import Prelude GoStrings Kube GoTime Inventory Cluster GitControllers GiteaClient.

(** ** What the libraries provide *)

(** The API packages that are added to schemes. *)
Inductive API :=
  | clientgo_api | core_api | meta_api | porchconfig_api | porch_api | packagevariant_api | capi_api
  | infra_api | ipam_api | vlan_api | inv_api | config_api.
#[export] Instance API_eq_dec : EqDecision API.
Proof. solve_decision. Defined.

(** A type of an API package, as it is given to [For], [Owns] and [Watches]. *)
Record ObjKind := mkObjKind { k_api : API; k_name : string }.
#[export] Instance ObjKind_eq_dec : EqDecision ObjKind.
Proof. solve_decision. Defined.
Definition PackageRevisionKind : ObjKind := mkObjKind porch_api "PackageRevision".

(** A controller as it is built: its name, and the types it looks at. *)
Record Controller := mkController { c_Name : string; c_For : ObjKind; c_Owns : list ObjKind; c_Watches : list (ObjKind * string) }.
Definition kinds_of (c : Controller) : list ObjKind := c_For c :: c_Owns c ++ (c_Watches c).*1.

(** An entry of the REST mapper: kind, plural and singular. *)
Record Mapping := mkMapping { rm_kind : ObjKind; rm_plural : string; rm_singular : string }.

Class Runtime := {
  Scheme : Type;
  NewScheme : Scheme;
  (** the [AddToScheme] of an API package *)
  api_AddToScheme : API → Scheme → Scheme * option error;
  rest_Config : Type;
  (** nil: the process exits *)
  GetConfigOrDie : option rest_Config;
  kube_Client : Type; api_Reader : Type; rest_Client : Type; IpamProxy : Type; VlanProxy : Type;
  (** [client.New] with a scheme and a mapper of the group versions given with the mappings given *)
  kube_client_New : rest_Config → Scheme → list API → list Mapping → result kube_Client;
  (** [rest.RESTClientFor] a group version below a path *)
  RESTClientFor : rest_Config → API → string → Scheme → result rest_Client;
  ipam_New : string → IpamProxy;
  vlan_New : string → VlanProxy;
  (** [ctrl.NewManager] with the addresses of metrics and probes and leader election: the
      client and the reader of the manager *)
  NewManager : rest_Config → Scheme → string → string → bool → result (kube_Client * api_Reader);
  (** [ctrl.NewControllerManagedBy(mgr)...Complete(r)], next to the controllers there are *)
  builder_Complete : Scheme → list Controller → Controller → option error;
  mgr_AddHealthzCheck : string → option error;
  mgr_AddReadyzCheck : string → option error;
  (** [mgr.Start]: blocks until the context is done *)
  mgr_Start : list Controller → option error
}.

(** ** [porch/client/client.go] *)
Section porch_client.
Context `{!Runtime}.

Definition add_api (a : API) : prog Scheme (option error) := call (api_AddToScheme a).
Definition porch_AddToScheme : prog Scheme (option error) :=
  for_each_err add_api [porchconfig_api; porch_api; packagevariant_api].
Definition createScheme : comp (result Scheme) :=
  '(scheme, err) ← (err ← porch_AddToScheme;
                    match err with Some e => mret (Some e) | None => for_each_err add_api [core_api; meta_api] end) NewScheme;
  Done (of_error scheme err).

Definition mapper_versions : list API := [porchconfig_api; porch_api; packagevariant_api; core_api; meta_api].
Definition mapper_kinds : list Mapping :=
  [mkMapping (mkObjKind porchconfig_api "Repository") "repositories" "repository";
   mkMapping PackageRevisionKind "packagerevisions" "packagerevision";
   mkMapping (mkObjKind porch_api "PackageRevisionResources") "packagerevisionresources" "packagerevisionresources";
   mkMapping (mkObjKind porch_api "Function") "functions" "function";
   mkMapping (mkObjKind packagevariant_api "PackageVariant") "packagevariants" "packagevariant";
   mkMapping (mkObjKind core_api "Secret") "secrets" "secret";
   mkMapping (mkObjKind meta_api "Table") "tables" "table"].

Definition CreateClient (config : rest_Config) : comp (result kube_Client) :=
  scheme ←? createScheme;
  Done (kube_client_New config scheme mapper_versions mapper_kinds).
Definition CreateRESTClient (config : rest_Config) : comp (result rest_Client) :=
  scheme ←? createScheme;
  Done (RESTClientFor config porch_api "/apis" scheme).
End porch_client.

(** ** The state of the start-up *)
Section setup.
Context `{!Runtime} {W : Type} `{!GiteaSDK W}.

(** [ctrlrconfig.ControllerConfig]; a nil interface is [None]. *)
Record ControllerConfig := mkControllerConfig {
  cfg_Address : string;
  cfg_PorchClient : option kube_Client;
  cfg_PorchRESTClient : rest_Client;
  cfg_IpamClientProxy : IpamProxy;
  cfg_VlanClientProxy : VlanProxy;
  cfg_ApprovalRequeueDuration : Z
}.
(** The value handed over as [interface{}]: a pointer to a configuration, a value of another
    type with its name, or nil. *)
Inductive any_config := ConfigPtr (p : option ControllerConfig) | OtherValue (typeName : string) | NilValue.

(** The fields of the reconcilers.  An applicator is its client, a finalizer the client and
    the name. *)
Inductive fields :=
  | ApprovalFields (apiReader : api_Reader) (baseClient : kube_Client) (porchRESTClient : rest_Client) (recorder : string) (requeueDuration : Z)
  | PackagesFields (client : kube_Client) (porchClient : option kube_Client)
  | ClientFields (client : kube_Client)
  | GenericFields (client : kube_Client) (porchClient : option kube_Client) (apiReader : api_Reader) (recorder : string)
      (ipamClientProxy : IpamProxy) (vlanClientProxy : VlanProxy)
  | NetworkFields (applicator : kube_Client) (fin : kube_Client * string) (vlanClientProxy : VlanProxy) (ipamClientProxy : IpamProxy)
  | GiteaFields (giteaClient : option nat) (applicator : kube_Client) (fin : kube_Client * string)
  | FnFields (client : kube_Client) (forKind : ObjKind) (porchClient : option kube_Client) (clientProxy : IpamProxy + VlanProxy).

Record startup := mkStartup {
  su_scheme : Scheme;
  su_gitea : sys (W := W);
  (** the reconcilers by name, once their fields are set *)
  su_fields : gmap string fields;
  su_controllers : list Controller;
  su_started : bool
}.
Record Manager := mkManager { mgr_Client : kube_Client; mgr_APIReader : api_Reader }.

Definition on_scheme {A} (m : prog Scheme A) : prog startup A := λ s,
  '(sc, a) ← m (su_scheme s); Done (mkStartup sc (su_gitea s) (su_fields s) (su_controllers s) (su_started s), a).
Definition on_gitea {A} (m : prog sys A) : prog startup A := λ s,
  '(g, a) ← m (su_gitea s); Done (mkStartup (su_scheme s) g (su_fields s) (su_controllers s) (su_started s), a).
Definition set_fields (name : string) (f : fields) : prog startup () :=
  modify (λ s, mkStartup (su_scheme s) (su_gitea s) (<[name := f]> (su_fields s)) (su_controllers s) (su_started s)).
(** [Complete(r)]: the controller is added when there is no error. *)
Definition add_controller (c : Controller) : prog startup (option error) := λ s,
  match builder_Complete (su_scheme s) (su_controllers s) c with
  | Some e => Done (s, Some e)
  | None => Done (mkStartup (su_scheme s) (su_gitea s) (su_fields s) (su_controllers s ++ [c]) (su_started s), None)
  end.

(** [cfg, ok := c.( *ControllerConfig)], [cfg.X], and the error for another type. *)
Definition as_config (c : any_config) : option ControllerConfig * bool :=
  match c with ConfigPtr p => (p, true) | _ => (None, false) end.
Definition deref_config (cfg : option ControllerConfig) : comp ControllerConfig :=
  match cfg with Some cfg => Done cfg | None => Panic nil_dereference end.
(** [reflect.TypeOf(c).Name()] is empty for a pointer type, and a panic for nil. *)
Definition not_a_config (c : any_config) : comp (option error) :=
  match c with
  | ConfigPtr _ => Done (Some "cannot initialize, expecting controllerConfig, got: ")
  | OtherValue typeName => Done (Some ("cannot initialize, expecting controllerConfig, got: " +:+ typeName))
  | NilValue => Panic nil_dereference
  end.
(** The APIs a reconciler adds; it goes on without an error. *)
Definition add_apis (l : list API) (k : prog startup (option error)) : prog startup (option error) :=
  err ← on_scheme (for_each_err add_api l);
  match err with Some e => mret (Some e) | None => k end.

(** ** [SetupWithManager] of the reconcilers *)
Definition requeueDuration (cfg : ControllerConfig) : Z := to_int64 (cfg_ApprovalRequeueDuration cfg * Second).

Definition approval_Setup (mgr : Manager) (c : any_config) : prog startup (option error) :=
  let '(cfg, ok) := as_config c in
  if negb ok then lift (not_a_config c)
  else
    cfg ← lift (deref_config cfg);
    set_fields "approval" (ApprovalFields (mgr_APIReader mgr) (mgr_Client mgr) (cfg_PorchRESTClient cfg) "approval-controller" (requeueDuration cfg)) ;;
    add_controller (mkController "ApprovalController" PackageRevisionKind [] []).

Definition packages_Setup (mgr : Manager) (c : any_config) : prog startup (option error) :=
  let '(cfg, ok) := as_config c in
  if negb ok then lift (not_a_config c)
  else
    add_apis [porch_api; porchconfig_api] (
      cfg ← lift (deref_config cfg);
      set_fields "bootstrappackages" (PackagesFields (mgr_Client mgr) (cfg_PorchClient cfg)) ;;
      add_controller (mkController "BootstrapPackageController" PackageRevisionKind [] [])).

Definition secrets_Setup (mgr : Manager) (c : any_config) : prog startup (option error) :=
  set_fields "bootstrapsecrets" (ClientFields (mgr_Client mgr)) ;;
  add_controller (mkController "BootstrapSecretController" (mkObjKind core_api "Secret") [] []).

Definition generic_Setup (mgr : Manager) (c : any_config) : prog startup (option error) :=
  let '(cfg, ok) := as_config c in
  if negb ok then lift (not_a_config c)
  else
    add_apis [porch_api] (
      cfg ← lift (deref_config cfg);
      set_fields "genericspecializer" (GenericFields (mgr_Client mgr) (cfg_PorchClient cfg) (mgr_APIReader mgr) "generic-specializer"
        (cfg_IpamClientProxy cfg) (cfg_VlanClientProxy cfg)) ;;
      add_controller (mkController "GenericSpecializer" PackageRevisionKind [] [])).

Definition ipam_Setup (mgr : Manager) (c : any_config) : prog startup (option error) :=
  let '(cfg, ok) := as_config c in
  if negb ok then lift (not_a_config c)
  else
    cfg ← lift (deref_config cfg);
    set_fields "ipamspecializer" (FnFields (mgr_Client mgr) (mkObjKind ipam_api "IPClaim") (cfg_PorchClient cfg) (inl (cfg_IpamClientProxy cfg))) ;;
    add_controller (mkController "IpamSpecializer" PackageRevisionKind [] []).

Definition vlan_Setup (mgr : Manager) (c : any_config) : prog startup (option error) :=
  let '(cfg, ok) := as_config c in
  if negb ok then lift (not_a_config c)
  else
    cfg ← lift (deref_config cfg);
    set_fields "vlanspecializer" (FnFields (mgr_Client mgr) (mkObjKind vlan_api "VLANClaim") (cfg_PorchClient cfg) (inr (cfg_VlanClientProxy cfg))) ;;
    add_controller (mkController "VlanSpecializer" PackageRevisionKind [] []).

Definition network_controller : Controller :=
  mkController "NetworkController" (mkObjKind infra_api "Network")
    [mkObjKind ipam_api "NetworkInstance"; mkObjKind vlan_api "VLANIndex"; mkObjKind config_api "Network"]
    [(mkObjKind inv_api "Endpoint", "endpointEventHandler"); (mkObjKind inv_api "Endpoint", "nodeEventHandler")].
Definition network_Setup (mgr : Manager) (c : any_config) : prog startup (option error) :=
  let '(cfg, ok) := as_config c in
  if negb ok then lift (not_a_config c)
  else
    add_apis [infra_api; ipam_api; vlan_api; inv_api; config_api] (
      cfg ← lift (deref_config cfg);
      set_fields "networks" (NetworkFields (mgr_Client mgr) (mgr_Client mgr, finalizer) (cfg_VlanClientProxy cfg) (cfg_IpamClientProxy cfg)) ;;
      add_controller network_controller).

(** The token and the repository reconciler get the Gitea client first, with the client of
    the configuration, and look at [ok] afterwards. *)
Definition gitea_Setup (name : string) (ctrl : Controller) (ctx : bool) (mgr : Manager) (c : any_config) : prog startup (option error) :=
  let '(cfg, ok) := as_config c in
  cfg ← lift (deref_config cfg);
  r ← on_gitea (GetClient ctx (bool_decide (is_Some (cfg_PorchClient cfg))));
  match r with
  | Err e => mret (Some e)
  | Ok giteaClient =>
      if negb ok then lift (not_a_config c)
      else
        add_apis [infra_api] (
          set_fields name (GiteaFields giteaClient (mgr_Client mgr) (mgr_Client mgr, finalizer)) ;;
          add_controller ctrl)
  end.
Definition token_Setup : bool → Manager → any_config → prog startup (option error) :=
  gitea_Setup "tokens" (mkController "TokenController" (mkObjKind infra_api "Token") [] []).
Definition repository_Setup : bool → Manager → any_config → prog startup (option error) :=
  gitea_Setup "repositories" (mkController "RepositoryController" (mkObjKind infra_api "Repository") [] []).

Definition spire_Setup (mgr : Manager) (c : any_config) : prog startup (option error) :=
  set_fields "workloadidentity" (ClientFields (mgr_Client mgr)) ;;
  add_controller (mkController "BootstrapSpireController" (mkObjKind capi_api "Cluster") [] []).

(** ** [reconciler-interface]: the registry, filled by the packages [main] imports *)
Inductive Reconciler := R_approval | R_packages | R_secrets | R_generic | R_ipam | R_vlan | R_network | R_repository | R_token | R_spire.
Definition SetupWithManager (r : Reconciler) (ctx : bool) (mgr : Manager) (c : any_config) : prog startup (option error) :=
  match r with
  | R_approval => approval_Setup mgr c
  | R_packages => packages_Setup mgr c
  | R_secrets => secrets_Setup mgr c
  | R_generic => generic_Setup mgr c
  | R_ipam => ipam_Setup mgr c
  | R_vlan => vlan_Setup mgr c
  | R_network => network_Setup mgr c
  | R_repository => repository_Setup ctx mgr c
  | R_token => token_Setup ctx mgr c
  | R_spire => spire_Setup mgr c
  end.

Definition Register (name : string) (r : Reconciler) (Reconcilers : gmap string Reconciler) : gmap string Reconciler :=
  <[name := r]> Reconcilers.
(** The [init] functions of the imported packages, in the order of the imports. *)
Definition Reconcilers : gmap string Reconciler :=
  foldl (λ m '(name, r), Register name r m) ∅
    [("approval", R_approval); ("bootstrappackages", R_packages); ("bootstrapsecrets", R_secrets); ("genericspecializer", R_generic);
     ("networks", R_network); ("repositories", R_repository); ("workloadidentity", R_spire); ("tokens", R_token)].

(** ** [nephio-controller-manager/main.go] *)
Context `{!GoRange}.

Definition parseReconcilers (reconcilers : string) : list string := split_on comma reconcilers.
Definition reconcilerIsEnabled (reconcilers : list string) (reconciler : string) : bool :=
  if bool_decide ("*" ∈ reconcilers) then true
  else if bool_decide (reconciler ∈ reconcilers) then true
  else match LookupEnv ("ENABLE_" +:+ ToUpper reconciler) with
       | Some val => bool_decide (val = "true")
       | None => false
       end.

(** The loop over the registered reconcilers, up to the first error. *)
Fixpoint setup_loop (enabledReconcilers : list string) (ctx : bool) (mgr : Manager) (c : any_config) (l : list (string * Reconciler)) :
    prog startup (option error) :=
  match l with
  | [] => mret None
  | (name, r) :: l =>
      if negb (reconcilerIsEnabled enabledReconcilers name) then setup_loop enabledReconcilers ctx mgr c l
      else
        err ← SetupWithManager r ctx mgr c;
        match err with
        | Some e => mret (Some e)
        | None => setup_loop enabledReconcilers ctx mgr c l
        end
  end.

(** The flags that are used, and the exit status. *)
Record Flags := mkFlags { metricsAddr : string; probeAddr : string; enabledReconcilersString : string; approvalRequeueDuration : Z }.
Definition backendAddress : string := default "127.0.0.1:9999" (LookupEnv "CLIENT_PROXY_ADDRESS").

(** What is done before the loop: the schemes, the clients and the manager, or exit. *)
Definition prepare (flags : Flags) : comp (result (Scheme * Manager * ControllerConfig)) :=
  '(scheme, err) ← (err ← for_each_err add_api [clientgo_api];
                    match err with
                    | Some e => mret (Some e)
                    | None => err ← porch_AddToScheme;
                              match err with Some e => mret (Some e) | None => for_each_err add_api [capi_api] end
                    end) NewScheme;
  match err with
  | Some e => Done (Err e)
  | None =>
      match GetConfigOrDie with
      | None => Done (Err "unable to get kubeconfig")
      | Some config =>
          porchClient ←? CreateClient config;
          porchRESTClient ←? CreateRESTClient config;
          '(client, reader) ←? Done (NewManager config scheme (metricsAddr flags) (probeAddr flags) false);
          Done (Ok (scheme, mkManager client reader,
            mkControllerConfig backendAddress (Some porchClient) porchRESTClient (ipam_New backendAddress) (vlan_New backendAddress)
              (approvalRequeueDuration flags)))
      end
  end.

(** What is done after it: the health checks and the start of the manager. *)
Definition start_manager : prog startup (option error) :=
  match mgr_AddHealthzCheck "healthz" with
  | Some e => mret (Some e)
  | None =>
      match mgr_AddReadyzCheck "readyz" with
      | Some e => mret (Some e)
      | None => λ s, Done (mkStartup (su_scheme s) (su_gitea s) (su_fields s) (su_controllers s) true, mgr_Start (su_controllers s))
      end
  end.

Definition exit_status (err : option error) : Z := match err with Some _ => 1 | None => 0 end.
Definition main (flags : Flags) (g : sys (W := W)) : comp (startup * Z) :=
  p ← prepare flags;
  match p with
  | Err _ => Done (mkStartup NewScheme g ∅ [] false, 1%Z)
  | Ok (scheme, mgr, ctrlCfg) =>
      '(s, err) ← setup_loop (parseReconcilers (enabledReconcilersString flags)) true mgr (ConfigPtr (Some ctrlCfg)) (range (at_ "main") Reconcilers)
                    (mkStartup scheme g ∅ [] false);
      match err with
      | Some _ => Done (s, 1%Z)
      | None => '(s, err) ← start_manager s; Done (s, exit_status err)
      end
  end.

(** ** What a reconciler ends up with *)
Definition reg_name (r : Reconciler) : string :=
  match r with
  | R_approval => "approval" | R_packages => "bootstrappackages" | R_secrets => "bootstrapsecrets" | R_generic => "genericspecializer"
  | R_ipam => "ipamspecializer" | R_vlan => "vlanspecializer" | R_network => "networks" | R_repository => "repositories"
  | R_token => "tokens" | R_spire => "workloadidentity"
  end.
Definition controller_of (r : Reconciler) : Controller :=
  match r with
  | R_approval => mkController "ApprovalController" PackageRevisionKind [] []
  | R_packages => mkController "BootstrapPackageController" PackageRevisionKind [] []
  | R_secrets => mkController "BootstrapSecretController" (mkObjKind core_api "Secret") [] []
  | R_generic => mkController "GenericSpecializer" PackageRevisionKind [] []
  | R_ipam => mkController "IpamSpecializer" PackageRevisionKind [] []
  | R_vlan => mkController "VlanSpecializer" PackageRevisionKind [] []
  | R_network => network_controller
  | R_repository => mkController "RepositoryController" (mkObjKind infra_api "Repository") [] []
  | R_token => mkController "TokenController" (mkObjKind infra_api "Token") [] []
  | R_spire => mkController "BootstrapSpireController" (mkObjKind capi_api "Cluster") [] []
  end.
(** The clients of the manager and of the configuration each one gets, and the one Gitea
    client. *)
Definition configured (mgr : Manager) (cfg : ControllerConfig) (r : Reconciler) : fields :=
  let c := mgr_Client mgr in
  match r with
  | R_approval => ApprovalFields (mgr_APIReader mgr) c (cfg_PorchRESTClient cfg) "approval-controller" (requeueDuration cfg)
  | R_packages => PackagesFields c (cfg_PorchClient cfg)
  | R_secrets | R_spire => ClientFields c
  | R_generic => GenericFields c (cfg_PorchClient cfg) (mgr_APIReader mgr) "generic-specializer" (cfg_IpamClientProxy cfg) (cfg_VlanClientProxy cfg)
  | R_ipam => FnFields c (mkObjKind ipam_api "IPClaim") (cfg_PorchClient cfg) (inl (cfg_IpamClientProxy cfg))
  | R_vlan => FnFields c (mkObjKind vlan_api "VLANClaim") (cfg_PorchClient cfg) (inr (cfg_VlanClientProxy cfg))
  | R_network => NetworkFields c (c, finalizer) (cfg_VlanClientProxy cfg) (cfg_IpamClientProxy cfg)
  | R_repository | R_token => GiteaFields (Some 0%nat) c (c, finalizer)
  end.
Definition uses_gitea (r : Reconciler) : bool := match r with R_repository | R_token => true | _ => false end.

Lemma registered_name name r : Reconcilers !! name = Some r → name = reg_name r.
Proof.
  assert (Hall : map_Forall (λ n r, n = reg_name r) Reconcilers) by (apply (bool_decide_unpack _); vm_compute; exact I). apply Hall.
Qed.
Lemma controller_names_inj r1 r2 : c_Name (controller_of r1) = c_Name (controller_of r2) → r1 = r2.
Proof. by destruct r1, r2. Qed.
Lemma reg_name_inj r1 r2 : reg_name r1 = reg_name r2 → r1 = r2.
Proof. by destruct r1, r2. Qed.

(** ** Nothing starts unless everything is set up *)

(** The fields and the controllers are the same. *)
Definition same_setup (s s' : startup) : Prop :=
  su_fields s' = su_fields s ∧ su_controllers s' = su_controllers s ∧ su_started s' = su_started s.
Lemma add_apis_Done l k s s' err :
  add_apis l k s = Done (s', err) → is_Some err ∧ same_setup s s' ∨ ∃ s1, same_setup s s1 ∧ k s1 = Done (s', err).
Proof.
  unfold add_apis. intros (s1 & e & H1 & H2)%prog_bind_Done. unfold on_scheme in H1.
  destruct (for_each_err add_api l (su_scheme s)) as [[sc a]|]; [|done]. injection H1 as <- <-.
  destruct a as [e|]; [injection H2 as <- <-; left; by split; [eexists|]|]. right. eexists. split; [|exact H2]. done.
Qed.

(** What a setup without an error leaves behind: the fields and the controller. *)
Definition set_up (r : Reconciler) (s s' : startup) : Prop :=
  (∃ f, su_fields s' = <[reg_name r := f]> (su_fields s)) ∧ su_controllers s' = su_controllers s ++ [controller_of r] ∧
  su_started s' = su_started s.
Lemma finish_Done (r : Reconciler) f s s' err :
  (set_fields (reg_name r) f ;; add_controller (controller_of r)) s = Done (s', err) →
  su_started s' = su_started s ∧ (err = None → set_up r s s').
Proof.
  intros (s1 & [] & [= <-] & H2)%prog_bind_Done. unfold add_controller in H2. cbn in H2.
  destruct (builder_Complete _ _ _); injection H2 as <- <-; (split; [done|]); [done|]. intros _. split_and!; [by eexists|done..].
Qed.

(** Every setup, with its early returns. *)
Lemma setup_Done r ctx mgr c s s' err :
  SetupWithManager r ctx mgr c s = Done (s', err) → su_started s' = su_started s ∧ (err = None → set_up r s s').
Proof.
  assert (Hfail : ∀ m, lift (not_a_config c) m = Done (s', err) → su_started s' = su_started m ∧ (err = None → set_up r m s')).
  { intros m. unfold lift. destruct c as [p|n|]; cbn; intros Hc; [by injection Hc as <- <-..|done]. }
  assert (Hfin : ∀ (f : ControllerConfig → fields) o m,
    (cfg ← lift (deref_config o); set_fields (reg_name r) (f cfg) ;; add_controller (controller_of r)) m = Done (s', err) →
    su_started s' = su_started m ∧ (err = None → set_up r m s')).
  { intros f [cfg|] m; [|done]. apply finish_Done. }
  assert (Happ : ∀ l k m, add_apis l k m = Done (s', err) →
    (∀ m1, k m1 = Done (s', err) → su_started s' = su_started m1 ∧ (err = None → set_up r m1 s')) →
    su_started s' = su_started m ∧ (err = None → set_up r m s')).
  { intros l k m [([e ->] & _ & _ & Hs)|(m1 & (Hf & Hc & Hs) & Hk)]%add_apis_Done Hnext; [done|].
    destruct (Hnext _ Hk) as [Hs' Hset]. split; [congruence|]. intros He. destruct (Hset He) as ((f & Hf') & Hc' & _).
    split_and!; [exists f; congruence|congruence|congruence]. }
  assert (Hgit : ∀ m, gitea_Setup (reg_name r) (controller_of r) ctx mgr c m = Done (s', err) →
    su_started s' = su_started m ∧ (err = None → set_up r m s')).
  { intros m. unfold gitea_Setup. destruct (as_config c) as [o ok]. intros (m1 & cfg & H1 & (m2 & res & H2 & H3)%prog_bind_Done)%prog_bind_Done.
    unfold lift in H1. destruct (deref_config o); [|done]. injection H1 as <- _.
    unfold on_gitea in H2. destruct (GetClient _ _ _) as [[g q]|]; [|done]. injection H2 as <- <-.
    destruct q as [p|e]; [|by injection H3 as <- <-]. destruct ok; [|by apply (Hfail _ H3)].
    refine (Happ _ _ _ H3 _). intros m3. apply finish_Done. }
  destruct r; cbn [SetupWithManager]; [..|exact (finish_Done R_spire _ _ _ _)];
    unfold approval_Setup, packages_Setup, generic_Setup, ipam_Setup, vlan_Setup, network_Setup; try exact (Hgit s); try exact (finish_Done R_secrets _ _ _ _).
  all: destruct (as_config c) as [o []]; [|by apply Hfail]; cbn [negb]; intros Hd; first [refine (Hfin _ _ _ Hd)|refine (Happ _ _ _ Hd _); intros m; apply Hfin].
Qed.

(** Which reconcilers are asked for. *)
Definition selected (names : list string) (name : string) : Prop :=
  "*" ∈ names ∨ name ∈ names ∨ LookupEnv ("ENABLE_" +:+ ToUpper name) = Some "true".
Lemma reconcilerIsEnabled_spec names name : reconcilerIsEnabled names name = true ↔ selected names name.
Proof.
  unfold reconcilerIsEnabled, selected. repeat case_bool_decide; try (split; [by auto|done]).
  destruct (LookupEnv _) as [v|]; [case_bool_decide|]; split; intros Hx; try done; try (destruct Hx as [?|[?|[=]]]; done).
  subst. by auto.
Qed.
(** The flag is the comma-separated list of names. *)
Lemma parseReconcilers_join n (l : list string) :
  Forall (λ w, has_char comma w = false) (n :: l) → parseReconcilers (String.concat (String comma "") (n :: l)) = n :: l.
Proof.
  unfold parseReconcilers. revert n. induction l as [|m l IH]; intros n [Hn Hl]%Forall_cons; [by apply split_on_no_sep|].
  change (String.concat (String comma "") (n :: m :: l)) with (n +:+ (String comma "" +:+ String.concat (String comma "") (m :: l))).
  change (String comma "" +:+ ?x) with (String comma x). rewrite split_on_sep by done. f_equal. by apply IH.
Qed.

(** The enabled ones of a list of registrations. *)
Definition enabled_in (names : list string) (l : list (string * Reconciler)) : list Reconciler :=
  (List.filter (λ e, reconcilerIsEnabled names e.1) l).*2.

Lemma setup_loop_Done names ctx mgr c l s s' err :
  setup_loop names ctx mgr c l s = Done (s', err) →
  su_started s' = su_started s ∧
  (err = None → su_controllers s' = su_controllers s ++ (controller_of <$> enabled_in names l) ∧
     ∀ n, is_Some (su_fields s' !! n) ↔ is_Some (su_fields s !! n) ∨ n ∈ reg_name <$> enabled_in names l).
Proof.
  revert s. induction l as [|[name r] l IH]; intros s; cbn [setup_loop].
  { intros [= <- <-]. split; [done|]. intros _. split; [by rewrite app_nil_r|]. intros n. cbn. set_solver. }
  unfold enabled_in. cbn [List.filter fst]. destruct (reconcilerIsEnabled names name); cbn [negb]; [|apply IH].
  intros (s1 & e & H1%setup_Done & H2)%prog_bind_Done. destruct H1 as [Hs1 Hset].
  destruct e as [e|]; [by injection H2 as <- <-|]. destruct (Hset eq_refl) as ((f & Hf) & Hc & _).
  apply IH in H2 as [Hs2 H2]. split; [congruence|]. intros He. destruct (H2 He) as [Hc2 Hf2]. fold (enabled_in names l). cbn. split.
  - rewrite Hc2, Hc, <- app_assoc. done.
  - intros n. rewrite Hf2, Hf, lookup_insert_is_Some', elem_of_cons. naive_solver.
Qed.

Context `{!GoRangeLaws}.
Lemma enabled_registered names r :
  r ∈ enabled_in names (range (at_ "main") Reconcilers) ↔ Reconcilers !! reg_name r = Some r ∧ reconcilerIsEnabled names (reg_name r) = true.
Proof.
  unfold enabled_in. rewrite list_elem_of_fmap. split.
  - intros ([n r'] & -> & Hin). rewrite list_elem_of_In, filter_In, <- list_elem_of_In in Hin. destruct Hin as [Hin He].
    rewrite (range_perm _ _), elem_of_map_to_list in Hin. pose proof (registered_name _ _ Hin) as ->. done.
  - intros [Hr He]. exists (reg_name r, r). split; [done|].
    rewrite list_elem_of_In, filter_In, <- list_elem_of_In, (range_perm _ _), elem_of_map_to_list. done.
Qed.
Lemma enabled_NoDup names : NoDup (enabled_in names (range (at_ "main") Reconcilers)).
Proof.
  assert (Hinj : ∀ l, NoDup l.*1 → (∀ n r, (n, r) ∈ l → n = reg_name r) → NoDup (enabled_in names l)).
  { intros l Hnd Hreg. unfold enabled_in. induction l as [|[n r] l IH]; [by constructor|]. cbn in Hnd. apply NoDup_cons in Hnd as [Hn Hnd].
    specialize (IH Hnd (λ n r Hin, Hreg n r (list_elem_of_further _ _ _ Hin))). cbn. case_match; [|done]. cbn. constructor; [|done].
    rewrite list_elem_of_fmap. intros ([n' r'] & -> & Hin). rewrite list_elem_of_In, filter_In, <- list_elem_of_In in Hin. destruct Hin as [Hin _].
    apply Hn. rewrite list_elem_of_fmap. exists (n', r'). split; [|done]. cbn.
    rewrite (Hreg n r') by apply list_elem_of_here. by rewrite (Hreg n' r') by (by apply list_elem_of_further). }
  apply Hinj.
  - rewrite (range_perm _ _). apply NoDup_fst_map_to_list.
  - intros n r. rewrite (range_perm _ _), elem_of_map_to_list. apply registered_name.
Qed.

(** C39: The manager is started with all of the reconcilers it was asked for, or the program ends with status 1: whatever fails on the way (a scheme, a client, a setup or a health check), when the manager is started every registered reconciler that the flag or the environment names has its fields set and exactly one controller, no other reconciler has, and the exit status tells whether the manager stopped with an error. *)
Theorem manager_all_or_nothing flags n l g s code :
  enabledReconcilersString flags = String.concat (String comma "") (n :: l) → Forall (λ w, has_char comma w = false) (n :: l) →
  main flags g = Done (s, code) →
  if su_started s then
    code = exit_status (mgr_Start (su_controllers s)) ∧
    NoDup (c_Name <$> su_controllers s) ∧
    (∀ c, c ∈ su_controllers s ↔ ∃ r, c = controller_of r ∧ Reconcilers !! reg_name r = Some r ∧ selected (n :: l) (reg_name r)) ∧
    ∀ name, is_Some (su_fields s !! name) ↔ is_Some (Reconcilers !! name) ∧ selected (n :: l) name
  else code = 1%Z.
Proof.
  intros Hflag Hl. unfold main. rewrite Hflag, parseReconcilers_join by done. destruct (prepare flags) as [[[[scheme mgr] cfg]|e]|]; [| |done].
  2: { cbn. by intros [= <- <-]. }
  cbn [mbind comp_bind]. destruct (setup_loop _ _ _ _ _ _) as [[s1 err]|] eqn:Hloop; [|done]. cbn.
  apply setup_loop_Done in Hloop as [Hst Hok]. cbn in Hst.
  destruct err as [e|]; [intros [= <- <-]; by rewrite Hst|]. destruct (Hok eq_refl) as [Hc Hf]. cbn in Hc, Hf. clear Hok.
  unfold start_manager. destruct (mgr_AddHealthzCheck _); [intros [= <- <-]; by rewrite Hst|].
  destruct (mgr_AddReadyzCheck _); [intros [= <- <-]; by rewrite Hst|]. intros [= <- <-]. cbn. rewrite Hc.
  split_and!; [done| | |].
  - rewrite <- list_fmap_compose. apply NoDup_fmap_2; [intros r1 r2; apply controller_names_inj|apply enabled_NoDup].
  - intros c. rewrite list_elem_of_fmap. split; intros (r & -> & Hr); exists r; (split; [done|]).
    + apply enabled_registered in Hr. by rewrite <- reconcilerIsEnabled_spec.
    + apply enabled_registered. by rewrite reconcilerIsEnabled_spec.
  - intros name. rewrite Hf, list_elem_of_fmap. split.
    + intros [[? [=]]|(r & -> & Hr)]. apply enabled_registered in Hr as [Hr He]. apply reconcilerIsEnabled_spec in He. split; [by exists r|done].
    + intros [[r Hr] Hsel]. right. pose proof (registered_name _ _ Hr) as ->. exists r. split; [done|]. apply enabled_registered.
      by rewrite reconcilerIsEnabled_spec.
Qed.

(** ** When the libraries do their part, the manager starts *)

(** The types of an API are known to a scheme once it was added (the client-go scheme has the
    core types), and a controller can be built for types that are known under a name that is
    not taken. *)
Class RuntimeLaws := {
  known : Scheme → API → Prop;
  AddToScheme_ok a sc : ∃ sc', api_AddToScheme a sc = (sc', None) ∧ known sc' a ∧ ∀ b, known sc b → known sc' b;
  clientgo_core sc sc' : api_AddToScheme clientgo_api sc = (sc', None) → known sc' core_api;
  Complete_ok sc cs c :
    Forall (λ k, known sc (k_api k)) (kinds_of c) → c_Name c ∉ c_Name <$> cs → builder_Complete sc cs c = None
}.
Context `{!RuntimeLaws}.

Lemma add_all_ok l sc :
  ∃ sc', for_each_err add_api l sc = Done (sc', None) ∧ (∀ a, a ∈ l → known sc' a) ∧ ∀ b, known sc b → known sc' b.
Proof.
  revert sc. induction l as [|a l IH]; intros sc; [exists sc; split_and!; [done|set_solver|done]|].
  destruct (AddToScheme_ok a sc) as (sc1 & Hq1 & Ha & Hkeep). destruct (IH sc1) as (sc2 & Hq2 & Hl & Hkeep2).
  exists sc2. split_and!; [|set_solver|naive_solver]. cbn [for_each_err]. unfold mbind, prog_bind, add_api at 1, call. cbn beta. by rewrite Hq1.
Qed.

(** The types that are known before the loop, and what a setup in the loop finds. *)
Definition base_apis : list API := [porch_api; core_api; capi_api].
Definition setting_up (s : startup) : Prop := (∀ a, a ∈ base_apis → known (su_scheme s) a) ∧ settled (su_gitea s).
(** A setup on such a state succeeds. *)
Definition advanced (mgr : Manager) (cfg : ControllerConfig) (r : Reconciler) (s s' : startup) : Prop :=
  su_fields s' = <[reg_name r := configured mgr cfg r]> (su_fields s) ∧ su_controllers s' = su_controllers s ++ [controller_of r] ∧
  su_started s' = su_started s ∧ setting_up s' ∧
  (if uses_gitea r then length (heap (su_gitea s')) = 1%nat else su_gitea s' = su_gitea s).

Lemma add_apis_ok l k s :
  setting_up s → ∃ s1, add_apis l k s = k s1 ∧ setting_up s1 ∧ (∀ a, a ∈ l → known (su_scheme s1) a) ∧
    same_setup s s1 ∧ su_gitea s1 = su_gitea s.
Proof.
  intros [Hb Hg]. destruct (add_all_ok l (su_scheme s)) as (sc & Hq1 & Hl & Hkeep).
  exists (mkStartup sc (su_gitea s) (su_fields s) (su_controllers s) (su_started s)).
  split_and!; [|split; [naive_solver|done]|done..]. unfold add_apis, on_scheme, mbind, prog_bind. by rewrite Hq1.
Qed.
Lemma finish_ok r f s :
  setting_up s → Forall (λ k, known (su_scheme s) (k_api k)) (kinds_of (controller_of r)) →
  c_Name (controller_of r) ∉ c_Name <$> su_controllers s →
  ∃ s', (set_fields (reg_name r) f ;; add_controller (controller_of r)) s = Done (s', None) ∧
    su_fields s' = <[reg_name r := f]> (su_fields s) ∧ su_controllers s' = su_controllers s ++ [controller_of r] ∧
    su_started s' = su_started s ∧ setting_up s' ∧ su_gitea s' = su_gitea s.
Proof.
  intros Hs Hk Hn. eexists. split.
  - unfold set_fields, modify, mbind, prog_bind, add_controller. cbn. rewrite Complete_ok by done. reflexivity.
  - by split_and!.
Qed.

Lemma setup_ok r mgr cfg s :
  setting_up s → is_Some (cfg_PorchClient cfg) → c_Name (controller_of r) ∉ c_Name <$> su_controllers s →
  ∃ s', SetupWithManager r true mgr (ConfigPtr (Some cfg)) s = Done (s', None) ∧ advanced mgr cfg r s s'.
Proof.
  intros Hs Hp Hn.
  assert (Hfin : ∀ m, setting_up m → same_setup s m → Forall (λ k, known (su_scheme m) (k_api k)) (kinds_of (controller_of r)) →
    (if uses_gitea r then length (heap (su_gitea m)) = 1%nat else su_gitea m = su_gitea s) →
    ∃ s', (set_fields (reg_name r) (configured mgr cfg r) ;; add_controller (controller_of r)) m = Done (s', None) ∧ advanced mgr cfg r s s').
  { intros m Hm (Hf & Hc & Hst) Hk Hg. rewrite <- Hc in Hn. destruct (finish_ok r (configured mgr cfg r) m Hm Hk Hn) as (s' & Hq1 & Hq2 & Hq3 & Hq4 & Hq5 & Hq6).
    exists s'. split; [done|]. split_and!; [congruence|congruence|congruence|done|]. destruct (uses_gitea r); congruence. }
  assert (Happ : ∀ l, (∀ k, k ∈ kinds_of (controller_of r) → k_api k ∈ base_apis ++ l) → uses_gitea r = false →
    ∃ s', add_apis l (set_fields (reg_name r) (configured mgr cfg r) ;; add_controller (controller_of r)) s = Done (s', None) ∧ advanced mgr cfg r s s').
  { intros l Hl Hu. destruct (add_apis_ok l (set_fields (reg_name r) (configured mgr cfg r) ;; add_controller (controller_of r)) s Hs) as (m & -> & Hm & Hk & Hsame & Hg).
    apply Hfin; [done|done| |by rewrite Hu]. apply Forall_forall. intros k Hin. specialize (Hl k Hin). apply elem_of_app in Hl as [?|?]; [by apply Hm|by apply Hk]. }
  assert (Hgit : uses_gitea r = true → kinds_of (controller_of r) = [mkObjKind infra_api (k_name (c_For (controller_of r)))] →
    ∃ s', gitea_Setup (reg_name r) (controller_of r) true mgr (ConfigPtr (Some cfg)) s = Done (s', None) ∧ advanced mgr cfg r s s').
  { intros Hu Hk. unfold gitea_Setup. cbn [as_config].
    destruct (GetClient_returns (su_gitea s)) as (g & Hg & Hset & _ & Hlen & _); [apply Hs|].
    unfold mbind at 1, prog_bind at 1, lift, deref_config. cbn [mbind comp_bind]. unfold mbind at 1, prog_bind at 1, on_gitea.
    rewrite bool_decide_true by done. rewrite Hg. cbn [mbind comp_bind negb].
    set (m := mkStartup _ _ _ _ _). assert (Hm : setting_up m) by (split; [apply Hs|done]).
    destruct (add_apis_ok [infra_api] (set_fields (reg_name r) (GiteaFields (Some 0%nat) (mgr_Client mgr) (mgr_Client mgr, finalizer)) ;; add_controller (controller_of r)) m Hm)
      as (m1 & -> & Hm1 & Hk1 & (Hf & Hc & Hst) & Hg1).
    assert (GiteaFields (Some 0%nat) (mgr_Client mgr) (mgr_Client mgr, finalizer) = configured mgr cfg r) as -> by (by destruct r).
    apply Hfin; [done|by split_and!| |rewrite Hu, Hg1; done]. rewrite Hk. constructor; [|by constructor]. apply Hk1. by apply list_elem_of_singleton. }
  destruct r; cbn [SetupWithManager]; try (by apply Hgit).
  all: unfold approval_Setup, packages_Setup, secrets_Setup, generic_Setup, ipam_Setup, vlan_Setup, network_Setup, spire_Setup; cbn [as_config negb deref_config].
  all: try (apply (Happ _); [|done]; cbn; set_solver).
  all: apply (Hfin s); [done|done| |done]; repeat constructor; apply Hs; set_solver.
Qed.

Lemma setup_loop_ok names mgr cfg l s :
  setting_up s → is_Some (cfg_PorchClient cfg) → NoDup (enabled_in names l) →
  (∀ r, r ∈ enabled_in names l → c_Name (controller_of r) ∉ c_Name <$> su_controllers s) →
  ∃ s', setup_loop names true mgr (ConfigPtr (Some cfg)) l s = Done (s', None) ∧ su_started s' = su_started s ∧
    (∀ r, r ∈ enabled_in names l → su_fields s' !! reg_name r = Some (configured mgr cfg r)) ∧
    (∀ n, n ∉ reg_name <$> enabled_in names l → su_fields s' !! n = su_fields s !! n) ∧
    (if existsb uses_gitea (enabled_in names l) then length (heap (su_gitea s')) = 1%nat else su_gitea s' = su_gitea s).
Proof.
  intros Hs Hp. revert s Hs. induction l as [|[name r] l IH]; intros s Hs Hnd Hfresh; [exists s; cbn; split_and!; [done|done|set_solver|done|done]|].
  revert Hnd Hfresh. unfold enabled_in. cbn [setup_loop List.filter fst]. destruct (reconcilerIsEnabled names name); cbn [negb]; [|by apply IH].
  fold (enabled_in names l). cbn [fmap list_fmap snd]. intros [Hr Hnd]%NoDup_cons Hfresh.
  destruct (setup_ok r mgr cfg s Hs Hp) as (s1 & Hq1 & Hf1 & Hc1 & Hst1 & Hs1 & Hg1); [apply Hfresh; by apply list_elem_of_here|].
  destruct (IH s1 Hs1 Hnd) as (s2 & Hq2 & Hst2 & Hf2 & Ho2 & Hg2).
  { intros r2 Hr2. rewrite Hc1, fmap_app, elem_of_app. intros [Hold|Hnew%list_elem_of_singleton].
    - by eapply Hfresh; [apply list_elem_of_further|].
    - apply controller_names_inj in Hnew as ->. done. }
  exists s2. split_and!.
  - unfold mbind, prog_bind. by rewrite Hq1.
  - congruence.
  - intros r2 [->|Hr2]%elem_of_cons; [|by apply Hf2]. rewrite Ho2, Hf1, lookup_insert_eq; [done|].
    intros (r3 & Heq%reg_name_inj & Hr3)%list_elem_of_fmap. by subst.
  - intros n [Hne Hn]%not_elem_of_cons. by rewrite Ho2, Hf1, lookup_insert_ne by done.
  - cbn [existsb]. destruct (existsb _ _); [by rewrite orb_true_r|]. rewrite orb_false_r, Hg2. done.
Qed.

(** Making a scheme and the clients succeeds. *)
Lemma createScheme_ok : ∃ sc, createScheme = Done (Ok sc).
Proof.
  unfold createScheme, porch_AddToScheme. destruct (add_all_ok [porchconfig_api; porch_api; packagevariant_api] NewScheme) as (sc1 & Hq1 & _).
  destruct (add_all_ok [core_api; meta_api] sc1) as (sc2 & Hq2 & _). exists sc2. unfold mbind at 2, prog_bind. rewrite Hq1, Hq2. done.
Qed.

Record servers_answer (flags : Flags) (config : rest_Config) (porch mc : kube_Client) (rest : rest_Client) (reader : api_Reader) : Prop := {
  sa_config : GetConfigOrDie = Some config;
  sa_client sc : kube_client_New config sc mapper_versions mapper_kinds = Ok porch;
  sa_rest sc : RESTClientFor config porch_api "/apis" sc = Ok rest;
  sa_manager sc : NewManager config sc (metricsAddr flags) (probeAddr flags) false = Ok (mc, reader);
  sa_healthz : mgr_AddHealthzCheck "healthz" = None;
  sa_readyz : mgr_AddReadyzCheck "readyz" = None
}.
Definition config_of (flags : Flags) (porch : kube_Client) (rest : rest_Client) : ControllerConfig :=
  mkControllerConfig backendAddress (Some porch) rest (ipam_New backendAddress) (vlan_New backendAddress) (approvalRequeueDuration flags).

Lemma prepare_ok flags config porch mc rest reader :
  servers_answer flags config porch mc rest reader →
  ∃ sc, prepare flags = Done (Ok (sc, mkManager mc reader, config_of flags porch rest)) ∧ ∀ a, a ∈ base_apis → known sc a.
Proof.
  intros [Hc Hk Hr Hm _ _]. unfold prepare, porch_AddToScheme.
  destruct (AddToScheme_ok clientgo_api NewScheme) as (sc1 & Hq1 & _). pose proof (clientgo_core _ _ Hq1) as Hcore.
  destruct (add_all_ok [porchconfig_api; porch_api; packagevariant_api] sc1) as (sc2 & Hq2 & Hin2 & Hkeep2).
  destruct (add_all_ok [capi_api] sc2) as (sc3 & Hq3 & Hin3 & Hkeep3). exists sc3.
  destruct createScheme_ok as [sc Hsc]. split.
  - assert (for_each_err add_api [clientgo_api] NewScheme = Done (sc1, None)) as Hq0.
    { cbn [for_each_err]. unfold mbind, prog_bind, add_api, call. cbn beta. by rewrite Hq1. }
    unfold mbind at 2, prog_bind at 1. rewrite Hq0. unfold mbind at 2, prog_bind. rewrite Hq2, Hq3. cbn [mbind comp_bind]. rewrite Hc.
    unfold CreateClient, CreateRESTClient. rewrite Hsc. cbn [try_bind]. rewrite Hk, Hr. cbn [try_bind]. rewrite Hm. done.
  - intros a. unfold base_apis. rewrite !elem_of_cons, elem_of_nil. intros [->|[->|[->|[]]]]; [apply Hkeep3, Hin2; set_solver|by apply Hkeep3, Hkeep2|apply Hin3; set_solver].
Qed.

(** C38: The manager comes up with exactly what it was asked for: when the APIs can be added to a scheme, the configuration, the clients and the manager can be made and controllers can be built for known types under names that are not taken, the start-up reaches the start of the manager in whatever order the registry is gone through, every selected reconciler has the clients of the manager and of the configuration it needs, and the token and the repository reconciler share one Gitea client, which is made exactly when one of them is selected. *)
Theorem manager_starts flags n l w config porch mc rest reader :
  enabledReconcilersString flags = String.concat (String comma "") (n :: l) → Forall (λ w, has_char comma w = false) (n :: l) →
  servers_answer flags config porch mc rest reader →
  ∃ s, main flags (initial w) = Done (s, exit_status (mgr_Start (su_controllers s))) ∧ su_started s = true ∧
    (∀ r, Reconcilers !! reg_name r = Some r → selected (n :: l) (reg_name r) →
       su_fields s !! reg_name r = Some (configured (mkManager mc reader) (config_of flags porch rest) r)) ∧
    (selected (n :: l) "tokens" ∨ selected (n :: l) "repositories" → length (heap (su_gitea s)) = 1%nat) ∧
    (¬ selected (n :: l) "tokens" → ¬ selected (n :: l) "repositories" → su_gitea s = initial w).
Proof.
  intros Hflag Hl Hsa. destruct (prepare_ok _ _ _ _ _ _ Hsa) as (sc & Hprep & Hbase). unfold main.
  rewrite Hflag, parseReconcilers_join, Hprep by done. cbn [mbind comp_bind].
  set (en := enabled_in (n :: l) (range (at_ "main") Reconcilers)).
  assert (Hsel : ∀ r, Reconcilers !! reg_name r = Some r → (r ∈ en ↔ selected (n :: l) (reg_name r))).
  { intros r Hr. unfold en. rewrite enabled_registered, reconcilerIsEnabled_spec. naive_solver. }
  destruct (setup_loop_ok (n :: l) (mkManager mc reader) (config_of flags porch rest) (range (at_ "main") Reconcilers) (mkStartup sc (initial w) ∅ [] false))
    as (s & -> & Hst & Hf & _ & Hg); [split; [done|apply settled_initial]|by eexists|apply enabled_NoDup|cbn; set_solver|].
  cbn [mbind comp_bind]. unfold start_manager. rewrite (sa_healthz _ _ _ _ _ _ Hsa), (sa_readyz _ _ _ _ _ _ Hsa). cbn.
  exists (mkStartup (su_scheme s) (su_gitea s) (su_fields s) (su_controllers s) true). split; [reflexivity|]. cbn. split_and!; [done| | |].
  - intros r Hr Hs. apply Hf. by apply Hsel.
  - intros Hs. fold en in Hg. rewrite (proj2 (existsb_exists _ _)) in Hg; [done|].
    destruct Hs as [Hs|Hs]; [exists R_token|exists R_repository]; (split; [|done]); apply list_elem_of_In, Hsel; done.
  - intros Ht Hr. fold en in Hg. destruct (existsb uses_gitea en) eqn:He; [|done].
    apply existsb_exists in He as (r & Hin%list_elem_of_In & Hu). exfalso. destruct r; try done;
      [apply Hr; by apply (Hsel R_repository)|apply Ht; by apply (Hsel R_token)].
Qed.

(** ** Overflow of the requeue duration, and values that are no configuration *)

(** The requeue duration of the approval controller fits 64 bits and is the number of seconds of the flag exactly for values of at most 9223372036 in size; beyond that the multiplication wraps around. *)
Theorem requeue_bounds (cfg : ControllerConfig) :
  is_int64 (requeueDuration cfg) ∧
  (requeueDuration cfg = cfg_ApprovalRequeueDuration cfg * Second ↔ -9223372036 ≤ cfg_ApprovalRequeueDuration cfg ≤ 9223372036)%Z.
Proof.
  split; [apply to_int64_bounds|]. unfold requeueDuration. set (z := cfg_ApprovalRequeueDuration cfg).
  pose proof (to_int64_bounds (z * Second)) as Hb. unfold is_int64, two63, Second in *. split.
  - intros He. rewrite He in Hb. lia.
  - intros Hz. unfold to_int64, to_uint64, two63, two64.
    destruct (decide (0 ≤ z)%Z) as [Hpos|Hneg].
    + rewrite Z.mod_small by lia. rewrite decide_True by lia. done.
    + rewrite <- (Z.mod_unique (z * 1000000000) (2 ^ 64) (-1) (z * 1000000000 + 2 ^ 64)) by lia. rewrite decide_False by lia. lia.
Qed.

(** The token and the repository reconciler dereference a configuration of another type
    before they look at [ok]; the others return the error they mean to return. *)
Lemma gitea_setup_panics name ctrl ctx mgr typeName s : gitea_Setup name ctrl ctx mgr (OtherValue typeName) s = Panic nil_dereference.
Proof. done. Qed.
Lemma approval_setup_refuses mgr typeName s :
  approval_Setup mgr (OtherValue typeName) s = Done (s, Some ("cannot initialize, expecting controllerConfig, got: " +:+ typeName)).
Proof. done. Qed.
End setup.

(** ** Witnesses *)
Module ManagerWitnesses.
Import GiteaClientWitnesses InventoryModel.

(** A scheme is the list of the APIs it knows; clients are named after what made them. *)
Definition rt_known (sc : list API) (k : ObjKind) : bool := bool_decide (k_api k ∈ sc).
#[export] Instance rt : Runtime := {|
  Scheme := list API; NewScheme := [];
  api_AddToScheme a sc := ((if decide (a = clientgo_api) then [clientgo_api; core_api] else [a]) ++ sc, None);
  rest_Config := unit; GetConfigOrDie := Some ();
  kube_Client := string; api_Reader := string; rest_Client := string; IpamProxy := string; VlanProxy := string;
  kube_client_New _ _ _ _ := Ok "porch"; RESTClientFor _ _ _ _ := Ok "rest";
  ipam_New a := a; vlan_New a := a;
  NewManager _ _ _ _ _ := Ok ("manager", "reader");
  builder_Complete sc cs c :=
    if forallb (rt_known sc) (kinds_of c) then
      if decide (c_Name c ∈ c_Name <$> cs) then Some "controller names must be unique" else None
    else Some "no kind is registered";
  mgr_AddHealthzCheck _ := None; mgr_AddReadyzCheck _ := None; mgr_Start _ := None |}.
#[export] Instance rt_laws : @RuntimeLaws rt.
Proof.
  refine (Build_RuntimeLaws (λ (sc : @Scheme rt) a, a ∈ (sc : list API)) _ _ _).
  - intros a sc. eexists. split; [reflexivity|]. cbn. case_decide; subst; set_solver.
  - intros sc sc' [= <-]. cbn. set_solver.
  - intros sc cs c Hk Hn. cbn [builder_Complete rt]. rewrite decide_False by done.
    assert (forallb (rt_known sc) (kinds_of c) = true) as ->; [|done]. apply forallb_forall. intros k Hin. apply bool_decide_true.
    rewrite Forall_forall in Hk. apply Hk. by apply list_elem_of_In.
Defined.
Definition flags1 : Flags := mkFlags ":8080" ":8081" "tokens,repositories,approval" 15.
Lemma answers : @servers_answer rt flags1 () "porch" "manager" "rest" "reader".
Proof. by constructor. Qed.
Definition nothing : @startup rt env env_sdk := mkStartup (NewScheme : @Scheme rt) (initial start_world) ∅ [] false.
Definition started_up : @startup rt env env_sdk :=
  match main flags1 (initial start_world) with Done (s, _) => s | Panic _ => nothing end.
Lemma started_up_eq : main flags1 (initial start_world) = Done (started_up, 0%Z).
Proof. vm_compute. reflexivity. Qed.
Lemma flags1_ok : enabledReconcilersString flags1 = String.concat (String comma "") ["tokens"; "repositories"; "approval"] ∧
  Forall (λ w, has_char comma w = false) ["tokens"; "repositories"; "approval"].
Proof. split; [done|]. by repeat constructor. Qed.

Lemma manager_all_or_nothing_witness :
  su_started started_up = true ∧ NoDup (c_Name <$> su_controllers started_up) ∧
  (is_Some (su_fields started_up !! "tokens") ↔ is_Some (Reconcilers !! "tokens") ∧ selected ["tokens"; "repositories"; "approval"] "tokens").
Proof.
  destruct flags1_ok as [Hf Hl].
  pose proof (manager_all_or_nothing flags1 _ _ (initial start_world) started_up 0%Z Hf Hl started_up_eq) as Hm.
  assert (su_started started_up = true) as Hs by (vm_compute; reflexivity). rewrite Hs in Hm. destruct Hm as (_ & Hn & _ & Hd).
  split_and!; [exact Hs|exact Hn|exact (Hd "tokens")].
Defined.
Lemma manager_starts_witness : ∃ s : @startup rt env env_sdk, su_started s = true ∧ length (heap (su_gitea s)) = 1%nat.
Proof.
  destruct flags1_ok as [Hf Hl].
  destruct (manager_starts (W := env) flags1 _ _ start_world (() : @rest_Config rt) ("porch" : @kube_Client rt) ("manager" : @kube_Client rt) ("rest" : @rest_Client rt) ("reader" : @api_Reader rt) Hf Hl answers) as (s & _ & Hs & _ & Hg & _).
  exists s. split; [exact Hs|]. apply Hg. left. right. left. by apply list_elem_of_here.
Defined.
(** A flag of 9223372037 seconds becomes a negative duration. *)
Example requeue_overflow :
  requeueDuration (mkControllerConfig "" (Some "porch" : option (@kube_Client rt)) "rest" "" "" 9223372037 : @ControllerConfig rt) = (-9223372036709551616)%Z.
Proof. vm_compute. reflexivity. Qed.
End ManagerWitnesses.
