(* ===== verification/Focom.v ===== *)
(** * [operators/focom-operator]: provisioning requests

    The operator turns a [FocomProvisioningRequest] into a [ProvisioningRequest] on a remote
    cluster (an O-Cloud), follows its status and deletes it with the request.  The API
    servers are parameters; the remote clusters are part of the same state [W]. *)
From S2P Require Import Prelude Kube.

Definition focomFinalizer : string := "focom.nephio.org/finalizer".

(** ** [api/focom/v1alpha1] *)
Record FocomProvisioningRequestSpec := mkSpec {
  OCloudId : string;
  OCloudNamespace : string;
  spec_Name : string;
  Description : string;
  TemplateName : string;
  TemplateVersion : string;
  (** the raw bytes *)
  TemplateParameters : string
}.
Record FocomProvisioningRequestStatus := mkStatus {
  Phase : string;
  Message : string;
  LastUpdated : option Z;
  RemoteName : string
}.
Record FocomProvisioningRequest := mkFPR {
  fpr_Key : NamespacedName;
  fpr_Finalizers : list string;
  fpr_Deleted : bool;
  Spec : FocomProvisioningRequestSpec;
  Status : FocomProvisioningRequestStatus
}.
Definition with_Finalizers (l : list string) (f : FocomProvisioningRequest) : FocomProvisioningRequest :=
  mkFPR (fpr_Key f) l (fpr_Deleted f) (Spec f) (Status f).
Definition with_Status (st : FocomProvisioningRequestStatus) (f : FocomProvisioningRequest) : FocomProvisioningRequest :=
  mkFPR (fpr_Key f) (fpr_Finalizers f) (fpr_Deleted f) (Spec f) st.
Definition with_RemoteName (n : string) (f : FocomProvisioningRequest) : FocomProvisioningRequest :=
  with_Status (mkStatus (Phase (Status f)) (Message (Status f)) (LastUpdated (Status f)) n) f.

(** The spec of the remote resource; the parameters are decoded JSON. *)
Record RemoteSpec (P : Type) := mkRemoteSpec {
  rs_name : string; rs_description : string; rs_templateName : string; rs_templateVersion : string; rs_parameters : P
}.
Arguments mkRemoteSpec {P} _ _ _ _ _.

Class FocomAPI (W : Type) := {
  (** the local API server *)
  fpr_Client :: Client W FocomProvisioningRequest;
  (** name and version of a template info; name and namespace of the secret of an O-Cloud;
      the key [kubeconfig] of a secret, empty when it is missing *)
  Get_TemplateInfo : W → NamespacedName → result (string * string);
  Get_OCloud : W → NamespacedName → result (string * string);
  Get_Secret : W → NamespacedName → result string;
  (** client-go: parse a kubeconfig, make a client from it *)
  RestConfig : Type;
  ClientConfig : string → result RestConfig;
  Remote : Type;
  cluster_New : RestConfig → result Remote;
  (** JSON *)
  Params : Type;
  Params_empty : Params;
  Params_Unmarshal : string → result Params;
  (** the remote resources: [remote_Get] has the state and the message of the provisioning status *)
  remote_Create : W → Remote → string → RemoteSpec Params → W * option error;
  remote_Get : W → Remote → string → result (option (string * string));
  remote_Delete : W → Remote → string → W * option error;
  (** [controllerutil], the clock and [uuid.NewUUID] *)
  ContainsFinalizer : list string → string → bool;
  util_AddFinalizer : list string → string → list string;
  util_RemoveFinalizer : list string → string → list string;
  metav1_Now : W → Z;
  NewUUID : W → string
}.

Section focom.
Context `{!ApiErrors} {W : Type} `{!FocomAPI W}.
Implicit Types fpr : FocomProvisioningRequest.

Definition updateStatus (phase msg : string) fpr : prog W FocomProvisioningRequest :=
  w ← get_st;
  mret (with_Status (mkStatus phase msg (Some (metav1_Now w)) (RemoteName (Status fpr))) fpr).

(** [updateStatus] followed by [Status().Update], whose error is ignored. *)
Definition fail_with (msg : string) fpr : prog W () :=
  fpr ← updateStatus "failed" msg fpr;
  _ ← call (λ w, StatusUpdate w fpr);
  mret ().

Definition buildRemoteClient (w : W) fpr : result Remote :=
  let spec := Spec fpr in
  match Get_OCloud w (mkKey (OCloudNamespace spec) (OCloudId spec)) with
  | Err e =>
      if IsNotFound e then Err ("OCloud " +:+ OCloudId spec +:+ " not found in namespace " +:+ OCloudNamespace spec)
      else Err ("failed to fetch OCloud: " +:+ e)
  | Ok (name, ns) =>
      if decide (name = "" ∨ ns = "") then
        Err ("OCloud " +:+ OCloudNamespace spec +:+ "/" +:+ OCloudId spec +:+ " references an empty secretRef")
      else
        match Get_Secret w (mkKey ns name) with
        | Err e => Err ("cannot read secretRef " +:+ ns +:+ "/" +:+ name +:+ ": " +:+ e)
        | Ok kubeconfig =>
            if decide (kubeconfig = "") then Err ("secret " +:+ ns +:+ "/" +:+ name +:+ " missing 'kubeconfig' key")
            else
              match ClientConfig kubeconfig with
              | Err e => Err ("failed to parse kubeconfig from secret " +:+ ns +:+ "/" +:+ name +:+ ": " +:+ e)
              | Ok cfg =>
                  match cluster_New cfg with
                  | Err e => Err ("failed to create remote cluster: " +:+ e)
                  | Ok cl => Ok cl
                  end
              end
        end
  end.

Definition validateTemplateAlignment (w : W) fpr : option error :=
  let spec := Spec fpr in
  let tplInfoName := TemplateName spec +:+ "-" +:+ TemplateVersion spec in
  match Get_TemplateInfo w (mkKey (key_Namespace (fpr_Key fpr)) tplInfoName) with
  | Err e =>
      if IsNotFound e then Some ("TemplateInfo " +:+ quote tplInfoName +:+ " not found")
      else Some ("failed to get TemplateInfo: " +:+ e)
  | Ok (name, version) =>
      if decide (name ≠ TemplateName spec ∨ version ≠ TemplateVersion spec) then
        Some ("mismatch: TemplateInfo has (" +:+ name +:+ "/" +:+ version +:+ "), request has (" +:+
              TemplateName spec +:+ "/" +:+ TemplateVersion spec +:+ ")")
      else None
  end.

Definition deleteRemoteResource fpr : prog W (option error) :=
  if decide (RemoteName (Status fpr) = "") then mret None
  else
    w ← get_st;
    match buildRemoteClient w fpr with
    | Err e => mret (Some ("buildRemoteClient error: " +:+ e))
    | Ok cl =>
        err ← call (λ w, remote_Delete w cl (RemoteName (Status fpr)));
        match err with
        | Some e => mret (if IsNotFound e then None else Some ("delete remote CR: " +:+ e))
        | None => mret None
        end
    end.

Definition decodeRawParameters (raw : string) : result Params :=
  if decide (raw = "") then Ok Params_empty else Params_Unmarshal raw.

Definition createRemoteProvisioningRequest (cl : Remote) fpr : prog W (result string) :=
  w ← get_st;
  let remoteName := if decide (key_Name (fpr_Key fpr) = "") then NewUUID w else key_Name (fpr_Key fpr) in
  match decodeRawParameters (TemplateParameters (Spec fpr)) with
  | Err e => mret (Err ("failed to parse templateParameters: " +:+ e))
  | Ok params =>
      let spec := Spec fpr in
      err ← call (λ w, remote_Create w cl remoteName
                         (mkRemoteSpec (spec_Name spec) (Description spec) (TemplateName spec) (TemplateVersion spec) params));
      match err with
      | Some e => mret (Err e)
      | None => mret (Ok remoteName)
      end
  end.

(** Whether polling is over, the phase and the message. *)
Definition pollRemoteProvisioningRequest (w : W) (cl : Remote) fpr : result (bool * string * string) :=
  match remote_Get w cl (RemoteName (Status fpr)) with
  | Err e =>
      if IsNotFound e then Ok (true, "failed", "Remote resource not found")
      else Err ("error fetching remote CR: " +:+ e)
  | Ok None => Ok (false, "provisioning", "Remote CR has no status yet")
  | Ok (Some (st, message)) =>
      if decide (st = "fulfilled") then Ok (true, "Fulfilled", message)
      else if decide (st = "failed") then Ok (true, "Failed", message)
      else if decide (st = "deleting" ∨ st = "progressing") then Ok (false, st, message)
      else Ok (false, "provisioning", "Unknown remote state: " +:+ st)
  end.

Definition ensureRemoteResource (cl : Remote) fpr : prog W (Z * option error) :=
  if decide (RemoteName (Status fpr) = "") then
    r ← createRemoteProvisioningRequest cl fpr;
    match r with
    | Err e => fail_with e fpr ;; mret (0%Z, Some e)
    | Ok remoteName =>
        fpr ← updateStatus "provisioning" "Remote CR created, waiting for fulfillment" (with_RemoteName remoteName fpr);
        '(_, uerr) ← call (λ w, StatusUpdate w fpr);
        match uerr with
        | Some e => mret (0%Z, Some e)
        | None => mret ((20 * Second)%Z, None)
        end
    end
  else
    w ← get_st;
    match pollRemoteProvisioningRequest w cl fpr with
    | Err e => fail_with ("poll error: " +:+ e) fpr ;; mret ((30 * Second)%Z, Some e)
    | Ok (done, phase, msg) =>
        fpr ← updateStatus phase msg fpr;
        '(_, uerr) ← call (λ w, StatusUpdate w fpr);
        match uerr with
        | Some e => mret (0%Z, Some e)
        | None => mret (if (done : bool) then 0%Z else (30 * Second)%Z, None)
        end
    end.

Definition ensureFinalizer fpr : prog W (FocomProvisioningRequest * (bool * option error)) :=
  if negb (ContainsFinalizer (fpr_Finalizers fpr) focomFinalizer) then
    '(fpr, err) ← call (λ w, Update w (with_Finalizers (util_AddFinalizer (fpr_Finalizers fpr) focomFinalizer) fpr));
    match err with
    | Some e => mret (fpr, (false, Some e))
    | None => mret (fpr, (true, None))
    end
  else mret (fpr, (false, None)).

Definition handleDeletion fpr : prog W (Result * option error) :=
  if ContainsFinalizer (fpr_Finalizers fpr) focomFinalizer then
    err ← deleteRemoteResource fpr;
    match err with
    | Some _ => mret (requeueAfter (15 * Second), None)
    | None =>
        '(_, err) ← call (λ w, Update w (with_Finalizers (util_RemoveFinalizer (fpr_Finalizers fpr) focomFinalizer) fpr));
        mret (done_result, err)
    end
  else mret (done_result, None).

Definition Reconcile (req : NamespacedName) : prog W (Result * option error) :=
  w ← get_st;
  match Get w req with
  | Err e => mret (done_result, if IsNotFound e then None else Some e)
  | Ok fpr =>
      if fpr_Deleted fpr then handleDeletion fpr
      else
        '(fpr, (requeue_, err)) ← ensureFinalizer fpr;
        match err with
        | Some e => mret (done_result, Some e)
        | None =>
            if (requeue_ : bool) then mret (requeue, None)
            else
              w ← get_st;
              match validateTemplateAlignment w fpr with
              | Some e => fail_with e fpr ;; mret (done_result, None)
              | None =>
                  match buildRemoteClient w fpr with
                  | Err e => fail_with e fpr ;; mret (done_result, None)
                  | Ok cl =>
                      '(after, err) ← ensureRemoteResource cl fpr;
                      match err with
                      | Some _ => mret (done_result, None)
                      | None => mret (requeueAfter after, None)
                      end
                  end
              end
        end
  end.
End focom.

(** ** Properties *)
Section properties.
Context `{!ApiErrors} {W : Type} `{!FocomAPI W}.
Implicit Types fpr : FocomProvisioningRequest.

(** The request with the status that records the remote resource. *)
Definition recorded (w : W) (remoteName : string) fpr : FocomProvisioningRequest :=
  with_Status (mkStatus "provisioning" "Remote CR created, waiting for fulfillment" (Some (metav1_Now w)) remoteName) fpr.
Definition remote_spec (p : Params) fpr : RemoteSpec Params :=
  mkRemoteSpec (spec_Name (Spec fpr)) (Description (Spec fpr)) (TemplateName (Spec fpr)) (TemplateVersion (Spec fpr)) p.

(** The request can be provisioned: it is valid, and its cluster can be reached. *)
Definition provisionable (w : W) fpr (cl : Remote) (p : Params) : Prop :=
  validateTemplateAlignment w fpr = None ∧ buildRemoteClient w fpr = Ok cl ∧
  decodeRawParameters (TemplateParameters (Spec fpr)) = Ok p ∧ key_Name (fpr_Key fpr) ≠ "".

Lemma Reconcile_create req w fpr cl p w1 :
  Get w req = Ok fpr → fpr_Deleted fpr = false → ContainsFinalizer (fpr_Finalizers fpr) focomFinalizer = true →
  RemoteName (Status fpr) = "" → provisionable w fpr cl p →
  remote_Create w cl (key_Name (fpr_Key fpr)) (remote_spec p fpr) = (w1, None) →
  Reconcile req w =
    (let '(w2, (_, uerr)) := StatusUpdate w1 (recorded w1 (key_Name (fpr_Key fpr)) fpr) in
     Done (w2, (match uerr with Some _ => done_result | None => requeueAfter (20 * Second) end, None))).
Proof.
  intros Hg Hd Hf Hr (Hv & Hb & Hp & Hn) Hc. unfold Reconcile, mbind, prog_bind, get_st. rewrite Hg, Hd.
  unfold ensureFinalizer. rewrite Hf. cbn. rewrite Hv, Hb. unfold ensureRemoteResource. rewrite decide_True by done.
  unfold createRemoteProvisioningRequest, mbind, prog_bind, get_st. rewrite decide_False by done. rewrite Hp.
  unfold call. unfold remote_spec in Hc. rewrite Hc. cbn.
  unfold updateStatus, recorded, with_RemoteName, with_Status, mbind, prog_bind, get_st. cbn.
  destruct (StatusUpdate w1 _) as [w2 [o [e|]]]; done.
Qed.

Lemma Reconcile_deleted req w fpr :
  Get w req = Ok fpr → fpr_Deleted fpr = true → Reconcile req w = handleDeletion fpr w.
Proof. intros Hg Hd. unfold Reconcile, mbind, prog_bind, get_st. by rewrite Hg, Hd. Qed.

(** a remote resource can be left behind: when the remote resource is created but its
    name cannot be recorded in the status, the run ends without an error and without asking
    for another run, and when the request is deleted before that changes, the deletion goes
    through with the removal of the finalizer as its only call: nothing is deleted remotely. *)
Theorem focom_remote_orphaned req w fpr cl p w1 w2 o e :
  Get w req = Ok fpr → fpr_Deleted fpr = false → ContainsFinalizer (fpr_Finalizers fpr) focomFinalizer = true →
  RemoteName (Status fpr) = "" → provisionable w fpr cl p →
  remote_Create w cl (key_Name (fpr_Key fpr)) (remote_spec p fpr) = (w1, None) →
  StatusUpdate w1 (recorded w1 (key_Name (fpr_Key fpr)) fpr) = (w2, (o, Some e)) →
  Reconcile req w = Done (w2, (done_result, None)) ∧
  ∀ w3 fpr3, Get w3 req = Ok fpr3 → fpr_Deleted fpr3 = true → RemoteName (Status fpr3) = "" →
    ContainsFinalizer (fpr_Finalizers fpr3) focomFinalizer = true →
    Reconcile req w3 =
      (let '(w4, (_, err)) := Update w3 (with_Finalizers (util_RemoveFinalizer (fpr_Finalizers fpr3) focomFinalizer) fpr3) in
       Done (w4, (done_result, err))).
Proof.
  intros Hg Hd Hf Hr Hp Hc Hs. split; [by rewrite (Reconcile_create _ _ _ _ _ _ Hg Hd Hf Hr Hp Hc), Hs|].
  intros w3 fpr3 Hg3 Hd3 Hr3 Hf3. rewrite (Reconcile_deleted _ _ _ Hg3 Hd3). unfold handleDeletion. rewrite Hf3.
  unfold deleteRemoteResource. rewrite decide_True by done. unfold mbind, prog_bind, call. cbn.
  by destruct (Update w3 _) as [w4 [x err]].
Qed.

(** C26: the finalizer of a request with a recorded remote resource is removed only after the
    remote resource is gone: the run asks the cluster of the request to delete the resource
    that is recorded, and only when that was acknowledged or the resource was not there it
    updates the request, without the finalizer, and reports the error of that update.  When
    the cluster cannot be reached nothing is done, when it refuses only the attempt was made,
    and the request is looked at again after 15 seconds. *)
Theorem focom_deletion req w fpr w' r :
  Get w req = Ok fpr → fpr_Deleted fpr = true → ContainsFinalizer (fpr_Finalizers fpr) focomFinalizer = true →
  RemoteName (Status fpr) ≠ "" → Reconcile req w = Done (w', r) →
  (∃ cl w1 err o e, buildRemoteClient w fpr = Ok cl ∧ remote_Delete w cl (RemoteName (Status fpr)) = (w1, err) ∧
     IgnoreNotFound err = None ∧
     Update w1 (with_Finalizers (util_RemoveFinalizer (fpr_Finalizers fpr) focomFinalizer) fpr) = (w', (o, e)) ∧ r = (done_result, e)) ∨
  (r = (requeueAfter (15 * Second), None) ∧
   ((∃ e, buildRemoteClient w fpr = Err e) ∧ w' = w ∨
    ∃ cl e, buildRemoteClient w fpr = Ok cl ∧ remote_Delete w cl (RemoteName (Status fpr)) = (w', Some e) ∧ IsNotFound e = false)).
Proof.
  intros Hg Hd Hf Hr. rewrite (Reconcile_deleted _ _ _ Hg Hd). unfold handleDeletion. rewrite Hf.
  intros (w1 & err & Hdel & Hrest)%prog_bind_Done. unfold deleteRemoteResource in Hdel. rewrite decide_False in Hdel by done.
  unfold mbind at 1, prog_bind at 1 in Hdel. cbn [get_st] in Hdel. destruct (buildRemoteClient w fpr) as [cl|e] eqn:Hb.
  - apply prog_bind_Done in Hdel as (w0 & derr & Hcall & Hret). unfold call in Hcall. injection Hcall as Hcall.
    assert (w0 = w1) as -> by (by destruct derr; injection Hret as <- _).
    assert (Herr : IgnoreNotFound derr = None ↔ err = None).
    { destruct derr as [e|]; [|by injection Hret as <-]. injection Hret as <-. unfold IgnoreNotFound, Ignore. simpl.
      by destruct (IsNotFound e). }
    destruct err as [e|].
    + right. injection Hrest as <- <-. split; [done|]. right. destruct derr as [e'|]; [|by destruct Herr as [Herr _]; specialize (Herr eq_refl)].
      exists cl, e'. split; [done|]. split; [done|]. injection Hret as Hret. by destruct (IsNotFound e').
    + left. apply prog_bind_Done in Hrest as (w2 & [o ue] & Hu & [= <- <-]). unfold call in Hu. injection Hu as Hu.
      exists cl, w1, derr, o, ue. split_and!; try done. by apply Herr.
  - injection Hdel as <- <-. right. injection Hrest as <- <-. split; [done|]. left. split; [by exists e|done].
Qed.
End properties.

(** ** Progress *)

(** What writes to requests and remote resources leave alone. *)
Definition same_config {W} `{!FocomAPI W} (w w' : W) : Prop :=
  Get_TemplateInfo w' = Get_TemplateInfo w ∧ Get_OCloud w' = Get_OCloud w ∧ Get_Secret w' = Get_Secret w.
(** Servers that answer: the requests, the resources of each remote cluster with the status
    that cluster has set, and writes that are carried out.  A resource can be created under a
    name that is not taken; reading it gives the status of what is there. *)
Class FocomHealthy (W : Type) `{!ApiErrors, !FocomAPI W} := {
  requests : W → gmap NamespacedName FocomProvisioningRequest;
  remotes : W → Remote → gmap string (RemoteSpec Params * option (string * string));
  request_key w k f : requests w !! k = Some f → fpr_Key f = k;
  Get_ok w k f : requests w !! k = Some f → Get w k = Ok f;
  Update_ok w f : is_Some (requests w !! fpr_Key f) →
    ∃ w', Update w f = (w', (f, None)) ∧ requests w' = <[fpr_Key f := f]> (requests w) ∧ remotes w' = remotes w ∧ same_config w w';
  StatusUpdate_ok w f : is_Some (requests w !! fpr_Key f) →
    ∃ w' o, StatusUpdate w f = (w', (o, None)) ∧ requests w' = <[fpr_Key f := f]> (requests w) ∧ remotes w' = remotes w ∧ same_config w w';
  remote_Create_ok w cl n spec : remotes w cl !! n = None →
    ∃ w', remote_Create w cl n spec = (w', None) ∧ remotes w' cl = <[n := (spec, None)]> (remotes w cl) ∧
      requests w' = requests w ∧ same_config w w';
  remote_Get_found w cl n spec st : remotes w cl !! n = Some (spec, st) → remote_Get w cl n = Ok st;
  remote_Get_missing w cl n : remotes w cl !! n = None → ∃ e, remote_Get w cl n = Err e ∧ IsNotFound e = true;
  finalizer_added l f : ContainsFinalizer (W := W) (util_AddFinalizer (W := W) l f) f = true
}.

(** What is reported of a remote resource: the result of the run, the phase and the message. *)
Inductive reports {P} : option (RemoteSpec P * option (string * string)) → Result → string → string → Prop :=
  | reports_missing : reports None done_result "failed" "Remote resource not found"
  | reports_new spec : reports (Some (spec, None)) (requeueAfter (30 * Second)) "provisioning" "Remote CR has no status yet"
  | reports_fulfilled spec msg : reports (Some (spec, Some ("fulfilled", msg))) done_result "Fulfilled" msg
  | reports_failed spec msg : reports (Some (spec, Some ("failed", msg))) done_result "Failed" msg
  | reports_running spec st msg : st ∈ ["deleting"; "progressing"] →
      reports (Some (spec, Some (st, msg))) (requeueAfter (30 * Second)) st msg
  | reports_unknown spec st msg : st ∉ ["fulfilled"; "failed"; "deleting"; "progressing"] →
      reports (Some (spec, Some (st, msg))) (requeueAfter (30 * Second)) "provisioning" ("Unknown remote state: " +:+ st).

Section progress.
Context `{!ApiErrors} {W : Type} `{!FocomAPI W, !FocomHealthy W}.
Implicit Types fpr : FocomProvisioningRequest.

Lemma provisionable_same w w' fpr fpr' cl p :
  same_config w w' → Spec fpr' = Spec fpr → fpr_Key fpr' = fpr_Key fpr → provisionable w fpr cl p → provisionable w' fpr' cl p.
Proof.
  intros (Ht & Ho & Hs) Hsp Hk (Hv & Hb & Hp & Hn). unfold provisionable, validateTemplateAlignment, buildRemoteClient in *.
  by rewrite Ht, Ho, Hs, Hsp, Hk.
Qed.

Lemma same_config_trans (w1 w2 w3 : W) : same_config w1 w2 → same_config w2 w3 → same_config w1 w3.
Proof. unfold same_config. naive_solver congruence. Qed.

Lemma Reconcile_finalizer k w fpr :
  requests w !! k = Some fpr → fpr_Deleted fpr = false → ContainsFinalizer (fpr_Finalizers fpr) focomFinalizer = false →
  ∃ w', Reconcile k w = Done (w', (requeue, None)) ∧ same_config w w' ∧ remotes w' = remotes w ∧
    requests w' !! k = Some (with_Finalizers (util_AddFinalizer (fpr_Finalizers fpr) focomFinalizer) fpr).
Proof.
  intros Hst Hd Hf. pose proof (request_key _ _ _ Hst) as Hk. set (f1 := with_Finalizers _ fpr).
  destruct (Update_ok w f1) as (w1 & Hu & Hs1 & Hr1 & Hc1); [simpl; rewrite Hk; by exists fpr|].
  exists w1. split_and!; [|done|done|by rewrite Hs1, <-Hk, lookup_insert_eq].
  unfold Reconcile, mbind, prog_bind, get_st. rewrite (Get_ok _ _ _ Hst), Hd. unfold ensureFinalizer. rewrite Hf. cbn.
  unfold mbind, prog_bind, call. fold f1. by rewrite Hu.
Qed.

(** Polling reports what is there, and asks for another run unless that is final. *)
Lemma poll_reports w cl fpr done phase msg :
  pollRemoteProvisioningRequest w cl fpr = Ok (done, phase, msg) → 
  reports (remotes w cl !! RemoteName (Status fpr)) (requeueAfter (if done : bool then 0 else 30 * Second)) phase msg.
Proof.
  unfold pollRemoteProvisioningRequest. destruct (remotes w cl !! _) as [[spec st]|] eqn:Hr.
  - rewrite (remote_Get_found _ _ _ _ _ Hr). destruct st as [[st m]|]; [|intros [= <- <- <-]; constructor].
    repeat case_decide; intros [= <- <- <-]; subst; constructor; set_solver.
  - destruct (remote_Get_missing _ _ _ Hr) as (e & -> & ->). intros [= <- <- <-]. constructor.
Qed.
Lemma poll_answers w cl fpr : ∃ done phase msg, pollRemoteProvisioningRequest w cl fpr = Ok (done, phase, msg).
Proof.
  unfold pollRemoteProvisioningRequest. destruct (remotes w cl !! RemoteName (Status fpr)) as [[spec st]|] eqn:Hr.
  - rewrite (remote_Get_found _ _ _ _ _ Hr). destruct st as [[st m]|]; [repeat case_decide|]; by do 3 eexists.
  - destruct (remote_Get_missing _ _ _ Hr) as (e & -> & ->). by do 3 eexists.
Qed.
Lemma reports_unique {P} (r : option (RemoteSpec P * option (string * string))) res1 ph1 m1 res2 ph2 m2 :
  reports r res1 ph1 m1 → reports r res2 ph2 m2 → res1 = res2 ∧ ph1 = ph2 ∧ m1 = m2.
Proof. intros H1 H2. inversion H1; inversion H2; subst; simplify_eq; try done; set_solver. Qed.

Lemma Reconcile_poll k w fpr cl p res phase msg :
  requests w !! k = Some fpr → fpr_Deleted fpr = false → ContainsFinalizer (fpr_Finalizers fpr) focomFinalizer = true →
  RemoteName (Status fpr) ≠ "" → provisionable w fpr cl p → reports (remotes w cl !! RemoteName (Status fpr)) res phase msg →
  ∃ w', Reconcile k w = Done (w', (res, None)) ∧ same_config w w' ∧ remotes w' = remotes w ∧
    requests w' !! k = Some (with_Status (mkStatus phase msg (Some (metav1_Now w)) (RemoteName (Status fpr))) fpr).
Proof.
  intros Hst Hd Hf Hr (Hv & Hb & _) Hrep. pose proof (request_key _ _ _ Hst) as Hk.
  destruct (poll_answers w cl fpr) as (done & ph & m & Hpoll).
  destruct (reports_unique _ _ _ _ _ _ _ Hrep (poll_reports _ _ _ _ _ _ Hpoll)) as (-> & -> & ->). set (f1 := with_Status _ fpr).
  destruct (StatusUpdate_ok w f1) as (w1 & o & Hu & Hs1 & Hr1 & Hc1); [simpl; rewrite Hk; by exists fpr|].
  exists w1. split_and!; [|done|done|by rewrite Hs1, <-Hk, lookup_insert_eq].
  unfold Reconcile, mbind, prog_bind, get_st. rewrite (Get_ok _ _ _ Hst), Hd. unfold ensureFinalizer. rewrite Hf. cbn.
  rewrite Hv, Hb. unfold ensureRemoteResource. rewrite decide_False by done.
  unfold mbind, prog_bind, get_st. rewrite Hpoll. cbn.
  unfold updateStatus, mbind, prog_bind, get_st, call. unfold f1, with_Status in *. cbn in *. by rewrite Hu.
Qed.

Lemma Reconcile_creates k w fpr cl p :
  requests w !! k = Some fpr → fpr_Deleted fpr = false → ContainsFinalizer (fpr_Finalizers fpr) focomFinalizer = true →
  RemoteName (Status fpr) = "" → provisionable w fpr cl p → remotes w cl !! key_Name k = None →
  ∃ w' wc, Reconcile k w = Done (w', (requeueAfter (20 * Second), None)) ∧ same_config w w' ∧
    remotes w' cl = <[key_Name k := (remote_spec p fpr, None)]> (remotes w cl) ∧
    requests w' !! k = Some (recorded wc (key_Name k) fpr).
Proof.
  intros Hst Hd Hf Hr Hp Hfree. pose proof (request_key _ _ _ Hst) as <-.
  destruct (remote_Create_ok w cl _ (remote_spec p fpr) Hfree) as (wc & Hcr & Hrc & Hsc & Hcc).
  destruct (StatusUpdate_ok wc (recorded wc (key_Name (fpr_Key fpr)) fpr)) as (w2 & o & Hs2 & Hst2 & Hr2 & Hc2); [simpl; rewrite Hsc; by eexists|].
  exists w2, wc. split_and!; [|by eapply same_config_trans|by rewrite Hr2|rewrite Hst2; apply lookup_insert_eq].
  rewrite (Reconcile_create _ w fpr cl p wc); [by rewrite Hs2|by apply Get_ok|done..].
Qed.

(** C15: a valid request gets provisioned: on servers that answer, and when the name is not
    taken on the remote cluster, the first run only sets the finalizer, and the second one
    creates there the resource with the name of the request and its spec, and nothing else,
    and records that name.  From then on every run of the unchanged request reports what the
    remote cluster has: [Fulfilled] or [Failed] with its message and [failed] when the
    resource is gone, each of them without asking for another run, and the state it is in
    otherwise, with another run after 30 seconds; no run creates the resource again. *)
Theorem focom_progress k w fpr cl p :
  requests w !! k = Some fpr → fpr_Deleted fpr = false → ContainsFinalizer (fpr_Finalizers fpr) focomFinalizer = false →
  RemoteName (Status fpr) = "" → provisionable w fpr cl p → remotes w cl !! key_Name k = None →
  ∃ w1 w2 fpr2, Reconcile k w = Done (w1, (requeue, None)) ∧ remotes w1 cl = remotes w cl ∧
    Reconcile k w1 = Done (w2, (requeueAfter (20 * Second), None)) ∧
    remotes w2 cl = <[key_Name k := (remote_spec p fpr, None)]> (remotes w cl) ∧
    requests w2 !! k = Some fpr2 ∧ Spec fpr2 = Spec fpr ∧ Phase (Status fpr2) = "provisioning" ∧ RemoteName (Status fpr2) = key_Name k ∧
    ∀ w3 st3 res phase msg, requests w3 !! k = Some (with_Status st3 fpr2) → RemoteName st3 = key_Name k → same_config w2 w3 →
      reports (remotes w3 cl !! key_Name k) res phase msg →
      ∃ w4 st4, Reconcile k w3 = Done (w4, (res, None)) ∧ requests w4 !! k = Some (with_Status st4 fpr2) ∧
        Phase st4 = phase ∧ Message st4 = msg ∧ RemoteName st4 = key_Name k ∧ same_config w2 w4 ∧ remotes w4 cl = remotes w3 cl.
Proof.
  intros Hst Hd Hf Hr Hp Hfree. pose proof (request_key _ _ _ Hst) as Hk.
  destruct (Reconcile_finalizer k w fpr Hst Hd Hf) as (w1 & Hrun1 & Hc1 & Hr1 & Hst1). set (f1 := with_Finalizers _ fpr) in *.
  assert (Hp1 : provisionable w1 f1 cl p) by (by eapply provisionable_same).
  assert (Hfin : ContainsFinalizer (fpr_Finalizers f1) focomFinalizer = true) by apply finalizer_added.
  destruct (Reconcile_creates k w1 f1 cl p) as (w2 & wc & Hrun2 & Hc2 & Hr2 & Hst2); [done..|by rewrite Hr1|].
  exists w1, w2, (recorded wc (key_Name k) f1). split_and!; [done|by rewrite Hr1|done|by rewrite Hr2, Hr1|done..|].
  intros w3 st3 res phase msg Hst3 Hn3 Hc3 Hrep.
  destruct (Reconcile_poll k w3 _ cl p res phase msg Hst3) as (w4 & Hrun4 & Hc4 & Hr4 & Hst4); [done|done| | | |].
  - simpl. rewrite Hn3, <-Hk. apply Hp.
  - eapply (provisionable_same w1); [|done..]. by eapply same_config_trans.
  - simpl. by rewrite Hn3.
  - exists w4; eexists. split_and!; [exact Hrun4|exact Hst4|done|done|exact Hn3| |by rewrite Hr4].
    by eapply same_config_trans.
Qed.
End progress.

(** ** Two clusters, and the witnesses *)
Module FocomWitnesses.

(** [c_remote]: the remote resources with their status; [c_full]: the status of requests cannot
    be stored; [c_refuses]: the remote cluster refuses deletions. *)
Record clusters := mkClusters {
  c_requests : gmap NamespacedName FocomProvisioningRequest;
  c_remote : gmap string (option (string * string));
  c_full : bool;
  c_refuses : bool
}.
Definition put_requests m (w : clusters) : clusters := mkClusters m (c_remote w) (c_full w) (c_refuses w).
Definition put_remote m (w : clusters) : clusters := mkClusters (c_requests w) m (c_full w) (c_refuses w).

#[export] Instance errors : ApiErrors := {
  IsNotFound e := bool_decide (e = "not found"); errors_Wrap e msg := msg +:+ ": " +:+ e }.
Definition c_update (w : clusters) (f : FocomProvisioningRequest) : clusters * (FocomProvisioningRequest * option error) :=
  if fpr_Deleted f && bool_decide (fpr_Finalizers f = []) then (put_requests (delete (fpr_Key f) (c_requests w)) w, (f, None))
  else (put_requests (<[fpr_Key f := f]> (c_requests w)) w, (f, None)).
#[export] Instance client : Client clusters FocomProvisioningRequest := {
  Get w k := match c_requests w !! k with Some f => Ok f | None => Err "not found" end;
  Create w f := (w, (f, Some "forbidden"));
  Update := c_update;
  StatusUpdate w f := if c_full w then (w, (f, Some "storage is full")) else (put_requests (<[fpr_Key f := f]> (c_requests w)) w, (f, None));
  MergePatch w f _ := (w, (f, Some "forbidden")) }.
#[export] Instance api : FocomAPI clusters := {
  Get_TemplateInfo w k := if decide (key_Name k = "edge-v1") then Ok ("edge", "v1") else Err "not found";
  Get_OCloud w k := if decide (key_Name k = "ocloud1") then Ok ("kube", "default") else Err "not found";
  Get_Secret w k := Ok "config";
  RestConfig := string; ClientConfig s := Ok s; Remote := string; cluster_New c := Ok c;
  Params := string; Params_empty := ""; Params_Unmarshal s := Ok s;
  remote_Create w _ n _ := (put_remote (<[n := None]> (c_remote w)) w, None);
  remote_Get w _ n := match c_remote w !! n with Some st => Ok st | None => Err "not found" end;
  remote_Delete w _ n := if c_refuses w then (w, Some "forbidden") else (put_remote (delete n (c_remote w)) w, None);
  ContainsFinalizer l f := bool_decide (f ∈ l);
  util_AddFinalizer l f := l ++ [f];
  util_RemoveFinalizer l f := List.filter (λ e, negb (bool_decide (e = f))) l;
  metav1_Now _ := 0%Z; NewUUID _ := "uuid" }.

Definition spec1 : FocomProvisioningRequestSpec := mkSpec "ocloud1" "default" "r1" "" "edge" "v1" "{}".
Definition key1 : NamespacedName := mkKey "default" "r1".
Definition request (fin : list string) (deleted : bool) (remote : string) : FocomProvisioningRequest :=
  mkFPR key1 fin deleted spec1 (mkStatus "" "" None remote).
Definition world0 (fin : list string) (deleted : bool) (remote : string) (full refuses : bool) : clusters :=
  mkClusters {[ key1 := request fin deleted remote ]} ∅ full refuses.
Definition world_of (p : comp (clusters * (Result * option error))) (w : clusters) : clusters := match p with Done (w, _) => w | Panic _ => w end.

Lemma focom_remote_orphaned_witness :
  (bool_decide (c_remote (world_of (Reconcile key1 (world0 [focomFinalizer] false "" true false)) (world0 [] false "" true false)) = {[ "r1" := None ]})) = true ∧
  Reconcile key1 (world0 [focomFinalizer] false "" true false) =
    Done (put_remote {[ "r1" := None ]} (world0 [focomFinalizer] false "" true false), (done_result, None)).
Proof.
  split; [vm_compute; reflexivity|].
  apply (focom_remote_orphaned key1 (world0 [focomFinalizer] false "" true false) (request [focomFinalizer] false "") ("config" : @Remote clusters api) ("{}" : @Params clusters api)
    (put_remote {[ "r1" := None ]} (world0 [focomFinalizer] false "" true false))
    (put_remote {[ "r1" := None ]} (world0 [focomFinalizer] false "" true false))
    (recorded (put_remote {[ "r1" := None ]} (world0 [focomFinalizer] false "" true false)) "r1" (request [focomFinalizer] false ""))
    "storage is full"); try (vm_compute; reflexivity).
  repeat split; try (vm_compute; reflexivity). vm_compute. discriminate.
Defined.

Definition deleting : clusters := mkClusters {[ key1 := request [focomFinalizer] true "r1" ]} {[ "r1" := None ]} false false.
Definition gone : clusters := world_of (Reconcile key1 deleting) deleting.
Lemma focom_deletion_witness :
  (bool_decide (c_remote gone = ∅) = true ∧ bool_decide (c_requests gone = ∅) = true) ∧
  ∃ cl w1 err, buildRemoteClient deleting (request [focomFinalizer] true "r1") = Ok cl ∧
    remote_Delete deleting cl "r1" = (w1, err) ∧ IgnoreNotFound err = None.
Proof.
  split; [split; vm_compute; reflexivity|].
  destruct (focom_deletion key1 deleting (request [focomFinalizer] true "r1") gone (done_result, None))
    as [(cl & w1 & err & o & e & H1 & H2 & H3 & _)|[Hbad _]]; try (vm_compute; reflexivity).
  - vm_compute. discriminate.
  - exists cl, w1, err. exact (conj H1 (conj H2 H3)).
  - vm_compute in Hbad. discriminate.
Defined.

(** Servers that answer, with the requests in a list, the latest version first, and one remote
    cluster. *)
Record answering := mkAnswering {
  an_requests : list FocomProvisioningRequest;
  an_remote : gmap string (RemoteSpec string * option (string * string))
}.
Definition an_store (w : answering) : gmap NamespacedName FocomProvisioningRequest :=
  list_to_map ((λ f, (fpr_Key f, f)) <$> an_requests w).
Definition an_put (w : answering) (f : FocomProvisioningRequest) : answering * (FocomProvisioningRequest * option error) :=
  (mkAnswering (f :: an_requests w) (an_remote w), (f, None)).
Definition an_create (w : answering) (n : string) (spec : RemoteSpec string) : answering * option error :=
  match an_remote w !! n with
  | Some _ => (w, Some "already exists")
  | None => (mkAnswering (an_requests w) (<[n := (spec, None)]> (an_remote w)), None)
  end.
Definition read_status (o : option (RemoteSpec string * option (string * string))) : result (option (string * string)) :=
  match o with Some (_, st) => Ok st | None => Err "not found" end.
#[export] Instance an_client : Client answering FocomProvisioningRequest := {
  Get w k := match an_store w !! k with Some f => Ok f | None => Err "not found" end;
  Create := an_put; Update := an_put; StatusUpdate := an_put; MergePatch w f _ := (w, (f, Some "forbidden")) }.
#[export] Instance an_api : FocomAPI answering := {
  Get_TemplateInfo w k := if decide (key_Name k = "edge-v1") then Ok ("edge", "v1") else Err "not found";
  Get_OCloud w k := if decide (key_Name k = "ocloud1") then Ok ("kube", "default") else Err "not found";
  Get_Secret w k := Ok "config";
  RestConfig := string; ClientConfig s := Ok s; Remote := string; cluster_New c := Ok c;
  Params := string; Params_empty := ""; Params_Unmarshal s := Ok s;
  remote_Create w _ n spec := an_create w n spec;
  remote_Get w _ n := read_status (an_remote w !! n);
  remote_Delete w _ n := (mkAnswering (an_requests w) (delete n (an_remote w)), None);
  ContainsFinalizer l f := bool_decide (f ∈ l);
  util_AddFinalizer l f := l ++ [f]; util_RemoveFinalizer l f := List.filter (λ e, negb (bool_decide (e = f))) l;
  metav1_Now _ := 0%Z; NewUUID _ := "uuid" }.
#[export] Instance an_healthy : FocomHealthy answering.
Proof.
  refine {| requests := an_store; remotes w _ := an_remote w |}.
  - intros w k f (q & [= -> ->] & _)%elem_of_list_to_map_2%list_elem_of_fmap. done.
  - intros w k f Hk. cbn. by rewrite Hk.
  - intros w f _. eexists. done.
  - intros w f _. do 2 eexists. done.
  - intros w cl n spec Hfree. change (an_remote w !! n = None) in Hfree.
    change (remote_Create w cl n spec) with (an_create w n spec). unfold an_create. rewrite Hfree. eexists. done.
  - intros w cl n spec st Hn. exact (f_equal read_status Hn).
  - intros w cl n Hn. exists "not found". split; [exact (f_equal read_status Hn)|reflexivity].
  - intros l f. cbn. apply bool_decide_eq_true. set_solver.
Defined.

(** The remote cluster has another resource; later it reports that it failed to provision ours. *)
Definition other_remote : RemoteSpec string := mkRemoteSpec "r0" "" "edge" "v1" "{}".
Definition an0 : answering := mkAnswering [request [] false ""] {[ "r0" := (other_remote, None) ]}.
Definition reporting (w : answering) (st msg : string) : answering :=
  mkAnswering (an_requests w) (<["r1" := (mkRemoteSpec "r1" "" "edge" "v1" "{}", Some (st, msg))]> (an_remote w)).
Lemma focom_progress_witness :
  ∃ w1 w2 w4 st4, Reconcile key1 an0 = Done (w1, (requeue, None)) ∧
    Reconcile key1 w1 = Done (w2, (requeueAfter (20 * Second), None)) ∧
    an_remote w2 = <["r1" := (mkRemoteSpec "r1" "" "edge" "v1" "{}", None)]> (an_remote an0) ∧
    Reconcile key1 (reporting w2 "failed" "no capacity") = Done (w4, (done_result, None)) ∧
    (Status <$> requests w4 !! key1) = Some st4 ∧ Phase st4 = "Failed" ∧ Message st4 = "no capacity".
Proof.
  destruct (focom_progress key1 an0 (request [] false "") ("config" : @Remote answering an_api) ("{}" : @Params answering an_api))
    as (w1 & w2 & fpr2 & H1 & _ & H2 & H3 & H4 & _ & _ & Hn & Hpoll); try (vm_compute; reflexivity).
  - repeat split; try (vm_compute; reflexivity). vm_compute. discriminate.
  - destruct (Hpoll (reporting w2 "failed" "no capacity") (Status fpr2) done_result "Failed" "no capacity")
      as (w4 & st4 & Hrun & Hst & Hph & Hm & _).
    + destruct fpr2. exact H4.
    + exact Hn.
    + by split_and!.
    + cbn. rewrite lookup_insert_eq. apply reports_failed.
    + exists w1, w2, w4, st4. split_and!; [exact H1|exact H2|exact H3|exact Hrun|by rewrite Hst|exact Hph|exact Hm].
Defined.
End FocomWitnesses.
