(* ===== verification/ConfigInject.v ===== *)
(** * [krm-functions/configinject-fn]: configuration of the packages a package depends on

    For a [Dependency] the function looks up the published packages of the given name in
    the deployment repositories, takes the latest revision of each, and wraps the resources
    of the kinds the dependency asks for into [Config] resources of its own package.  It
    fails unless all of these resources are ready in their packages.  The reader of the
    Porch server is the world [w]; a run sees one state of it. *)
From S2P Require Import Prelude External KubeObjectLib SdkModel Ref Kptfile Inventory InventoryDiff InventoryReady Sdk FnApi Kptrl Kube Porch.

(** [nephiorefv1alpha1.Config] around a decoded resource. *)
Record ConfigCR (U : Type) := mkConfigCR {
  cf_APIVersion : string; cf_Kind : string; cf_Meta : ObjectMeta; cf_Config : U
}.
Arguments mkConfigCR {U}.
Arguments cf_APIVersion {U}.
Arguments cf_Kind {U}.
Arguments cf_Meta {U}.
Arguments cf_Config {U}.
Definition ConfigKind : string := "Config".

(** What the function uses of the references and requirements APIs. *)
Class InjectAPI `{NephioAPI} := {
  ref_apiVersion : string;
  DependencyKind : string;
  Dependency : Type;
  dep_GoType :: GoType Dependency;
  dep_PackageName : Dependency → string;
  dep_Injectors : Dependency → list ObjectReference;
  dep_set_Injected : list ObjectReference → Dependency → Dependency;
  Unstructured : Type;
  un_GoType :: GoType Unstructured;
  any_Config : ConfigCR Unstructured → any;
  (** [ref.GroupVersionKind().String()] *)
  GVK_String : ObjectReference → string
}.

Section config_inject.
Context `{!FnSDK, !NephioAPI, !GoRange, !Kio, !InjectAPI} {W : Type} `{!Porch W, !PorchResources W}.

Definition FnR : Type := option WorkloadCluster.

Definition WorkloadClusterCallbackFn : WatchCallbackFn (S := FnR) := λ f o, Done (WorkloadClusterCallback f o).

(** ** The latest published revisions *)
Definition repo_map (repos : list Repository) : gmap string Repository :=
  foldl (λ m repo, <[repo_Name repo := repo]> m) ∅ repos.

(** The revisions that are looked at: of the package, in a deployment repository, published
    with a revision number. *)
Definition eligible (depPackageName : string) (repo : Repository) (pr : PackageRevision) : bool :=
  bool_decide (pr_PackageName pr = depPackageName) && repo_Deployment repo &&
  LifecycleIsPublished (pr_Lifecycle pr) && bool_decide (pr_Revision pr > 0)%Z.
Definition prName (pr : PackageRevision) : string := pr_RepositoryName pr +:+ "-" +:+ pr_PackageName pr.
Definition keepLatest (prmap : gmap string PackageRevision) (pr : PackageRevision) : gmap string PackageRevision :=
  match prmap !! prName pr with
  | Some latestPR => if decide (pr_Revision pr > pr_Revision latestPR)%Z then <[prName pr := pr]> prmap else prmap
  | None => <[prName pr := pr]> prmap
  end.
Fixpoint latestPRs (repomap : gmap string Repository) (depPackageName : string) (prs : list PackageRevision)
    (prmap : gmap string PackageRevision) : result (gmap string PackageRevision) :=
  match prs with
  | [] => Ok prmap
  | pr :: prs =>
      match repomap !! pr_RepositoryName pr with
      | None => Err ("configinject repo name not found: " +:+ pr_RepositoryName pr)
      | Some repo => latestPRs repomap depPackageName prs (if eligible depPackageName repo pr then keepLatest prmap pr else prmap)
      end
  end.

(** ** The resources of one package *)
Definition BuildConfig (meta : ObjectMeta) (spec : Unstructured) : ConfigCR Unstructured :=
  mkConfigCR ref_apiVersion "Config" meta spec.
Definition GetConfigKubeObject (forObj o : KubeObject) : comp (result KubeObject) :=
  '(_, u) ←? open (T := Unstructured) (Some o);
  Done (NewFromTypedObject (any_Config (BuildConfig
    (mkMeta (getForName (GetAnnotations forObj) +:+ "-" +:+ GetName o) (GetAnnotation forObj SpecializerNamespace) ∅) u))).

Definition depNotReady (pr : PackageRevision) (what : string) : error :=
  "dependency not ready: the package " +:+ pr_PackageName pr +:+ " in repo " +:+ pr_RepositoryName pr +:+ what.
(** One resource.  [GetCondition] adds an absent status to the Kptfile, which is not seen
    again: a Kptfile without status has no conditions. *)
Definition injectObject (forObj : KubeObject) (pr : PackageRevision) (kf : KptFile) (o : KubeObject)
    : comp (result KubeObject) :=
  let ct := GetConditionType (gvkn (GetAPIVersion o) (GetKind o) (GetName o)) in
  match snd (GetCondition kf ct) with
  | None => Done (Err (depNotReady pr (" does not contain a condition for " +:+ ct)))
  | Some c =>
      if decide (Status c ≠ ConditionTrue) then
        Done (Err (depNotReady pr (" has a condition which is False for: " +:+ Type_ c)))
      else GetConfigKubeObject forObj o
  end.
(** One kind of resources, then one package. *)
Definition injectRef (forObj : KubeObject) (pr : PackageRevision) (kf : KptFile) (items : list KubeObject)
    (ref : ObjectReference) : comp (result (list KubeObject)) :=
  match Where (APIVersion ref) (Kind ref) items with
  | [] => Done (Err (depNotReady pr (" does not contain a resource with " +:+ GVK_String ref)))
  | depObjs => each_try (injectObject forObj pr kf) depObjs
  end.
Definition injectPackage (w : W) (forObj : KubeObject) (dep : Dependency) (pr : PackageRevision)
    : comp (result (list (list KubeObject))) :=
  prr ←? Done (reader_GetPRR w (pr_Key pr));
  rl ←? GetResourceList (prr_Resources prr);
  match GetRootKptfile (λ o, o) (rl_Items rl) with
  | None => Done (Err ("mandatory Kptfile is missing from the package " +:+ pr_PackageName pr +:+ ", repo " +:+ pr_RepositoryName pr))
  | Some kfko => each_try (injectRef forObj pr (mkKptFile kfko) (rl_Items rl)) (dep_Injectors dep)
  end.

(** ** The callbacks *)
Definition injectAll (w : W) (forObj : KubeObject) (dep : Dependency) : comp (result (list KubeObject)) :=
  prl ←? Done (reader_ListPR w);
  repos ←? Done (reader_ListRepositories w);
  prmap ←? Done (latestPRs (repo_map repos) (dep_PackageName dep) prl ∅);
  resources ←? each_try (λ kv, injectPackage w forObj dep kv.2) (range (at_ "prmap") prmap);
  if decide (prmap = ∅) then
    Done (Err ("dependency not ready: expecting at least 1 package " +:+ dep_PackageName dep +:+ " with the corresponding reference"))
  else Done (Ok (concat (concat resources))).

Definition desiredOwnedResourceList (w : W) : PopulateOwnResourcesFn_t (S := FnR) := λ f forObj,
  match f with
  | None => Done (f, Err "workload cluster is missing from the kpt package")
  | Some _ =>
      match KubeObjectToStruct (T := Dependency) (Some forObj) with
      | (_, Some err) => Done (f, Err err)
      | (None, None) => Panic nil_dereference
      | (Some dep, None) => r ← injectAll w forObj dep; Done (f, r)
      end
  end.

Definition injectedRef (o : KubeObject) : ObjectReference :=
  mkObjectReference (GetKind o) (GetNamespace o) (GetName o) "" (GetAPIVersion o) "" "".
Definition updateDependencyResource : UpdateResourceFn_t (S := FnR) := λ f forObj objs,
  match forObj with
  | None => Done (f, Err "expected a for object but got nil")
  | Some forObj =>
      r ← open (T := Dependency) (Some forObj);
      match r with
      | Err err => Done (f, Err err)
      | Ok (depObj, dep) =>
          '(depObj, err) ← SetStatus depObj (dep_set_Injected (sort_by Name (injectedRef <$> objs)) dep);
          Done (f, of_error [koe_KubeObject depObj] err)
      end
  end.

Definition inject_config (w : W) : Config FnR := mkConfig false
  (gvk req_apiVersion DependencyKind)
  {[ gvk ref_apiVersion ConfigKind := ChildLocal ]}
  {[ gvk infra_apiVersion WorkloadClusterKind := Some WorkloadClusterCallbackFn ]}
  (Some (desiredOwnedResourceList w))
  (Some updateDependencyResource).
Definition inject_Run (w : W) (f : FnR) (rl : resourceList) : comp (resourceList * FnR * bool * option error) :=
  runFn (inject_config w) f rl.
End config_inject.

(** The object of a [Config]. *)
Class InjectAPILaws `{InjectAPI} : Prop := {
  Config_object c o :
    NewFromTypedObject (any_Config c) = Ok o →
    obj_ref o = gvkn (cf_APIVersion c) (cf_Kind c) (om_Name (cf_Meta c)) ∧ GetNamespace o = om_Namespace (cf_Meta c);
  injected_structs : go_is_struct (T := Dependency) = true ∧ go_is_struct (T := Unstructured) = true
}.

(** ** Properties *)
Section properties.
Context `{!FnSDK, !FnSDKLaws, !NephioAPI, !GoRange, !GoRangeLaws, !Kio, !InjectAPI, !InjectAPILaws}.
Context {W : Type} `{!Porch W, !PorchResources W}.
Implicit Types (pr : PackageRevision) (repos : gmap string Repository).

(** A published revision of the package in a deployment repository, among [prs]. *)
Definition candidate repos (pkg : string) (prs : list PackageRevision) pr : Prop :=
  pr ∈ prs ∧ pr_PackageName pr = pkg ∧ LifecycleIsPublished (pr_Lifecycle pr) = true ∧ (pr_Revision pr > 0)%Z ∧
  ∃ repo, repos !! pr_RepositoryName pr = Some repo ∧ repo_Deployment repo = true.
(** The latest of its repository. *)
Definition latest repos pkg prs pr : Prop :=
  candidate repos pkg prs pr ∧
  ∀ pr', candidate repos pkg prs pr' → pr_RepositoryName pr' = pr_RepositoryName pr → (pr_Revision pr' ≤ pr_Revision pr)%Z.

(** What the map of the latest revisions is after the revisions [prs]. *)
Definition latest_map repos pkg prs (m : gmap string PackageRevision) : Prop :=
  (∀ k pr, m !! k = Some pr → k = prName pr ∧ latest repos pkg prs pr) ∧
  (∀ pr, candidate repos pkg prs pr → is_Some (m !! prName pr)).

Lemma eligible_candidate repos pkg prs repo pr :
  repos !! pr_RepositoryName pr = Some repo → eligible pkg repo pr = true ↔ candidate repos pkg (prs ++ [pr]) pr.
Proof.
  intros Hr. unfold eligible, candidate. rewrite !andb_true_iff, !bool_decide_eq_true.
  split; [intros [[[? ?] ?] ?]|intros (_ & ? & ? & ? & repo' & Hr' & ?); rewrite Hr in Hr'; by injection Hr' as <-].
  split_and!; [set_solver|done..|by eauto].
Qed.
Lemma candidate_snoc repos pkg prs pr pr' :
  candidate repos pkg (prs ++ [pr]) pr' ↔ candidate repos pkg prs pr' ∨ (pr' = pr ∧ candidate repos pkg (prs ++ [pr]) pr).
Proof.
  unfold candidate. split.
  - intros [[Hin|Hin]%elem_of_app Hc]; [by left|right]. apply list_elem_of_singleton in Hin as ->. split_and!; [done|set_solver|apply Hc..].
  - intros [[Hin Hc]|[-> Hc]]; [|done]. split; [set_solver|done].
Qed.
Lemma prName_inj pr pr' : pr_PackageName pr = pr_PackageName pr' → prName pr = prName pr' → pr_RepositoryName pr = pr_RepositoryName pr'.
Proof. unfold prName. intros ->. apply string_app_inj_r. Qed.


(** The latest revisions stay the latest when a revision is added that is not later. *)
Lemma latest_snoc repos pkg prs pr pr1 :
  latest repos pkg prs pr1 →
  (candidate repos pkg (prs ++ [pr]) pr → pr_RepositoryName pr = pr_RepositoryName pr1 → (pr_Revision pr ≤ pr_Revision pr1)%Z) →
  latest repos pkg (prs ++ [pr]) pr1.
Proof.
  intros [Hc Hmax] Hpr. split; [apply candidate_snoc; by left|].
  intros pr' [Hpr'|[-> Hpr']]%candidate_snoc; auto.
Qed.
Lemma candidate_name repos pkg prs prs' pr pr' :
  candidate repos pkg prs pr → candidate repos pkg prs' pr' →
  pr_RepositoryName pr = pr_RepositoryName pr' ↔ prName pr = prName pr'.
Proof.
  intros (_ & Hp & _) (_ & Hp' & _). split; [unfold prName; congruence|]. apply prName_inj. congruence.
Qed.

Lemma keepLatest_spec repos pkg prs m pr :
  latest_map repos pkg prs m → candidate repos pkg (prs ++ [pr]) pr → latest_map repos pkg (prs ++ [pr]) (keepLatest m pr).
Proof.
  intros [Hm Hc] Hpr. unfold keepLatest.
  assert ((∀ pr0, m !! prName pr = Some pr0 → pr_Revision pr0 < pr_Revision pr)%Z →
          latest_map repos pkg (prs ++ [pr]) (<[prName pr := pr]> m)) as Hins.
  { intros Hlt. split.
    - intros k pr1 [[<- <-]|[Hne Hk]]%lookup_insert_Some.
      + split; [done|]. split; [done|]. intros pr' [Hpr'|[-> _]]%candidate_snoc Hr; [|lia].
        apply (candidate_name _ _ _ _ _ _ Hpr' Hpr) in Hr.
        destruct (Hc pr' Hpr') as [pr0 Hk0]. rewrite Hr in Hk0. pose proof (Hlt _ Hk0).
        apply Hm in Hk0 as [Hk0 [Hc0 Hmax]]. rewrite <-Hr in Hk0. apply (candidate_name _ _ _ _ _ _ Hpr' Hc0) in Hk0.
        specialize (Hmax pr' Hpr' Hk0). lia.
      + apply Hm in Hk as [-> Hl]. split; [done|]. apply latest_snoc; [done|]. intros _ Hr.
        by apply (candidate_name _ _ _ _ _ _ Hpr (proj1 Hl)) in Hr.
    - intros pr' [Hpr'|[-> _]]%candidate_snoc; [|rewrite lookup_insert_eq; by eauto].
      rewrite lookup_insert_is_Some. destruct (decide (prName pr = prName pr')); [by left|right; split; [done|by apply Hc]]. }
  destruct (m !! prName pr) as [pr0|] eqn:Hk0; [|apply Hins; by intros].
  case_decide as Hgt; [apply Hins; intros ? [= <-]; lia|]. split.
  - intros k pr1 Hk. pose proof (Hm _ _ Hk) as [-> Hl]. split; [done|]. apply latest_snoc; [done|]. intros _ Hr.
    apply (candidate_name _ _ _ _ _ _ Hpr (proj1 Hl)) in Hr. rewrite <-Hr, Hk0 in Hk. injection Hk as ->. lia.
  - intros pr' [Hpr'|[-> _]]%candidate_snoc; [by apply Hc|by eauto].
Qed.

Lemma latestPRs_spec repos pkg todo prs m m' :
  latest_map repos pkg prs m → latestPRs repos pkg todo m = Ok m' → latest_map repos pkg (prs ++ todo) m'.
Proof.
  revert prs m. induction todo as [|pr todo IH]; intros prs m Hm; simpl; [intros [= <-]; by rewrite app_nil_r|].
  destruct (repos !! pr_RepositoryName pr) as [repo|] eqn:Hr; [|done]. rewrite cons_middle, app_assoc. apply IH.
  destruct (eligible pkg repo pr) eqn:He.
  - apply keepLatest_spec; [done|]. by apply (eligible_candidate _ _ _ repo).
  - assert (¬ candidate repos pkg (prs ++ [pr]) pr) as Hn.
    { intros Hc. apply (eligible_candidate _ _ _ repo) in Hc; [|done]. congruence. }
    destruct Hm as [Hm Hc]. split.
    + intros k pr1 [-> Hl]%Hm. split; [done|]. by apply latest_snoc.
    + intros pr' [Hpr'|[-> Hpr']]%candidate_snoc; [by apply Hc|done].
Qed.

(** The items and the Kptfile of the package of a revision. *)
Definition package (w : W) pr (items : list KubeObject) (kf : KptFile) : Prop :=
  ∃ prr rl, reader_GetPRR w (pr_Key pr) = Ok prr ∧ GetResourceList (prr_Resources prr) = Done (Ok rl) ∧
    items = rl_Items rl ∧ GetRootKptfile (λ o, o) items = Some (Kptfile kf).
(** The package reports the resource [x] as ready. *)
Definition resource_ready (kf : KptFile) (x : KubeObject) : Prop :=
  ∃ c, find_condition (GetConditionType (gvkn (GetAPIVersion x) (GetKind x) (GetName x))) (conds kf) = Some c ∧
    Status c = ConditionTrue.
(** [o] is the [Config] made of [x] for the dependency [forObj]. *)
Definition config_of (forObj x o : KubeObject) : Prop :=
  obj_ref o = gvkn ref_apiVersion ConfigKind (getForName (GetAnnotations forObj) +:+ "-" +:+ GetName x) ∧
  GetNamespace o = GetAnnotation forObj SpecializerNamespace.

Lemma injectObject_Ok forObj pr kf x o :
  injectObject forObj pr kf x = Done (Ok o) → resource_ready kf x ∧ config_of forObj x o.
Proof.
  unfold injectObject. cbv zeta. rewrite GetCondition_spec.
  destruct (find_condition _ _) as [c|] eqn:Hc; [|done]. case_decide as Hs; [done|].
  unfold GetConfigKubeObject. rewrite try_bind_Ok. intros ([koe u] & _ & Ho). injection Ho as Ho.
  split; [by exists c|]. by apply Config_object in Ho.
Qed.

Lemma injectRef_Ok forObj pr kf items ref l :
  injectRef forObj pr kf items ref = Done (Ok l) →
  Where (APIVersion ref) (Kind ref) items ≠ [] ∧
  Forall2 (λ x o, resource_ready kf x ∧ config_of forObj x o) (Where (APIVersion ref) (Kind ref) items) l.
Proof.
  unfold injectRef. destruct (Where _ _ _) as [|x xs]; [done|]. intros Hl%each_try_Ok. split; [done|].
  eapply Forall2_impl; [exact Hl|]. intros y o. apply injectObject_Ok.
Qed.

(** What the package of a revision contributes. *)
Lemma injectPackage_Ok w forObj dep pr ls :
  injectPackage w forObj dep pr = Done (Ok ls) →
  ∃ items kf, package w pr items kf ∧
    Forall2 (λ ref l, Where (APIVersion ref) (Kind ref) items ≠ [] ∧
      Forall2 (λ x o, resource_ready kf x ∧ config_of forObj x o) (Where (APIVersion ref) (Kind ref) items) l)
      (dep_Injectors dep) ls.
Proof.
  unfold injectPackage. rewrite try_bind_Ok. intros (prr & [= Hprr] & Hp). apply try_bind_Ok in Hp as (rl & Hrl & Hp).
  destruct (GetRootKptfile _ _) as [kfko|] eqn:Hk; [|done]. apply each_try_Ok in Hp.
  exists (rl_Items rl), (mkKptFile kfko). split; [by exists prr, rl|].
  eapply Forall2_impl; [exact Hp|]. intros ref l. apply injectRef_Ok.
Qed.

Lemma injectAll_Ok w forObj dep prs rs l :
  reader_ListPR w = Ok prs → reader_ListRepositories w = Ok rs → injectAll w forObj dep = Done (Ok l) →
  ∃ (m : gmap string PackageRevision) lss, m ≠ ∅ ∧ latest_map (repo_map rs) (dep_PackageName dep) prs m ∧ l = concat (concat lss) ∧
    Forall2 (λ kv ls, injectPackage w forObj dep kv.2 = Done (Ok ls)) (range (at_ "prmap") m) lss.
Proof.
  unfold injectAll. intros -> -> (? & [= <-] & (? & [= <-] & (m & [= Hm] & (lss & Hl & Hd)%try_bind_Ok)%try_bind_Ok)%try_bind_Ok)%try_bind_Ok.
  apply each_try_Ok in Hl. case_decide as He; [done|]. injection Hd as <-. exists m, lss. split_and!; try done.
  apply (latestPRs_spec _ _ _ [] ∅); [|done]. split; [by intros k pr; rewrite lookup_empty|].
  intros pr [Hin _]. by apply elem_of_nil in Hin.
Qed.

(** C17: a dependency is resolved by the latest published revisions, and only when they are
    ready.  If the function succeeds, some published revision of the package exists in a
    deployment repository; every [Config] it generates wraps a resource that a latest
    revision has of one of the kinds asked for and reports as ready; and for every
    deployment repository with a published revision of the package, every kind asked for
    has a resource in its latest revision and all of these resources are ready and wrapped. *)
Theorem configinject_latest_ready w f f' forObj dep prs rs l :
  go_As forObj = (dep, None) → reader_ListPR w = Ok prs → reader_ListRepositories w = Ok rs →
  desiredOwnedResourceList w f forObj = Done (f', Ok l) →
  let latest := latest (repo_map rs) (dep_PackageName dep) prs in
  (∃ pr, latest pr) ∧
  (∀ o, o ∈ l → ∃ pr items kf ref x, latest pr ∧ package w pr items kf ∧ ref ∈ dep_Injectors dep ∧
     x ∈ Where (APIVersion ref) (Kind ref) items ∧ resource_ready kf x ∧ config_of forObj x o) ∧
  (∀ pr, candidate (repo_map rs) (dep_PackageName dep) prs pr → ∃ pr' items kf,
     latest pr' ∧ pr_RepositoryName pr' = pr_RepositoryName pr ∧ package w pr' items kf ∧
     ∀ ref, ref ∈ dep_Injectors dep → Where (APIVersion ref) (Kind ref) items ≠ [] ∧
       ∀ x, x ∈ Where (APIVersion ref) (Kind ref) items → resource_ready kf x ∧ ∃ o, o ∈ l ∧ config_of forObj x o).
Proof.
  intros Has Hprs Hrepos Hd latest_. unfold desiredOwnedResourceList in Hd. destruct f as [wc|]; [|done].
  simpl in Hd. rewrite Has in Hd. apply comp_bind_Done in Hd as (r & Hr & [= _ ->]).
  destruct (injectAll_Ok _ _ _ _ _ _ Hprs Hrepos Hr) as (m & lss & Hne & [Hm Hc] & -> & Hall).
  split_and!.
  - destruct (map_choose m Hne) as (k & pr & Hk). exists pr. by apply Hm in Hk as [_ ?].
  - intros o (l1 & (ls & Hls & Hin)%elem_of_concat & Ho)%elem_of_concat.
    destruct (Forall2_elem_r _ _ _ _ Hall Hls) as ([k pr] & Hk & (items & kf & Hp & Hrefs)%injectPackage_Ok).
    rewrite range_perm, elem_of_map_to_list in Hk. apply Hm in Hk as [_ Hl].
    destruct (Forall2_elem_r _ _ _ _ Hrefs Hin) as (ref & Href & _ & Hobjs).
    destruct (Forall2_elem_r _ _ _ _ Hobjs Ho) as (x & Hx & Hready & Hcfg). by exists pr, items, kf, ref, x.
  - intros pr Hpr. destruct (Hc pr Hpr) as [pr' Hk].
    assert ((prName pr, pr') ∈ range (at_ "prmap") m) as Hin by (by rewrite range_perm, elem_of_map_to_list).
    apply Hm in Hk as [Hname Hl]. destruct (Forall2_elem_l _ _ _ _ Hall Hin) as (ls & Hls & (items & kf & Hp & Hrefs)%injectPackage_Ok).
    exists pr', items, kf. split_and!; [done|symmetry; by apply (candidate_name _ _ _ _ _ _ Hpr (proj1 Hl))|done|].
    intros ref Href. destruct (Forall2_elem_l _ _ _ _ Hrefs Href) as (l1 & Hl1 & Hex & Hobjs). split; [done|].
    intros x Hx. destruct (Forall2_elem_l _ _ _ _ Hobjs Hx) as (o & Ho & Hready & Hcfg). split; [done|]. exists o. split; [|done].
    apply elem_of_concat. exists l1. split; [|done]. apply elem_of_concat. by exists ls.
Qed.
End properties.

(** ** A concrete Porch server
    A file holds one object, or a sequence of them. *)
Module PackageModel.
Import Model InventoryModel ApiModel.

Definition path_key : string := "internal.config.kubernetes.io/path".
Definition docs (n : Node) : list Node := if decide (n_Kind n = SequenceNode) then n_Content n else [n].
Fixpoint read_docs (path : string) (l : list Node) : result (list obj) :=
  match l with
  | [] => Ok []
  | n :: l => o ← from_node (erase n); os ← read_docs path l; Ok (put_ann o path_key path :: os)
  end.
Fixpoint read_files (l : list (string * Node)) : result (list obj) :=
  match l with
  | [] => Ok []
  | (path, n) :: l => os ← read_docs path (docs n); os' ← read_files l; Ok (os ++ os')
  end.
#[export] Instance kio : Kio := {|
  RNode := obj; kio_Execute := read_files; RNode_String o := Ok (to_node o);
  PathAnnotation := path_key; no_Results := [] |}.

#[export] Instance inject_api : InjectAPI := {|
  ref_apiVersion := "ref.nephio.org/v1alpha1"; DependencyKind := "Dependency";
  Dependency := obj; dep_GoType := obj_type "req.nephio.org/v1alpha1" "Dependency";
  dep_PackageName := ex "packageName";
  dep_Injectors o := [gvk (ex "injectAPI" o) (ex "injectKind" o)];
  dep_set_Injected l o := put_extra o "Status" (fmt_words (Name <$> l));
  Unstructured := obj; un_GoType := obj_type "" "";
  any_Config c := VObject (mkObj (cf_APIVersion c) (cf_Kind c) (om_Name (cf_Meta c)) (om_Namespace (cf_Meta c)) ∅ [] []
                             (Some (o_name (cf_Config c))) ∅);
  GVK_String r := APIVersion r +:+ ", Kind=" +:+ Kind r |}.
#[export] Instance inject_api_laws : InjectAPILaws.
Proof. constructor; [|done]. by intros c o [= <-]. Qed.

Record server := mkServer {
  sv_prs : list PackageRevision; sv_repos : list Repository;
  sv_files : gmap NamespacedName (gmap string Node)
}.
Definition get_pr (w : server) (k : NamespacedName) : result PackageRevision :=
  match List.find (λ pr, bool_decide (pr_Key pr = k)) (sv_prs w) with Some pr => Ok pr | None => Err "not found" end.
Definition get_prr (w : server) (k : NamespacedName) : result (@PackageRevisionResources Model.sdk) :=
  match sv_files w !! k with Some m => Ok (mkPRR k m) | None => Err "not found" end.
#[export] Instance porch : Porch server := {|
  porchconfig_GroupVersion := "config.porch.kpt.dev/v1alpha1";
  LifecycleIsPublished l := bool_decide (l = LifecyclePublished);
  PackageRevisionIsReady gates cs :=
    forallb (λ g, existsb (λ c, bool_decide (pc_Type c = g ∧ pc_Status c = "True")) cs) gates;
  porch_AddToScheme := None; reader_GetPR := get_pr; reader_ListPR w := Ok (sv_prs w); reader_GetPV _ _ := Err "not found";
  client_UpdatePR w _ := (w, Some "not in use"); rest_GetPR := get_pr; rest_PutApproval w _ := (w, Some "not in use");
  now _ := 0%Z |}.
#[export] Instance resources : PorchResources server := {|
  reader_GetPRR := get_prr; reader_ListRepositories w := Ok (sv_repos w); client_GetPR := get_pr;
  porchClient_GetPRR := get_prr;
  porchClient_UpdatePRR w prr := (mkServer (sv_prs w) (sv_repos w) (<[prr_Key prr := prr_Resources prr]> (sv_files w)), None) |}.
End PackageModel.

Module InjectWitnesses.
Import Model InventoryModel ApiModel PackageModel.

Definition revision (name lifecycle : string) (rev : Z) : PackageRevision :=
  mkPR (mkKey "default" name) ∅ [] 0 "upf" "edge" lifecycle [] [] rev.
Definition kptfile (status : string) : obj := mkObj "kpt.dev/v1" "Kptfile" "upf" "" ∅
  [mkCondition "workload.nephio.org/v1alpha1.NFDeployment.upf" status "" ""] [] None ∅.
Definition upf : obj := mkObj "workload.nephio.org/v1alpha1" "NFDeployment" "upf" "" ∅ [] [] (Some "") ∅.
Definition files (status : string) : gmap string Node := {[ "Kptfile" := to_node (kptfile status); "upf.yaml" := to_node upf ]}.
(** The first revision is not ready, the second is, the third is a draft. *)
Definition edge : server := mkServer
  [revision "upf-v1" "Published" 1; revision "upf-v2" "Published" 2; revision "upf-v3" "Draft" 0]
  [mkRepository "edge" true]
  {[ mkKey "default" "upf-v1" := files "False"; mkKey "default" "upf-v2" := files "True" ]}.
Definition dependency : obj := mkObj "req.nephio.org/v1alpha1" "Dependency" "upf" ""
  {[ SpecializerOwner := "workload.nephio.org/v1alpha1.NFDeployment.smf" ]} [] [] (Some "")
  {[ "packageName" := "upf"; "injectAPI" := "workload.nephio.org/v1alpha1"; "injectKind" := "NFDeployment" ]}.
Definition fnr : @FnR Model.sdk api := Some (upf : @WorkloadCluster Model.sdk api).
Definition injected : list (@KubeObject Model.sdk) :=
  match desiredOwnedResourceList edge fnr (dependency : @KubeObject Model.sdk) with Done (_, Ok l) => l | _ => [] end.
Lemma injected_ok : desiredOwnedResourceList edge fnr (dependency : @KubeObject Model.sdk) = Done (fnr, Ok injected).
Proof. vm_compute. reflexivity. Qed.

Lemma configinject_latest_ready_witness :
  (o_name <$> (injected : list obj)) = ["smf-upf"] ∧
  ∃ pr' items kf, package edge pr' items kf ∧ (1 ≤ pr_Revision pr')%Z ∧
    ∀ x, x ∈ Where "workload.nephio.org/v1alpha1" "NFDeployment" items → resource_ready kf x.
Proof.
  split; [vm_compute; reflexivity|].
  destruct (configinject_latest_ready edge fnr fnr (dependency : @KubeObject Model.sdk) (dependency : @Dependency Model.sdk api inject_api)
    (sv_prs edge) (sv_repos edge) injected) as (_ & _ & Hall); [reflexivity..|exact injected_ok|].
  assert (candidate (repo_map (sv_repos edge)) "upf" (sv_prs edge) (revision "upf-v1" "Published" 1)) as Hc.
  { split_and!; [by left|reflexivity|reflexivity|reflexivity|]. exists (mkRepository "edge" true). done. }
  destruct (Hall _ Hc) as (pr' & items & kf & [_ Hmax] & Hrepo & Hp & Hrefs).
  exists pr', items, kf. split_and!; [exact Hp|specialize (Hmax _ Hc (eq_sym Hrepo)); simpl in Hmax; lia|].
  intros x Hx. destruct (Hrefs (gvk "workload.nephio.org/v1alpha1" "NFDeployment")) as [_ Hr]; [by left|]. by apply Hr.
Defined.
End InjectWitnesses.
