(* ===== verification/BootstrapPackages.v ===== *)
(** * [controllers/pkg/reconcilers/bootstrap-packages]: packages for the workload clusters

    The resources of a published package revision of a staging repository are installed on
    the workload cluster that the first of them is annotated with.  kyaml, Porch and the
    clusters are parameters; [remote h] is the client of the workload cluster [h]. *)
From S2P Require Import Prelude GoStrings External SdkModel Inventory Kptrl Kube Cluster Porch BootstrapSecret ConfigInject.

Definition LocalConfigAnnotation : string := "config.kubernetes.io/local-config".
Definition stagingKey : string := "nephio.org/staging".

(** [unstructured.Unstructured] and what is used of kyaml's nodes. *)
Class PackageAPI `{!FnSDK, !Kio} := {
  RNode_Annotations : RNode → gmap string string;
  Manifest : Type;
  Manifest_Object :: Object Manifest;
  Manifest_Unmarshal : bytes → result Manifest
}.
(** The repositories with their annotations, as the Porch client lists them. *)
Class StagingAPI (W : Type) := { porchClient_ListRepositories : W → result (list (string * gmap string string)) }.

Section bootstrap_packages.
Context `{!ApiErrors, !FnSDK, !Kio, !PackageAPI, !GoRange} {W : Type} `{!ClusterAPI W, !Porch W, !PorchResources W, !StagingAPI W}.
Context (remote : Remote → Client W Manifest).

(** The result of the method: the client of the first secret that is accepted. *)
Fixpoint find_client (clusterName : string) (secrets : list Secret) : option Capi :=
  match secrets with
  | [] => None
  | secret :: secrets =>
      if Contains (sec_Name secret) clusterName then
        match Cluster_GetClusterClient secret with
        | Some c => Some c
        | None => find_client clusterName secrets
        end
      else find_client clusterName secrets
  end.
Definition bootstrap_GetClusterClient (w : W) (clusterName : string) : result (option Capi) :=
  secrets ← list_Secrets w;
  Ok (find_client clusterName secrets).

Definition IsStagingPackageRevision (w : W) (repositoryName : string) : result bool :=
  repos ← porchClient_ListRepositories w;
  let stagingRepoNames := fst <$> List.filter (λ repo : string * gmap string string, bool_decide (is_Some (repo.2 !! stagingKey))) repos in
  Ok (existsb (λ n, bool_decide (repositoryName = n)) stagingRepoNames).

Definition includedFileTypes (path : string) (match_ : list string) : bool :=
  existsb (λ m, Match m (Base path)) match_.

(** The loop over the nodes; [MustString] panics on an error. *)
Fixpoint keepNodes (nodes : list RNode) : comp (list Manifest) :=
  match nodes with
  | [] => Done []
  | n :: nodes =>
      if decide (RNode_Annotations n !! LocalConfigAnnotation = Some "true") then keepNodes nodes
      else
        match RNode_String n with
        | Err e => Panic e
        | Ok s =>
            match Manifest_Unmarshal s with
            | Err _ => keepNodes nodes
            | Ok u => ul ← keepNodes nodes; Done (u :: ul)
            end
        end
  end.
Definition filterNonLocalResources (resources : gmap string bytes) : comp (result (list Manifest)) :=
  let inputs := List.filter (λ kv, includedFileTypes kv.1 ["*.yaml"; "*.yml"; "Kptfile"]) (range (at_ "bootstrap") resources) in
  nodes ←? Done (kio_Execute inputs);
  ul ← keepNodes nodes;
  Done (Ok ul).

Definition getPrResources (w : W) (req : NamespacedName) : comp (result (list Manifest)) :=
  prr ←? Done (porchClient_GetPRR w req);
  filterNonLocalResources (prr_Resources prr).

Definition install_manifest (h : Remote) (u : Manifest) : prog W (option error) :=
  '(_, err) ← @Apply _ W Manifest _ (remote h) u [];
  mret (Wrap err ("cannot apply resource to cluster: resourceName: " +:+ key_Name (GetKey u))).

Definition bootstrappackages_Reconcile (req : NamespacedName) : prog W Return :=
  w ← get_st;
  match client_GetPR w req with
  | Err e =>
      match IgnoreNotFound (Some e) with
      | Some e => mret (done_result, Wrap (Some e) "cannot get resource")
      | None => mret (done_result, None)
      end
  | Ok cr =>
      match IsStagingPackageRevision w (pr_RepositoryName cr) with
      | Err e => mret (done_result, Wrap (Some e) "cannot list repositories")
      | Ok stagingPR =>
          if stagingPR && LifecycleIsPublished (pr_Lifecycle cr) then
            rs ← lift (getPrResources w req);
            match rs with
            | Err e => mret (done_result, Wrap (Some e) "cannot get resources")
            | Ok [] => mret (done_result, None)
            | Ok ((r0 :: _) as resources) =>
                match ObjAnnotations r0 ≫= lookup clusterNameKey with
                | None => mret (done_result, None)
                | Some clusterName =>
                    match bootstrap_GetClusterClient w clusterName with
                    | Err e => mret (done_result, Wrap (Some e) ("failed to get cluster Secret for: " +:+ clusterName))
                    | Ok None => mret (requeueAfter (10 * Second), None)
                    | Ok (Some c) =>
                        cl ← lift (Capi_GetClusterClient w c);
                        match cl with
                        | Err e => mret (requeueAfter (30 * Second), Wrap (Some e) "cannot get clusterClient")
                        | Ok None => mret (requeueAfter (10 * Second), None)
                        | Ok (Some h) =>
                            err ← for_each_err (install_manifest h) resources;
                            mret (done_result, err)
                        end
                    end
                end
            end
          else mret (done_result, None)
      end
  end.

(** ** What is installed *)
Definition staging (w : W) (repo : string) : Prop :=
  ∃ repos a, porchClient_ListRepositories w = Ok repos ∧ (repo, a) ∈ repos ∧ is_Some (a !! stagingKey).
Lemma IsStaging_true w repo : IsStagingPackageRevision w repo = Ok true ↔ staging w repo.
Proof.
  unfold IsStagingPackageRevision, staging. destruct (porchClient_ListRepositories w) as [repos|e]; cbn; [|naive_solver].
  split.
  - intros [= Hn]. apply existsb_exists in Hn as (n & Hn & ->%bool_decide_eq_true).
    apply list_elem_of_In, list_elem_of_fmap in Hn as ([n' a] & -> & Hn%list_elem_of_In). apply List.filter_In in Hn as [Hn Ha].
    exists repos, a. rewrite bool_decide_eq_true in Ha. split_and!; [done|by apply list_elem_of_In|done].
  - intros (? & a & [= <-] & Hin & Ha). f_equal. apply existsb_exists. exists repo. split; [|by apply bool_decide_eq_true].
    apply list_elem_of_In, list_elem_of_fmap. exists (repo, a). split; [done|]. apply list_elem_of_In, List.filter_In.
    split; [by apply list_elem_of_In|by apply bool_decide_eq_true].
Qed.

(** The manifest of a node of the package that is meant for the cluster. *)
Definition manifest_at (n : RNode) : option Manifest :=
  if decide (RNode_Annotations n !! LocalConfigAnnotation = Some "true") then None
  else match RNode_String n with
       | Ok s => match Manifest_Unmarshal s with Ok u => Some u | Err _ => None end
       | Err _ => None
       end.
Lemma keepNodes_spec nodes ul : keepNodes nodes = Done ul → ul = omap manifest_at nodes.
Proof.
  revert ul. induction nodes as [|n nodes IH]; intros ul; cbn; [by intros [= <-]|]. unfold manifest_at at 1.
  case_decide; [apply IH|]. destruct (RNode_String n) as [s|e]; [|done]. destruct (Manifest_Unmarshal s) as [u|e]; [|apply IH].
  intros (ul' & Hk & [= <-])%comp_bind_Done. by rewrite (IH _ Hk).
Qed.
Lemma getPrResources_Ok w req ul :
  getPrResources w req = Done (Ok ul) →
  ∃ prr nodes, porchClient_GetPRR w req = Ok prr ∧
    kio_Execute (List.filter (λ kv, includedFileTypes kv.1 ["*.yaml"; "*.yml"; "Kptfile"]) (range (at_ "bootstrap") (prr_Resources prr))) = Ok nodes ∧
    keepNodes nodes = Done ul.
Proof.
  unfold getPrResources, filterNonLocalResources. intros (prr & [= Hp] & (nodes & [= Hk] & Hn)%try_bind_Ok)%try_bind_Ok.
  exists prr, nodes. split_and!; [done..|]. by apply comp_bind_Done in Hn as (? & ? & [= ->]).
Qed.

Lemma find_client_target c secrets :
  find_client c secrets = (λ s, mkCapi (Some s)) <$> target c secrets.
Proof.
  induction secrets as [|s secrets IH]; [done|]. unfold target in *. cbn.
  destruct (Contains _ _); [|exact IH]. destruct (Cluster_GetClusterClient s) as [c'|] eqn:Hs; [|exact IH].
  by apply Cluster_GetClusterClient_Some in Hs as (_ & _ & ->).
Qed.

(** The manifests are applied to the cluster [h] one after the other; the first failure ends it
    and is reported. *)
Inductive installation (h : Remote) : list Manifest → W → W → option error → Prop :=
  | installation_done w : installation h [] w w None
  | installation_next u l w w1 o w' err :
      @Apply _ W Manifest _ (remote h) u [] w = Done (w1, (o, None)) → installation h l w1 w' err → installation h (u :: l) w w' err
  | installation_failed u l w w' o e :
      @Apply _ W Manifest _ (remote h) u [] w = Done (w', (o, Some e)) →
      installation h (u :: l) w w' (Wrap (Some e) ("cannot apply resource to cluster: resourceName: " +:+ key_Name (GetKey u))).
Lemma install_all h l w w' err :
  for_each_err (install_manifest h) l w = Done (w', err) → installation h l w w' err.
Proof.
  revert w. induction l as [|u l IH]; intros w; [intros [= <- <-]; constructor|].
  cbn [for_each_err]. intros (w1 & e & Hi & Hr)%prog_bind_Done.
  apply prog_bind_Done in Hi as (w2 & [o e'] & Ha & [= <- <-]).
  destruct e' as [e'|]; cbn in Hr; [injection Hr as <- <-; by econstructor|econstructor; [exact Ha|by apply IH]].
Qed.

(** The YAML files of a package, and the manifests [ul] of the revision [req], in order, when it
    is a published one of a staging repository. *)
Definition yaml_files (resources : gmap string bytes) : list (string * bytes) :=
  List.filter (λ kv, includedFileTypes kv.1 ["*.yaml"; "*.yml"; "Kptfile"]) (range (at_ "bootstrap") resources).
Definition to_install (w : W) (req : NamespacedName) (ul : list Manifest) : Prop :=
  ∃ cr prr nodes, client_GetPR w req = Ok cr ∧ staging w (pr_RepositoryName cr) ∧ LifecycleIsPublished (pr_Lifecycle cr) = true ∧
    porchClient_GetPRR w req = Ok prr ∧ kio_Execute (yaml_files (prr_Resources prr)) = Ok nodes ∧ ul = omap manifest_at nodes.
Definition cluster_of (u : Manifest) : option string := ObjAnnotations u ≫= lookup clusterNameKey.
(** One of the calls that only read has failed. *)
Definition read_failed (w : W) (req : NamespacedName) : Prop :=
  ∃ e, client_GetPR w req = Err e ∧ IsNotFound e = false ∨ porchClient_ListRepositories w = Err e ∨
    porchClient_GetPRR w req = Err e ∨ (∃ prr, porchClient_GetPRR w req = Ok prr ∧ kio_Execute (yaml_files (prr_Resources prr)) = Err e) ∨
    list_Secrets w = Err e ∨
    ∃ r0 us c secrets s, to_install w req (r0 :: us) ∧ cluster_of r0 = Some c ∧ list_Secrets w = Ok secrets ∧
      target c secrets = Some s ∧ getCapiClusterClient s = Err e.

(** How a run ends. *)
Inductive outcome (req : NamespacedName) (w : W) : W → Result → option error → Prop :=
  | out_installed r0 us c secrets s h w' err :
      to_install w req (r0 :: us) → cluster_of r0 = Some c →
      list_Secrets w = Ok secrets → target c secrets = Some s →
      cluster_ready w (key_Namespace (GetKey s)) (TrimSuffix (sec_Name s) kubeConfigSuffix) → getCapiClusterClient s = Ok (Some h) →
      installation h (r0 :: us) w w' err → outcome req w w' done_result err
  | out_waiting r0 us c secrets :
      to_install w req (r0 :: us) → cluster_of r0 = Some c → list_Secrets w = Ok secrets →
      (∀ s, target c secrets = Some s → ¬ cluster_ready w (key_Namespace (GetKey s)) (TrimSuffix (sec_Name s) kubeConfigSuffix)) →
      outcome req w w (requeueAfter (10 * Second)) None
  | out_nothing :
      (∃ e, client_GetPR w req = Err e ∧ IsNotFound e = true) ∨
      (∃ cr, client_GetPR w req = Ok cr ∧ ¬ (staging w (pr_RepositoryName cr) ∧ LifecycleIsPublished (pr_Lifecycle cr) = true)) ∨
      to_install w req [] ∨ (∃ r0 us, to_install w req (r0 :: us) ∧ cluster_of r0 = None) →
      outcome req w w done_result None
  | out_failed res e : read_failed w req → outcome req w w res (Some e).

Lemma outcome_installed req w w' res err :
  outcome req w w' res err → w' ≠ w →
  ∃ r0 us c secrets s h, to_install w req (r0 :: us) ∧ cluster_of r0 = Some c ∧ list_Secrets w = Ok secrets ∧
    target c secrets = Some s ∧ getCapiClusterClient s = Ok (Some h) ∧ installation h (r0 :: us) w w' err.
Proof. intros [r0 us c secrets s h w1 err1| | |] Hne; [|done..]. by exists r0, us, c, secrets, s, h. Qed.
Lemma getPrResources_manifests w req cr ul :
  client_GetPR w req = Ok cr → staging w (pr_RepositoryName cr) → LifecycleIsPublished (pr_Lifecycle cr) = true →
  getPrResources w req = Done (Ok ul) → to_install w req ul.
Proof.
  intros Hg Hst Hpub (prr & nodes & Hp & Hn & Hk)%getPrResources_Ok. exists cr, prr, nodes. split_and!; try done. by apply keepNodes_spec.
Qed.
Lemma getPrResources_failed w req e : getPrResources w req = Done (Err e) → read_failed w req.
Proof.
  unfold getPrResources, filterNonLocalResources. intros Hr. exists e.
  destruct (porchClient_GetPRR w req) as [prr|e'] eqn:Hp; [|cbn in Hr; by injection Hr as <-; auto].
  cbn in Hr. destruct (kio_Execute _) as [nodes|e'] eqn:Hk; [|cbn in Hr; injection Hr as <-; do 3 right; left; by exists prr].
  cbn in Hr. by apply comp_bind_Done in Hr as (? & _ & ?).
Qed.

(** The part of a run that has a cluster to look for. *)
Lemma find_and_install req w w' r0 us c res err :
  to_install w req (r0 :: us) → cluster_of r0 = Some c →
  match bootstrap_GetClusterClient w c with
  | Err e => mret (done_result, Wrap (Some e) ("failed to get cluster Secret for: " +:+ c))
  | Ok None => mret (requeueAfter (10 * Second), None)
  | Ok (Some cc) =>
      cl ← lift (Capi_GetClusterClient w cc);
      match cl with
      | Err e => mret (requeueAfter (30 * Second), Wrap (Some e) "cannot get clusterClient")
      | Ok None => mret (requeueAfter (10 * Second), None)
      | Ok (Some h) => err ← for_each_err (install_manifest h) (r0 :: us); mret (done_result, err)
      end
  end w = Done (w', (res, err)) →
  outcome req w w' res err.
Proof.
  intros Hti Hc. unfold bootstrap_GetClusterClient. destruct (list_Secrets w) as [secrets|e] eqn:Hl; cbn.
  2:{ intros [= <- <- <-]. apply out_failed. exists e. auto 6. }
  rewrite find_client_target. destruct (target c secrets) as [s|] eqn:Ht; cbn.
  2:{ intros [= <- <- <-]. eapply out_waiting; [done..|]. intros s Hs. congruence. }
  intros (w1 & cl & Hcl & Hr)%prog_bind_Done. unfold lift in Hcl. apply comp_bind_Done in Hcl as (cl' & Hcl & [= <- <-]).
  destruct cl' as [[h|]|e].
  - apply Capi_client in Hcl as [Hready Hclient]. apply prog_bind_Done in Hr as (w2 & err' & Hall & [= <- <- <-]).
    apply (install_all h (r0 :: us)) in Hall. by eapply out_installed.
  - injection Hr as <- <- <-. eapply out_waiting; [done..|]. intros s' Hs'. rewrite Ht in Hs'. injection Hs' as <-. by apply Capi_not_ready.
  - injection Hr as <- <- <-. apply out_failed. exists e. do 5 right. exists r0, us, c, secrets, s. split_and!; [done..|]. by apply Capi_failed in Hcl.
Qed.


(** The converse: the manifests of a published revision of a staging repository are applied
    when the cluster is ready. *)
Lemma bootstrap_packages_complete req w cr r0 us c secrets s h :
  client_GetPR w req = Ok cr → staging w (pr_RepositoryName cr) → LifecycleIsPublished (pr_Lifecycle cr) = true →
  getPrResources w req = Done (Ok (r0 :: us)) → ObjAnnotations r0 ≫= lookup clusterNameKey = Some c →
  list_Secrets w = Ok secrets → target c secrets = Some s →
  cluster_ready w (key_Namespace (GetKey s)) (TrimSuffix (sec_Name s) kubeConfigSuffix) → getCapiClusterClient s = Ok (Some h) →
  bootstrappackages_Reconcile req w = (err ← for_each_err (install_manifest h) (r0 :: us); mret (done_result, err)) w.
Proof.
  intros Hg Hst Hpub Hrs Hc Hl Ht Hready Hcl. apply IsStaging_true in Hst.
  unfold bootstrappackages_Reconcile, mbind at 1, prog_bind at 1, get_st. rewrite Hg, Hst, Hpub. cbn [andb].
  unfold mbind at 1, prog_bind at 1, lift at 1. rewrite Hrs. cbn [mbind comp_bind]. rewrite Hc.
  unfold bootstrap_GetClusterClient. rewrite Hl. cbn [mbind result_bind]. rewrite find_client_target, Ht. cbn [fmap option_fmap option_map].
  unfold mbind at 1, prog_bind at 1, lift at 1. by rewrite (Capi_client_ready w s h Hready Hcl).
Qed.
End bootstrap_packages.

(** ** An example: a Porch server next to a fleet of clusters *)
Module BootstrapPackagesWitnesses.
Import Model InventoryModel PackageModel FleetModel.
Definition world : Type := server * fleet obj.
Definition keep {A} (x : fleet obj) (r : server * A) : world * A := ((r.1, x), r.2).
Definition keep_server {A} (x : server) (r : fleet obj * A) : world * A := ((x, r.1), r.2).

#[export] Instance world_porch : Porch world := {|
  porchconfig_GroupVersion := @porchconfig_GroupVersion server porch; LifecycleIsPublished := @LifecycleIsPublished server porch;
  PackageRevisionIsReady := @PackageRevisionIsReady server porch; porch_AddToScheme := None;
  reader_GetPR w := reader_GetPR w.1; reader_ListPR w := reader_ListPR w.1; reader_GetPV w := reader_GetPV w.1;
  client_UpdatePR w pr := keep w.2 (client_UpdatePR w.1 pr); rest_GetPR w := rest_GetPR w.1;
  rest_PutApproval w pr := keep w.2 (rest_PutApproval w.1 pr); now _ := 0%Z |}.
#[export] Instance world_resources : PorchResources world := {|
  reader_GetPRR w := reader_GetPRR w.1; reader_ListRepositories w := reader_ListRepositories w.1;
  client_GetPR w := client_GetPR w.1; porchClient_GetPRR w := porchClient_GetPRR w.1;
  porchClient_UpdatePRR w prr := keep w.2 (porchClient_UpdatePRR w.1 prr) |}.
#[export] Instance world_staging : StagingAPI world := {|
  porchClient_ListRepositories _ := Ok [("edge", ∅); ("mgmt-staging", {[ stagingKey := "true" ]})] |}.
#[export] Instance world_clusters : ClusterAPI world := {|
  list_Secrets w := list_Secrets w.2; CapiCluster := string; get_Cluster w := @get_Cluster _ (fleet_api obj) w.2;
  Cluster_Marshal st := Ok st; Cluster_Unmarshal st := Ok [mkCapiCondition ReadyCondition st];
  RestConfig := string; RESTConfigFromKubeConfig s := Ok s; Remote := string; client_New s := Ok s;
  remote_GetNamespace w h ns := @remote_GetNamespace _ (fleet_api obj) w.2 h ns |}.
#[export] Instance obj_Object : Object obj := {|
  GetKey o := mkKey (o_ns o) (o_name o); GetGenerateName _ := ""; GetFinalizers _ := []; SetFinalizers _ o := o;
  ObjAnnotations o := Some (o_ann o); SetObjAnnotations _ o := o; HasDeletionTimestamp _ := false |}.
#[export] Instance package_api : PackageAPI := {|
  RNode_Annotations := o_ann : @RNode sdk kio → _; Manifest := obj; Manifest_Object := obj_Object; Manifest_Unmarshal n := from_node n |}.
Definition clients (h : @Remote world _) : Client world (@Manifest sdk kio package_api) :=
  let c := fleet_remote (T := obj) h in {|
  Get w := @Get _ _ c w.2; Create w o := keep_server w.1 (@Create _ _ c w.2 o); Update w o := keep_server w.1 (@Update _ _ c w.2 o);
  StatusUpdate w o := keep_server w.1 (@StatusUpdate _ _ c w.2 o); MergePatch w o p := keep_server w.1 (@MergePatch _ _ c w.2 o p) |}.

Definition revision : PackageRevision :=
  mkPR (mkKey "default" "sync-v1") ∅ [] 0 "sync" "mgmt-staging" LifecyclePublished [] [] 1.
Definition manifest (name : string) (local : bool) : obj := mkObj "v1" "ConfigMap" name "config"
  (if local then {[ clusterNameKey := "edge1"; LocalConfigAnnotation := "true" ]} else {[ clusterNameKey := "edge1" ]}) [] [] None ∅.
Definition files : gmap string Node :=
  {[ "Kptfile" := to_node (manifest "Kptfile" true); "sync.yaml" := to_node (manifest "sync" false); "README.md" := scalar "text" ]}.
Definition start : world :=
  (mkServer [revision] [] {[ mkKey "default" "sync-v1" := files ]},
   mkFleet [kubeconfig "edge1"] {[ mkKey "default" "edge1" := "True" ]} [] ∅ ∅).
Definition after : world := match bootstrappackages_Reconcile clients (pr_Key revision) start with Done (w, _) => w | _ => start end.
Lemma after_run : bootstrappackages_Reconcile clients (pr_Key revision) start = Done (after, (done_result, None)).
Proof. vm_compute. reflexivity. Qed.

End BootstrapPackagesWitnesses.
