(* ===== verification/Specializer.v ===== *)
(** * The specializer controllers

    [controllers/pkg/reconcilers/generic-specializer] runs the IPAM, VLAN and configuration
    injection functions on the resources of a package revision and stores the files of the
    resources they act on; [controllers/pkg/specializer-reconciler] and the older
    [ipam-specializer] and [vlan-specializer] run one function and store every resource.
    The Porch server and the two backends are separate parts of the state. *)
From S2P Require Import Prelude External KubeObjectLib SdkModel Ref Kptfile Inventory InventoryDiff InventoryReady Sdk FnApi Kptrl Kube Porch ClaimFn ConfigInject.

(** [kptv1.KptFile], the part in use. *)
Class KptFileAPI `{FnSDK} := {
  KptFileStruct : Type;
  kfs_GoType :: GoType KptFileStruct;
  kfs_Conditions : KptFileStruct → list Condition
}.

Definition RequeueDuration : Z := 10 * Second.

(** [strings.ToLower] on ASCII text. *)
Definition lower (c : ascii) : ascii :=
  let n := nat_of_ascii c in if decide (65 ≤ n ∧ n ≤ 90)%nat then ascii_of_nat (n + 32) else c.
Fixpoint ToLower (s : string) : string :=
  match s with
  | EmptyString => ""
  | String c s => String (lower c) (ToLower s)
  end.

Section specializer.
Context `{!ApiErrors, !FnSDK, !NephioAPI, !GoRange, !Kio, !InjectAPI, !KptFileAPI}.
Context {W BI BV : Type} `{!Porch W, !PorchResources W, !Proxy IPClaim BI, !Proxy VLANClaim BV}.

(** The Porch server, the IPAM and the VLAN backend, and the events. *)
Record gstate := mkGState { gs_porch : W; gs_ipam : BI; gs_vlan : BV; gs_events : list Event }.
Definition record_event (ty reason msg : string) : prog gstate () :=
  modify (λ s, mkGState (gs_porch s) (gs_ipam s) (gs_vlan s) (gs_events s ++ [mkEvent ty reason msg])).

Definition ipamFor : ObjectReference := For (ipam_config (B := BI)).
Definition vlanFor : ObjectReference := For (vlan_config (B := BV)).
Definition configInjectFor (w : W) : ObjectReference := For (inject_config w).
(** Whether a function is to run: the revision has a condition of its kind of resources. *)
Definition hasFor (pr : PackageRevision) (r : ObjectReference) : bool :=
  HasSpecificTypeConditions (pr_Conditions pr) (GetConditionType r).

(** ** The functions, one after the other on the same resource list *)
Definition reportFn (name : string) (err : error) : prog gstate () :=
  record_event Warning "ReconcileError" (name +:+ " function: " +:+ err).
Definition runIpam (pr : PackageRevision) (rl : resourceList) : prog gstate (resourceList * option error) := λ s,
  if hasFor pr ipamFor then
    '(rl, b, _, err) ← ipam_Run (gs_ipam s) rl;
    Done (mkGState (gs_porch s) b (gs_vlan s) (gs_events s), (rl, err))
  else Done (s, (rl, None)).
Definition runVlan (pr : PackageRevision) (rl : resourceList) : prog gstate (resourceList * option error) := λ s,
  if hasFor pr vlanFor then
    '(rl, b, _, err) ← vlan_Run (gs_vlan s) rl;
    Done (mkGState (gs_porch s) (gs_ipam s) b (gs_events s), (rl, err))
  else Done (s, (rl, None)).
Definition runInject (pr : PackageRevision) (rl : resourceList) : prog gstate (resourceList * option error) := λ s,
  if hasFor pr (configInjectFor (gs_porch s)) then
    '(rl, _, _, err) ← inject_Run (gs_porch s) None rl;
    Done (s, (rl, err))
  else Done (s, (rl, None)).
Definition runFunctions (pr : PackageRevision) (rl : resourceList) : prog gstate (option resourceList) :=
  '(rl, err) ← runIpam pr rl;
  match err with
  | Some err => reportFn "ipam" err ;; mret None
  | None =>
      '(rl, err) ← runVlan pr rl;
      match err with
      | Some err => reportFn "vlan" err ;; mret None
      | None =>
          '(rl, err) ← runInject pr rl;
          match err with
          | Some err => reportFn "configInject" err ;; mret None
          | None => mret (Some rl)
          end
      end
  end.

(** ** The files *)
Definition isFor (r : ObjectReference) (o : KubeObject) : bool :=
  bool_decide (GetAPIVersion o = APIVersion r) && bool_decide (GetKind o = Kind r).
Definition isKptfile (o : KubeObject) : bool :=
  bool_decide (GetAPIVersion o = "kpt.dev/v1") && bool_decide (GetKind o = "Kptfile").
Definition storeFile (o : KubeObject) (files : gmap string bytes) : gmap string bytes :=
  <[GetAnnotation o PathAnnotation := SubObject_String o]> files.
(** A claim is stored and decoded for the log; [false]: it cannot be decoded, the rest of
    the loop body is skipped. *)
Definition storeClaim {T} `{!GoType T} (r : ObjectReference) (o : KubeObject) (files : gmap string bytes)
    : comp (gmap string bytes * bool) :=
  if isFor r o then
    x ← open (T := T) (Some o);
    Done (storeFile o files, is_ok x)
  else Done (files, true).
(** The file of a new resource. *)
Definition newFile (own : ObjectReference) (o : KubeObject) : string :=
  let filename := ToLower (Kind own) +:+ "_" +:+ GetName o +:+ ".yaml" in
  if decide (GetNamespace o ≠ "") then GetNamespace o +:+ "/" +:+ filename +:+ ".yaml" else filename.
Definition storeOwned (o : KubeObject) (files : gmap string bytes) (own : ObjectReference) : gmap string bytes :=
  if isFor own o then
    if decide (GetAnnotation o PathAnnotation = "") then <[newFile own o := SubObject_String o]> files
    else storeFile o files
  else files.
(** The Kptfile; [None]: the readiness gates are met. *)
Definition storeKptfile (pr : PackageRevision) (o : KubeObject) (files : gmap string bytes)
    : comp (option (gmap string bytes)) :=
  if isKptfile o then
    x ← open (T := KptFileStruct) (Some o);
    match x with
    | Ok (_, kptfile) =>
        if PackageRevisionIsReady (pr_ReadinessGates pr) (GetPorchConditions (kfs_Conditions kptfile)) then Done None
        else Done (Some (storeFile o files))
    | Err _ => Done (Some (storeFile o files))
    end
  else Done (Some files).

(** The body and the loop over the items. *)
Definition storeItem (w : W) (pr : PackageRevision) (files : gmap string bytes) (o : KubeObject)
    : comp (option (gmap string bytes)) :=
  '(files, ok) ← storeClaim (T := IPClaim) ipamFor o files;
  if negb ok then Done (Some files)
  else
    '(files, ok) ← storeClaim (T := VLANClaim) vlanFor o files;
    if negb ok then Done (Some files)
    else
      let files := if isFor (configInjectFor w) o then storeFile o files else files in
      let files := foldl (λ files kv, storeOwned o files kv.1) files (range (at_ "owns") (Owns (inject_config w))) in
      storeKptfile pr o files.
Fixpoint storeItems (w : W) (pr : PackageRevision) (items : list KubeObject) (files : gmap string bytes)
    : comp (option (gmap string bytes)) :=
  match items with
  | [] => Done (Some files)
  | o :: items =>
      r ← storeItem w pr files o;
      match r with
      | None => Done None
      | Some files => storeItems w pr items files
      end
  end.

(** The cluster name, for the log. *)
Definition getClusterName (workloadClusterObjs : list KubeObject) : comp string :=
  match workloadClusterObjs with
  | [] => Done ""
  | o :: _ =>
      r ← open (T := WorkloadCluster) (Some o);
      Done match r with Ok (_, wc) => wc_ClusterName wc | Err _ => "" end
  end.

(** ** The generic specializer *)

Definition updateFiles (prr : PackageRevisionResources) : prog gstate (option error) := λ s,
  let '(w, err) := porchClient_UpdatePRR (gs_porch s) prr in
  Done (mkGState w (gs_ipam s) (gs_vlan s) (gs_events s), err).

(** From the functions on. *)
Definition specialize (pr : PackageRevision) (prr : PackageRevisionResources) (rl : resourceList)
    : prog gstate (Result * option error) :=
  r ← runFunctions pr rl;
  match r with
  | None => mret (done_result, None)
  | Some rl =>
      _ ← lift (getClusterName (Where infra_apiVersion WorkloadClusterKind (rl_Items rl)));
      if LifecycleIsPublished (pr_Lifecycle pr) then
        record_event Normal "CannotRefreshClaims" ("package is " +:+ pr_Lifecycle pr +:+ ", no update possible") ;;
        mret (done_result, None)
      else
        s ← get_st;
        r ← lift (storeItems (gs_porch s) pr (rl_Items rl) (prr_Resources prr));
        match r with
        | None =>
            record_event Normal "PackageRevision is Ready"
              ("readiness gates met for " +:+ pr_PackageName pr +:+ ", in repo " +:+ pr_RepositoryName pr) ;;
            mret (done_result, None)
        | Some files =>
            match GetRootKptfile (λ o, o) (rl_Items rl) with
            | None =>
                record_event Warning "ReconcileError" "mandatory Kptfile is missing" ;;
                mret (done_result, None)
            | Some _ =>
                err ← updateFiles (mkPRR (prr_Key prr) files);
                match err with
                | Some err =>
                    record_event Warning "ReconcileError" "cannot update packagerevision resources" ;;
                    mret (done_result, Some err)
                | None => mret (done_result, None)
                end
            end
        end
  end.

Definition generic_Reconcile (req : NamespacedName) : prog gstate (Result * option error) :=
  s ← get_st;
  match reader_GetPR (gs_porch s) req with
  | Err err =>
      match IgnoreNotFound (Some err) with
      | Some err => mret (done_result, Wrap (Some err) "cannot get resource")
      | None => mret (done_result, None)
      end
  | Ok pr =>
      match PackageVariantReady (gs_porch s) pr with
      | Err err =>
          record_event Warning "Error" ("could not get owning PackageVariant: " +:+ err) ;;
          mret (done_result, Some err)
      | Ok false =>
          record_event Normal "Waiting" ("owning PackageVariant for " +:+ pr_PackageName pr +:+ " not Ready") ;;
          mret (requeueAfter RequeueDuration, None)
      | Ok true =>
          if hasFor pr ipamFor || hasFor pr vlanFor || hasFor pr (configInjectFor (gs_porch s)) then
            match reader_GetPRR (gs_porch s) req with
            | Err err =>
                record_event Warning "ReconcileError" ("cannot get package revision resources: " +:+ err) ;;
                mret (done_result, Wrap (Some err) "cannot get package revision resources")
            | Ok prr =>
                r ← lift (GetResourceList (prr_Resources prr));
                match r with
                | Err err =>
                    record_event Warning "ReconcileError" ("cannot get resourceList: " +:+ err) ;;
                    mret (done_result, Wrap (Some err) "cannot get resourceList")
                | Ok rl => specialize pr prr rl
                end
            end
          else mret (done_result, None)
      end
  end.
End specializer.

(** ** One function, every resource *)
Section one_function.
Context `{!ApiErrors, !FnSDK, !NephioAPI, !GoRange, !Kio} {W B : Type} `{!Porch W, !PorchResources W}.

(** [rl.Items] into the files, by the path annotation. *)
Definition storeAll (items : list KubeObject) (files : gmap string bytes) : gmap string bytes :=
  foldl (λ files o, storeFile o files) files items.

Definition process (krmfn : B → resourceList → comp (resourceList * B * bool * option error)) (rl : resourceList)
    : prog (W * B) resourceList := λ s, '(rl, b, _, _) ← krmfn s.2 rl; Done ((s.1, b), rl).
Definition updatePRR (prr : PackageRevisionResources) : prog (W * B) (option error) := λ s,
  let '(w, err) := porchClient_UpdatePRR s.1 prr in Done ((w, s.2), err).

(** [Reconcile] of the specializer reconciler; an error of the function is logged only. *)
Definition specializer_Reconcile (For : ObjectReference)
    (krmfn : B → resourceList → comp (resourceList * B * bool * option error)) (req : NamespacedName)
    : prog (W * B) (Result * option error) :=
  s ← (get_st : prog (W * B) (W * B));
  match client_GetPR s.1 req with
  | Err err =>
      match IgnoreNotFound (Some err) with
      | Some err => mret (done_result, Wrap (Some err) "cannot get resource")
      | None => mret (done_result, None)
      end
  | Ok pr =>
      if HasSpecificTypeConditions (pr_Conditions pr) (GetConditionType For) then
        match porchClient_GetPRR s.1 req with
        | Err err => mret (done_result, Wrap (Some err) "cannot get package revision resources")
        | Ok prr =>
            r ← lift (GetResourceList (prr_Resources prr));
            match r with
            | Err err => mret (done_result, Wrap (Some err) "cannot get resourceList")
            | Ok rl =>
                rl ← process krmfn rl;
                match GetRootKptfile (λ o, o) (rl_Items rl) with
                | None => mret (done_result, None)
                | Some _ =>
                    err ← updatePRR (mkPRR (prr_Key prr) (storeAll (rl_Items rl) (prr_Resources prr)));
                    mret (done_result, err)
                end
            end
        end
      else mret (done_result, None)
  end.

(** [condkptsdk.New] on a pointer to a configuration. *)
Definition runPtr (cfg : option (Config B)) (b : B) (rl : resourceList) : comp (resourceList * B * bool * option error) :=
  match cfg with
  | None => Panic nil_dereference
  | Some cfg => runFn cfg b rl
  end.
(** The IPAM and VLAN specializers build the function with its proxy only: its
    configuration is a nil pointer. *)
Definition ipamSpecializer_Reconcile : NamespacedName → prog (W * B) (Result * option error) :=
  specializer_Reconcile (gvk ipam_apiVersion IPClaimKind) (runPtr None).
Definition vlanSpecializer_Reconcile : NamespacedName → prog (W * B) (Result * option error) :=
  specializer_Reconcile (gvk vlan_apiVersion VLANClaimKind) (runPtr None).

(** A specializer without a configuration panics as soon as it has something to do. *)
Lemma specializer_nil_config For req w b pr prr rl :
  client_GetPR w req = Ok pr → HasSpecificTypeConditions (pr_Conditions pr) (GetConditionType For) = true →
  porchClient_GetPRR w req = Ok prr → GetResourceList (prr_Resources prr) = Done (Ok rl) →
  specializer_Reconcile For (runPtr None) req (w, b) = Panic nil_dereference.
Proof.
  intros Hpr Hc Hprr Hrl. unfold specializer_Reconcile, mbind, prog_bind. simpl. rewrite Hpr, Hc, Hprr.
  unfold mbind, prog_bind, lift. rewrite Hrl. reflexivity.
Qed.
End one_function.

(** ** Properties *)
Class SpecializerLaws `{!FnSDK, !NephioAPI, !InjectAPI, !KptFileAPI} : Prop := {
  specializer_gvks : NoDup [gvk ipam_apiVersion IPClaimKind; gvk vlan_apiVersion VLANClaimKind;
    gvk req_apiVersion DependencyKind; gvk ref_apiVersion ConfigKind; gvk "kpt.dev/v1" "Kptfile"];
  specializer_structs : go_is_struct (T := WorkloadCluster) = true ∧ go_is_struct (T := KptFileStruct) = true
}.

Section properties.
Context `{!ApiErrors, !FnSDK, !NephioAPI, !NephioAPILaws, !GoRange, !GoRangeLaws, !Kio, !InjectAPI, !KptFileAPI, !SpecializerLaws}.
Context {W BI BV : Type} `{!Porch W, !PorchResources W, !Proxy IPClaim BI, !Proxy VLANClaim BV}.
Implicit Types (s : gstate (W := W) (BI := BI) (BV := BV)) (pr : PackageRevision) (o : KubeObject).

Definition configOwn : ObjectReference := gvk ref_apiVersion ConfigKind.
(** The items the specializer stores, and where. *)
Definition processed o : bool :=
  isFor (gvk ipam_apiVersion IPClaimKind) o || isFor (gvk vlan_apiVersion VLANClaimKind) o ||
  isFor (gvk req_apiVersion DependencyKind) o || isFor configOwn o || isKptfile o.
Definition file_of o : string :=
  if isFor configOwn o && bool_decide (GetAnnotation o PathAnnotation = "") then newFile configOwn o
  else GetAnnotation o PathAnnotation.
(** A Kptfile that meets the readiness gates of the revision. *)
Definition gates_met pr o : bool :=
  isKptfile o && match go_As (T := KptFileStruct) o with
                 | (k, None) => PackageRevisionIsReady (pr_ReadinessGates pr) (GetPorchConditions (kfs_Conditions k))
                 | _ => false
                 end.
Definition store_one (files : gmap string bytes) o : gmap string bytes :=
  if processed o then <[file_of o := SubObject_String o]> files else files.

Lemma isFor_spec a k o : isFor (gvk a k) o = true ↔ gvk (GetAPIVersion o) (GetKind o) = gvk a k.
Proof.
  unfold isFor. rewrite andb_true_iff, !bool_decide_eq_true. simpl. split; [by intros [-> ->]|by intros [= -> ->]].
Qed.
Lemma isKptfile_isFor o : isKptfile o = isFor (gvk "kpt.dev/v1" "Kptfile") o.
Proof. done. Qed.

Lemma storeClaim_spec {T} `{!GoType T} r o files :
  go_is_struct (T := T) = true →
  ∃ ok, storeClaim (T := T) r o files = Done (if isFor r o then storeFile o files else files, ok) ∧ (isFor r o = false → ok = true).
Proof.
  intros Hs. unfold storeClaim. destruct (isFor r o); [|by exists true]. rewrite open_spec by done. simpl. by eexists.
Qed.
Lemma owns_range (w : W) : ∃ v, range (at_ "owns") (Owns (inject_config w)) = [(configOwn, v)].
Proof.
  exists ChildLocal. apply Permutation_singleton_r. rewrite range_perm. unfold inject_config. simpl.
  by rewrite map_to_list_singleton.
Qed.

(** An object is of at most one of the kinds. *)
Lemma isFor_one a k a' k' o :
  isFor (gvk a k) o = true → gvk a k ≠ gvk a' k' → isFor (gvk a' k') o = false.
Proof. intros He1%isFor_spec Hne. apply not_true_iff_false. intros He2%isFor_spec. congruence. Qed.

Lemma storeItem_spec (w : W) pr files o :
  storeItem (BI := BI) (BV := BV) w pr files o = Done (if gates_met pr o then None else Some (store_one files o)).
Proof.
  pose proof specializer_gvks as Hnd. rewrite !NoDup_cons, !not_elem_of_cons in Hnd.
  destruct Hnd as ((Hiv & Hid & Hic & Hik & _) & (Hvd & Hvc & Hvk & _) & (Hdc & Hdk & _) & (Hck & _) & _).
  destruct specializer_structs as [_ Hkf]. destruct structs as (_ & _ & Hsi & Hsv & _).
  unfold storeItem, storeKptfile, gates_met, store_one, processed, file_of. rewrite isKptfile_isFor.
  destruct (storeClaim_spec (T := IPClaim) (ipamFor (BI := BI)) o files Hsi) as (ok1 & -> & Hok1). cbn [mbind comp_bind].
  destruct (storeClaim_spec (T := VLANClaim) (vlanFor (BV := BV)) o
    (if isFor (ipamFor (BI := BI)) o then storeFile o files else files) Hsv) as (ok2 & Hv & Hok2).
  destruct (owns_range w) as [v ->]. cbn [foldl fst].
  change (ipamFor (BI := BI)) with (gvk ipam_apiVersion IPClaimKind) in *.
  change (vlanFor (BV := BV)) with (gvk vlan_apiVersion VLANClaimKind) in *.
  change (configInjectFor w) with (gvk req_apiVersion DependencyKind) in *. unfold storeOwned, configOwn in *.
  destruct (isFor (gvk ipam_apiVersion IPClaimKind) o) eqn:Hi.
  { rewrite (isFor_one _ _ _ _ _ Hi Hiv), (isFor_one _ _ _ _ _ Hi Hid), (isFor_one _ _ _ _ _ Hi Hic), (isFor_one _ _ _ _ _ Hi Hik) in *.
    destruct ok1; [|done]. cbn [negb]. rewrite Hv. cbn [mbind comp_bind]. by rewrite Hok2. }
  rewrite (Hok1 eq_refl). cbn [negb]. rewrite Hv. cbn [mbind comp_bind].
  destruct (isFor (gvk vlan_apiVersion VLANClaimKind) o) eqn:Hvl.
  { rewrite (isFor_one _ _ _ _ _ Hvl Hvd), (isFor_one _ _ _ _ _ Hvl Hvc), (isFor_one _ _ _ _ _ Hvl Hvk). by destruct ok2. }
  rewrite (Hok2 eq_refl). cbn [negb].
  destruct (isFor (gvk req_apiVersion DependencyKind) o) eqn:Hd.
  { by rewrite (isFor_one _ _ _ _ _ Hd Hdc), (isFor_one _ _ _ _ _ Hd Hdk). }
  destruct (isFor (gvk ref_apiVersion ConfigKind) o) eqn:Hc.
  { rewrite (isFor_one _ _ _ _ _ Hc Hck). unfold storeFile. simpl. case_decide; by case_bool_decide. }
  destruct (isFor (gvk "kpt.dev/v1" "Kptfile") o) eqn:Hk; [|done]. rewrite open_spec by done. simpl.
  destruct (go_As o) as [kf [e|]]; simpl; [done|]. by case_match.
Qed.

Lemma storeItems_spec (w : W) pr items files :
  storeItems (BI := BI) (BV := BV) w pr items files =
  Done (if existsb (gates_met pr) items then None else Some (foldl store_one files items)).
Proof.
  revert files. induction items as [|o items IH]; intros files; [done|]. cbn [storeItems]. rewrite storeItem_spec.
  cbn [mbind comp_bind]. simpl. destruct (gates_met pr o); [done|]. simpl. apply IH.
Qed.

(** A file holds the text of the last item stored in it, or what it held before. *)
Lemma foldl_store_lookup items files p :
  foldl store_one files items !! p =
  match last (filter (λ o, processed o = true ∧ file_of o = p) items) with
  | Some o => Some (SubObject_String o)
  | None => files !! p
  end.
Proof.
  revert files. induction items as [|o items IH]; intros files; [done|]. cbn [foldl]. rewrite IH, filter_cons.
  destruct (decide (processed o = true ∧ file_of o = p)) as [[Hp Hf]|Hn]; [rewrite last_cons|];
    destruct (last _); try done; unfold store_one.
  - by rewrite Hp, Hf, lookup_insert_eq.
  - destruct (processed o); [|done]. rewrite lookup_insert_ne by (intros ?; by apply Hn). done.
Qed.

(** The functions act on their backends only. *)
Ltac keeps_porch :=
  case_match; [intros ([[[? ?] ?] ?] & _ & [= <- _])%comp_bind_Done; done|by intros [= <- _]].
Lemma runIpam_porch pr rl s s' x : runIpam pr rl s = Done (s', x) → gs_porch s' = gs_porch s.
Proof. unfold runIpam. keeps_porch. Qed.
Lemma runVlan_porch pr rl s s' x : runVlan pr rl s = Done (s', x) → gs_porch s' = gs_porch s.
Proof. unfold runVlan. keeps_porch. Qed.
Lemma runInject_porch pr rl s s' x : runInject pr rl s = Done (s', x) → gs_porch s' = gs_porch s.
Proof. unfold runInject. keeps_porch. Qed.
Lemma runFunctions_porch pr rl s s' r : runFunctions pr rl s = Done (s', r) → gs_porch s' = gs_porch s.
Proof.
  unfold runFunctions.
  intros (s1 & [rl1 [e|]] & He1%runIpam_porch & Hr)%prog_bind_Done; [by injection Hr as <- <-|].
  apply prog_bind_Done in Hr as (s2 & [rl2 [e|]] & He2%runVlan_porch & Hr); [injection Hr as <- <-; simpl; congruence|].
  apply prog_bind_Done in Hr as (s3 & [rl3 [e|]] & He3%runInject_porch & Hr); injection Hr as <- <-; simpl; congruence.
Qed.

(** What happens after the functions. *)
Definition no_update pr (rl : resourceList) : Prop :=
  LifecycleIsPublished (pr_Lifecycle pr) = true ∨ existsb (gates_met pr) (rl_Items rl) = true ∨
  GetRootKptfile (λ o, o) (rl_Items rl) = None.
Definition new_files (prr : PackageRevisionResources) (rl : resourceList) : PackageRevisionResources :=
  mkPRR (prr_Key prr) (foldl store_one (prr_Resources prr) (rl_Items rl)).

Lemma getClusterName_Done objs : ∃ n, getClusterName objs = Done n.
Proof.
  destruct specializer_structs as [Hs _]. destruct objs as [|o objs]; [by eexists|]. cbn [getClusterName].
  rewrite open_spec by done. simpl. by eexists.
Qed.

Lemma specialize_spec pr prr rl s s1 rl' :
  runFunctions pr rl s = Done (s1, Some rl') →
  (no_update pr rl' → ∃ ev, specialize pr prr rl s = Done (mkGState (gs_porch s) (gs_ipam s1) (gs_vlan s1) ev, (done_result, None))) ∧
  (¬ no_update pr rl' → ∃ ev w err, porchClient_UpdatePRR (gs_porch s) (new_files prr rl') = (w, err) ∧
     specialize pr prr rl s = Done (mkGState w (gs_ipam s1) (gs_vlan s1) ev, (done_result, err))).
Proof.
  intros Hrun. pose proof (runFunctions_porch _ _ _ _ _ Hrun) as Hp.
  unfold specialize, no_update. unfold mbind, prog_bind. rewrite Hrun.
  destruct (getClusterName_Done (Where infra_apiVersion WorkloadClusterKind (rl_Items rl'))) as [n Hn].
  unfold mbind, comp_bind, lift. rewrite Hn. simpl.
  destruct (LifecycleIsPublished _) eqn:Hl.
  { split; [intros _; eexists; unfold record_event; simpl; by rewrite <-Hp|]. intros []. by left. }
  rewrite storeItems_spec. simpl. destruct (existsb _ _) eqn:Hg.
  { split; [intros _; eexists; unfold record_event; simpl; by rewrite <-Hp|]. intros []. by auto. }
  destruct (GetRootKptfile _ _) as [kf|] eqn:Hk.
  2: { split; [intros _; eexists; unfold record_event; simpl; by rewrite <-Hp|]. intros []. by auto. }
  split; [by intros [|[|]]|]. intros _. unfold updateFiles. rewrite Hp. fold (new_files prr rl').
  destruct (porchClient_UpdatePRR (gs_porch s) (new_files prr rl')) as [w [e|]] eqn:Hu; simpl; by eexists _, w, _.
Qed.

(** The revision is to be specialized. *)
Definition specializable (w : W) (req : NamespacedName) pr prr rl : Prop :=
  reader_GetPR w req = Ok pr ∧ PackageVariantReady w pr = Ok true ∧
  (hasFor pr (gvk ipam_apiVersion IPClaimKind) || hasFor pr (gvk vlan_apiVersion VLANClaimKind) ||
   hasFor pr (gvk req_apiVersion DependencyKind)) = true ∧
  reader_GetPRR w req = Ok prr ∧ GetResourceList (prr_Resources prr) = Done (Ok rl).

Lemma generic_specialize req s pr prr rl :
  specializable (gs_porch s) req pr prr rl → generic_Reconcile req s = specialize pr prr rl s.
Proof.
  intros (Hpr & Hpv & Hfor & Hprr & Hrl). unfold generic_Reconcile, mbind, prog_bind. simpl. rewrite Hpr, Hpv.
  change (ipamFor (BI := BI)) with (gvk ipam_apiVersion IPClaimKind). change (vlanFor (BV := BV)) with (gvk vlan_apiVersion VLANClaimKind).
  change (configInjectFor (gs_porch s)) with (gvk req_apiVersion DependencyKind). rewrite Hfor, Hprr.
  unfold mbind, prog_bind, lift, mbind, comp_bind. by rewrite Hrl.
Qed.

(** A run that does not get to the functions leaves the server alone. *)
Lemma generic_Reconcile_cases req s s' r :
  generic_Reconcile req s = Done (s', r) →
  gs_porch s' = gs_porch s ∨ ∃ pr prr rl, specializable (gs_porch s) req pr prr rl ∧ specialize pr prr rl s = Done (s', r).
Proof.
  unfold generic_Reconcile. intros (s0 & ? & [= <- <-] & Hrun)%prog_bind_Done.
  destruct (reader_GetPR _ _) as [pr|e] eqn:Hpr; [|left; by case_match; injection Hrun as <- _].
  destruct (PackageVariantReady _ _) as [[]|e] eqn:Hpv; [|left; by injection Hrun as <- _..].
  destruct (_ || _) eqn:Hfor; [|left; by injection Hrun as <- _].
  destruct (reader_GetPRR _ _) as [prr|e] eqn:Hprr; [|left; by injection Hrun as <- _].
  apply prog_bind_Done in Hrun as (s1 & rl & Hrl & Hrun). apply comp_bind_Done in Hrl as (x & Hrl & [= <- <-]).
  destruct x as [rl|e]; [|left; by injection Hrun as <- _]. right. by exists pr, prr, rl.
Qed.

(** The one write of a run. *)
Lemma specializer_update req s s' r :
  generic_Reconcile req s = Done (s', r) →
  gs_porch s' = gs_porch s ∨
  ∃ pr prr rl s1 rl' files err,
    specializable (gs_porch s) req pr prr rl ∧ LifecycleIsPublished (pr_Lifecycle pr) = false ∧
    porchClient_UpdatePRR (gs_porch s) (mkPRR (prr_Key prr) files) = (gs_porch s', err) ∧
    runFunctions pr rl s = Done (s1, Some rl') ∧ (∀ o, o ∈ rl_Items rl' → gates_met pr o = false) ∧ r = (done_result, err) ∧
    files = foldl store_one (prr_Resources prr) (rl_Items rl').
Proof.
  intros [?|(pr & prr & rl & Hs & Hrun)]%generic_Reconcile_cases; [by left|].
  pose proof Hrun as Hfn. unfold specialize in Hfn. apply prog_bind_Done in Hfn as (s1 & [rl'|] & Hfn & Hrest).
  2: { left. injection Hrest as <- _. by eapply runFunctions_porch. }
  destruct (specialize_spec pr prr rl s s1 rl' Hfn) as [Hno Hup].
  destruct (decide (no_update pr rl')) as [Hn|Hn].
  - left. destruct (Hno Hn) as [ev Hspec]. rewrite Hspec in Hrun. by injection Hrun as <- _.
  - right. destruct (Hup Hn) as (ev & w & err & Hw & Hspec). rewrite Hspec in Hrun. injection Hrun as <- <-.
    exists pr, prr, rl, s1, rl', (foldl store_one (prr_Resources prr) (rl_Items rl')), err.
    split_and!; [done| |done|done| |done|done].
    + destruct (LifecycleIsPublished _) eqn:Hl; [|done]. destruct Hn. by left.
    + intros o Ho. destruct (gates_met pr o) eqn:Hg; [|done]. destruct Hn. right; left.
      apply existsb_exists. exists o. by rewrite <-list_elem_of_In.
Qed.

(** C16: what the generic specializer writes.  A run leaves the Porch server alone unless the
    revision is not published, has a condition of one of the three functions, and all of
    them succeeded on its resources; then the one write it may do replaces exactly the files
    of the claims, dependencies, configurations and Kptfiles of the processed resource list,
    each by the text of the last such item with this path, and leaves every other file as it
    was; it does not happen when a Kptfile of the list already meets the readiness gates. *)
Theorem specializer_writes req s s' r :
  generic_Reconcile req s = Done (s', r) →
  gs_porch s' = gs_porch s ∨
  ∃ pr prr rl s1 rl' files err,
    specializable (gs_porch s) req pr prr rl ∧ runFunctions pr rl s = Done (s1, Some rl') ∧
    LifecycleIsPublished (pr_Lifecycle pr) = false ∧
    (∀ o, o ∈ rl_Items rl' → gates_met pr o = false) ∧
    porchClient_UpdatePRR (gs_porch s) (mkPRR (prr_Key prr) files) = (gs_porch s', err) ∧ r = (done_result, err) ∧
    ∀ p, files !! p = match last (filter (λ o, processed o = true ∧ file_of o = p) (rl_Items rl')) with
                      | Some o => Some (SubObject_String o)
                      | None => prr_Resources prr !! p
                      end.
Proof.
  intros [?|(pr & prr & rl & s1 & rl' & files & err & Hs & Hpub & Hup & Hfn & Hg & Hr & ->)]%specializer_update; [by left|right].
  exists pr, prr, rl, s1, rl', (foldl store_one (prr_Resources prr) (rl_Items rl')), err.
  split_and!; [done..|]. intros p. apply foldl_store_lookup.
Qed.

(** The specializer stores its results: when the functions succeed on the resources of a
    revision that is not published, the list has a root Kptfile and no Kptfile of it meets
    the readiness gates, the run sends the new files to the server and returns the answer;
    in each of the other cases it returns without an error and drops the results. *)
Theorem specializer_stores req s s1 pr prr rl rl' :
  specializable (gs_porch s) req pr prr rl → runFunctions pr rl s = Done (s1, Some rl') →
  (no_update pr rl' → ∃ ev, generic_Reconcile req s = Done (mkGState (gs_porch s) (gs_ipam s1) (gs_vlan s1) ev, (done_result, None))) ∧
  (¬ no_update pr rl' → ∃ ev w err, porchClient_UpdatePRR (gs_porch s) (new_files prr rl') = (w, err) ∧
     generic_Reconcile req s = Done (mkGState w (gs_ipam s1) (gs_vlan s1) ev, (done_result, err))).
Proof. intros Hs Hrun. rewrite (generic_specialize _ _ _ _ _ Hs). by apply specialize_spec. Qed.
End properties.

(** ** Witnesses *)
Module SpecializerWitnesses.
Import Model InventoryModel ApiModel PackageModel.

#[export] Instance errors : ApiErrors := {
  IsNotFound e := bool_decide (e = "not found"); errors_Wrap e msg := msg +:+ ": " +:+ e }.
#[export] Instance kptfile_api : KptFileAPI := {|
  KptFileStruct := obj; kfs_GoType := obj_type "kpt.dev/v1" "Kptfile"; kfs_Conditions := o_conds |}.
#[export] Instance specializer_laws : SpecializerLaws.
Proof. constructor; [|done]. apply (bool_decide_eq_true_1 _). vm_compute. reflexivity. Qed.
(** The backends count their claims. *)
Definition claim_at (n : nat) (c : obj) : nat * result (option obj) := (S n, Ok (Some (put_extra c "Status" "10.0.0.1/24"))).
#[export] Instance ipam : Proxy (@IPClaim Model.sdk api) nat := {| GetClaim := claim_at; Claim := claim_at |}.
#[export] Instance vlan : Proxy (@VLANClaim Model.sdk api) nat := {| GetClaim := claim_at; Claim := claim_at |}.

Definition claim_type : string := "ipam.resource.nephio.org/v1alpha1.IPClaim.n3".
Definition gate : string := "nephio.org.Specializer.specialize".
Definition key : NamespacedName := mkKey "default" "upf-v1".
Definition upf_revision (lifecycle : string) : PackageRevision :=
  mkPR key ∅ [] 0 "upf" "edge" lifecycle [gate] [mkPorchCondition claim_type "" "False" ""] 0.
Definition kpt : obj := mkObj "kpt.dev/v1" "Kptfile" "upf" "" ∅ [mkCondition claim_type "False" "" ""] [] None ∅.
Definition n3_claim : obj := mkObj "ipam.resource.nephio.org/v1alpha1" "IPClaim" "n3" "" ∅ [] [] (Some "") ∅.
Definition n3_itf : obj := mkObj "req.nephio.org/v1alpha1" "Interface" "n3" "" ∅ [] [] (Some "") ∅.
(** The claim shares its file with an interface. *)
Definition upf_files : gmap string Node :=
  {[ "Kptfile" := to_node kpt; "n3.yaml" := seqn [to_node n3_claim; to_node n3_itf]; "README.md" := scalar "about" ]}.
Definition world (lifecycle : string) : gstate (W := server) (BI := nat) (BV := nat) :=
  mkGState (mkServer [upf_revision lifecycle] [] {[ key := upf_files ]}) 0 0 [].

Definition final (s : gstate (W := server) (BI := nat) (BV := nat)) : gstate (W := server) (BI := nat) (BV := nat) :=
  match generic_Reconcile key s with Done (s', _) => s' | Panic _ => s end.
Definition finished (s : gstate (W := server) (BI := nat) (BV := nat)) : bool :=
  match generic_Reconcile key s with Done (_, (Kube.mkResult false 0, None)) => true | _ => false end.
Lemma finished_ok s : finished s = true → generic_Reconcile key s = Done (final s, (done_result, None)).
Proof.
  unfold finished, final. destruct (generic_Reconcile key s) as [[s' [[[] []] []]]|]; done.
Qed.
Definition file (p : string) (s : gstate (W := server) (BI := nat) (BV := nat)) : option Node :=
  sv_files (gs_porch s) !! key ≫= lookup p.
Definition names (n : option Node) : list string :=
  match n with
  | Some n => match PackageModel.read_docs "" (PackageModel.docs n) with Ok l => o_kind <$> l | Err _ => ["?"] end
  | None => []
  end.

(** The claim is answered and stored, the other files are kept, and the interface that was
    in the file of the claim is gone. *)
Lemma specializer_writes_witness :
  gs_ipam (final (world "Draft")) = 1 ∧ names (file "n3.yaml" (world "Draft")) = ["IPClaim"; "Interface"] ∧
  names (file "n3.yaml" (final (world "Draft"))) = ["IPClaim"] ∧
  file "README.md" (final (world "Draft")) = Some (scalar "about") ∧
  ∃ prr err, porchClient_UpdatePRR (gs_porch (world "Draft")) prr = (gs_porch (final (world "Draft")), err).
Proof.
  split_and!; [vm_compute; reflexivity..|].
  destruct (specializer_writes key (world "Draft") (final (world "Draft")) (done_result, None))
    as [Heq|(pr & prr & rl & s1 & rl' & files & err & _ & _ & _ & _ & Hup & _ & _)];
    [apply finished_ok; vm_compute; reflexivity| |by eexists _, _].
  exfalso. apply (f_equal (λ w, names (sv_files w !! key ≫= lookup "n3.yaml"))) in Heq. vm_compute in Heq. discriminate.
Defined.

(** A published package is claimed for again, and nothing is stored. *)
Definition listed : resourceList :=
  match GetResourceList (upf_files : gmap string (@bytes Model.sdk)) with Done (Ok rl) => rl | _ => mkRL [] ([] : list string) end.
Lemma listed_ok :
  (match GetResourceList (upf_files : gmap string (@bytes Model.sdk)) with Done (Ok _) => true | _ => false end) = true →
  GetResourceList (upf_files : gmap string (@bytes Model.sdk)) = Done (Ok listed).
Proof. unfold listed. by destruct (GetResourceList _) as [[]|]. Qed.
Definition ran (s : gstate (W := server) (BI := nat) (BV := nat)) : bool :=
  match runFunctions (upf_revision "Published") listed s with Done (_, Some _) => true | _ => false end.
Lemma ran_ok s : ran s = true → ∃ s1 rl', runFunctions (upf_revision "Published") listed s = Done (s1, Some rl').
Proof. unfold ran. destruct (runFunctions _ _ s) as [[s1 [rl'|]]|]; try done. by exists s1, rl'. Qed.

Lemma specializer_stores_witness :
  gs_ipam (final (world "Published")) = 1 ∧
  ∃ (s1 : gstate (W := server) (BI := nat) (BV := nat)) ev, generic_Reconcile key (world "Published") =
    Done (mkGState (gs_porch (world "Published")) (gs_ipam s1) (gs_vlan s1) ev, (done_result, None)).
Proof.
  split; [vm_compute; reflexivity|].
  destruct (ran_ok (world "Published")) as (s1 & rl' & Hrun); [vm_compute; reflexivity|].
  exists s1. destruct (specializer_stores key (world "Published") s1 (upf_revision "Published")
    (mkPRR key (upf_files : gmap string (@bytes Model.sdk))) listed rl') as [Hno _].
  - split_and!; [reflexivity|reflexivity|vm_compute; reflexivity|reflexivity|apply listed_ok; vm_compute; reflexivity].
  - exact Hrun.
  - apply Hno. left. reflexivity.
Defined.
End SpecializerWitnesses.
