(* ===== verification/Pipeline.v ===== *)
(** * The controllers together, on one Porch server

    The specializer rewrites the files of a package revision, the approval controller
    proposes and publishes it, and bootstrap-packages installs what it finds in it.  The
    steps of the first two, in any order and mixed with what other clients do, are one step
    relation on the server; the controllers leave what is published as it is, and what Porch
    lets other clients do with it keeps its content. *)
From S2P Require Import Prelude External Inventory FnApi Kube GoTime Kptrl Porch Approval ClaimFn ConfigInject Specializer BootstrapSecret Cluster BootstrapPackages.

(** The lifecycles of a revision, and how the controllers move along them. *)
Definition LifecycleDeletionProposed : string := "DeletionProposed".
Definition lifecycles_ok : list string := [LifecycleDraft; LifecycleProposed; LifecyclePublished; LifecycleDeletionProposed].
Definition edge (l l' : string) : Prop :=
  l' = l ∨ l = LifecycleDraft ∧ l' = LifecycleProposed ∨ l = LifecycleProposed ∧ l' = LifecyclePublished.

(** The files of the revisions, and what the calls do to files and revisions. *)
Class FileStore (W : Type) `{!FnSDK} := file_store : W → gmap NamespacedName (gmap string bytes).
Class PipelineLaws (W : Type) `{!FnSDK, !Porch W, !PorchResources W, !PorchStore W, !FileStore W} : Prop := {
  (** a revision whose deletion is proposed still counts as published *)
  deletion_proposed_published : LifecycleIsPublished (W := W) LifecycleDeletionProposed = true;
  reader_GetPRR_key w k prr : reader_GetPRR w k = Ok prr → prr_Key prr = k;
  porchClient_GetPRR_files w k prr : porchClient_GetPRR w k = Ok prr → file_store w !! k = Some (prr_Resources prr);
  (** writing the files of a revision leaves the other revisions alone, and its lifecycle *)
  UpdatePRR_other w prr w' err k : porchClient_UpdatePRR w prr = (w', err) → k ≠ prr_Key prr →
    store w' !! k = store w !! k ∧ file_store w' !! k = file_store w !! k;
  UpdatePRR_lifecycle w prr w' err pr' : porchClient_UpdatePRR w prr = (w', err) → store w' !! prr_Key prr = Some pr' →
    ∃ pr, store w !! prr_Key prr = Some pr ∧ same_spec pr pr';
  UpdatePR_files w pr w' err : client_UpdatePR w pr = (w', err) → file_store w' = file_store w;
  PutApproval_files w pr w' err : rest_PutApproval w pr = (w', err) → file_store w' = file_store w
}.

Section pipeline.
Context `{!ApiErrors, !GoFloat, !FnSDK, !FnSDKLaws, !NephioAPI, !NephioAPILaws, !GoRange, !GoRangeLaws, !Kio, !InjectAPI, !KptFileAPI, !SpecializerLaws}.
Context {W BI BV : Type} `{!Porch W, !PorchResources W, !PorchStore W, !FileStore W, !PorchLaws W, !PipelineLaws W}.
Context `{!Proxy IPClaim BI, !Proxy VLANClaim BV}.
Implicit Types w : W.

Definition is_published (pr : PackageRevision) : bool := LifecycleIsPublished (W := W) (pr_Lifecycle pr).
(** Runs of the two controllers. *)
Inductive controller_step : W → W → Prop :=
  | approval_step d req w ev w' ev' r :
      Reconcile d req (mkState w ev) = Done (mkState w' ev', r) → controller_step w w'
  | specializer_step req (s s' : gstate (W := W) (BI := BI) (BV := BV)) r :
      generic_Reconcile req s = Done (s', r) → controller_step (gs_porch s) (gs_porch s').

(** What Porch lets the other clients do with a published revision: change its metadata,
    propose its deletion or take the proposal back, and delete it once that is proposed.
    With the revisions that are not published they do what they like. *)
Definition same_package (pr pr' : PackageRevision) : Prop :=
  pr_Key pr' = pr_Key pr ∧ pr_PackageName pr' = pr_PackageName pr ∧ pr_RepositoryName pr' = pr_RepositoryName pr ∧
  pr_Revision pr' = pr_Revision pr.
Definition porch_allows w w' : Prop :=
  ∀ k pr, store w !! k = Some pr → is_published pr = true →
    pr_Lifecycle pr = LifecycleDeletionProposed ∧ store w' !! k = None ∨
    ∃ pr', store w' !! k = Some pr' ∧ same_package pr pr' ∧
      pr_Lifecycle pr' ∈ [LifecyclePublished; LifecycleDeletionProposed] ∧ file_store w' !! k = file_store w !! k.
Inductive pipeline_step : W → W → Prop :=
  | controller_run w w' : controller_step w w' → pipeline_step w w'
  | other_client w w' : porch_allows w w' → pipeline_step w w'.
(** Another client deleted the revision [k], whose deletion had been proposed. *)
Definition deleted_by_other (k : NamespacedName) w w' : Prop :=
  ∃ w1 w2 pr, rtc pipeline_step w w1 ∧ porch_allows w1 w2 ∧ rtc pipeline_step w2 w' ∧
    store w1 !! k = Some pr ∧ pr_Lifecycle pr = LifecycleDeletionProposed ∧ store w2 !! k = None.
(** The revision is there with its content: the same package, published, the same files. *)
Definition content_kept (k : NamespacedName) (pr : PackageRevision) w w' : Prop :=
  ∃ pr', store w' !! k = Some pr' ∧ same_package pr pr' ∧ is_published pr' = true ∧ file_store w' !! k = file_store w !! k.

(** What a run of the approval controller writes: one revision that is not published, along
    an edge. *)
Lemma approval_writes d req w ev w' ev' r :
  Reconcile d req (mkState w ev) = Done (mkState w' ev', r) →
  file_store w' = file_store w ∧
  (store w' = store w ∨
   ∃ pr pr', store w !! pr_Key pr = Some pr ∧ is_published pr = false ∧ store w' = <[pr_Key pr := pr']> (store w) ∧
     pr_Key pr' = pr_Key pr ∧ edge (pr_Lifecycle pr) (pr_Lifecycle pr')).
Proof.
  intros [Hw|(pr & Hg & Ha & Hp)]%Reconcile_cases; cbn [st_world] in *; [subst; by auto|].
  apply reader_Get_stored in Hg as Hst. pose proof (stored_key _ _ _ Hst) as Hk. rewrite <- Hk in Hst.
  destruct Ha as (policy & Hsp & _). unfold shouldProcess in Hsp. injection Hsp as _ Hb. apply andb_true_iff in Hb as [Hb%negb_true_iff _].
  unfold promote in Hp. apply prog_bind_Done in Hp as (s1 & err & Hs1 & Hp).
  assert (st_world (mkState w' ev') = st_world s1) as Hw.
  { destruct err; unfold mbind, prog_bind, emit, modify in Hp; by injection Hp as <- _. }
  cbn in Hw. subst w'. clear Hp. unfold on_server in Hs1. cbn [st_world] in Hs1.
  assert (Hwrite : ∀ q, written w q (st_world s1) → pr_Key q = pr_Key pr → edge (pr_Lifecycle pr) (pr_Lifecycle q) →
    store (st_world s1) = store w ∨ ∃ pr0 pr', store w !! pr_Key pr0 = Some pr0 ∧ is_published pr0 = false ∧
      store (st_world s1) = <[pr_Key pr0 := pr']> (store w) ∧ pr_Key pr' = pr_Key pr0 ∧ edge (pr_Lifecycle pr0) (pr_Lifecycle pr')).
  { intros q [Heq|(pr' & (Hk' & _ & _ & _ & Hl) & Hins)] Hkq Hedge; [by left|right].
    exists pr, pr'. rewrite Hkq in Hins, Hk'. rewrite Hl. by split_and!. }
  case_bool_decide as Hdraft.
  - unfold call in Hs1. destruct (client_UpdatePR _ _) as [w1 e] eqn:Hu. injection Hs1 as <- <-.
    split; [by eapply UpdatePR_files|]. apply UpdatePR_written in Hu. apply (Hwrite _ Hu); [done|]. right. by left.
  - unfold UpdatePackageRevisionApproval in Hs1. destruct porch_AddToScheme; [injection Hs1 as <- _; by auto|].
    unfold mbind at 2, prog_bind in Hs1. cbn [get_st] in Hs1.
    destruct (rest_GetPR w (pr_Key pr)) as [pr2|] eqn:Hg2; [|injection Hs1 as <- _; by auto].
    case_decide as Hprop; [|case_decide; injection Hs1 as <- _; by auto].
    apply rest_Get_stored in Hg2. rewrite Hst in Hg2. injection Hg2 as <-.
    unfold call in Hs1. destruct (rest_PutApproval _ _) as [w1 e] eqn:Hu. injection Hs1 as <- <-.
    split; [by eapply PutApproval_files|]. apply PutApproval_written in Hu. apply (Hwrite _ Hu); [done|]. right. by right.
Qed.

(** What a run of the specializer writes: one revision that is not published. *)
Lemma specializer_writes_one req (s s' : gstate (W := W) (BI := BI) (BV := BV)) r :
  generic_Reconcile req s = Done (s', r) →
  gs_porch s' = gs_porch s ∨
  ∃ pr prr err, store (gs_porch s) !! prr_Key prr = Some pr ∧ is_published pr = false ∧
    porchClient_UpdatePRR (gs_porch s) prr = (gs_porch s', err).
Proof.
  intros [?|(pr & prr & rl & s1 & rl' & files & err & Hsp & Hpub & Hup & _)]%specializer_update; [by left|right].
  destruct Hsp as (Hpr & _ & _ & Hprr & _). apply reader_GetPRR_key in Hprr. apply reader_Get_stored in Hpr. rewrite <- Hprr in Hpr.
  exists pr, (mkPRR (prr_Key prr) files), err. done.
Qed.

(** Neither controller touches a published revision. *)
Lemma controller_frozen w w' k pr :
  controller_step w w' → store w !! k = Some pr → is_published pr = true →
  store w' !! k = Some pr ∧ file_store w' !! k = file_store w !! k.
Proof.
  intros [d req w0 ev w1 ev' r Hr|req s s' r Hr] Hst Hpub.
  - destruct (approval_writes _ _ _ _ _ _ _ Hr) as [Hfiles [Heq|(pr0 & pr' & Hst0 & Hno & Hins & _ & _)]]; rewrite Hfiles.
    + by rewrite Heq.
    + rewrite Hins, lookup_insert_ne; [done|]. intros <-. rewrite Hst0 in Hst. injection Hst as ->. congruence.
  - destruct (specializer_writes_one _ _ _ _ Hr) as [->|(pr0 & prr & err & Hst0 & Hno & Hup)]; [done|].
    destruct (UpdatePRR_other _ _ _ _ k Hup) as [-> ->]; [|done]. intros ->. rewrite Hst0 in Hst. injection Hst as ->. congruence.
Qed.
Lemma controllers_frozen w w' k pr :
  rtc controller_step w w' → store w !! k = Some pr → is_published pr = true →
  store w' !! k = Some pr ∧ file_store w' !! k = file_store w !! k.
Proof.
  induction 1 as [w|w w1 w2 Hstep _ IH]; [done|]. intros Hst Hpub.
  destruct (controller_frozen _ _ _ _ Hstep Hst Hpub) as [Hst1 <-]. by apply IH.
Qed.
Lemma step_content w w' k pr :
  pipeline_step w w' → store w !! k = Some pr → is_published pr = true →
  content_kept k pr w w' ∨ porch_allows w w' ∧ pr_Lifecycle pr = LifecycleDeletionProposed ∧ store w' !! k = None.
Proof.
  intros [w0 w1 Hc|w0 w1 Ho] Hst Hpub.
  - destruct (controller_frozen _ _ _ _ Hc Hst Hpub). left. by exists pr.
  - destruct (Ho _ _ Hst Hpub) as [?|(pr' & Hst' & Hsame & Hl & Hf)]; [by right|left]. exists pr'. split_and!; [done..| |done].
    unfold is_published. apply elem_of_cons in Hl as [->|Hl]; [by apply lifecycles|].
    apply list_elem_of_singleton in Hl as ->. apply deletion_proposed_published.
Qed.
Lemma steps_content w w' k pr :
  rtc pipeline_step w w' → store w !! k = Some pr → is_published pr = true →
  deleted_by_other k w w' ∨ content_kept k pr w w'.
Proof.
  intros Hsteps. revert pr. induction Hsteps as [w|w w1 w2 Hstep Hrest IH]; intros pr Hst Hpub; [right; by exists pr|].
  destruct (step_content _ _ _ _ Hstep Hst Hpub) as [(pr1 & Hst1 & (Hq1 & Hq2 & Hq3 & Hq4) & Hpub1 & Hf1)|(Ho & Hl & Hgone)].
  - destruct (IH _ Hst1 Hpub1) as [(wa & wb & pra & Hra & Hab)|(pr2 & Hst2 & (Hr1 & Hr2 & Hr3 & Hr4) & Hpub2 & Hf2)]; [left|right].
    + exists wa, wb, pra. split; [by eapply rtc_l|done].
    + exists pr2. unfold same_package. split_and!; congruence.
  - left. exists w, w1, pr. by split_and!.
Qed.

Lemma controllers_pipeline w w' : rtc controller_step w w' → rtc pipeline_step w w'.
Proof. induction 1 as [|w w1 w2 Hstep _ IH]; [done|]. eapply rtc_l; [by apply controller_run|done]. Qed.

(** C4: What is published stays: runs of the specializer and of the approval controller, in any number and order, leave a published revision and its files exactly as they are.  When they are mixed with what Porch lets other clients do (change the metadata of a published revision, propose its deletion, take that back, delete it once proposed), the revision is either deleted by one of these clients after its deletion was proposed, or still there, of the same package, published and with the same files, so that bootstrap-packages reads what was there when it was published. *)
Theorem published_is_final w k pr :
  store w !! k = Some pr → is_published pr = true →
  (∀ w', rtc controller_step w w' → store w' !! k = Some pr ∧ file_store w' !! k = file_store w !! k) ∧
  (∀ w', rtc pipeline_step w w' →
    deleted_by_other k w w' ∨
    content_kept k pr w w' ∧
    ∀ prr prr', porchClient_GetPRR w k = Ok prr → porchClient_GetPRR w' k = Ok prr' → prr_Resources prr' = prr_Resources prr).
Proof.
  intros Hst Hpub. split; [intros w' Hr; by eapply controllers_frozen|].
  intros w' Hr. destruct (steps_content _ _ _ _ Hr Hst Hpub) as [?|Hkept]; [by left|right]. split; [done|].
  destruct Hkept as (_ & _ & _ & _ & Hf). intros prr prr' Hp%porchClient_GetPRR_files Hp'%porchClient_GetPRR_files. congruence.
Qed.

(** Every revision is stored under its key, with one of the lifecycles. *)
Definition well_typed w : Prop := ∀ k pr, store w !! k = Some pr → pr_Key pr = k ∧ pr_Lifecycle pr ∈ lifecycles_ok.

Lemma controller_edge w w' k pr' :
  controller_step w w' → store w' !! k = Some pr' →
  ∃ pr, store w !! k = Some pr ∧ edge (pr_Lifecycle pr) (pr_Lifecycle pr').
Proof.
  intros [d req w0 ev w1 ev' r Hr|req s s' r Hr] Hst'.
  - destruct (approval_writes _ _ _ _ _ _ _ Hr) as [_ [Heq|(pr0 & pr1 & Hst0 & _ & Hins & _ & Hedge)]].
    + rewrite Heq in Hst'. exists pr'. split; [done|by left].
    + rewrite Hins in Hst'. apply lookup_insert_Some in Hst' as [[<- <-]|[_ Hst']]; [by exists pr0|exists pr'; split; [done|by left]].
  - destruct (specializer_writes_one _ _ _ _ Hr) as [Heq|(pr0 & prr & err & Hst0 & _ & Hup)].
    { rewrite Heq in Hst'. exists pr'. split; [done|by left]. }
    destruct (decide (k = prr_Key prr)) as [->|Hne].
    + destruct (UpdatePRR_lifecycle _ _ _ _ _ Hup Hst') as (pr1 & Hst1 & (_ & _ & _ & _ & Hl)). exists pr1. split; [done|]. by left.
    + destruct (UpdatePRR_other _ _ _ _ k Hup Hne) as [Hs _]. rewrite Hs in Hst'. exists pr'. split; [done|by left].
Qed.

(** C35: The revisions stay well-typed and move forward: runs of the two controllers create no revision, keep every revision under its own key with one of the four lifecycles, and change the lifecycle only from Draft to Proposed and from Proposed to Published. *)
Theorem lifecycle_moves w w' :
  controller_step w w' → well_typed w →
  well_typed w' ∧ ∀ k pr', store w' !! k = Some pr' → ∃ pr, store w !! k = Some pr ∧ edge (pr_Lifecycle pr) (pr_Lifecycle pr').
Proof.
  intros Hstep Hwt. split; [|intros k pr'; by apply controller_edge].
  intros k pr' Hst'. split; [by eapply stored_key|]. destruct (controller_edge _ _ _ _ Hstep Hst') as (pr & Hst & Hedge).
  destruct (Hwt _ _ Hst) as [_ Hl]. destruct Hedge as [->|[[_ ->]|[_ ->]]]; [done|set_solver..].
Qed.
End pipeline.

(** ** An example: a published revision next to a draft *)
Module PipelineWitnesses.
Import SdkModel.Model InventoryModel ApiModel PackageModel ApprovalWitnesses SpecializerWitnesses.

(** The revisions are those of the server of the approval controller. *)
Definition live : Type := ApprovalWitnesses.server * gmap NamespacedName (gmap string Node).
Definition keep_files {A} (w : live) (r : ApprovalWitnesses.server * A) : live * A := ((r.1, w.2), r.2).
Definition live_files (w : live) (k : NamespacedName) : result (@PackageRevisionResources sdk) :=
  match w.2 !! k with Some m => Ok (mkPRR k m) | None => Err "not found" end.
#[export] Instance live_porch : Porch live := let P := ApprovalWitnesses.porch in {|
  porchconfig_GroupVersion := @porchconfig_GroupVersion _ P; LifecycleIsPublished := @LifecycleIsPublished _ P;
  PackageRevisionIsReady := @PackageRevisionIsReady _ P; porch_AddToScheme := @porch_AddToScheme _ P;
  reader_GetPR w := @reader_GetPR _ P w.1; reader_ListPR w := @reader_ListPR _ P w.1; reader_GetPV w := @reader_GetPV _ P w.1;
  client_UpdatePR w pr := keep_files w (@client_UpdatePR _ P w.1 pr); rest_GetPR w := @rest_GetPR _ P w.1;
  rest_PutApproval w pr := keep_files w (@rest_PutApproval _ P w.1 pr); now w := @now _ P w.1 |}.
#[export] Instance live_resources : PorchResources live := {|
  reader_GetPRR := live_files; reader_ListRepositories _ := Ok []; client_GetPR w := sv_get w.1; porchClient_GetPRR := live_files;
  porchClient_UpdatePRR w prr := ((w.1, <[prr_Key prr := prr_Resources prr]> w.2), None) |}.
#[export] Instance live_store : PorchStore live := λ w, sv_store w.1.
#[export] Instance live_file_store : FileStore live := λ w, w.2.
#[export] Instance live_laws : PorchLaws live.
Proof.
  destruct porch_laws as [Hl Hk Hr Hs Hm Hu Hp]. constructor; [exact Hl|intros w; exact (Hk w.1)|intros w; exact (Hr w.1)|intros w; exact (Hs w.1)|intros w; exact (Hm w.1)|..].
  - intros w pr w' err. cbn. unfold keep_files. destruct (sv_write w.1 pr) as [w1 e] eqn:Hw. intros [= <- _]. by apply (Hu w.1 pr w1 e).
  - intros w pr w' err. cbn. unfold keep_files. destruct (sv_write w.1 pr) as [w1 e] eqn:Hw. intros [= <- _]. by apply (Hp w.1 pr w1 e).
Qed.
#[export] Instance live_pipeline : PipelineLaws live.
Proof.
  constructor.
  - reflexivity.
  - intros w k prr. cbn. unfold live_files. destruct (w.2 !! k); [|done]. by intros [= <-].
  - intros w k prr. cbn. unfold live_files, file_store, live_file_store. destruct (w.2 !! k); [|done]. by intros [= <-].
  - intros w prr w' err k [= <- _] Hk. split; [done|]. unfold file_store, live_file_store. cbn. by rewrite lookup_insert_ne.
  - intros w prr w' err pr [= <- _] Hpr. exists pr. split; [exact Hpr|]. by split_and!.
  - intros w pr w' err. cbn. unfold keep_files. by intros [= <- _].
  - intros w pr w' err. cbn. unfold keep_files. by intros [= <- _].
Qed.

Definition v1 : PackageRevision := draft "upf-v1" "always" "0s" "Published".
Definition v2 : PackageRevision := let d := draft "upf-v2" "always" "0s" "Draft" in
  mkPR (pr_Key d) (pr_Annotations d) (pr_OwnerReferences d) 0 "upf" "edge" "Draft" (pr_ReadinessGates d)
    (mkPorchCondition claim_type "" "False" "" :: pr_Conditions d) 0.
Definition world0 : live := (st_world (cluster [v1; v2] (30 * Second)), {[ pr_Key v1 := upf_files; pr_Key v2 := upf_files ]}).
Abbreviation gst := (gstate (W := live) (BI := nat) (BV := nat)).
Definition specialized : live :=
  match generic_Reconcile (pr_Key v2) (mkGState world0 0%nat 0%nat [] : gst) with Done (s, _) => gs_porch s | Panic _ => world0 end.
Definition approve (w : live) : live :=
  match Reconcile (10 * Second) (pr_Key v2) (mkState w []) with Done (s, _) => st_world s | Panic _ => w end.
Lemma specialized_step : controller_step (BI := nat) (BV := nat) world0 specialized.
Proof.
  assert (Hok : match generic_Reconcile (pr_Key v2) (mkGState world0 0%nat 0%nat [] : gst) with Done _ => true | Panic _ => false end = true)
    by (vm_compute; reflexivity).
  unfold specialized. destruct (generic_Reconcile _ _) as [[s r]|] eqn:Hr; [|done].
  exact (specializer_step (pr_Key v2) (mkGState world0 0%nat 0%nat []) s r Hr).
Qed.
Lemma approve_run w : (match Reconcile (10 * Second) (pr_Key v2) (mkState w []) with Done _ => true | Panic _ => false end) = true →
  ∃ ev r, Reconcile (10 * Second) (pr_Key v2) (mkState w []) = Done (mkState (approve w) ev, r).
Proof. unfold approve. destruct (Reconcile _ _ _) as [[[w' ev] r]|]; [|done]. by exists ev, r. Qed.
Lemma approve_step w : (match Reconcile (10 * Second) (pr_Key v2) (mkState w []) with Done _ => true | Panic _ => false end) = true →
  controller_step (BI := nat) (BV := nat) w (approve w).
Proof. intros (ev & r & Hr)%approve_run. by eapply approval_step. Qed.
Definition published2 : live := approve (approve specialized).

Lemma published2_steps : rtc (controller_step (BI := nat) (BV := nat)) world0 published2.
Proof.
  eapply rtc_l; [apply specialized_step|]. eapply rtc_l; [apply approve_step; vm_compute; reflexivity|].
  eapply rtc_l; [apply approve_step; vm_compute; reflexivity|apply rtc_refl].
Qed.
(** A client proposes to delete the published revisions; another one deletes them. *)
Definition propose_deletion (w : live) : live :=
  (mkServer (with_Lifecycle LifecycleDeletionProposed <$> sv_prs w.1) (sv_variants w.1) (sv_now w.1), w.2).
Lemma propose_allowed w : porch_allows w (propose_deletion w).
Proof.
  intros k pr Hst _. right. exists (with_Lifecycle LifecycleDeletionProposed pr). split_and!; [|by split_and!|set_solver|done].
  unfold store, live_store, sv_store, propose_deletion in *. cbn [sv_prs fst].
  revert Hst. induction (sv_prs w.1) as [|q l IH]; [done|]. cbn.
  destruct (decide (pr_Key q = k)) as [<-|Hne]; [rewrite !lookup_insert_eq; by intros [= <-]|by rewrite !lookup_insert_ne].
Qed.

(** The draft is specialized, proposed and published and the published revision is untouched;
    then its deletion is proposed, and its files are still the same. *)
Lemma published_is_final_witness :
  (pr_Lifecycle <$> sv_prs published2.1) = ["Published"; "Published"] ∧
  names (published2.2 !! pr_Key v2 ≫= lookup "n3.yaml") = ["IPClaim"] ∧
  store published2 !! pr_Key v1 = Some v1 ∧ file_store published2 !! pr_Key v1 = file_store world0 !! pr_Key v1 ∧
  (deleted_by_other (BI := nat) (BV := nat) (pr_Key v1) world0 (propose_deletion published2) ∨
   content_kept (pr_Key v1) v1 world0 (propose_deletion published2)).
Proof.
  split; [vm_compute; reflexivity|]. split; [vm_compute; reflexivity|].
  destruct (published_is_final (BI := nat) (BV := nat) world0 (pr_Key v1) v1) as [Hctl Hany]; [vm_compute; reflexivity|reflexivity|].
  destruct (Hctl published2 published2_steps) as [Hs Hf]. split; [exact Hs|]. split; [exact Hf|].
  destruct (Hany (propose_deletion published2)) as [Hd|[Hk _]]; [|left; exact Hd|right; exact Hk].
  eapply rtc_r; [exact (controllers_pipeline _ _ published2_steps)|exact (other_client _ _ (propose_allowed published2))].
Defined.

Lemma lifecycle_moves_witness :
  (pr_Lifecycle <$> sv_prs (approve specialized).1) = ["Published"; "Proposed"] ∧ well_typed (approve specialized).
Proof.
  split; [vm_compute; reflexivity|]. destruct (approve_run specialized) as (ev & r & Hr); [vm_compute; reflexivity|].
  destruct (lifecycle_moves (BI := nat) (BV := nat) specialized (approve specialized)) as [Hwt _]; [|intros k pr Hk|exact Hwt].
  - exact (approval_step _ _ _ _ _ _ _ Hr).
  - split; [by eapply stored_key|]. assert (Hin : pr ∈ sv_prs specialized.1).
    { apply elem_of_list_to_map_2 in Hk. apply list_elem_of_fmap in Hk as (q & [= _ ->] & Hq). exact Hq. }
    assert (Hall : forallb (λ q, bool_decide (pr_Lifecycle q ∈ lifecycles_ok)) (sv_prs specialized.1) = true) by (vm_compute; reflexivity).
    rewrite List.forallb_forall in Hall. apply list_elem_of_In, Hall in Hin. by apply bool_decide_eq_true in Hin.
Defined.
End PipelineWitnesses.
