(* ===== verification/NfDeployFn.v ===== *)
(** * [krm-functions/nfdeploy-fn]: the deployment of a network function

    The root function of a package: it fills the [NFDeployment] with the capacity, the
    configuration of the interfaces, the network instances with their interfaces and data
    networks, and the references to injected configurations, once the resources that
    describe them are ready.  Its state is what the Go struct collects. *)
From S2P Require Import Prelude External KubeObjectLib SdkModel Ref Kptfile Inventory InventoryDiff InventoryReady Sdk FnApi Kptrl Kube Porch ConfigInject.

(** The types of the workload API the function builds. *)
Record IPConfig := mkIPConfig { ipx_Address : string; ipx_Gateway : option string }.
Record InterfaceConfig := mkInterfaceConfig {
  ic_Name : string; ic_IPv4 : option IPConfig; ic_IPv6 : option IPConfig; ic_VLANID : option Z
}.
Record PoolNetwork := mkPoolNetwork { pn_Name : string; pn_Pool : list string }.
Record NetworkInstance := mkNetworkInstance {
  ni_Name : string; ni_Interfaces : list string; ni_DataNetworks : list PoolNetwork
}.
Record ParamRef := mkParamRef { pm_Name : option string; pm_Kind : string; pm_APIVersion : string }.

(** What the function uses of the workload and requirements APIs. *)
Class NFAPI `{InjectAPI} := {
  workload_apiVersion : string;
  NFDeploymentKind : string;
  CapacityKind : string;
  NFDeployment : Type;
  nf_GoType :: GoType NFDeployment;
  nf_ParametersRefs : NFDeployment → list ParamRef;
  nf_set_ParametersRefs : list ParamRef → NFDeployment → NFDeployment;
  nf_set_Interfaces : list InterfaceConfig → NFDeployment → NFDeployment;
  nf_set_NetworkInstances : list NetworkInstance → NFDeployment → NFDeployment;
  Capacity : Type;
  cap_GoType :: GoType Capacity;
  (** [nf.Spec.Capacity = &capacity.Spec] *)
  nf_set_Capacity : Capacity → NFDeployment → NFDeployment;
  itf_Name : Interface → string;
  itf_Validate : Interface → option error;
  (** a nil slice and a nil pointer are [None] *)
  itf_IPClaimStatus : Interface → option (list IPClaimStatus);
  itf_VLANClaimStatus : Interface → option VLANClaimStatus;
  vls_VLANID : VLANClaimStatus → option Z;
  dn_StatusPools : DataNetwork → option (list (string * IPClaimStatus));
  dep_Injected : Dependency → list ObjectReference;
  (** [sort.Slice] of the parameter references, whose order is not one when a name is nil *)
  sort_refs : list ParamRef → list ParamRef
}.

Section nfdeploy_fn.
Context `{!FnSDK, !NephioAPI, !GoRange, !InjectAPI, !NFAPI}.

Record NfDeployFn := mkNfDeployFn {
  nfd_workloadCluster : option WorkloadCluster;
  nfd_capacity : option Capacity;
  nfd_networkInstance : gmap string NetworkInstance;
  nfd_interfaceConfigsMap : gmap string (list InterfaceConfig);
  nfd_paramRef : list ParamRef
}.
Definition NewFunction : NfDeployFn := mkNfDeployFn None None ∅ ∅ [].
Definition with_networkInstance (g : gmap string NetworkInstance → gmap string NetworkInstance) (f : NfDeployFn) : NfDeployFn :=
  mkNfDeployFn (nfd_workloadCluster f) (nfd_capacity f) (g (nfd_networkInstance f)) (nfd_interfaceConfigsMap f) (nfd_paramRef f).
Definition with_paramRef (l : list ParamRef) (f : NfDeployFn) : NfDeployFn :=
  mkNfDeployFn (nfd_workloadCluster f) (nfd_capacity f) (nfd_networkInstance f) (nfd_interfaceConfigsMap f) l.

(** ** [helper.go] *)
Definition addConfig (ic : InterfaceConfig) (name : string) (m : gmap string (list InterfaceConfig)) : gmap string (list InterfaceConfig) :=
  match m !! name with
  | Some (ic0 :: l) => <[name := (ic0 :: l) ++ [ic]]> m
  | _ => <[name := [ic]]> m
  end.
Definition SetInterfaceConfig (ic : InterfaceConfig) (name : string) (f : NfDeployFn) : NfDeployFn :=
  if decide (name = "") then f
  else mkNfDeployFn (nfd_workloadCluster f) (nfd_capacity f) (nfd_networkInstance f)
         (addConfig ic name (nfd_interfaceConfigsMap f)) (nfd_paramRef f).
Definition AddDNNToNetworkInstance (dnn : PoolNetwork) (name : string) (m : gmap string NetworkInstance) : gmap string NetworkInstance :=
  match m !! name with
  | Some nI => <[name := mkNetworkInstance (ni_Name nI) (ni_Interfaces nI) (ni_DataNetworks nI ++ [dnn])]> m
  | None => <[name := mkNetworkInstance name [] [dnn]]> m
  end.
Definition AddInterfaceToNetworkInstance (name : string) (m : gmap string NetworkInstance) (itf : string) : gmap string NetworkInstance :=
  match m !! name with
  | Some nI => <[name := mkNetworkInstance (ni_Name nI) (ni_Interfaces nI ++ [itf]) (ni_DataNetworks nI)]> m
  | None => <[name := mkNetworkInstance name [itf] []]> m
  end.
Definition GetAllNetworkInstance (f : NfDeployFn) : list NetworkInstance :=
  sort_by ni_Name (snd <$> range (at_ "GetAllNetworkInstance") (nfd_networkInstance f)).
Definition GetAllInterfaceConfig (f : NfDeployFn) : list InterfaceConfig :=
  sort_by ic_Name (concat (snd <$> range (at_ "GetAllInterfaceConfig") (nfd_interfaceConfigsMap f))).
Definition FillCapacityDetails (f : NfDeployFn) (nf : NFDeployment) : NFDeployment :=
  match nfd_capacity f with Some c => nf_set_Capacity c nf | None => nf end.
Fixpoint checkDependencyExist (refs : list ParamRef) (ref : ObjectReference) : comp bool :=
  match refs with
  | [] => Done false
  | p :: refs =>
      match pm_Name p with
      | None => Panic nil_dereference
      | Some name =>
          if bool_decide (name = Name ref) && bool_decide (pm_Kind p = Kind ref) && bool_decide (pm_APIVersion p = APIVersion ref)
          then Done true else checkDependencyExist refs ref
      end
  end.
Definition AddDependencyRef (ref : ObjectReference) : prog NfDeployFn () := λ f,
  found ← checkDependencyExist (nfd_paramRef f) ref;
  Done (if (found : bool) then f else with_paramRef (nfd_paramRef f ++ [mkParamRef (Some (Name ref)) (Kind ref) (APIVersion ref)]) f, ()).

(** ** [function.go] *)
Definition WorkloadClusterCallbackFn : WatchCallbackFn (S := NfDeployFn) := λ f o,
  let '(wc, err) := WorkloadClusterCallback (nfd_workloadCluster f) o in
  Done (mkNfDeployFn wc (nfd_capacity f) (nfd_networkInstance f) (nfd_interfaceConfigsMap f) (nfd_paramRef f), err).
Definition desiredOwnedResourceList : PopulateOwnResourcesFn_t (S := NfDeployFn) := λ f o,
  Done (f, match nfd_workloadCluster f with
           | None => Err "workload cluster is missing from the kpt package"
           | Some _ => Ok []
           end).

(** Decode an object and go on with it, or return the error. *)
Definition with_struct {T} `{!GoType T} (o : KubeObject) (k : T → prog NfDeployFn (option error)) : prog NfDeployFn (option error) :=
  r ← lift (open (T := T) (Some o));
  match r with
  | Err err => mret (Some err)
  | Ok (_, x) => k x
  end.
Definition CapacityUpdate (o : KubeObject) : prog NfDeployFn (option error) :=
  with_struct o (λ capacity : Capacity,
    modify (λ f, mkNfDeployFn (nfd_workloadCluster f) (Some capacity) (nfd_networkInstance f) (nfd_interfaceConfigsMap f) (nfd_paramRef f)) ;;
    mret None).

(** The loop over the IP claims: the last prefix of each family. *)
Fixpoint claimAddresses (l : list IPClaimStatus) (ipv4 ipv6 : option IPConfig) : result (option IPConfig * option IPConfig) :=
  match l with
  | [] => Ok (ipv4, ipv6)
  | ifStatus :: l =>
      match st_Prefix ifStatus with
      | None => claimAddresses l ipv4 ipv6
      | Some prefix =>
          family ← ip_family prefix;
          let cfg := Some (mkIPConfig prefix (st_Gateway ifStatus)) in
          if decide (family = AddressFamilyIpv6) then claimAddresses l ipv4 cfg else claimAddresses l cfg ipv6
      end
  end.
(** The configuration of an interface; [None]: its status is not complete. *)
Definition interfaceConfig (itfce : Interface) : result (option InterfaceConfig) :=
  match itf_Validate itfce with
  | Some err => Err err
  | None =>
      match itf_IPClaimStatus itfce, itf_VLANClaimStatus itfce with
      | Some ips, Some vlan =>
          '(ipv4, ipv6) ← claimAddresses ips None None;
          Ok (Some (mkInterfaceConfig (itf_Name itfce) ipv4 ipv6 (vls_VLANID vlan)))
      | _, _ => Ok None
      end
  end.
Definition InterfaceUpdate (o : KubeObject) : prog NfDeployFn (option error) :=
  with_struct o (λ itfce : Interface,
    match interfaceConfig itfce with
    | Err err => mret (Some err)
    | Ok None => mret None
    | Ok (Some ic) =>
        match itf_NetworkInstance itfce with
        | None => λ _, Panic nil_dereference
        | Some ni => modify (SetInterfaceConfig ic (Name ni)) ;; mret None
        end
    end).

Definition poolNetwork (dnn : DataNetwork) (pools : list (string * IPClaimStatus)) : PoolNetwork :=
  mkPoolNetwork (dn_Name dnn) (omap (λ p, st_Prefix p.2) pools).
Definition DnnUpdate (o : KubeObject) : prog NfDeployFn (option error) :=
  with_struct o (λ dnnReq : DataNetwork,
    match dn_StatusPools dnnReq with
    | None => mret None
    | Some pools =>
        modify (with_networkInstance (AddDNNToNetworkInstance (poolNetwork dnnReq pools) (Name (dn_NetworkInstance dnnReq)))) ;;
        mret None
    end).
Definition DependencyUpdate (o : KubeObject) : prog NfDeployFn (option error) :=
  with_struct o (λ dep : Dependency, for_each AddDependencyRef (dep_Injected dep) ;; mret None).

(** The loop over the collected interfaces: one network. *)
Definition sortInterfaces (nI : NetworkInstance) : NetworkInstance :=
  mkNetworkInstance (ni_Name nI) (sort_by (λ s, s) (ni_Interfaces nI)) (ni_DataNetworks nI).
Definition joinNetwork (m : gmap string NetworkInstance) (kv : string * list InterfaceConfig) : gmap string NetworkInstance :=
  alter sortInterfaces kv.1 (foldl (AddInterfaceToNetworkInstance kv.1) m (ic_Name <$> kv.2)).
Definition joinNetworks : NfDeployFn → NfDeployFn := λ f,
  with_networkInstance (λ m, foldl joinNetwork m (range (at_ "interfaceConfigsMap") (nfd_interfaceConfigsMap f))) f.

Definition collectObjs (objs : list KubeObject) : prog NfDeployFn (option error) :=
  for_each_err (λ '(update, kind), for_each_err update (Where req_apiVersion kind objs))
    [(CapacityUpdate, CapacityKind); (DnnUpdate, DataNetworkKind); (InterfaceUpdate, InterfaceKind); (DependencyUpdate, DependencyKind)].
(** What is set in the deployment at the end. *)
Definition fillDeployment (f : NfDeployFn) (nf : NFDeployment) : NFDeployment :=
  nf_set_NetworkInstances (GetAllNetworkInstance f) (nf_set_Interfaces (GetAllInterfaceConfig f)
    (nf_set_ParametersRefs (nfd_paramRef f) (FillCapacityDetails f nf))).
Definition UpdateResourceFn : UpdateResourceFn_t (S := NfDeployFn) := λ f nfDeploymentObj objs,
  match nfDeploymentObj with
  | None => Done (f, Err "expected a for object but got nil")
  | Some o =>
      r ← open (T := NFDeployment) (Some o);
      match r with
      | Err err => Done (f, Err err)
      | Ok (nfKoExt, nf) =>
          '(f, err) ← collectObjs objs (with_paramRef (nf_ParametersRefs nf) f);
          match err with
          | Some err => Done (f, Err err)
          | None =>
              (* the references of the deployment and of the function share their array *)
              let f := joinNetworks (with_paramRef (sort_refs (nfd_paramRef f)) f) in
              '(nfKoExt, err) ← SetSpec nfKoExt (fillDeployment f nf);
              Done (f, of_error [koe_KubeObject nfKoExt] err)
          end
      end
  end.

Definition config : Config NfDeployFn := mkConfig true
  (gvk workload_apiVersion NFDeploymentKind)
  {[ gvk req_apiVersion CapacityKind := ChildLocal; gvk req_apiVersion InterfaceKind := ChildInitial;
     gvk req_apiVersion DataNetworkKind := ChildInitial; gvk req_apiVersion DependencyKind := ChildInitial ]}
  {[ gvk infra_apiVersion WorkloadClusterKind := Some WorkloadClusterCallbackFn ]}
  (Some desiredOwnedResourceList)
  (Some UpdateResourceFn).
Definition Run (rl : resourceList) : comp (resourceList * NfDeployFn * bool * option error) := runFn config NewFunction rl.
End nfdeploy_fn.

(** ** Properties *)
Class NFAPILaws `{NFAPI} : Prop := {
  nf_structs : go_is_struct (T := NFDeployment) = true ∧ go_is_struct (T := Capacity) = true ∧
    go_is_struct (T := Dependency) = true
}.

(** The values of a key, in order. *)
Definition of_key {A} (n : string) (l : list (string * A)) : list A := snd <$> filter (λ e, e.1 = n) l.
Lemma of_key_snoc {A} n (l : list (string * A)) e :
  of_key n (l ++ [e]) = of_key n l ++ (if decide (e.1 = n) then [e.2] else []).
Proof.
  unfold of_key. rewrite filter_app, fmap_app. f_equal. rewrite filter_cons, filter_nil. by case_decide.
Qed.
Lemma of_key_nil {A} n (l : list (string * A)) : of_key n l = [] ↔ n ∉ l.*1.
Proof.
  induction l as [|e l IH]; [set_solver|]. unfold of_key in *. rewrite filter_cons, fmap_cons, not_elem_of_cons.
  case_decide; [naive_solver|]. rewrite IH. naive_solver.
Qed.

(** Grouping by key, as [SetInterfaceConfig] does it. *)
Definition group (m : gmap string (list InterfaceConfig)) (l : list (string * InterfaceConfig)) : gmap string (list InterfaceConfig) :=
  foldl (λ m e, addConfig e.2 e.1 m) m l.
Lemma addConfig_eq ic n m : addConfig ic n m = <[n := default [] (m !! n) ++ [ic]]> m.
Proof. unfold addConfig. by destruct (m !! n) as [[|]|]. Qed.
Lemma group_lookup l n : group ∅ l !! n = match of_key n l with [] => None | cfgs => Some cfgs end.
Proof.
  induction l as [|e l IH] using rev_ind; [done|]. unfold group in *. rewrite foldl_app, of_key_snoc. cbn [foldl].
  rewrite addConfig_eq. destruct (decide (e.1 = n)) as [<-|Hne].
  - rewrite lookup_insert_eq, IH. by destruct (of_key _ l).
  - by rewrite lookup_insert_ne, app_nil_r.
Qed.
Lemma group_concat l : concat (snd <$> map_to_list (group ∅ l)) ≡ₚ l.*2.
Proof.
  induction l as [|e l IH] using rev_ind; [done|]. unfold group in *. rewrite foldl_app, fmap_app. cbn [foldl].
  rewrite addConfig_eq. set (m := foldl _ ∅ l) in *. simpl. rewrite <-IH. destruct (m !! e.1) as [cfgs|] eqn:Hm.
  - rewrite <-insert_delete_eq. rewrite map_to_list_insert by apply lookup_delete_eq.
    rewrite <-(map_to_list_delete m e.1 cfgs Hm). simpl. rewrite <-!app_assoc. f_equiv. apply Permutation_app_comm.
  - rewrite map_to_list_insert by done. simpl. rewrite Permutation_app_comm. done.
Qed.

(** Data networks by network instance. *)
Lemma dnns_lookup l n :
  foldl (λ m e, AddDNNToNetworkInstance e.2 e.1 m) ∅ l !! n =
  match of_key n l with [] => None | dnns => Some (mkNetworkInstance n [] dnns) end.
Proof.
  induction l as [|e l IH] using rev_ind; [done|]. rewrite foldl_app, of_key_snoc. cbn [foldl].
  unfold AddDNNToNetworkInstance at 1. destruct (decide (e.1 = n)) as [Hn|Hne].
  - rewrite Hn, IH. destruct (of_key n l); simpl; by rewrite lookup_insert_eq.
  - rewrite app_nil_r. destruct (foldl _ ∅ l !! e.1); by rewrite lookup_insert_ne.
Qed.

(** Interfaces into one network instance. *)
Definition joined (n : string) (old : option NetworkInstance) (names : list string) : NetworkInstance :=
  mkNetworkInstance (from_option ni_Name n old) (from_option ni_Interfaces [] old ++ names) (from_option ni_DataNetworks [] old).
Lemma AddInterfaces n m names :
  names ≠ [] → foldl (AddInterfaceToNetworkInstance n) m names = <[n := joined n (m !! n) names]> m.
Proof.
  revert m. induction names as [|i names IH]; intros m Hne; [done|]. cbn [foldl].
  assert (AddInterfaceToNetworkInstance n m i = <[n := joined n (m !! n) [i]]> m) as ->.
  { unfold AddInterfaceToNetworkInstance, joined. by destruct (m !! n). }
  destruct names as [|i' names]; [done|]. rewrite IH by done. rewrite insert_insert_eq, lookup_insert_eq.
  unfold joined. cbn [from_option ni_Name ni_Interfaces ni_DataNetworks]. by rewrite <-app_assoc.
Qed.
Lemma joinNetwork_eq m n cfgs :
  cfgs ≠ [] → joinNetwork m (n, cfgs) = <[n := sortInterfaces (joined n (m !! n) (ic_Name <$> cfgs))]> m.
Proof.
  intros Hne. unfold joinNetwork. cbn [fst snd]. rewrite AddInterfaces by (by destruct cfgs). by rewrite alter_insert_eq.
Qed.
Lemma joinNetworks_lookup l m n :
  NoDup l.*1 → Forall (λ kv, kv.2 ≠ []) l →
  foldl joinNetwork m l !! n =
  match (list_to_map l : gmap string (list InterfaceConfig)) !! n with
  | Some cfgs => Some (sortInterfaces (joined n (m !! n) (ic_Name <$> cfgs)))
  | None => m !! n
  end.
Proof.
  revert m. induction l as [|[k cfgs] l IH]; intros m Hnd Hall; [done|]. cbn [foldl list_to_map].
  apply NoDup_cons in Hnd as [Hk Hnd]. apply Forall_cons in Hall as [Hc Hall]. rewrite IH by done.
  rewrite joinNetwork_eq by done. simpl in *. destruct (decide (k = n)) as [->|Hne].
  - rewrite !lookup_insert_eq. assert ((list_to_map l : gmap string (list InterfaceConfig)) !! n = None) as ->; [|done].
    by apply not_elem_of_list_to_map.
  - by rewrite !lookup_insert_ne.
Qed.

Section properties.
Context `{!FnSDK, !NephioAPI, !NephioAPILaws, !GoRange, !GoRangeLaws, !InjectAPI, !NFAPI, !NFAPILaws}.
Implicit Types (f : NfDeployFn) (o : KubeObject) (objs : list KubeObject).

(** What an interface and a data network contribute: a network instance and a value. *)
Definition itf_entry o : option (string * InterfaceConfig) :=
  let itfce := fst (go_As (T := Interface) o) in
  match interfaceConfig itfce, itf_NetworkInstance itfce with
  | Ok (Some ic), Some ni => if decide (Name ni = "") then None else Some (Name ni, ic)
  | _, _ => None
  end.
Definition dnn_entry o : option (string * PoolNetwork) :=
  let dnn := fst (go_As (T := DataNetwork) o) in
  (λ pools, (Name (dn_NetworkInstance dnn), poolNetwork dnn pools)) <$> dn_StatusPools dnn.
Definition itf_entries objs : list (string * InterfaceConfig) := omap itf_entry (Where req_apiVersion InterfaceKind objs).
Definition dnn_entries objs : list (string * PoolNetwork) := omap dnn_entry (Where req_apiVersion DataNetworkKind objs).

(** The two maps of the function. *)
Definition maps f : gmap string NetworkInstance * gmap string (list InterfaceConfig) :=
  (nfd_networkInstance f, nfd_interfaceConfigsMap f).

Lemma with_struct_Done {T} `{!GoType T} o (k : T → prog NfDeployFn (option error)) f f' :
  go_is_struct (T := T) = true → with_struct o k f = Done (f', None) → k (fst (go_As o)) f = Done (f', None).
Proof.
  intros Hs. unfold with_struct. intros (f1 & r & Hr & Hk)%prog_bind_Done. unfold lift in Hr. rewrite open_spec in Hr by done.
  injection Hr as <- <-. by destruct (snd (go_As o)).
Qed.

Lemma CapacityUpdate_maps o f f' : CapacityUpdate o f = Done (f', None) → maps f' = maps f.
Proof. intros Hc%with_struct_Done; [by injection Hc as <-|]. by destruct nf_structs as (_ & ? & _). Qed.
Lemma DnnUpdate_maps o f f' :
  DnnUpdate o f = Done (f', None) →
  maps f' = (from_option (λ e, AddDNNToNetworkInstance e.2 e.1 (maps f).1) (maps f).1 (dnn_entry o), (maps f).2).
Proof.
  intros Hd%with_struct_Done; [|by destruct structs as (_ & ? & _)]. unfold dnn_entry.
  destruct (dn_StatusPools _); simpl; by injection Hd as <-.
Qed.
Lemma InterfaceUpdate_maps o f f' :
  InterfaceUpdate o f = Done (f', None) →
  maps f' = ((maps f).1, from_option (λ e, addConfig e.2 e.1 (maps f).2) (maps f).2 (itf_entry o)).
Proof.
  intros Hi%with_struct_Done; [|by destruct structs as (? & _)]. unfold itf_entry.
  destruct (interfaceConfig _) as [[ic|]|]; [|by injection Hi as <-|done].
  destruct (itf_NetworkInstance _) as [ni|]; [|done]. injection Hi as <-.
  unfold SetInterfaceConfig. by case_decide.
Qed.
Lemma AddDependencyRef_maps r f f' x : AddDependencyRef r f = Done (f', x) → maps f' = maps f.
Proof. unfold AddDependencyRef. intros ([] & _ & [= <- _])%comp_bind_Done; done. Qed.
Lemma DependencyUpdate_maps o f f' : DependencyUpdate o f = Done (f', None) → maps f' = maps f.
Proof.
  intros Hd%with_struct_Done; [|by destruct nf_structs as (_ & _ & ?)].
  apply prog_bind_Done in Hd as (f1 & [] & Hl & [= <-]). revert f Hl.
  induction (dep_Injected _) as [|r l IH]; intros f Hl; [by injection Hl as <-|].
  apply prog_bind_Done in Hl as (f2 & [] & Hr%AddDependencyRef_maps & Hl). by rewrite (IH f2), Hr.
Qed.

(** What is collected. *)
Lemma collectObjs_maps objs f f' :
  collectObjs objs f = Done (f', None) →
  nfd_networkInstance f' = foldl (λ m e, AddDNNToNetworkInstance e.2 e.1 m) (nfd_networkInstance f) (dnn_entries objs) ∧
  nfd_interfaceConfigsMap f' = group (nfd_interfaceConfigsMap f) (itf_entries objs).
Proof.
  unfold collectObjs. cbn [for_each_err].
  intros (f1 & [|] & H1' & Hr)%prog_bind_Done; [done|].
  apply prog_bind_Done in Hr as (f2 & [|] & H2' & Hr); [done|].
  apply prog_bind_Done in Hr as (f3 & [|] & H3' & Hr); [done|].
  apply prog_bind_Done in Hr as (f4 & [|] & H4' & Hr); [done|]. injection Hr as <-.
  apply (for_each_err_proj maps (λ x _, x)) in H1'; [|intros ???; apply CapacityUpdate_maps].
  apply (for_each_err_proj maps (λ x o, (from_option (λ e, AddDNNToNetworkInstance e.2 e.1 x.1) x.1 (dnn_entry o), x.2))) in H2';
    [|intros ???; apply DnnUpdate_maps].
  apply (for_each_err_proj maps (λ x o, (x.1, from_option (λ e, addConfig e.2 e.1 x.2) x.2 (itf_entry o)))) in H3';
    [|intros ???; apply InterfaceUpdate_maps].
  apply (for_each_err_proj maps (λ x _, x)) in H4'; [|intros ???; apply DependencyUpdate_maps].
  rewrite foldl_id in H1', H4'. rewrite H1' in H2'. unfold maps in *.
  rewrite (foldl_fst (λ m o, from_option (λ e, AddDNNToNetworkInstance e.2 e.1 m) m (dnn_entry o))) in H2'.
  rewrite (foldl_omap (λ m e, AddDNNToNetworkInstance e.2 e.1 m)) in H2'. rewrite H2' in H3'.
  rewrite (foldl_snd (λ m o, from_option (λ e, addConfig e.2 e.1 m) m (itf_entry o))) in H3'.
  rewrite (foldl_omap (λ m e, addConfig e.2 e.1 m)) in H3'. rewrite H3' in H4'. by injection H4' as -> ->.
Qed.

(** The network instance of a name. *)
Definition instance_of (its : list (string * InterfaceConfig)) (dns : list (string * PoolNetwork)) (n : string) : NetworkInstance :=
  mkNetworkInstance n (sort_by (λ s, s) (ic_Name <$> of_key n its)) (of_key n dns).
Definition network_names (its : list (string * InterfaceConfig)) (dns : list (string * PoolNetwork)) : gset string :=
  list_to_set (its.*1 ++ dns.*1).

Lemma range_configs s (m : gmap string (list InterfaceConfig)) : NoDup (range s m).*1 ∧ list_to_map (range s m) = m.
Proof.
  assert (NoDup (range s m).*1) as Hnd by (rewrite range_perm; apply NoDup_fst_map_to_list).
  split; [done|]. rewrite (list_to_map_proper _ (map_to_list m)); [apply list_to_map_to_list|done|apply range_perm].
Qed.

Lemma networks_lookup s its dns n :
  foldl joinNetwork (foldl (λ m e, AddDNNToNetworkInstance e.2 e.1 m) ∅ dns) (range s (group ∅ its)) !! n =
  if decide (n ∈ network_names its dns) then Some (instance_of its dns n) else None.
Proof.
  destruct (range_configs s (group ∅ its)) as [Hnd Hmap]. rewrite joinNetworks_lookup; [|done|].
  - rewrite Hmap, group_lookup, dnns_lookup. unfold network_names, instance_of.
    assert (n ∈ (list_to_set (its.*1 ++ dns.*1) : gset string) ↔ of_key n its ≠ [] ∨ of_key n dns ≠ []) as Hn.
    { rewrite elem_of_list_to_set, elem_of_app, !of_key_nil. destruct (decide (n ∈ its.*1)), (decide (n ∈ dns.*1)); naive_solver. }
    destruct (of_key n its) as [|ic its'] eqn:Hi, (of_key n dns) as [|d dns'] eqn:Hd.
    + rewrite decide_False; [done|]. rewrite Hn. naive_solver.
    + by rewrite decide_True by (rewrite Hn; auto).
    + by rewrite decide_True by (rewrite Hn; auto).
    + by rewrite decide_True by (rewrite Hn; auto).
  - apply Forall_forall. intros [k cfgs] Hin. rewrite range_perm, elem_of_map_to_list, group_lookup in Hin.
    destruct (of_key k its); naive_solver.
Qed.

Lemma map_values {A} (m : gmap string A) (D : gset string) (g : string → A) :
  (∀ n, m !! n = if decide (n ∈ D) then Some (g n) else None) → (snd <$> map_to_list m) ≡ₚ (g <$> elements D).
Proof.
  intros Hm. assert (map_to_list m ≡ₚ (λ n, (n, g n)) <$> elements D) as Hp.
  { apply NoDup_Permutation; [apply NoDup_map_to_list| |].
    - apply NoDup_fmap_2; [by intros ?? [= ->]|apply NoDup_elements].
    - intros [n x]. rewrite elem_of_map_to_list, Hm, list_elem_of_fmap. setoid_rewrite elem_of_elements.
      case_decide; split; [intros [= <-]; by exists n|intros (n' & [= -> ->] & _); done|done|intros (n' & [= -> ->] & ?); done]. }
  rewrite Hp, <-list_fmap_compose. done.
Qed.

(** A successful update. *)
Lemma UpdateResourceFn_Ok f f' o objs l :
  UpdateResourceFn f (Some o) objs = Done (f', Ok l) →
  ∃ nf f1 koe, go_As o = (nf, None) ∧ collectObjs objs (with_paramRef (nf_ParametersRefs nf) f) = Done (f1, None) ∧
    f' = joinNetworks (with_paramRef (sort_refs (nfd_paramRef f1)) f1) ∧
    SetSpec (mkKubeObjectExt o) (fillDeployment f' nf) = Done (koe, None) ∧ l = [koe_KubeObject koe].
Proof.
  destruct nf_structs as [Hs _]. unfold UpdateResourceFn. rewrite open_spec by done. cbn [mbind comp_bind].
  destruct (go_As o) as [nf [e|]] eqn:Ho; [done|]. cbn [of_error fst snd].
  intros ([f1 [e|]] & Hc & Hr)%comp_bind_Done; [done|].
  apply comp_bind_Done in Hr as ([koe [e|]] & Hset & Hr); [done|]. injection Hr as <- <-.
  by exists nf, f1, koe.
Qed.

(** C18: the deployment the function fills in.  From a fresh function, and when the names of
    the interfaces are distinct, a successful update sets the interfaces of the deployment
    to the configurations of the interfaces whose status is complete, sorted by name, and
    its network instances to one per network of an interface or a data network, sorted by
    name, each with the sorted names of its interfaces and its data networks in their order
    in the package: the result does not depend on the iteration order of the maps it is
    collected in. *)
Theorem nfdeploy_filled f f' o objs l :
  nfd_networkInstance f = ∅ → nfd_interfaceConfigsMap f = ∅ → NoDup (ic_Name <$> (itf_entries objs).*2) →
  UpdateResourceFn f (Some o) objs = Done (f', Ok l) →
  ∃ nf refs koe, go_As o = (nf, None) ∧ l = [koe_KubeObject koe] ∧
    SetSpec (mkKubeObjectExt o)
      (nf_set_NetworkInstances (sort_by ni_Name (instance_of (itf_entries objs) (dnn_entries objs) <$>
                                                 elements (network_names (itf_entries objs) (dnn_entries objs))))
        (nf_set_Interfaces (sort_by ic_Name (itf_entries objs).*2)
          (nf_set_ParametersRefs refs (FillCapacityDetails f' nf)))) = Done (koe, None).
Proof.
  intros Hn Hi Hnd (nf & f1 & koe & Ho & [Hnet Hcfg]%collectObjs_maps & -> & Hset & ->)%UpdateResourceFn_Ok.
  set (f' := joinNetworks _) in *. exists nf, (nfd_paramRef f'), koe. split_and!; [done..|].
  simpl in Hnet, Hcfg. rewrite Hn in Hnet. rewrite Hi in Hcfg.
  assert (GetAllInterfaceConfig f' = sort_by ic_Name (itf_entries objs).*2) as <-.
  { symmetry. apply sort_by_unique.
    - intros x y Hx Hy Hxy. apply list_elem_of_lookup in Hx as [i Hx], Hy as [j Hy].
      assert (i = j) as ->; [|congruence]. eapply (NoDup_lookup _ i j (ic_Name x) Hnd); rewrite list_lookup_fmap; [by rewrite Hx|by rewrite Hy, Hxy].
    - simpl. rewrite range_perm, Hcfg. symmetry. apply group_concat. }
  assert (GetAllNetworkInstance f' = sort_by ni_Name (instance_of (itf_entries objs) (dnn_entries objs) <$>
      elements (network_names (itf_entries objs) (dnn_entries objs)))) as <-; [|done].
  symmetry. apply sort_by_unique.
  - intros x y (n & -> & _)%list_elem_of_fmap (n' & -> & _)%list_elem_of_fmap. simpl. by intros ->.
  - simpl. rewrite range_perm. symmetry. apply map_values. intros n. rewrite Hnet, Hcfg. apply networks_lookup.
Qed.

(** C27: the function does not reset what it collected: the configuration of an interface that
    an update of one deployment collected is part of the interfaces of every deployment
    that is updated after it in the same run. *)
Theorem nfdeploy_leaks f f' o objs l n ic :
  UpdateResourceFn f (Some o) objs = Done (f', Ok l) → ic ∈ default [] (nfd_interfaceConfigsMap f !! n) →
  ic ∈ default [] (nfd_interfaceConfigsMap f' !! n) ∧
  ∃ nf ifs nets koe, l = [koe_KubeObject koe] ∧ ic ∈ ifs ∧
    SetSpec (mkKubeObjectExt o) (nf_set_NetworkInstances nets (nf_set_Interfaces ifs nf)) = Done (koe, None).
Proof.
  intros (nf & f1 & koe & Ho & [_ Hcfg]%collectObjs_maps & -> & Hset & ->)%UpdateResourceFn_Ok Hic.
  set (f' := joinNetworks _) in *. simpl in Hcfg.
  assert (∀ l m, ic ∈ default [] (m !! n) → ic ∈ default [] (group m l !! n)) as Hgrow.
  { induction l as [|e l IH]; intros m Hm; [done|]. apply IH. rewrite addConfig_eq.
    destruct (decide (e.1 = n)) as [<-|]; [rewrite lookup_insert_eq; simpl; by apply elem_of_app; left|by rewrite lookup_insert_ne]. }
  assert (ic ∈ default [] (nfd_interfaceConfigsMap f' !! n)) as Hf' by (simpl; rewrite Hcfg; by apply Hgrow).
  split; [done|]. eexists _, (GetAllInterfaceConfig f'), (GetAllNetworkInstance f'), koe. split_and!; [done| |exact Hset].
  unfold GetAllInterfaceConfig. rewrite sort_by_perm. destruct (nfd_interfaceConfigsMap f' !! n) as [cfgs|] eqn:Hn; [|by apply elem_of_nil in Hf'].
  apply elem_of_concat. exists cfgs. split; [|done]. apply list_elem_of_fmap. exists (n, cfgs). split; [done|].
  by rewrite range_perm, elem_of_map_to_list.
Qed.
End properties.

(** ** Witnesses *)
Module NfDeployWitnesses.
Import Model InventoryModel ApiModel PackageModel.

Definition add_spec (s : string) (o : obj) : obj := put_extra o "Spec" (ex "Spec" o +:+ s +:+ " ").
Definition show_net (n : NetworkInstance) : string :=
  ni_Name n +:+ "[" +:+ fmt_words (ni_Interfaces n) +:+ "|" +:+ fmt_words (pn_Name <$> ni_DataNetworks n) +:+ "]".
#[export] Instance nf_api : NFAPI := {|
  workload_apiVersion := "workload.nephio.org/v1alpha1"; NFDeploymentKind := "NFDeployment"; CapacityKind := "Capacity";
  NFDeployment := obj; nf_GoType := obj_type "workload.nephio.org/v1alpha1" "NFDeployment";
  nf_ParametersRefs _ := []; nf_set_ParametersRefs _ o := o;
  nf_set_Interfaces l := add_spec (fmt_words (ic_Name <$> l));
  nf_set_NetworkInstances l := add_spec (fmt_words (show_net <$> l));
  Capacity := obj; cap_GoType := obj_type "req.nephio.org/v1alpha1" "Capacity"; nf_set_Capacity _ o := o;
  itf_Name := o_name; itf_Validate _ := None;
  itf_IPClaimStatus o := (λ p, [(Some p, None)]) <$> o_extra o !! "prefix";
  itf_VLANClaimStatus o := o_extra o !! "vlanID"; vls_VLANID s := Some (Z.of_nat (String.length s));
  dn_StatusPools o := (λ p, [("pool", (Some p, None))]) <$> o_extra o !! "prefix";
  dep_Injected _ := []; sort_refs l := l |}.
#[export] Instance nf_api_laws : NFAPILaws.
Proof. by constructor. Qed.

Definition itf (name net : string) : obj := mkObj "req.nephio.org/v1alpha1" "Interface" name "" ∅ [] [] (Some "")
  {[ "networkInstance" := net; "prefix" := "10.0.0.1/24"; "vlanID" := "xx" ]}.
Definition dnn (name net : string) : obj := mkObj "req.nephio.org/v1alpha1" "DataNetwork" name "" ∅ [] [] (Some "")
  {[ "networkInstance" := net; "prefix" := "10.1.0.0/16" ]}.
Definition nfd (name : string) : obj := mkObj "workload.nephio.org/v1alpha1" "NFDeployment" name "" ∅ [] [] (Some "") ∅.
Definition upf_objs : list (@KubeObject Model.sdk) :=
  [itf "n6" "vpc-internet"; itf "n4" "vpc-core"; itf "n3" "vpc-core"; dnn "internet" "vpc-internet"].
Definition smf_objs : list (@KubeObject Model.sdk) := [itf "n4-smf" "vpc-core"].

Definition fn_state : Type := @NfDeployFn Model.sdk api inject_api nf_api.
Definition updated (f : fn_state) (name : string) (objs : list (@KubeObject Model.sdk)) : comp (fn_state * result (list (@KubeObject Model.sdk))) :=
  UpdateResourceFn f (Some (nfd name : @KubeObject Model.sdk)) objs.
Definition state_of (p : comp (fn_state * result (list (@KubeObject Model.sdk)))) : fn_state :=
  match p with Done (f, _) => f | Panic _ => NewFunction end.
Definition spec_of (p : comp (fn_state * result (list (@KubeObject Model.sdk)))) : string :=
  match p with Done (_, Ok [o]) => ex "spec." o | _ => "" end.
Definition first : fn_state := state_of (updated NewFunction "upf" upf_objs).

Lemma nfdeploy_filled_witness :
  spec_of (updated NewFunction "upf" upf_objs) = "n3 n4 n6 vpc-core[n3 n4|] vpc-internet[n6|internet] " ∧
  ∃ refs koe nf, @SetSpec Model.sdk (@NFDeployment _ _ _ nf_api) _ (mkKubeObjectExt (nfd "upf" : @KubeObject Model.sdk))
    (nf_set_NetworkInstances (sort_by ni_Name (instance_of (itf_entries upf_objs) (dnn_entries upf_objs) <$>
       elements (network_names (itf_entries upf_objs) (dnn_entries upf_objs))))
      (nf_set_Interfaces (sort_by ic_Name (itf_entries upf_objs).*2) (nf_set_ParametersRefs refs nf))) = Done (koe, None).
Proof.
  split; [vm_compute; reflexivity|].
  assert (one (updated NewFunction "upf" upf_objs) = true) as Hup by (vm_compute; reflexivity).
  apply (one_ok _ NewFunction (nfd "upf" : @KubeObject Model.sdk)) in Hup. unfold updated in Hup at 1.
  assert (NoDup (ic_Name <$> (itf_entries upf_objs).*2)) as Hnd by (apply (bool_decide_eq_true_1 _); vm_compute; reflexivity).
  destruct (nfdeploy_filled NewFunction _ (nfd "upf" : @KubeObject Model.sdk) upf_objs _ eq_refl eq_refl Hnd Hup) as (nf & refs & koe & _ & _ & Hset).
  by eauto.
Defined.

(** The interfaces of the first deployment turn up in the second, twice in the network. *)
Lemma nfdeploy_leaks_witness :
  spec_of (updated first "smf" smf_objs) = "n3 n4 n4-smf n6 vpc-core[n3 n3 n4 n4 n4-smf|] vpc-internet[n6 n6|internet] " ∧
  ∃ ic, ic_Name ic = "n3" ∧ ∃ ifs nets koe nf, ic ∈ ifs ∧
    @SetSpec Model.sdk (@NFDeployment _ _ _ nf_api) _ (mkKubeObjectExt (nfd "smf" : @KubeObject Model.sdk))
      (nf_set_NetworkInstances nets (nf_set_Interfaces ifs nf)) = Done (koe, None).
Proof.
  split; [vm_compute; reflexivity|].
  assert (one (updated first "smf" smf_objs) = true) as Hup by (vm_compute; reflexivity).
  apply (one_ok _ NewFunction (nfd "smf" : @KubeObject Model.sdk)) in Hup. unfold updated in Hup at 1.
  set (ic := mkInterfaceConfig "n3" (Some (mkIPConfig "10.0.0.1/24" None)) None (Some 2%Z)). exists ic. split; [done|].
  destruct (nfdeploy_leaks first _ (nfd "smf" : @KubeObject Model.sdk) smf_objs _ "vpc-core" ic Hup) as (_ & nf & ifs & nets & koe & _ & Hic & Hset);
    [|by eauto 8].
  replace (default [] (nfd_interfaceConfigsMap first !! "vpc-core")) with
    [mkInterfaceConfig "n4" (Some (mkIPConfig "10.0.0.1/24" None)) None (Some 2%Z); ic] by (vm_compute; reflexivity).
  by right; left.
Defined.
End NfDeployWitnesses.
